(* ===== verification/_CoqProject ===== *)
-Q . S2P
Prelude.v
IoWorld.v
Trace.v
Ledger.v
ParseLine.v
Getline.v
Modes.v
Clock.v
Tar.v
Shm.v
Pfsd.v
PfsdInv.v
PfsdProps.v
PfsdCalls.v
Sema.v
Atad.v
Hdlfs.v
HdlfsProps.v
HdlfsFormat.v
Hl.v
HlProps.v
Startup.v
Shell.v
ShellProps.v
ShellCommands.v
ShellCopy.v
Headers.v
Adapter.v
AdapterProps.v
HostAdapter.v
HostProps.v
Client.v
ClientProps.v
ClientDaemon.v
Pfslib.v
DiskBuffer.v
PfsdMain.v
PfsdMainProps.v
Kinst.v
KinstProps.v
TarMain.v
TarMainProps.v
TarTree.v
TarRestored.v
TarDrive.v
TarTreeProps.v
