(* ===== verification/Prelude.v ===== *)
(** * pfsshell: a verification development

    pfsshell gives a PC access to the hard disk of a PlayStation 2: APA partitions, the
    PFS file system in them, and games in the HDLoader format.  The drivers for APA and
    PFS and the file layer iomanX in front of them are git submodules, absent from the
    sources; everything around them is here: the programs that call the file layer (an
    interactive shell, a FUSE adapter, the archiver pfs2tar, a daemon with its clients,
    and the tool behind the shell's copies and listings), and the pieces of the console's
    system the drivers stand on (a disk device, semaphores, the HDLoader driver).

    ** How the program is modelled

    Effects.  The programs are written in the monad [M] of IoWorld: a state of their own
    (a Record per component), an environment, and the trace of the calls made.  The calls
    are the constructors of [ioE]: iomanX, the host's libc, sockets and semaphores,
    [printf].  A call is answered by the [Handler] of an environment of any type, so that
    a theorem holds whatever the drivers and the host answer unless it names an
    interface: a class such as [FileReads], [HostFile], [HostResults], [DaemonEnv],
    [CloseWorks], [SeekableReads], [StatusKept], [TreeReads], [FileStore], [DriveStore],
    [Hosted], [DeviceTable] or [TimeLib] that states what the code relies on, and that a concrete environment
    discharges in the witness.  How a run ends is a value of [res]: [Ret]
    with a result, [Exit], [Undef] for undefined behaviour (a null or dangling pointer,
    an index or copy past an array, overflow of an [int]), [Blocked] on a semaphore, or
    [OutOfFuel].

    Data.  Integers are [Z], with the wrap-around of each conversion written out ([u32],
    [s32], ...); C strings are [string], memory is a list of bytes; arrays of the stack
    are their capacity, checked with [assert_] where the code writes to them.

    Fuel.  Loops whose number of turns the code does not bound take fuel.  Where a
    theorem says that a result is reached it asks for enough: one more than the blocks
    of the file or archive ([restore_terminates]: and more than 2^23, the blocks of the
    largest file a header can announce), one more than the entries of the directory
    ([adapter_readdir_lists]), [size / segment] rounded up
    for the clients' transfers ([client_write], [client_read]).  Where the code has a
    bound the fuel is computed from it and shown to suffice: [io_fuel] (a turn moves at
    least a sector or changes the partition, of which there are 65), [add_fuel] (a turn
    takes at least 8 MB off the request or one off the index of the size), the length of
    a line in [parse_line] and [getline].  The round trip
    asks for what the walk of each partition takes ([part_ok]: five times its nodes, more
    than the bytes of each file), and for more than the bytes of the archive and the number
    of partitions ([pfs2tar_round_trip]).  Safety properties hold for all fuel.  That a loop
    does not end is stated as [OutOfFuel] for all fuel ([cleanup_files_diverges],
    [adapter_readdir_diverges]).

    ** The files

    - Prelude: integers, bytes and C strings, tactics and lemmas of all components.
    - IoWorld: the calls, the monad, weakest preconditions ([wp]), lockstep refinement
      ([refines]), a sample environment (data of src/src/iomanX_port.h and the packets of
      src/src/pfsd_common.h).
    - Trace: judgements about the calls of a program: [tallies] (the weights of the calls
      add up: the sectors made, the failures reported), [avoids] (no call of a kind), [stable] (what happens to the state),
      [holding] (an invariant of the environment), each with a rule per construct of the
      monad and a tactic.
    - Ledger: what a program holds (descriptors and mounts) followed through its trace, and
      the judgement [lawful]: it uses and gives back only what it holds.
    - ParseLine (src/src/util.c): [parse_line] on the buffer with its in-place NULs, and
      the pure tokenizer it refines.
    - Modes, Clock (src/src/pfs2tar.c, iomanx_adapter.c, host_adapter.c): conversions of
      modes, sizes and timestamps.
    - Tar (src/src/pfs2tar.c): headers, backup ([tar_c_file], [wrapped_ftw], [tar_part]),
      restore ([restore_from_tar], [part_tar]).  The archive is part of the state.
    - Shm (src/src/pfsd_common.h): the bytes of the structures in shared memory.
    - Pfsd, PfsdInv, PfsdProps (src/src/pfsd.c): the daemon's tables and a definition per
      command; the invariant; its behaviour.
    - Client, ClientProps, ClientDaemon (src/src/pfsd_client.c): the clients; the protocol
      they keep; a client answered by the model of the daemon.
    - Sema, Atad (src/subprojects/fakeps2sdk/thsemap.c, atad.c): semaphores and the disk.
    - Hdlfs, HdlfsProps, HdlfsFormat (src/subprojects/hdlfs/main.c): the HDLoader driver,
      its transfers, formatting and header.  It has the semaphores of Sema in its state.
    - Hl, HlProps (src/src/hl.c): copies, listings, creation of partitions.
    - Shell, ShellProps, ShellCommands, ShellCopy (src/src/shell.c): the shell.  It calls
      ParseLine, Hl and Atad (with [zoom] to the part of its state that is the disk's).
    - Startup (the entry points: src/src/startup.c, src/subprojects/hdlfs/_init.c and the
      ends of hdlfs/main.c and host_adapter.c): how drivers are put into iomanX's table of
      devices, over the interface [DeviceTable].
    - Headers (src/src/iomanX_port.h, pfsd_common.h and the headers under
      src/subprojects/fakeps2sdk/include/): the constants and the layout of structures that
      callers and drivers are compiled with, compared.
    - Adapter, AdapterProps (src/src/iomanx_adapter.c): the FUSE adapter.
    - HostAdapter, HostProps (src/src/host_adapter.c): the driver for files of the host.
    - Pfslib (src/src/pfslib_compat.c, pfslib_compat.h): start and end of the library the
      daemon is built on, and its wrappers.
    - DiskBuffer (src/src/pfslib_compat.c): the raw access to the disks with a buffer of one
      sector, which the preprocessor leaves out as the code stands.
    - PfsdCalls, PfsdMain, PfsdMainProps (src/src/pfsd.c): the calls of the daemon's
      service; its set-up, main loop and shutdown.
    - Kinst, KinstProps (src/src/ps2kinst.c): the kernel installer, over the interface
      [PfsApi] with an instance for the library and one for the clients of the daemon;
      [PfsApiSpec] is what an instance promises, proved of both.
    - TarMain, TarMainProps (src/src/pfs2tar.c, main): the archiver's command line.
    - TarTree, TarRestored, TarDrive, TarTreeProps (src/src/pfs2tar.c): no new code; what
      the walk and the restore do on file systems that show and store trees ([TreeReads],
      [DriveReads], [FileStore]), then on drives whose partitions hold such file systems
      ([DriveStore]), and the round trip of the whole program, whose archive is a file of
      the host ([Hosted]).
    - Getline (src/src/shell.c): the line reader of hosts that have none.
    A definition has the name of the function it models; the body of a loop that is a
    definition of its own is called [.._turn].

    ** What the theorems show

    - Archives: backup writes the encoding of what it visits ([tar_c_file_encodes]);
      restoring the bytes of any archive makes exactly the calls of a specification on
      its entries ([restore_archive_refines]), and ends with 0 on every archive, truncated
      ones included ([restore_terminates]).
    - Games: an open game is one array of sectors over its partitions
      ([hdlfs_transfer_flat], [hdlfs_write_read]); formatting is specified
      call by call ([hdlfs_format_spec]) and gives the layout the transfers need
      ([hdlfs_format_layout], [hdlfs_mount_opens]); the header's operations are round
      trips ([hdlfs_title_roundtrip], [hdlfs_chstat_getstat]); the driver never blocks
      ([hdlfs_no_deadlock]); a seek of 0 that misplaces the file
      ([hdlfs_tell_misplaces]).
    - Daemon: the tables stay well formed ([daemon_invariant]), clients are kept apart
      (every name and descriptor the handling of a request passes on: [name_isolation],
      with FORMAT and MOUNT as exceptions, and [fd_isolation]), requests are answered
      ([handler_replies]), and the files of a client are closed when it goes
      ([cleanup_client_releases]: its mounts leave the table, the driver is not asked to
      unmount) unless closing fails ([cleanup_files_diverges]).
    - Clients: the protocol of semaphore, segment and packets ([client_protocol]); reads
      and writes through the daemon ([client_write], [client_read]), whose last piece goes
      wrong when they are longer than the segment.
    - Shell: only what is held is used, each thing is given back once, and nothing is left
      open or mounted ([shell_releases], [hl_releases]); the table of commands guards the
      disk ([exec_guarded]: what reaches a driver, a mount point or a format command when); [cd] is a walk on lists of names
      ([cd_refines]); [mkpart] makes what was asked for ([mkpart_sizes]); [put] and [get]
      copy ([do_put_copies], [do_get_copies]); the results of copies ([copy_reports]); the
      tokenizer ([parse_line_refines], [parse_line_roundtrip], [parse_line_bounds]).
    - FUSE adapter: it stays on its partition ([adapter_confined]), shows the mode and the
      times it is given ([adapter_status_roundtrip]), lists directories ([adapter_readdir_lists], and
      [adapter_readdir_diverges] for those the driver fails on), and reads at offsets
      ([adapter_read_at], with the cut to 32 bits).
    - The system below: a created semaphore is a mutex ([sema_mutex]), the disk keeps what
      is written ([atad_write_read]); times cross the conversions ([time_roundtrip_posix]).
    - The archiver as a whole: what is backed up is restored ([pfs2tar_round_trip]: two
      runs of the program, one that backs a drive up and one that restores the archive to
      another drive, leave every file, directory and link of every partition there, with
      content, permissions and time); an archive is
      whole blocks and is removed only when empty ([backup_in_blocks]); an archive that
      exists is kept ([backup_keeps_existing]); a restore deletes the archive it
      restored when that is short, and nothing else ([restore_removes_short]).
    - The installer: with a daemon the kernel gets to the disk whole, or an error is
      returned ([kernel_installed]: installer, client and daemon composed).
    - The daemon as a program: no undefined behaviour unless [poll] reports a request that
      does not fit or a client too many ([daemon_program_safe]), how it ends
      ([daemon_ends]), and that a client's hang-up can end it ([hangup_ends_daemon]); its
      library gives back the disks it takes ([scepfs_balanced]).
    - Host files: which host call is made and how its error is told ([host_errors]), data written is read back
      ([host_write_read]), what the flags of open come to ([host_open_bits]).
    - Lines: which fit the buffer of [getline] ([getline_bounds]).
    - Start and headers: a driver is in the table once however often it is started, or
      was refused without anyone being told ([hdlfs_registered],
      [host_adapter_registered]); callers and drivers agree on constants and structures
      but for the size and alignment of an entry of a directory ([headers_agree],
      [shared_layout]).

    ** What is not modelled

    - The drivers of APA and PFS and iomanX itself: git submodules.  The starts of those
      drivers (src/subprojects/apa/_init.c, pfs/_init.c) hand their arguments to code of the
      submodules; each is the call [Init_module].
    - The parsing of options by libfuse and getopt and the dispatch loop of libfuse:
      library code, parameters of the programs that use them.
    - Branches for Windows; branches for macOS but for the size of a disk.
    - Prototypes, and headers that hold nothing else.
*)

From Stdlib Require Export ZArith Lia Bool Ascii String.
From stdpp Require Export base tactics sets list numbers option strings pretty.

#[global] Open Scope Z_scope.

Declare Scope c_scope.
Delimit Scope c_scope with c.

(** ** Machine integers

    A w-bit unsigned value is a [Z] in [0, 2^w); a signed one lies in
    [-2^(w-1), 2^(w-1)).  The wrap-around of a C conversion is explicit. *)

Definition uwrap (w : Z) (z : Z) : Z := z mod 2 ^ w.
Definition swrap (w : Z) (z : Z) : Z := (z + 2 ^ (w - 1)) mod 2 ^ w - 2 ^ (w - 1).

Abbreviation u8 := (uwrap 8).
Abbreviation u16 := (uwrap 16).
Abbreviation u32 := (uwrap 32).
Abbreviation u64 := (uwrap 64).
Abbreviation s8 := (swrap 8).
Abbreviation s32 := (swrap 32).
Abbreviation s64 := (swrap 64).

(** A value of type [int]. *)
Definition fits_int (z : Z) : bool := (- 2 ^ 31 <=? z) && (z <? 2 ^ 31).

(** [m & b] used as a C condition. *)
Definition flag (m b : Z) : bool := negb (Z.land m b =? 0).

(** [if (c) x |= v;] *)
Definition or_if (c : bool) (v x : Z) : Z := if c then Z.lor x v else x.

(** ** Bytes, C strings and buffers

    A C string is a [string]; raw memory is a [list Z] of bytes in [0,256). *)

Definition byte_of_ascii (a : ascii) : Z := Z.of_N (N_of_ascii a).
Definition ascii_of_byte (b : Z) : ascii := ascii_of_N (Z.to_N (u8 b)).

Definition bytes_of_string (s : string) : list Z :=
  byte_of_ascii <$> list_ascii_of_string s.
Definition string_of_bytes (bs : list Z) : string :=
  string_of_list_ascii (ascii_of_byte <$> bs).

(** The C string stored at the start of some memory: up to the first NUL. *)
Fixpoint cstr (bs : list Z) : list Z :=
  match bs with
  | [] => []
  | b :: bs' => if b =? 0 then [] else b :: cstr bs'
  end.

Definition is_byte (b : Z) : Prop := 0 <= b < 256.
Definition nonzero (bs : list Z) : Prop := Forall (fun b => b <> 0) bs.

(** [memcpy(dst + off, src, len src)] inside an array: the bytes of [dst] from
    [off] on are replaced; the caller shows [off + len <= length dst]. *)
Definition overlay (off : nat) (src dst : list Z) : list Z :=
  take off dst ++ src ++ drop (off + length src) dst.

(** [strncpy(dst, src, n)]: at most [n] bytes of the C string, padded with NULs. *)
Definition strncpy_bytes (n : nat) (src : list Z) : list Z :=
  let s := take n (cstr src) in s ++ replicate (n - length s) 0.

(** [isspace], and the white space [strtol] and [strtoul] skip. *)
Definition is_space (c : Z) : bool := (c =? 32) || ((9 <=? c) && (c <=? 13)).

Fixpoint skip_spaces (s : list Z) : list Z :=
  match s with
  | [] => []
  | c :: s' => if is_space c then skip_spaces s' else s
  end.

Definition is_digit (c : Z) : bool := (48 <=? c) && (c <=? 57).

Fixpoint decimal_value (acc : Z) (s : list Z) : Z :=
  match s with
  | c :: s' => if is_digit c then decimal_value (10 * acc + (c - 48)) s' else acc
  | [] => acc
  end.

(** [strtoul(s, NULL, 10)] on a 64-bit [unsigned long]: ULONG_MAX when the digits
    overflow, and a minus sign negates. *)
Definition strtoul10 (s : list Z) : Z :=
  let s := skip_spaces s in
  let '(neg, s) := match s with
                   | 45 :: s' => (true, s')
                   | 43 :: s' => (false, s')
                   | _ => (false, s)
                   end in
  let v := decimal_value 0 s in
  if 2 ^ 64 <=? v then 2 ^ 64 - 1 else u64 (if neg : bool then - v else v).

(** ["%0<w>d"] of a number that is not negative. *)
Definition pad0 (w : nat) (n : Z) : string :=
  let s := pretty n in
  (string_of_list_ascii (replicate (w - String.length s) "0"%char) +:+ s)%string.

(** The double quote, for format strings. *)
Definition dq : string := String "034" EmptyString.

(** A format string that ends its line. *)
Definition ln (s : string) : string := (s +:+ String "010" EmptyString)%string.

(** ** Automation *)

Create HintDb cint discriminated.
Create HintDb clist discriminated.
Create Rewrite HintDb clist_rw.

(** Case analysis on the boolean tests of the code. *)
Ltac case_bool :=
  match goal with
  | |- context [if ?b then _ else _] =>
      lazymatch b with
      | context [if _ then _ else _] => fail
      | _ => destruct b eqn:?
      end
  end.

(** Turns the boolean comparisons in the context into propositions. *)
Ltac boolP :=
  repeat match goal with
    | H : (_ =? _) = true |- _ => apply Z.eqb_eq in H
    | H : (_ =? _) = false |- _ => apply Z.eqb_neq in H
    | H : (_ <? _) = true |- _ => apply Z.ltb_lt in H
    | H : (_ <? _) = false |- _ => apply Z.ltb_ge in H
    | H : (_ <=? _) = true |- _ => apply Z.leb_le in H
    | H : (_ <=? _) = false |- _ => apply Z.leb_gt in H
    | H : (_ && _) = true |- _ => apply andb_true_iff in H; destruct H
    | H : (_ || _) = false |- _ => apply orb_false_iff in H; destruct H
    | H : negb _ = true |- _ => apply negb_true_iff in H
    | H : negb _ = false |- _ => apply negb_false_iff in H
    end.

(** [lia] with division and modulo by constants. *)
Ltac dlia := Z.to_euclidean_division_equations; lia.

(** Membership in a list written out. *)
Ltac list_mem := apply list_elem_of_In; simpl; tauto.

(** ** Integer lemmas *)

Section Wrap.
Context (w : Z) (Hw : 0 < w).

Lemma pow_split : 2 ^ w = 2 * 2 ^ (w - 1).
Proof using Hw. rewrite <- Z.pow_succ_r by lia. f_equal; lia. Qed.

Lemma uwrap_range z : 0 <= uwrap w z < 2 ^ w.
Proof using Hw. apply Z.mod_pos_bound, Z.pow_pos_nonneg; lia. Qed.

Lemma uwrap_small z : 0 <= z < 2 ^ w -> uwrap w z = z.
Proof using. intros. by apply Z.mod_small. Qed.

Lemma swrap_range z : - 2 ^ (w - 1) <= swrap w z < 2 ^ (w - 1).
Proof using Hw.
  unfold swrap. pose proof pow_split.
  pose proof (Z.mod_pos_bound (z + 2 ^ (w - 1)) (2 ^ w)
                (Z.pow_pos_nonneg 2 w ltac:(lia) ltac:(lia))). lia.
Qed.

Lemma swrap_small z : - 2 ^ (w - 1) <= z < 2 ^ (w - 1) -> swrap w z = z.
Proof using Hw.
  intros. unfold swrap. pose proof pow_split. rewrite Z.mod_small; lia.
Qed.

Lemma swrap_uwrap z : swrap w (uwrap w z) = swrap w z.
Proof using.
  unfold swrap, uwrap. by rewrite Zplus_mod_idemp_l.
Qed.
End Wrap.

Lemma u64_small z : 0 <= z < 2 ^ 64 -> u64 z = z.
Proof. apply (uwrap_small 64). Qed.

Lemma flag_testbit m k : 0 <= k -> flag m (2 ^ k) = Z.testbit m k.
Proof.
  intros Hk. unfold flag.
  assert (Hland : Z.land m (2 ^ k) = if Z.testbit m k then 2 ^ k else 0).
  { apply Z.bits_inj'. intros i Hi. rewrite Z.land_spec.
    destruct (decide (i = k)) as [->|Hne].
    - rewrite Z.pow2_bits_true by lia. destruct (Z.testbit m k); simpl.
      + by rewrite Z.pow2_bits_true by lia.
      + by rewrite Z.testbit_0_l.
    - rewrite Z.pow2_bits_false by lia. rewrite andb_false_r.
      destruct (Z.testbit m k); [by rewrite Z.pow2_bits_false by lia | by rewrite Z.testbit_0_l]. }
  rewrite Hland. pose proof (Z.pow_pos_nonneg 2 k ltac:(lia) Hk).
  destruct (Z.testbit m k); [|done].
  destruct (Z.eqb_spec (2 ^ k) 0); [lia|done].
Qed.

(** Bounded universal statements decided by evaluation: all the [2^k] values that
    extend the leading bits [z]. *)
Fixpoint forall_bits (k : nat) (P : Z -> bool) (z : Z) : bool :=
  match k with
  | O => P z
  | S k' => forall_bits k' P (2 * z) && forall_bits k' P (2 * z + 1)
  end.

Lemma forall_bits_range k P a :
  forall_bits k P a = true ->
  forall z, a * 2 ^ Z.of_nat k <= z < (a + 1) * 2 ^ Z.of_nat k -> P z = true.
Proof.
  revert a. induction k as [|k IH]; intros a Hall z Hz.
  - simpl in *. by replace z with a by lia.
  - cbn [forall_bits] in Hall. apply andb_true_iff in Hall as [H0 H1].
    rewrite Nat2Z.inj_succ, Z.pow_succ_r in Hz by lia.
    destruct (Z.lt_ge_cases z ((2 * a + 1) * 2 ^ Z.of_nat k));
      [apply (IH (2 * a)) | apply (IH (2 * a + 1))]; done || nia.
Qed.

Lemma forall_below k P :
  forall_bits k P 0 = true -> forall z, 0 <= z < 2 ^ Z.of_nat k -> P z = true.
Proof. intros Hall z Hz. apply (forall_bits_range k P 0 Hall). lia. Qed.

Lemma flag_lor m a b : flag m (Z.lor a b) = flag m a || flag m b.
Proof.
  unfold flag. rewrite Z.land_lor_distr_r, <- negb_andb. f_equal.
  destruct (Z.eqb_spec (Z.lor (Z.land m a) (Z.land m b)) 0) as [H|H].
  - apply Z.lor_eq_0_iff in H as [-> ->]. done.
  - destruct (Z.eqb_spec (Z.land m a) 0), (Z.eqb_spec (Z.land m b) 0); try done.
    exfalso; apply H. by apply Z.lor_eq_0_iff.
Qed.

Lemma testbit_or_if c v x k : Z.testbit (or_if c v x) k = Z.testbit x k || (c && Z.testbit v k).
Proof. destruct c; simpl; [apply Z.lor_spec | by rewrite orb_false_r]. Qed.

Lemma testbit_above w v i : 0 <= v < 2 ^ w -> w <= i -> Z.testbit v i = false.
Proof.
  intros Hv Hi. destruct (Z.lt_ge_cases w 0); [rewrite Z.pow_neg_r in Hv; lia|].
  rewrite <- (Z.mod_small v (2 ^ w)) by done. by apply Z.mod_pow2_bits_high.
Qed.

(** A byte of a number, put back where it was. *)
Lemma testbit_byte z k i :
  0 <= k -> 0 <= i ->
  Z.testbit (Z.shiftl (u8 (Z.shiftr z k)) k) i = (k <=? i) && (i <? k + 8) && Z.testbit z i.
Proof.
  intros Hk Hi. rewrite Z.shiftl_spec by done. unfold uwrap.
  destruct (Z.leb_spec k i); cbn [andb]; [|by rewrite Z.testbit_neg_r by lia].
  destruct (Z.ltb_spec i (k + 8)); cbn [andb].
  - rewrite Z.mod_pow2_bits_low, Z.shiftr_spec by lia. f_equal. lia.
  - by rewrite Z.mod_pow2_bits_high by lia.
Qed.

(** A 32-bit number is its four bytes. *)
Lemma word_of_bytes z :
  0 <= z < 2 ^ 32 ->
  Z.lor (Z.lor (Z.lor (Z.shiftl (u8 (Z.shiftr z 24)) 24) (Z.shiftl (u8 (Z.shiftr z 16)) 16))
               (Z.shiftl (u8 (Z.shiftr z 8)) 8)) (u8 z) = z.
Proof.
  intros Hz. apply Z.bits_inj'. intros i Hi. rewrite !Z.lor_spec, !testbit_byte by lia.
  replace (Z.testbit (u8 z) i) with ((0 <=? i) && (i <? 0 + 8) && Z.testbit z i)
    by (by rewrite <- testbit_byte, Z.shiftr_0_r, Z.shiftl_0_r by lia).
  destruct (Z.lt_ge_cases i 32).
  - destruct (Z.testbit z i); [|by rewrite !andb_false_r].
    destruct (Z.leb_spec 24 i), (Z.ltb_spec i (24 + 8)), (Z.leb_spec 16 i), (Z.ltb_spec i (16 + 8)),
      (Z.leb_spec 8 i), (Z.ltb_spec i (8 + 8)), (Z.leb_spec 0 i), (Z.ltb_spec i (0 + 8));
      done || lia.
  - by rewrite (testbit_above 32), !andb_false_r by lia.
Qed.

Lemma enum16 i : 0 <= i < 16 -> i ∈ [0; 1; 2; 3; 4; 5; 6; 7; 8; 9; 10; 11; 12; 13; 14; 15].
Proof. intros. apply list_elem_of_In. simpl. lia. Qed.

(** Splits [H : i ∈ [a; b; ...]] into one goal per element. *)
Ltac enum H := repeat (apply elem_of_cons in H as [->|H]); [.. | by apply not_elem_of_nil in H].

(** Comparing the top nibble of 16 bits, bit by bit. *)
Lemma nibble_testbit m t :
  t ∈ [0; 1; 2; 3; 4; 5; 6; 7; 8; 9; 10; 11; 12; 13; 14; 15] ->
  (Z.land m 0xF000 =? Z.shiftl t 12) =
  Bool.eqb (Z.testbit m 12) (Z.testbit t 0) && Bool.eqb (Z.testbit m 13) (Z.testbit t 1) &&
  Bool.eqb (Z.testbit m 14) (Z.testbit t 2) && Bool.eqb (Z.testbit m 15) (Z.testbit t 3).
Proof.
  intros Ht. set (n := (Z.shiftr m 12) mod 2 ^ 4).
  assert (Hland : Z.land m 0xF000 = Z.shiftl n 12).
  { unfold n. rewrite <- Z.land_ones by lia. change 0xF000 with (Z.shiftl (Z.ones 4) 12).
    apply Z.bits_inj'. intros i Hi. rewrite Z.land_spec, !Z.shiftl_spec by done.
    destruct (Z.lt_ge_cases i 12).
    - by rewrite !(Z.testbit_neg_r _ (i - 12)), andb_false_r by lia.
    - rewrite Z.land_spec, Z.shiftr_spec by lia. do 2 f_equal. lia. }
  assert (Hbit : forall k, 0 <= k < 4 -> Z.testbit m (12 + k) = Z.testbit n k).
  { intros k Hk. unfold n. rewrite Z.mod_pow2_bits_low, Z.shiftr_spec by lia. f_equal; lia. }
  rewrite Hland. change 13 with (12 + 1). change 14 with (12 + 2). change 15 with (12 + 3).
  replace (Z.testbit m 12) with (Z.testbit m (12 + 0)) by done. rewrite !Hbit by lia.
  assert (Hn : n ∈ [0; 1; 2; 3; 4; 5; 6; 7; 8; 9; 10; 11; 12; 13; 14; 15]).
  { apply enum16. by apply Z.mod_pos_bound. }
  clearbody n. clear Hland Hbit. enum Hn; enum Ht; reflexivity.
Qed.

(** ** List lemmas *)

Lemma length_delete_le {A} (l : list A) i : (length (delete i l) <= length l)%nat.
Proof.
  revert i. induction l as [|x l IH]; intros [|i]; try done; [simpl; lia|].
  cbn. apply le_n_S, IH.
Qed.

(** ** Byte and string lemmas *)

Lemma byte_of_ascii_range a : is_byte (byte_of_ascii a).
Proof.
  unfold is_byte, byte_of_ascii. pose proof (N_ascii_bounded a). lia.
Qed.

Lemma ascii_of_byte_of_ascii a : ascii_of_byte (byte_of_ascii a) = a.
Proof.
  unfold ascii_of_byte. pose proof (byte_of_ascii_range a) as Hr. unfold is_byte in Hr.
  rewrite uwrap_small by (change (2 ^ 8) with 256; lia).
  unfold byte_of_ascii. rewrite N2Z.id. apply ascii_N_embedding.
Qed.

Lemma byte_of_ascii_of_byte b : is_byte b -> byte_of_ascii (ascii_of_byte b) = b.
Proof.
  intros Hb. unfold is_byte in Hb. unfold ascii_of_byte, byte_of_ascii.
  rewrite uwrap_small by (change (2 ^ 8) with 256; lia).
  rewrite N_ascii_embedding by lia. lia.
Qed.

Lemma string_of_bytes_of_string s : string_of_bytes (bytes_of_string s) = s.
Proof.
  unfold string_of_bytes, bytes_of_string.
  rewrite <- list_fmap_compose, (list_fmap_ext _ id).
  - by rewrite list_fmap_id, string_of_list_ascii_of_string.
  - intros i a _. apply ascii_of_byte_of_ascii.
Qed.

Lemma bytes_of_string_of_bytes l : Forall is_byte l -> bytes_of_string (string_of_bytes l) = l.
Proof.
  intros Hl. unfold bytes_of_string, string_of_bytes. rewrite list_ascii_of_string_of_list_ascii.
  rewrite <- list_fmap_compose. induction Hl as [|b l Hb _ IH]; [done|]. csimpl. rewrite IH. f_equal.
  by apply byte_of_ascii_of_byte.
Qed.

Lemma bytes_of_string_bytes s : Forall is_byte (bytes_of_string s).
Proof.
  unfold bytes_of_string. apply Forall_fmap, Forall_forall. intros a _.
  apply byte_of_ascii_range.
Qed.

Lemma length_bytes_of_string s : length (bytes_of_string s) = String.length s.
Proof.
  unfold bytes_of_string. rewrite length_fmap. induction s; simpl; [done|by f_equal].
Qed.

Lemma length_string_of_bytes bs : String.length (string_of_bytes bs) = length bs.
Proof. unfold string_of_bytes. induction bs; csimpl; [done|by f_equal]. Qed.

Lemma bytes_of_string_app s1 s2 :
  bytes_of_string (s1 +:+ s2) = bytes_of_string s1 ++ bytes_of_string s2.
Proof.
  unfold bytes_of_string. rewrite <- fmap_app. f_equal.
  induction s1; simpl; [done|by f_equal].
Qed.

Lemma sapp_cons c (a b : string) : String c a +:+ b = String c (a +:+ b).
Proof. done. Qed.

Lemma length_append (a b : string) : String.length (a +:+ b) = (String.length a + String.length b)%nat.
Proof. induction a as [|c a IH]; [done|]. rewrite sapp_cons. simpl. by rewrite IH. Qed.

Lemma sapp_nil_r (a : string) : a +:+ "" = a.
Proof. induction a as [|c a IH]; [done|]. by rewrite sapp_cons, IH. Qed.

Lemma sapp_assoc (a b c : string) : (a +:+ b) +:+ c = a +:+ (b +:+ c).
Proof. induction a as [|x a IH]; [done|]. by rewrite !sapp_cons, IH. Qed.

Lemma get_sapp_r (a b : string) k : String.get (String.length a + k) (a +:+ b) = String.get k b.
Proof. induction a as [|c a IH]; [done|]. rewrite sapp_cons. exact IH. Qed.

Lemma substring_sapp (a b : string) : String.substring 0 (String.length a) (a +:+ b) = a.
Proof. induction a as [|c a IH]; [by destruct b|]. rewrite sapp_cons. simpl. by rewrite IH. Qed.

Lemma cstr_nonzero bs : nonzero bs -> cstr bs = bs.
Proof.
  induction 1 as [|b bs Hb _ IH]; simpl; [done|].
  destruct (Z.eqb_spec b 0); [lia|by rewrite IH].
Qed.

Lemma cstr_app_nonzero bs rest : nonzero bs -> cstr (bs ++ rest) = bs ++ cstr rest.
Proof.
  induction 1 as [|b bs Hb _ IH]; simpl; [done|].
  destruct (Z.eqb_spec b 0); [lia|by rewrite IH].
Qed.

Lemma cstr_is_nonzero bs : nonzero (cstr bs).
Proof.
  induction bs as [|b bs IH]; simpl; [constructor|].
  destruct (Z.eqb_spec b 0); constructor; done.
Qed.

Lemma cstr_replicate_0 n : cstr (replicate n 0) = [].
Proof. by destruct n. Qed.

Lemma length_overlay off src dst :
  (off + length src <= length dst)%nat -> length (overlay off src dst) = length dst.
Proof.
  intros H. unfold overlay. rewrite !length_app, length_take, length_drop. lia.
Qed.

Lemma overlay_nil off dst : overlay off [] dst = dst.
Proof. unfold overlay. simpl length. rewrite Nat.add_0_r. apply take_drop. Qed.

Lemma overlay_inside off src dst :
  (off + length src <= length dst)%nat ->
  take (length src) (drop off (overlay off src dst)) = src.
Proof.
  intros H. unfold overlay.
  rewrite drop_app_length' by (rewrite length_take; lia).
  by rewrite take_app_length.
Qed.

Lemma overlay_before off src dst i n :
  (off + length src <= length dst)%nat -> (i + n <= off)%nat ->
  take n (drop i (overlay off src dst)) = take n (drop i dst).
Proof.
  intros H Hi. unfold overlay.
  rewrite drop_app_le by (rewrite length_take; lia).
  rewrite take_app_le by (rewrite length_drop, length_take; lia).
  rewrite skipn_firstn_comm, take_take. f_equal. lia.
Qed.

Lemma overlay_after off src dst i :
  (off + length src <= length dst)%nat -> (off + length src <= i)%nat ->
  drop i (overlay off src dst) = drop i dst.
Proof.
  intros H Hi. unfold overlay.
  rewrite !drop_app, !drop_drop, !length_take.
  rewrite (drop_ge (take off dst)) by (rewrite length_take; lia).
  rewrite (drop_ge src) by lia. simpl. f_equal. lia.
Qed.

Lemma overlay_Forall (P : Z -> Prop) off src dst :
  Forall P src -> Forall P dst -> Forall P (overlay off src dst).
Proof.
  intros. unfold overlay. rewrite !Forall_app.
  split_and!; [by apply Forall_take | done | by apply Forall_drop].
Qed.

Lemma length_strncpy_bytes n src : length (strncpy_bytes n src) = n.
Proof.
  unfold strncpy_bytes. rewrite length_app, length_replicate, length_take. lia.
Qed.

Lemma cstr_strncpy_bytes n src :
  (length (cstr src) <= n)%nat -> cstr (strncpy_bytes n src) = cstr src.
Proof.
  intros H. unfold strncpy_bytes. rewrite take_ge by lia.
  rewrite cstr_app_nonzero by apply cstr_is_nonzero.
  by rewrite cstr_replicate_0, app_nil_r.
Qed.

#[export] Hint Resolve uwrap_range swrap_range byte_of_ascii_range : cint.
#[export] Hint Resolve cstr_is_nonzero bytes_of_string_bytes overlay_Forall : clist.
#[export] Hint Rewrite length_overlay length_strncpy_bytes length_bytes_of_string
  bytes_of_string_app cstr_replicate_0 : clist_rw.
