(* ===== verification/IoWorld.v ===== *)
(** * The world the programs run in

    The iomanX file layer, the APA and PFS drivers (git submodules, absent from
    the sources) and the host's libc are reached through calls.  [ioE] lists
    those calls with the type of what they return, out-parameters included; a
    [Handler] answers them from an environment state of any type.  The programs
    are written in the monad [M]: a component state, the environment, the
    abnormal ends of a C program, and the trace of the calls made. *)

From S2P Require Import Prelude.

(** ** Data that crosses the interface (src/src/iomanX_port.h) *)

Record iox_stat_t := mk_iox_stat {
  st_mode : Z;
  st_attr : Z;
  st_size : Z;
  st_ctime : list Z;
  st_atime : list Z;
  st_mtime : list Z;
  st_hisize : Z;
  st_private_0 : Z;
  st_private_1 : Z;
  st_private_2 : Z;
  st_private_3 : Z;
  st_private_4 : Z;
  st_private_5 : Z
}.

Record iox_dirent_t := mk_iox_dirent {
  de_stat : iox_stat_t;
  de_name : string
}.

(** [memset(&st, 0, sizeof st)] *)
Definition iox_stat_zero : iox_stat_t :=
  mk_iox_stat 0 0 0 (replicate 8 0) (replicate 8 0) (replicate 8 0) 0 0 0 0 0 0 0.

Definition FIO_O_RDONLY := 0x0001.
Definition FIO_O_WRONLY := 0x0002.
Definition FIO_O_RDWR := 0x0003.
Definition FIO_O_DIROPEN := 0x0008.
Definition FIO_O_APPEND := 0x0100.
Definition FIO_O_CREAT := 0x0200.
Definition FIO_O_TRUNC := 0x0400.
Definition FIO_O_EXCL := 0x0800.

Definition FIO_MT_RDWR := 0x00.
Definition FIO_MT_RDONLY := 0x01.

Definition FIO_SEEK_SET := 0.
Definition FIO_SEEK_CUR := 1.
Definition FIO_SEEK_END := 2.

Definition FIO_CST_MODE := 0x0001.
Definition FIO_CST_ATTR := 0x0002.
Definition FIO_CST_SIZE := 0x0004.
Definition FIO_CST_CT := 0x0008.
Definition FIO_CST_AT := 0x0010.
Definition FIO_CST_MT := 0x0020.
Definition FIO_CST_PRVT := 0x0040.

Definition HIOCGETSIZE := 0x6833.
Definition HIOCTRANSFER := 0x6832.
Definition HIOCNSUB := 0x6803.

Definition PDIOC_ZONESZ := 0x5001.
Definition PDIOC_ZONEFREE := 0x5002.

(** The [arg] pointer of an ioctl: none, plain bytes, an [unsigned int], or the
    [hddIoctl2Transfer_t] of HIOCTRANSFER with the memory its [buffer] points to. *)
Inductive ioctl_arg :=
  | ArgNull
  | ArgBytes (bs : list Z)
  | ArgInt (n : Z)
  | ArgTransfer (sub sector size mode : Z) (buffer : list Z).

(** One argument of a [printf]-like call, kept as it is passed. *)
Inductive printf_arg :=
  | PStr (s : string)
  | PInt (n : Z)
  | PFrac (num den : Z)  (* a double, as the quotient it is computed from *)
  | PStrerror (n : Z).

Inductive stream := Stdout | Stderr.

(** What [stat] gives of a file of the host, and what the FUSE adapter hands back. *)
Record posix_stat := mk_posix_stat {
  px_mode : Z;
  px_size : Z;
  px_ctime : Z;
  px_atime : Z;
  px_mtime : Z
}.

Definition posix_stat_zero : posix_stat := mk_posix_stat 0 0 0 0 0.

(** A driver as it is registered; its table of operations is the definition of the
    driver's file. *)
Record iop_device_t := mk_iop_device {
  dv_name : string;
  dv_type : Z;
  dv_version : Z;
  dv_desc : string
}.

(** ** Requests (src/src/pfsd_common.h) *)

Inductive request :=
  | PFSD_REQ_OPEN (m_name : string) (m_flags m_mode : Z)
  | PFSD_REQ_LSEEK (m_fd m_offset m_whence : Z)
  | PFSD_REQ_LSEEK64 (m_fd m_offset m_whence : Z)
  | PFSD_REQ_READ (m_fd : Z) (m_ptr_useshmptr : bool) (m_size : Z)
  | PFSD_REQ_WRITE (m_fd : Z) (m_ptr_useshmptr : bool) (m_size : Z)
  | PFSD_REQ_CLOSE (m_fd : Z)
  | PFSD_REQ_DOPEN (m_name : string)
  | PFSD_REQ_DREAD (m_fd : Z) (m_iox_dirent_useshmptr : bool)
  | PFSD_REQ_DCLOSE (m_fd : Z)
  | PFSD_REQ_CHSTAT (m_name : string) (m_stat_useshmptr : bool) (m_mask : Z)
  | PFSD_REQ_GETSTAT (m_name : string) (m_stat_useshmptr : bool)
  | PFSD_REQ_MKDIR (m_name : string) (m_mode : Z)
  | PFSD_REQ_RMDIR (m_name : string)
  | PFSD_REQ_CHDIR (m_name : string)
  | PFSD_REQ_REMOVE (m_name : string)
  | PFSD_REQ_RENAME (m_old m_new : string)
  | PFSD_REQ_IOCTL (m_fd m_cmd : Z) (m_arg_useshmptr : bool)
  | PFSD_REQ_IOCTL2 (m_fd m_cmd : Z) (m_arg_useshmptr : bool) (m_arglen : Z)
      (m_buf_useshmptr : bool) (m_buflen : Z)
  | PFSD_REQ_SYMLINK (m_old m_new : string)
  | PFSD_REQ_READLINK (m_name : string) (m_buf_useshmptr : bool) (m_buflen : Z)
  | PFSD_REQ_SYNC (m_dev : string) (m_flag : Z)
  | PFSD_REQ_FORMAT (m_dev m_blockdev : string) (m_arg_useshmptr : bool) (m_arglen : Z)
  | PFSD_REQ_MOUNT (m_fsname m_devname : string) (m_flag : Z) (m_arg_useshmptr : bool)
      (m_arglen : Z)
  | PFSD_REQ_UMOUNT (m_fsname : string)
  | PFSD_REQ_DEVCTL (m_name : string) (m_cmd : Z) (m_arg_useshmptr : bool) (m_arglen : Z)
      (m_buf_useshmptr : bool) (m_buflen : Z)
  | PFSD_REQ_SETREADAHEAD (m_enabled : Z)
  | PFSD_REQ_GETREADAHEAD
  | PFSD_REQ_GETMOUNTPOINT (m_path : string)
  | PFSD_REQ_IOCTL2_HIOCTRANSFER (m_fd m_sub m_sector m_size m_mode : Z)
      (m_buffer_useshmptr : bool)
  | PFSD_REQ_OTHER (m_command : Z).

(** [m_command] of a packet. *)
Definition pfsd_req_enum_ (r : request) : Z :=
  match r with
  | PFSD_REQ_OPEN _ _ _ => 0
  | PFSD_REQ_LSEEK _ _ _ => 1
  | PFSD_REQ_LSEEK64 _ _ _ => 2
  | PFSD_REQ_READ _ _ _ => 3
  | PFSD_REQ_WRITE _ _ _ => 4
  | PFSD_REQ_CLOSE _ => 5
  | PFSD_REQ_DOPEN _ => 6
  | PFSD_REQ_DREAD _ _ => 7
  | PFSD_REQ_DCLOSE _ => 8
  | PFSD_REQ_CHSTAT _ _ _ => 9
  | PFSD_REQ_GETSTAT _ _ => 10
  | PFSD_REQ_MKDIR _ _ => 11
  | PFSD_REQ_RMDIR _ => 12
  | PFSD_REQ_CHDIR _ => 13
  | PFSD_REQ_REMOVE _ => 14
  | PFSD_REQ_RENAME _ _ => 15
  | PFSD_REQ_IOCTL _ _ _ => 16
  | PFSD_REQ_IOCTL2 _ _ _ _ _ _ => 17
  | PFSD_REQ_SYMLINK _ _ => 18
  | PFSD_REQ_READLINK _ _ _ => 19
  | PFSD_REQ_SYNC _ _ => 20
  | PFSD_REQ_FORMAT _ _ _ _ => 21
  | PFSD_REQ_MOUNT _ _ _ _ _ => 22
  | PFSD_REQ_UMOUNT _ => 23
  | PFSD_REQ_DEVCTL _ _ _ _ _ _ => 24
  | PFSD_REQ_SETREADAHEAD _ => 25
  | PFSD_REQ_GETREADAHEAD => 26
  | PFSD_REQ_GETMOUNTPOINT _ => 27
  | PFSD_REQ_IOCTL2_HIOCTRANSFER _ _ _ _ _ _ => 28
  | PFSD_REQ_OTHER m_command => m_command
  end.

(** The names of a packet are in buffers of 1024 bytes. *)
Definition PACKET_NAME : nat := 1024.
(** What [poll] reports of a client, and what [read] gives when there is input: its
    result and, when it is not negative, the packet. *)
Record client_events := mk_events {
  ev_pollhup : bool;
  ev_pollin : bool;
  ev_read : Z;
  ev_request : request;
  ev_garbage : Z
}.

(** ** The calls

    The data of a write are the bytes the program has put in its buffer; where they are
    fewer than the size, what follows them in the buffer is not the program's. *)

Inductive ioE : Type -> Type :=
  (* iomanX *)
  | IomanX_open (name : string) (flags mode : Z) : ioE Z
  | IomanX_close (fd : Z) : ioE Z
  | IomanX_read (fd size : Z) : ioE (Z * list Z)
  | IomanX_write (fd : Z) (data : list Z) (size : Z) : ioE Z
  | IomanX_lseek (fd offset whence : Z) : ioE Z
  | IomanX_lseek64 (fd offset whence : Z) : ioE Z
  | IomanX_ioctl (fd cmd : Z) (arg : ioctl_arg) : ioE Z
  | IomanX_ioctl2 (fd cmd : Z) (arg : ioctl_arg) (arglen : Z) (buflen : Z) : ioE (Z * list Z)
  | IomanX_remove (name : string) : ioE Z
  | IomanX_mkdir (name : string) (mode : Z) : ioE Z
  | IomanX_rmdir (name : string) : ioE Z
  | IomanX_dopen (name : string) : ioE Z
  | IomanX_dread (fd : Z) : ioE (Z * iox_dirent_t)
  | IomanX_getstat (name : string) : ioE (Z * iox_stat_t)
  | IomanX_chstat (name : string) (st : iox_stat_t) (mask : Z) : ioE Z
  | IomanX_format (dev : string) (blockdev : option string) (arg : ioctl_arg) (arglen : Z) : ioE Z
  | IomanX_rename (old new : string) : ioE Z
  | IomanX_chdir (name : string) : ioE Z
  | IomanX_sync (dev : string) (flag : Z) : ioE Z
  | IomanX_mount (fsname devname : string) (flag : Z) (arg : ioctl_arg) (arglen : Z) : ioE Z
  | IomanX_umount (fsname : string) : ioE Z
  | IomanX_devctl (name : string) (cmd : Z) (arg : ioctl_arg) (arglen buflen : Z) : ioE (Z * list Z)
  | IomanX_symlink (old new : string) : ioE Z
  | IomanX_readlink (path : string) (buflen : Z) : ioE (Z * list Z)
  | IomanX_AddDrv (device : iop_device_t) : ioE Z
  | IomanX_DelDrv (name : string) : ioE Z
  (* driver modules started by the tools *)
  | Init_module (name : string) (args : list string) : ioE Z
  (* host *)
  | Host_open (path : string) (flags mode : Z) : ioE Z
  | Host_close (fd : Z) : ioE Z
  | Host_read (fd size : Z) : ioE (Z * list Z)
  | Host_write (fd : Z) (data : list Z) : ioE Z
  | Host_lseek (fd offset whence : Z) : ioE Z
  | Host_chdir (path : string) : ioE Z
  | Host_getcwd (size : Z) : ioE (option string)
  | Host_ioctl (fd cmd arg : Z) : ioE (Z * Z)
  | Host_flock (fd op : Z) : ioE Z
  | Host_fsync (fd : Z) : ioE Z
  | Host_accept (fd : Z) : ioE Z
  | Host_peer_pid (fd : Z) : ioE Z
  | Host_capget (pid : Z) : ioE (Z * Z)
  | Host_malloc (size : Z) : ioE bool
  | Host_sem_init (value : Z) : ioE Z
  | Host_sem_destroy : ioE Z
  | Host_getline : ioE (option string)
  | Host_unlink (path : string) : ioE Z
  | Host_mkdir (path : string) (mode : Z) : ioE Z
  | Host_rmdir (path : string) : ioE Z
  | Host_opendir (path : string) : ioE (option Z)
  | Host_closedir (dir : Z) : ioE Z
  | Host_readdir (dir : Z) : ioE (option string)
  | Host_stat (path : string) : ioE (Z * posix_stat)
  | Host_chmod (path : string) (mode : Z) : ioE Z
  | Host_rename (old new : string) : ioE Z
  | Host_symlink (old new : string) : ioE Z
  | Host_readlink (path : string) (buflen : Z) : ioE (Z * list Z)
  | Host_sync : ioE unit
  (* [fopen] of the one archive a program works on: whether it gives a file *)
  | Host_fopen (path mode : string) : ioE bool
  (* the callback of a FUSE directory listing *)
  | Fuse_fill (name : string) (st : posix_stat) : ioE Z
  (* sockets, semaphores and shared memory *)
  | Sys_socket : ioE Z
  | Sys_bind (fd : Z) (path : string) : ioE Z
  | Sys_connect (fd : Z) (path : string) : ioE Z
  | Sys_listen (fd backlog : Z) : ioE Z
  | Sys_ignore_sigpipe : ioE unit
  | Sys_poll (clients : list Z) (socket : Z) : ioE (Z * (bool * list client_events))
  | Sys_semget (key nsems flags : Z) : ioE Z
  | Sys_semctl_setval (id value : Z) : ioE Z
  | Sys_semctl_rmid (id : Z) : ioE Z
  | Sys_semop (id op : Z) : ioE Z
  | Sys_shmget (key size flags : Z) : ioE Z
  | Sys_shmat (id : Z) : ioE unit
  | Sys_shmdt : ioE Z
  | Sys_shmctl_stat (id : Z) : ioE Z
  | Sys_shmctl_rmid (id : Z) : ioE Z
  (* a client's packets and its view of the shared segment *)
  | Send_packet (fd : Z) (req : request) : ioE Z
  | Recv_reply (fd size : Z) : ioE (Z * Z)
  | Shm_put (data : list Z) : ioE unit
  | Shm_get (n : Z) : ioE (list Z)
  | Shm_string : ioE string
  | Get_errno : ioE Z
  | Set_errno (n : Z) : ioE unit
  | Reply (fd value : Z) : ioE unit
  | Printf (st : stream) (fmt : string) (args : list printf_arg) : ioE unit
  | Perror (s : string) : ioE unit.

Class Handler (E : Type) := handle : forall A, ioE A -> E -> A * E.
Arguments handle {E _ A} c e.

(** What reading an open file promises: [unread e fd] are the bytes still ahead of
    the descriptor; a read returns the first [n] of them, or all when fewer are
    left, and moves on. *)
Class FileReads (E : Type) `{Handler E} := {
  unread : E -> Z -> option (list Z);
  read_unread : forall e fd n rest,
    0 <= n -> unread e fd = Some rest ->
    exists e', handle (IomanX_read fd n) e =
                 ((Z.of_nat (length (take (Z.to_nat n) rest)), take (Z.to_nat n) rest), e') /\
               unread e' fd = Some (drop (Z.to_nat n) rest)
}.

Inductive event :=
  | Ev {A : Type} (c : ioE A) (r : A).
Abbreviation trace := (list event).

(** ** The monad *)

(** How a piece of C code ends: it returns a value, the process exits, it runs
    into undefined behaviour, it waits on a semaphore for ever, or the fuel given
    to a loop is used up. *)
Inductive res (A : Type) :=
  | Ret (a : A)
  | Exit (code : Z)
  | Undef
  | Blocked
  | OutOfFuel.
Arguments Ret {A} a.
Arguments Exit {A} code.
Arguments Undef {A}.
Arguments Blocked {A}.
Arguments OutOfFuel {A}.

Record outcome (St E A : Type) := Out {
  o_res : res A;
  o_st : St;
  o_env : E;
  o_tr : trace
}.
Arguments Out {St E A}.
Arguments o_res {St E A}.
Arguments o_st {St E A}.
Arguments o_env {St E A}.
Arguments o_tr {St E A}.

Definition M (St E A : Type) : Type := St -> E -> outcome St E A.

(** [x <- m; k x]: the trace of [k] comes after that of [m]; an abnormal end of
    [m] ends the whole. *)
Definition bind_outcome {St E A B} (o : outcome St E A) (k : A -> M St E B) : outcome St E B :=
  match o_res o with
  | Ret a => let o' := k a (o_st o) (o_env o) in
             Out (o_res o') (o_st o') (o_env o') (o_tr o ++ o_tr o')
  | Exit c => Out (Exit c) (o_st o) (o_env o) (o_tr o)
  | Undef => Out Undef (o_st o) (o_env o) (o_tr o)
  | Blocked => Out Blocked (o_st o) (o_env o) (o_tr o)
  | OutOfFuel => Out OutOfFuel (o_st o) (o_env o) (o_tr o)
  end.

#[export] Instance M_ret {St E} : MRet (M St E) := fun A a s e => Out (Ret a) s e [].
#[export] Instance M_bind {St E} : MBind (M St E) :=
  fun A B k m s e => bind_outcome (m s e) k.

Section Ops.
Context {St E : Type} `{Handler E}.

Definition call {A} (c : ioE A) : M St E A := fun s e =>
  let '(r, e') := handle c e in Out (Ret r) s e' [Ev c r].

Definition stop {A} (r : res A) : M St E A := fun s e => Out r s e [].
Definition undef {A} : M St E A := stop Undef.
Definition exit_ {A} (code : Z) : M St E A := stop (Exit code).

Definition get : M St E St := fun s e => Out (Ret s) s e [].
Definition put (s' : St) : M St E unit := fun _ e => Out (Ret tt) s' e [].
Definition modify (f : St -> St) : M St E unit := fun s e => Out (Ret tt) (f s) e [].

(** Reads something whose absence is undefined behaviour (a null or dangling
    pointer, an index past the end of an array). *)
Definition deref {A} (o : option A) : M St E A :=
  match o with Some a => mret a | None => undef end.

(** [assert_ c]: going on without [c] is undefined behaviour. *)
Definition assert_ (c : bool) : M St E unit := if c then mret tt else undef.

Definition when (c : bool) (m : M St E unit) : M St E unit := if c then m else mret tt.

(** A C loop with its live variables: the body says how to go on ([inl]) or
    what the loop leaves with ([inr]). *)
Fixpoint loop {X R} (fuel : nat) (body : X -> M St E (X + R)) (x : X) : M St E R :=
  match fuel with
  | O => stop OutOfFuel
  | S n => r ← body x;
           match r with inl x' => loop n body x' | inr y => mret y end
  end.

(** [for] over a list of values, with early return. *)
Fixpoint for_ {X} (l : list X) (body : X -> M St E unit) : M St E unit :=
  match l with
  | [] => mret tt
  | x :: l' => body x;; for_ l' body
  end.
End Ops.

(** A component used inside another: its state is a part of the whole. *)
Definition zoom {S T E A} (get_ : S -> T) (set_ : T -> S -> S) (m : M T E A) : M S E A :=
  fun s e => let o := m (get_ s) e in Out (o_res o) (set_ (o_st o) s) (o_env o) (o_tr o).

Abbreviation printf fmt args := (call (Printf Stdout fmt args)).
Abbreviation eprintf fmt args := (call (Printf Stderr fmt args)).

(** ** Weakest preconditions

    [wp m Q s e]: run from [s] and [e], [m] ends in a result, state, environment
    and trace that satisfy [Q].  The rules below drive the proofs about effectful
    code; [wp_call] leaves the answer of the environment universally quantified. *)

Definition wp {St E A} (m : M St E A) (Q : res A -> St -> E -> trace -> Prop)
    (s : St) (e : E) : Prop :=
  Q (o_res (m s e)) (o_st (m s e)) (o_env (m s e)) (o_tr (m s e)).

(** The postcondition of [m] in [m ;; k]. *)
Definition bind_post {St E A B} (k : A -> M St E B)
    (Q : res B -> St -> E -> trace -> Prop) (r : res A) (s : St) (e : E) (t : trace) : Prop :=
  match r with
  | Ret a => wp (k a) (fun r' s' e' t' => Q r' s' e' (t ++ t')) s e
  | Exit c => Q (Exit c) s e t
  | Undef => Q Undef s e t
  | Blocked => Q Blocked s e t
  | OutOfFuel => Q OutOfFuel s e t
  end.

Section Wp.
Context {St E : Type} `{Handler E}.
Implicit Types (s : St) (e : E) (t : trace).

Lemma wp_ret {A} (a : A) Q s e : Q (Ret a) s e [] -> wp (mret a : M St E A) Q s e.
Proof. done. Qed.

Lemma wp_bind {A B} (m : M St E A) (k : A -> M St E B) Q s e :
  wp m (bind_post k Q) s e -> wp (m ≫= k) Q s e.
Proof.
  unfold wp, bind_post, mbind, M_bind, bind_outcome.
  destruct (m s e) as [[] s' e' t]; simpl; done.
Qed.

Lemma wp_call {A} (c : ioE A) Q s e :
  (forall r e', handle c e = (r, e') -> Q (Ret r) s e' [Ev c r]) -> wp (call c) Q s e.
Proof.
  unfold wp, call. intros HQ. destruct (handle c e) as [r e'] eqn:Heq; simpl. by apply HQ.
Qed.

Lemma wp_get Q s e : Q (Ret s) s e [] -> wp get Q s e.
Proof. done. Qed.

Lemma wp_put s' Q s e : Q (Ret tt) s' e [] -> wp (put s') Q s e.
Proof. done. Qed.

Lemma wp_modify f Q s e : Q (Ret tt) (f s) e [] -> wp (modify f) Q s e.
Proof. done. Qed.

Lemma wp_stop {A} (r : res A) Q s e : Q r s e [] -> wp (stop r : M St E A) Q s e.
Proof. done. Qed.

Lemma wp_deref {A} (o : option A) Q s e :
  match o with Some a => Q (Ret a) s e [] | None => Q Undef s e [] end ->
  wp (deref o : M St E A) Q s e.
Proof. by destruct o. Qed.

Lemma wp_assert c Q s e :
  (c = true -> Q (Ret tt) s e []) -> (c = false -> Q Undef s e []) ->
  wp (assert_ c : M St E unit) Q s e.
Proof. destruct c; intros H1 H2; [by apply H1 | by apply H2]. Qed.

Lemma wp_when c (m : M St E unit) Q s e :
  (c = true -> wp m Q s e) -> (c = false -> Q (Ret tt) s e []) -> wp (when c m) Q s e.
Proof. destruct c; intros H1 H2; [by apply H1 | by apply H2]. Qed.

Lemma wp_if {A} (c : bool) (m1 m2 : M St E A) Q s e :
  (c = true -> wp m1 Q s e) -> (c = false -> wp m2 Q s e) ->
  wp (if c then m1 else m2) Q s e.
Proof. destruct c; auto. Qed.

Lemma wp_mono {A} (m : M St E A) (Q Q' : res A -> St -> E -> trace -> Prop) s e :
  wp m Q s e -> (forall r s' e' t, Q r s' e' t -> Q' r s' e' t) -> wp m Q' s e.
Proof. unfold wp. auto. Qed.

Lemma wp_and {A} (m : M St E A) P Q s e :
  wp m P s e -> wp m Q s e -> wp m (fun r s' e' t => P r s' e' t /\ Q r s' e' t) s e.
Proof. done. Qed.

Lemma wp_zoom {T A} (get_ : St -> T) (set_ : T -> St -> St) (m : M T E A) Q s e :
  wp m (fun r x e' tr => Q r (set_ x s) e' tr) (get_ s) e -> wp (zoom get_ set_ m) Q s e.
Proof. done. Qed.

Lemma wp_loop_S {X R} n (body : X -> M St E (X + R)) x Q s e :
  wp (body x)
     (bind_post (fun r => match r with inl x' => loop n body x' | inr y => mret y end) Q) s e ->
  wp (loop (S n) body x) Q s e.
Proof. intros Hb. simpl. by apply wp_bind. Qed.

Lemma wp_loop_O {X R} (body : X -> M St E (X + R)) x Q s e :
  Q OutOfFuel s e [] -> wp (loop 0 body x) Q s e.
Proof. done. Qed.

(** A condition on state and trace that the body of a [for_] keeps, whatever
    way the body ends. *)
Lemma wp_for_inv {X} (I : St -> trace -> Prop) (l : list X) (body : X -> M St E unit) s e t0 :
  (forall x s e t, I s t -> wp (body x) (fun _ s' _ t' => I s' (t ++ t')) s e) ->
  I s t0 -> wp (for_ l body) (fun _ s' _ t' => I s' (t0 ++ t')) s e.
Proof.
  intros Hbody. revert s e t0. induction l as [|x l IH]; intros s e t0 HI; simpl.
  { apply wp_ret. by rewrite app_nil_r. }
  apply wp_bind. eapply wp_mono; [by apply Hbody|].
  intros r s' e' t HI'. unfold bind_post. destruct r; try done.
  eapply wp_mono; [by apply IH|]. intros; by rewrite app_assoc.
Qed.
End Wp.

(** ** Two whole-program judgements *)

Section Judgements.
Context {St E : Type} `{Handler E}.

(** No run of [m] meets undefined behaviour. *)
Definition safe {A} (m : M St E A) : Prop :=
  forall s e, wp m (fun r _ _ _ => r <> Undef) s e.

Lemma safe_bind {A B} (m : M St E A) (k : A -> M St E B) :
  safe m -> (forall a, safe (k a)) -> safe (m ≫= k).
Proof.
  intros Hm Hk s e. apply wp_bind. eapply wp_mono; [apply Hm|].
  intros [] s' e' t Hr; try done. apply Hk.
Qed.

Lemma safe_ret {A} (a : A) : safe (mret a : M St E A).
Proof. intros s e. by apply wp_ret. Qed.

Lemma safe_call {A} (c : ioE A) : safe (call c : M St E A).
Proof. intros s e. by apply wp_call. Qed.

Lemma safe_stop {A} (r : res A) : r <> Undef -> safe (stop r : M St E A).
Proof. intros Hr s e. by apply wp_stop. Qed.

Lemma safe_assert c : c = true -> safe (assert_ c : M St E unit).
Proof. intros -> s e. by apply wp_ret. Qed.

Lemma safe_if {A} (c : bool) (m1 m2 : M St E A) :
  (c = true -> safe m1) -> (c = false -> safe m2) -> safe (if c then m1 else m2).
Proof. destruct c; auto. Qed.

Lemma safe_loop {X R} fuel (body : X -> M St E (X + R)) x :
  (forall x, safe (body x)) -> safe (loop fuel body x).
Proof.
  intros Hb. revert x. induction fuel as [|fuel IH]; intros x; [by apply safe_stop|].
  simpl. apply safe_bind; [apply Hb|]. intros [x'|y]; [apply IH | apply safe_ret].
Qed.

(** A loop ends when its body ends and decreases a measure of state and
    variables; [I] holds at each turn, [Q] where it ends. *)
Lemma wp_loop_measure {X R} (I : X -> St -> Prop) (mu : X -> St -> nat)
    (Q : res R -> St -> Prop) (body : X -> M St E (X + R)) :
  (forall x s e, I x s ->
     wp (body x) (fun r s' _ _ =>
       match r with
       | Ret (inl x') => I x' s' /\ (mu x' s' < mu x s)%nat
       | Ret (inr y) => Q (Ret y) s'
       | Exit c => Q (Exit c) s'
       | Undef => Q Undef s'
       | Blocked => Q Blocked s'
       | OutOfFuel => False
       end) s e) ->
  forall fuel x s e, I x s -> (mu x s < fuel)%nat ->
    wp (loop fuel body x) (fun r s' _ _ => Q r s') s e.
Proof.
  intros Hbody fuel. induction fuel as [|fuel IH]; intros x s e HI Hmu; [lia|].
  apply wp_loop_S. eapply wp_mono; [by apply Hbody|].
  intros [[x'|y]| | | |] s' e' t Hr; unfold bind_post; try done.
  destruct Hr as [HI' Hlt]. eapply wp_mono; [apply IH; [done|lia]|]. done.
Qed.
End Judgements.

Ltac safe_step :=
  lazymatch goal with
  | |- safe (_ ≫= _) => apply safe_bind; [|intros ?]
  | |- safe (mret _) => apply safe_ret
  | |- safe (call _) => apply safe_call
  | |- safe (if _ then _ else _) => apply safe_if; intros ?
  | |- safe (loop _ _ _) => apply safe_loop; intros ?
  | |- safe (match ?x with _ => _ end) => destruct x eqn:?
  end.

(** ** Equality of programs, pointwise, and the monad laws *)

#[export] Instance M_equiv {St E A} : Equiv (M St E A) :=
  fun m1 m2 => forall s e, m1 s e = m2 s e.

#[export] Instance M_equivalence {St E A} : Equivalence (≡@{M St E A}).
Proof.
  split; [done | intros ?? Hm s e; by rewrite Hm | intros ??? H1 H2 s e; by rewrite H1].
Qed.

#[export] Instance M_bind_proper {St E A B} :
  Proper (pointwise_relation A (≡) ==> (≡) ==> (≡@{M St E B})) (mbind (M := M St E)).
Proof.
  intros k1 k2 Hk m1 m2 Hm s e. unfold mbind, M_bind. rewrite Hm.
  unfold bind_outcome. destruct (m2 s e) as [[] ???]; simpl; [|done..].
  by rewrite (Hk _ _ _).
Qed.

#[export] Instance wp_proper {St E A} :
  Proper ((≡@{M St E A}) ==> (=) ==> (=) ==> (=) ==> iff) wp.
Proof. intros m1 m2 Hm Q ? <- s ? <- e ? <-. unfold wp. by rewrite (Hm s e). Qed.

Lemma M_ret_bind {St E A B} (a : A) (k : A -> M St E B) : mret a ≫= k ≡ k a.
Proof. intros s e. unfold mbind, M_bind, mret, M_ret, bind_outcome; simpl. by destruct (k a s e). Qed.

Lemma M_bind_ret {St E A} (m : M St E A) : m ≫= mret ≡ m.
Proof.
  intros s e. unfold mbind, M_bind, mret, M_ret, bind_outcome.
  destruct (m s e) as [[] ???]; simpl; by rewrite ?app_nil_r.
Qed.

Lemma M_bind_assoc {St E A B C} (m : M St E A) (f : A -> M St E B) (g : B -> M St E C) :
  (m ≫= f) ≫= g ≡ m ≫= (fun a => f a ≫= g).
Proof.
  intros s e. unfold mbind, M_bind, bind_outcome.
  destruct (m s e) as [[] s' e' t]; simpl; [|done..].
  destruct (f a s' e') as [[] s'' e'' t']; simpl; by rewrite ?app_assoc.
Qed.

(** ** Lockstep refinement

    A program with state makes the same calls, gets the same answers and returns
    the same value as a stateless specification, and ends in a known state. *)

Section Refines.
Context {St E : Type} `{Handler E}.

Definition refines {A} (m : M St E A) (spec : M unit E A) (s s' : St) : Prop :=
  forall e, exists a e' t, m s e = Out (Ret a) s' e' t /\ spec tt e = Out (Ret a) tt e' t.

Lemma refines_ret {A} (a : A) s : refines (mret a) (mret a) s s.
Proof. intros e. by exists a, e, []. Qed.

Lemma refines_call {A} (c : ioE A) s : refines (call c) (call c) s s.
Proof. intros e. unfold call. destruct (handle c e) as [r e']. by eexists _, _, _. Qed.

Lemma refines_bind {A B} (m1 : M St E A) m2 (k1 : A -> M St E B) k2 s s' s'' :
  refines m1 m2 s s' -> (forall a, refines (k1 a) (k2 a) s' s'') ->
  refines (m1 ≫= k1) (m2 ≫= k2) s s''.
Proof.
  intros Hm Hk e. destruct (Hm e) as (a & e1 & t1 & E1 & E2).
  destruct (Hk a e1) as (b & e2 & t2 & E3 & E4). exists b, e2, (t1 ++ t2).
  unfold mbind, M_bind, bind_outcome. rewrite E1, E2; simpl. by rewrite E3, E4.
Qed.

(** Steps that only the program makes. *)
Lemma refines_get {B} (k : St -> M St E B) spec s s' :
  refines (k s) spec s s' -> refines (get ≫= k) spec s s'.
Proof.
  intros Hk e. destruct (Hk e) as (b & e1 & t1 & E1 & E2). exists b, e1, t1.
  unfold mbind, M_bind, bind_outcome, get; simpl. by rewrite E1.
Qed.

Lemma refines_modify_bind {B} f (k : unit -> M St E B) spec s s' :
  refines (k tt) spec (f s) s' -> refines (modify f ≫= k) spec s s'.
Proof.
  intros Hk e. destruct (Hk e) as (b & e1 & t1 & E1 & E2). exists b, e1, t1.
  unfold mbind, M_bind, bind_outcome, modify; simpl. by rewrite E1.
Qed.

Lemma refines_modify f s s' : f s = s' -> refines (modify f) (mret tt) s s'.
Proof. intros <- e. by exists tt, e, []. Qed.

Lemma refines_assert {B} c (k : unit -> M St E B) spec s s' :
  c = true -> refines (k tt) spec s s' -> refines (assert_ c ≫= k) spec s s'.
Proof.
  intros -> Hk e. destruct (Hk e) as (b & e1 & t1 & E1 & E2). exists b, e1, t1.
  unfold mbind, M_bind, bind_outcome, assert_; simpl. by rewrite E1.
Qed.

Lemma refines_if {A} (c : bool) (m1 m1' : M St E A) m2 m2' s s' :
  (c = true -> refines m1 m2 s s') -> (c = false -> refines m1' m2' s s') ->
  refines (if c then m1 else m1') (if c then m2 else m2') s s'.
Proof. destruct c; auto. Qed.

Lemma refines_for {X} (l : list X) (b1 : X -> M St E unit) b2 s :
  (forall x, refines (b1 x) (b2 x) s s) -> refines (for_ l b1) (for_ l b2) s s.
Proof.
  intros Hb. induction l as [|x l IH]; simpl; [apply refines_ret|].
  eapply refines_bind; [apply Hb|]. intros _. apply IH.
Qed.

Lemma refines_loop_S {X R} n (body : X -> M St E (X + R)) x spec s s' :
  refines (r ← body x; match r with inl x' => loop n body x' | inr y => mret y end) spec s s' ->
  refines (loop (S n) body x) spec s s'.
Proof. done. Qed.

(** Reassociating the program or the specification. *)
Lemma refines_equiv {A} (m1 m1' : M St E A) m2 m2' s s' :
  (forall s e, m1 s e = m1' s e) -> (forall s e, m2 s e = m2' s e) ->
  refines m1' m2' s s' -> refines m1 m2 s s'.
Proof.
  intros H1 H2 Hr e. destruct (Hr e) as (a & e' & t & E1 & E2).
  exists a, e', t. by rewrite H1, H2.
Qed.

Lemma refines_assoc {A B C} (m : M St E A) (f : A -> M St E B) (g : B -> M St E C) spec s s' :
  refines (m ≫= (fun a => f a ≫= g)) spec s s' -> refines ((m ≫= f) ≫= g) spec s s'.
Proof. intros Hr. eapply refines_equiv; [apply M_bind_assoc | reflexivity | done]. Qed.

Lemma refines_assoc_spec {A B C} (m : M unit E A) (f : A -> M unit E B) (g : B -> M unit E C)
    (prog : M St E C) s s' :
  refines prog (m ≫= (fun a => f a ≫= g)) s s' -> refines prog ((m ≫= f) ≫= g) s s'.
Proof. intros Hr. eapply refines_equiv; [reflexivity | apply M_bind_assoc | done]. Qed.

Lemma refines_ret_bind {A B} (a : A) (k : A -> M St E B) spec s s' :
  refines (k a) spec s s' -> refines (mret a ≫= k) spec s s'.
Proof. intros Hr. eapply refines_equiv; [apply M_ret_bind | reflexivity | done]. Qed.

Lemma refines_ret_bind_spec {A B} (a : A) (k : A -> M unit E B) (prog : M St E B) s s' :
  refines prog (k a) s s' -> refines prog (mret a ≫= k) s s'.
Proof. intros Hr. eapply refines_equiv; [reflexivity | apply M_ret_bind | done]. Qed.
End Refines.

(** One step of a lockstep proof: reassociates, consumes silent returns, and pairs
    equal calls. *)
Ltac refines_step :=
  lazymatch goal with
  | |- refines ((_ ≫= _) ≫= _) _ _ _ => apply refines_assoc
  | |- refines _ ((_ ≫= _) ≫= _) _ _ => apply refines_assoc_spec
  | |- refines (mret _ ≫= _) _ _ _ => apply refines_ret_bind
  | |- refines _ (mret _ ≫= _) _ _ => apply refines_ret_bind_spec
  | |- refines (call _ ≫= _) (call _ ≫= _) _ _ => eapply refines_bind; [apply refines_call|intros ?]
  | |- refines (get ≫= _) _ _ _ => apply refines_get
  | |- refines (modify _ ≫= _) _ _ _ => apply refines_modify_bind
  | |- refines (mret ?a) (mret ?a) ?s ?s => apply refines_ret
  end.

(** ** Symbolic execution

    [wp_step] advances over one construct of the program; [wp_go] runs until the
    postcondition is reached, introducing the answers of the environment. *)

Ltac wp_step :=
  lazymatch goal with
  | |- wp (mbind _ _) _ _ _ => apply wp_bind
  | |- wp (mret _) _ _ _ => apply wp_ret; unfold bind_post; simpl
  | |- wp (call _) _ _ _ => apply wp_call; intros ? ? ?; unfold bind_post; simpl
  | |- wp get _ _ _ => apply wp_get; unfold bind_post; simpl
  | |- wp (put _) _ _ _ => apply wp_put; unfold bind_post; simpl
  | |- wp (modify _) _ _ _ => apply wp_modify; unfold bind_post; simpl
  | |- wp (stop _) _ _ _ => apply wp_stop; unfold bind_post; simpl
  | |- wp undef _ _ _ => apply wp_stop; unfold bind_post; simpl
  | |- wp (exit_ _) _ _ _ => apply wp_stop; unfold bind_post; simpl
  | |- wp (deref _) _ _ _ => apply wp_deref; unfold bind_post; simpl
  | |- wp (assert_ _) _ _ _ => apply wp_assert; intros ?; unfold bind_post; simpl
  | |- wp (when _ _) _ _ _ => apply wp_when; intros ?
  | |- wp (if _ then _ else _) _ _ _ => apply wp_if; intros ?
  | |- wp (match ?x with _ => _ end) _ _ _ => destruct x eqn:?
  end.

Ltac wp_go := repeat (wp_step; simpl).

(** The events of a trace that satisfy a test on the call. *)
Definition ev_test (p : forall A, ioE A -> bool) (ev : event) : bool :=
  match ev with Ev c _ => p _ c end.

Definition calls_of (p : forall A, ioE A -> bool) (t : trace) : trace :=
  List.filter (ev_test p) t.

Lemma calls_of_app p t1 t2 : calls_of p (t1 ++ t2) = calls_of p t1 ++ calls_of p t2.
Proof. apply List.filter_app. Qed.

Lemma calls_of_weaken (p q : forall A, ioE A -> bool) t :
  (forall A (c : ioE A), q A c = true -> p A c = true) -> calls_of p t = [] -> calls_of q t = [].
Proof.
  intros Hpq. induction t as [|[A c r] t IH]; [done|]. unfold calls_of in *. cbn.
  destruct (q A c) eqn:Hq; [by rewrite (Hpq _ _ Hq)|]. destruct (p A c); done.
Qed.

#[export] Hint Rewrite calls_of_app : clist_rw.

(** ** A sample environment, to run the models on

    Every call succeeds with 0 and empty data, but for reads, which take from one
    stream of bytes, and [readlink], which answers a fixed target. *)

Definition default_answer {A} (c : ioE A) : A :=
  match c in ioE A return A with
  | IomanX_read _ _ | IomanX_ioctl2 _ _ _ _ _ | IomanX_devctl _ _ _ _ _
  | IomanX_readlink _ _ | Host_read _ _ => (0, [])
  | IomanX_dread _ => (0, mk_iox_dirent iox_stat_zero "")
  | IomanX_getstat _ => (-2, iox_stat_zero)
  | Host_getcwd _ | Host_getline => None
  | Host_ioctl _ _ _ | Host_capget _ => (0, 0)
  | IomanX_open _ _ _ | IomanX_close _ | IomanX_write _ _ _ | IomanX_lseek _ _ _
  | IomanX_lseek64 _ _ _ | IomanX_ioctl _ _ _ | IomanX_remove _ | IomanX_mkdir _ _
  | IomanX_rmdir _ | IomanX_dopen _ | IomanX_chstat _ _ _ | IomanX_format _ _ _ _
  | IomanX_rename _ _ | IomanX_chdir _ | IomanX_sync _ _ | IomanX_mount _ _ _ _ _
  | IomanX_umount _ | IomanX_symlink _ _ | Init_module _ _ | Host_open _ _ _
  | IomanX_AddDrv _ | IomanX_DelDrv _ | Host_fsync _
  | Host_flock _ _ | Host_accept _ | Host_peer_pid _
  | Host_sem_init _ | Host_sem_destroy | Get_errno
  | Host_close _ | Host_write _ _ | Host_lseek _ _ _ | Host_chdir _ => 0
  | Host_unlink _ | Host_mkdir _ _ | Host_rmdir _ | Host_closedir _ | Host_chmod _ _
  | Host_rename _ _ | Host_symlink _ _ | Fuse_fill _ _ | Sys_socket | Sys_bind _ _
  | Sys_connect _ _ | Sys_listen _ _ | Sys_semget _ _ _ | Sys_semctl_setval _ _
  | Sys_semctl_rmid _ | Sys_semop _ _ | Sys_shmget _ _ _ | Sys_shmdt | Sys_shmctl_stat _
  | Sys_shmctl_rmid _ | Send_packet _ _ => 0
  | Host_opendir _ | Host_readdir _ => None
  | Host_stat _ => (0, posix_stat_zero)
  | Host_readlink _ _ => (0, [])
  | Sys_poll _ _ => (0, (false, []))
  | Recv_reply _ _ => (0, 0)
  | Shm_get n => replicate (Z.to_nat n) 0
  | Shm_string => ""
  | Host_sync | Sys_ignore_sigpipe | Sys_shmat _ | Shm_put _ => tt
  | Host_malloc _ | Host_fopen _ _ => true
  | Reply _ _ | Printf _ _ _ | Perror _ | Set_errno _ => tt
  end.

Module Sample.
#[export] Instance one_stream : Handler (list Z) := fun A c e =>
  match c in ioE A return A * list Z with
  | IomanX_read _ n =>
      ((Z.of_nat (length (take (Z.to_nat n) e)), take (Z.to_nat n) e), drop (Z.to_nat n) e)
  | IomanX_readlink _ _ => ((3, [97; 47; 98]), e)
  | c => (default_answer c, e)
  end.

#[export] Instance one_stream_reads : FileReads (list Z).
Proof.
  refine {| unread := fun e _ => Some e |}.
  intros e fd n rest Hn [= ->]. eexists. split; reflexivity.
Defined.
End Sample.
