(* ===== verification/Trace.v ===== *)
(** * Judgements about the calls a program makes

    [tallies w m f]: where a run of [m] returns [a], the weights [w] of its calls
    add up to [f a]; [avoids I p m]: from a state in [I], no call of a run of [m]
    satisfies [p]; [holding I Q m]: [m] keeps the environment in [I].  Each has a
    rule per construct of the monad, most a tactic that applies them. *)

From S2P Require Import Prelude IoWorld.

(** ** Weights *)

Definition weight : Type := forall A, ioE A -> A -> Z.

Definition ev_weight (w : weight) (ev : event) : Z := match ev with Ev c r => w _ c r end.

Fixpoint tally (w : weight) (t : trace) : Z :=
  match t with
  | [] => 0
  | ev :: t' => ev_weight w ev + tally w t'
  end.

Lemma tally_app w t1 t2 : tally w (t1 ++ t2) = tally w t1 + tally w t2.
Proof. induction t1 as [|ev t1 IH]; simpl; [done|rewrite IH; lia]. Qed.

Lemma tally_cons w ev t : tally w (ev :: t) = ev_weight w ev + tally w t.
Proof. done. Qed.

Lemma tally_nil w : tally w [] = 0.
Proof. done. Qed.

#[export] Hint Rewrite tally_app tally_cons tally_nil : clist_rw.

(** The bytes a trace writes to files of a partition. *)
Fixpoint sent (t : trace) : list Z :=
  match t with
  | [] => []
  | Ev c _ :: t' => match c with IomanX_write _ data _ => data | _ => [] end ++ sent t'
  end.

Lemma sent_app t1 t2 : sent (t1 ++ t2) = sent t1 ++ sent t2.
Proof. induction t1 as [|[A c r] t1 IH]; [done|]. cbn. by rewrite IH, app_assoc. Qed.

Section Tallies.
Context {St E : Type} `{Handler E} (w : weight).

Definition tallies {A} (m : M St E A) (f : A -> Z) : Prop :=
  forall s e, wp m (fun r _ _ t => forall a, r = Ret a -> tally w t = f a) s e.

Lemma tallies_ret {A} (a : A) f : f a = 0 -> tallies (mret a) f.
Proof. intros Hf s e. apply wp_ret. by intros ? [= <-]. Qed.

Lemma tallies_bind {A B} (m : M St E A) (k : A -> M St E B) g f :
  tallies m g -> (forall a, tallies (k a) (fun b => f b - g a)) -> tallies (m ≫= k) f.
Proof.
  intros Hm Hk s e. apply wp_bind. eapply wp_mono; [apply Hm|].
  intros [a| | | |] s' e' t Ht; try done. cbn. eapply wp_mono; [apply Hk|].
  cbv beta. intros r s'' e'' t' Ht' b Hb. rewrite tally_app, (Ht a), (Ht' b) by done. lia.
Qed.

Lemma tallies_ext {A} (m : M St E A) f g : tallies m g -> (forall a, f a = g a) -> tallies m f.
Proof.
  intros Hm Hfg s e. eapply wp_mono; [apply Hm|]. cbv beta. intros r s' e' t Ht a Ha.
  rewrite Hfg. by apply Ht.
Qed.

Lemma tallies_call {A} (c : ioE A) : tallies (call c) (w A c).
Proof.
  intros s e. apply wp_call. intros r e' _ a [= <-]. simpl. lia.
Qed.

Lemma tallies_silent {A} (m : M St E A) :
  (forall s e, o_tr (m s e) = []) -> tallies m (fun _ => 0).
Proof. intros Hm s e. unfold wp. rewrite Hm. done. Qed.

Lemma tallies_get : tallies get (fun _ => 0).
Proof. by apply tallies_silent. Qed.
Lemma tallies_modify g : tallies (modify g) (fun _ => 0).
Proof. by apply tallies_silent. Qed.
Lemma tallies_deref {A} (o : option A) : tallies (deref o) (fun _ => 0).
Proof. apply tallies_silent. by destruct o. Qed.
Lemma tallies_assert c : tallies (assert_ c) (fun _ => 0).
Proof. apply tallies_silent. by destruct c. Qed.
Lemma tallies_stop {A} (r : res A) f : (forall a, r <> Ret a) -> tallies (stop r) f.
Proof. intros Hr s e. apply wp_stop. intros a Ha. by destruct (Hr a). Qed.

Lemma tallies_if {A} (c : bool) (m1 m2 : M St E A) f :
  (c = true -> tallies m1 f) -> (c = false -> tallies m2 f) -> tallies (if c then m1 else m2) f.
Proof. destruct c; auto. Qed.

(** Sequences are taken apart from the left. *)
Lemma tallies_assoc {A B C} (m : M St E A) (k1 : A -> M St E B) (k2 : B -> M St E C) f :
  tallies (m ≫= fun a => k1 a ≫= k2) f -> tallies ((m ≫= k1) ≫= k2) f.
Proof. intros Hm s e. rewrite (M_bind_assoc m k1 k2). apply Hm. Qed.

Lemma tallies_ret_bind {A B} (a : A) (k : A -> M St E B) f :
  tallies (k a) f -> tallies (mret a ≫= k) f.
Proof. intros Hk s e. rewrite (M_ret_bind a k). apply Hk. Qed.

Lemma tallies_if_bind {A B} (c : bool) (m1 m2 : M St E A) (k : A -> M St E B) f :
  (c = true -> tallies (m1 ≫= k) f) -> (c = false -> tallies (m2 ≫= k) f) ->
  tallies ((if c then m1 else m2) ≫= k) f.
Proof. destruct c; auto. Qed.

Lemma tallies_when c (m : M St E unit) :
  (c = true -> tallies m (fun _ => 0)) -> tallies (when c m) (fun _ => 0).
Proof. destruct c; intros Hm; [by apply Hm|by apply tallies_silent]. Qed.

(** A loop whose turns account for the change of a potential. *)
Lemma tallies_loop_pot {X R} (pot : X -> Z) (fin : R -> Z) fuel (body : X -> M St E (X + R)) :
  (forall x, tallies (body x) (fun r => pot x - match r with inl x' => pot x' | inr y => fin y end)) ->
  forall x, tallies (loop fuel body x) (fun y => pot x - fin y).
Proof.
  intros Hb. induction fuel as [|fuel IH]; intros x; [by apply tallies_stop|].
  simpl. eapply tallies_bind; [apply Hb|]. intros [x'|y].
  - eapply tallies_ext; [apply IH|]. cbv beta. intros; lia.
  - apply tallies_ret. lia.
Qed.

Lemma tallies_loop {X R} fuel (body : X -> M St E (X + R)) x :
  (forall x, tallies (body x) (fun _ => 0)) -> tallies (loop fuel body x) (fun _ => 0).
Proof.
  intros Hb. eapply tallies_ext; [apply (tallies_loop_pot (fun _ => 0) (fun _ => 0))|done].
  intros x'. eapply tallies_ext; [apply Hb|]. intros a. by destruct a.
Qed.

End Tallies.

Create HintDb tally discriminated.
#[export] Hint Extern 2 (forall _ _, _ = 0) => reflexivity : tally.
#[export] Hint Resolve tallies_get tallies_modify tallies_deref tallies_assert tallies_when : tally.

(** Breaks [tallies w m f] down to arithmetic on the weights of the calls. *)
Ltac tally_done := cbn; repeat case_bool; boolP; subst; cbn; try done; try lia.

Ltac tally_step :=
  lazymatch goal with
  | |- tallies _ (mbind _ (mbind _ _)) _ => apply tallies_assoc
  | |- tallies _ (mbind _ (mret _)) _ => apply tallies_ret_bind
  | |- tallies _ (mbind _ (if _ then _ else _)) _ => apply tallies_if_bind; intros ?
  | |- tallies _ (mbind _ (match ?x with _ => _ end)) _ => destruct x eqn:?
  | |- tallies _ (mbind _ (call _)) _ => eapply tallies_bind; [apply tallies_call|intros ?]
  | |- tallies _ (mbind _ _) _ => apply (tallies_bind _ _ _ (fun _ => 0)); [|intros ?]
  | |- tallies _ (mret _) _ => apply tallies_ret
  | |- tallies _ (call _) _ => eapply tallies_ext; [apply tallies_call|intros ?]
  | |- tallies _ (loop _ _ _) _ => eapply tallies_ext; [apply tallies_loop; intros ?|intros ?]
  | |- tallies _ (when _ _) _ => eapply tallies_ext; [apply tallies_when; intros ?|intros ?]
  | |- tallies _ (if _ then _ else _) _ => apply tallies_if; intros ?
  | |- tallies _ (match ?x with _ => _ end) _ => destruct x eqn:?
  | |- tallies _ undef _ => by apply tallies_stop
  | |- tallies _ (stop _) _ => by apply tallies_stop
  | |- tallies _ (exit_ _) _ => by apply tallies_stop
  | |- tallies _ _ _ => eapply tallies_ext; [solve [eauto with tally]|intros ?]
  end.

Ltac tally_go := repeat tally_step; tally_done.

(** Runs on over the items of a table that are there. *)
Ltac wp_run :=
  wp_go; try done;
  lazymatch goal with
  | |- match ?o with _ => _ end => destruct o; [wp_run|done]
  | |- _ => idtac
  end.

(** ** State changes *)

Section Stable.
Context {St E : Type} `{Handler E} (R : St -> St -> Prop) `{!PreOrder R}.

(** However a run of [m] ends, its state is related to the one it started from. *)
Definition stable {A} (m : M St E A) : Prop := forall s e, wp m (fun _ s' _ _ => R s s') s e.

Lemma stable_bind {A B} (m : M St E A) (k : A -> M St E B) :
  stable m -> (forall a, stable (k a)) -> stable (m ≫= k).
Proof.
  intros Hm Hk s e. apply wp_bind. eapply wp_mono; [apply Hm|].
  intros [a| | | |] s' e' t Hr; try done. cbn. eapply wp_mono; [apply Hk|].
  cbv beta. intros. by etrans.
Qed.

Lemma stable_ret {A} (a : A) : stable (mret a).
Proof. intros s e. apply wp_ret. done. Qed.
Lemma stable_call {A} (c : ioE A) : stable (call c).
Proof. intros s e. apply wp_call. done. Qed.
Lemma stable_stop {A} (r : res A) : stable (stop r).
Proof. intros s e. apply wp_stop. done. Qed.
Lemma stable_get : stable get.
Proof. intros s e. apply wp_get. done. Qed.
Lemma stable_modify g : (forall s, R s (g s)) -> stable (modify g).
Proof. intros Hg s e. apply wp_modify, Hg. Qed.
Lemma stable_deref {A} (o : option A) : stable (deref o).
Proof. intros s e. apply wp_deref. by destruct o. Qed.
Lemma stable_assert c : stable (assert_ c).
Proof. intros s e. by apply wp_assert. Qed.
Lemma stable_if {A} (c : bool) (m1 m2 : M St E A) :
  stable m1 -> stable m2 -> stable (if c then m1 else m2).
Proof. by destruct c. Qed.
Lemma stable_when c (m : M St E unit) : stable m -> stable (when c m).
Proof. destruct c; [done|]. intros _. apply stable_ret. Qed.
Lemma stable_loop {X Y} fuel (body : X -> M St E (X + Y)) x :
  (forall x, stable (body x)) -> stable (loop fuel body x).
Proof.
  intros Hb. revert x. induction fuel as [|fuel IH]; intros x; [apply stable_stop|].
  simpl. apply stable_bind; [apply Hb|]. intros [x'|y]; [apply IH|apply stable_ret].
Qed.
End Stable.

Ltac stable_step :=
  lazymatch goal with
  | |- stable _ (mbind _ _) => apply stable_bind; [tc_solve| |intros ?]
  | |- stable _ (mret _) => apply stable_ret; tc_solve
  | |- stable _ (call _) => apply stable_call; tc_solve
  | |- stable _ (stop _) => apply stable_stop; tc_solve
  | |- stable _ undef => apply stable_stop; tc_solve
  | |- stable _ (exit_ _) => apply stable_stop; tc_solve
  | |- stable _ get => apply stable_get; tc_solve
  | |- stable _ (modify _) => apply stable_modify; intros ?
  | |- stable _ (deref _) => apply stable_deref; tc_solve
  | |- stable _ (assert_ _) => apply stable_assert; tc_solve
  | |- stable _ (loop _ _ _) => apply stable_loop; [tc_solve|intros ?]
  | |- stable _ (when _ _) => apply stable_when; [tc_solve|]
  | |- stable _ (if _ then _ else _) => apply stable_if
  | |- stable _ (match ?x with _ => _ end) => destruct x eqn:?
  | |- stable _ _ => solve [eauto with stable]
  end.
Create HintDb stable discriminated.

(** ** What the environment keeps *)

Section Holding.
Context {St E : Type} `{Handler E} (I : E -> Prop).

(** From an environment in [I] a run of [m] ends in one, whatever way it ends, and
    returns values in [Q]. *)
Definition holding {A} (Q : A -> Prop) (m : M St E A) : Prop :=
  forall s e, I e -> wp m (fun r _ e' _ => I e' /\ forall a, r = Ret a -> Q a) s e.

Lemma holding_bind {A B} (Q : A -> Prop) (R : B -> Prop) (m : M St E A) (k : A -> M St E B) :
  holding Q m -> (forall a, Q a -> holding R (k a)) -> holding R (m ≫= k).
Proof.
  intros Hm Hk s e Hv. apply wp_bind. eapply wp_mono; [by apply Hm|].
  intros [a| | | |] s' e' t [Hv' Ha]; cbn [bind_post]; try done. by apply Hk; [apply Ha|].
Qed.

Lemma holding_ret {A} (Q : A -> Prop) (a : A) : Q a -> holding Q (mret a).
Proof. intros Ha s e Hv. apply wp_ret. split; [done|]. by intros ? [= <-]. Qed.

Lemma holding_stop {A} (Q : A -> Prop) r : (forall a, r <> Ret a) -> holding Q (stop r : M St E A).
Proof. intros Hr s e Hv. apply wp_stop. split; [done|]. intros a Ha. by destruct (Hr a). Qed.

Lemma holding_modify g : holding (fun _ => True) (modify g).
Proof. intros s e Hv. by apply wp_modify. Qed.

Lemma holding_assert c : holding (fun _ => c = true) (assert_ c).
Proof. destruct c; [by apply holding_ret|by apply holding_stop]. Qed.

Lemma holding_call {A} (Q : A -> Prop) (c : ioE A) :
  (forall e r e', handle c e = (r, e') -> I e -> I e' /\ Q r) -> holding Q (call c).
Proof.
  intros Hc s e Hv. apply wp_call. intros r e' He. destruct (Hc e r e' He Hv) as [Hv' Hr].
  split; [done|]. by intros a [= <-].
Qed.

Lemma holding_for {X} (l : list X) (body : X -> M St E unit) :
  (forall x, holding (fun _ => True) (body x)) -> holding (fun _ => True) (for_ l body).
Proof.
  intros Hb. induction l as [|x l IH]; cbn [for_]; [by apply holding_ret|].
  eapply holding_bind; [apply Hb|]. by intros u _.
Qed.

Lemma holding_loop {X R} (J : X -> Prop) (Q : R -> Prop) fuel (body : X -> M St E (X + R)) x :
  J x -> (forall x, J x -> holding (fun r => match r with inl x' => J x' | inr y => Q y end) (body x)) ->
  holding Q (loop fuel body x).
Proof.
  intros Hx Hb. revert x Hx. induction fuel as [|fuel IH]; intros x Hx; [by apply holding_stop|].
  cbn [loop]. eapply holding_bind; [by apply Hb|]. intros [x'|y]; [apply IH|apply holding_ret].
Qed.
End Holding.

(** ** Calls that are not made *)

(** The calls to the file layer and its drivers. *)
Definition driver_call {A} (c : ioE A) : bool :=
  match c with
  | IomanX_open _ _ _ | IomanX_close _ | IomanX_read _ _ | IomanX_write _ _ _ | IomanX_lseek _ _ _
  | IomanX_lseek64 _ _ _ | IomanX_ioctl _ _ _ | IomanX_ioctl2 _ _ _ _ _ | IomanX_remove _
  | IomanX_mkdir _ _ | IomanX_rmdir _ | IomanX_dopen _ | IomanX_dread _ | IomanX_getstat _
  | IomanX_chstat _ _ _ | IomanX_format _ _ _ _ | IomanX_rename _ _ | IomanX_chdir _
  | IomanX_sync _ _ | IomanX_mount _ _ _ _ _ | IomanX_umount _ | IomanX_devctl _ _ _ _ _
  | IomanX_symlink _ _ | IomanX_readlink _ _ | IomanX_AddDrv _ | IomanX_DelDrv _ | Init_module _ _ => true
  | _ => false
  end.


Section Avoids.
Context {St E : Type} `{Handler E} (I : St -> Prop) (p : forall A, ioE A -> bool).

(** The environment changes by calls outside [p] only. *)
Definition env_by (e e' : E) : Prop :=
  forall R : E -> E -> Prop, PreOrder R ->
    (forall A (c : ioE A) e, p A c = false -> R e (handle c e).2) -> R e e'.

#[local] Instance env_by_preorder : PreOrder env_by.
Proof.
  split; [by intros e R HR _|]. intros e1 e2 e3 H1 H2 R HR Hc. etrans; [by apply H1|by apply H2].
Qed.

(** From a state in [I], a run of [m] makes no call in [p] and ends in [I],
    whatever way it ends. *)
Definition avoids {A} (m : M St E A) : Prop :=
  forall s e, I s -> wp m (fun _ s' e' t => I s' /\ calls_of p t = [] /\ env_by e e') s e.

Lemma avoids_intro {A} (m : M St E A) :
  (forall s e, I s -> wp m (fun _ s' e' t => I s' /\ t = [] /\ e' = e) s e) -> avoids m.
Proof. intros Hm s e Hs. eapply wp_mono; [by apply Hm|]. intros r s' e' t (Hi & -> & ->). done. Qed.

Lemma avoids_bind {A B} (m : M St E A) (k : A -> M St E B) :
  avoids m -> (forall a, avoids (k a)) -> avoids (m ≫= k).
Proof.
  intros Hm Hk s e Hs. apply wp_bind. eapply wp_mono; [by apply Hm|].
  intros [a| | | |] s' e' t (Hs' & Ht & He); try done. cbn. eapply wp_mono; [by apply Hk|].
  cbv beta. intros r s'' e'' t' (Hs'' & Ht' & He'). rewrite calls_of_app, Ht, Ht'. split_and!; [done..|].
  by etrans.
Qed.

Lemma avoids_assoc {A B C} (m : M St E A) (k1 : A -> M St E B) (k2 : B -> M St E C) :
  avoids (m ≫= fun a => k1 a ≫= k2) -> avoids ((m ≫= k1) ≫= k2).
Proof. intros Hm s e Hs. rewrite (M_bind_assoc m k1 k2). by apply Hm. Qed.

Lemma avoids_ret_bind {A B} (a : A) (k : A -> M St E B) : avoids (k a) -> avoids (mret a ≫= k).
Proof. intros Hk s e Hs. rewrite (M_ret_bind a k). by apply Hk. Qed.

Lemma avoids_if_bind {A B} (c : bool) (m1 m2 : M St E A) (k : A -> M St E B) :
  (c = true -> avoids (m1 ≫= k)) -> (c = false -> avoids (m2 ≫= k)) ->
  avoids ((if c then m1 else m2) ≫= k).
Proof. destruct c; auto. Qed.

Lemma avoids_get {B} (k : St -> M St E B) :
  (forall s, I s -> avoids (k s)) -> avoids (get ≫= k).
Proof. intros Hk s e Hs. apply wp_bind, wp_get. by apply Hk. Qed.

Lemma avoids_ret {A} (a : A) : avoids (mret a).
Proof. apply avoids_intro. intros s e Hs. by apply wp_ret. Qed.
Lemma avoids_call {A} (c : ioE A) : p A c = false -> avoids (call c).
Proof.
  intros Hc s e Hs. apply wp_call. intros r e' He. unfold calls_of; cbn. rewrite Hc. split_and!; [done..|].
  intros R HR Hr. specialize (Hr _ c e Hc). by rewrite He in Hr.
Qed.
Lemma avoids_stop {A} (r : res A) : avoids (stop r).
Proof. apply avoids_intro. intros s e Hs. by apply wp_stop. Qed.
Lemma avoids_modify g : (forall s, I s -> I (g s)) -> avoids (modify g).
Proof. intros Hg. apply avoids_intro. intros s e Hs. apply wp_modify. split; [by apply Hg|done]. Qed.
Lemma avoids_put s' : I s' -> avoids (put s').
Proof. intros Hs. apply avoids_intro. intros s e _. by apply wp_put. Qed.
Lemma avoids_for {X} (l : list X) (body : X -> M St E unit) :
  (forall x, avoids (body x)) -> avoids (for_ l body).
Proof.
  intros Hb. induction l as [|x l IH]; simpl; [apply avoids_ret|]. apply avoids_bind; [apply Hb|]. done.
Qed.
Lemma avoids_deref {A} (o : option A) : avoids (deref o).
Proof. apply avoids_intro. intros s e Hs. apply wp_deref. by destruct o. Qed.
Lemma avoids_assert c : avoids (assert_ c).
Proof. apply avoids_intro. intros s e Hs. by apply wp_assert. Qed.
Lemma avoids_if {A} (c : bool) (m1 m2 : M St E A) :
  (c = true -> avoids m1) -> (c = false -> avoids m2) -> avoids (if c then m1 else m2).
Proof. destruct c; auto. Qed.
Lemma avoids_when c (m : M St E unit) : avoids m -> avoids (when c m).
Proof. destruct c; [done|]. intros _. apply avoids_ret. Qed.
Lemma avoids_loop {X R} fuel (body : X -> M St E (X + R)) x :
  (forall x, avoids (body x)) -> avoids (loop fuel body x).
Proof.
  intros Hb. revert x. induction fuel as [|fuel IH]; intros x; [apply avoids_stop|].
  simpl. apply avoids_bind; [apply Hb|]. intros [x'|y]; [apply IH|apply avoids_ret].
Qed.
End Avoids.

(** A component that makes none, from any state, inside another. *)
(** On a part of the state: [J] of the part is what [I] says of it. *)
Lemma avoids_zoom_inv {St T E A} `{Handler E} (I : St -> Prop) (J : T -> Prop) p (get_ : St -> T)
    (set_ : T -> St -> St) (m : M T E A) :
  (forall s, I s -> J (get_ s)) -> (forall x s, I s -> J x -> I (set_ x s)) ->
  avoids J p m -> avoids I p (zoom get_ set_ m).
Proof.
  intros Hget Hset Hm s e Hs. apply wp_zoom. eapply wp_mono; [apply Hm; by apply Hget|].
  intros r x e' t (Hx & Ht & He). split; [by apply Hset|done].
Qed.

Lemma avoids_zoom {St T E A} `{Handler E} (I : St -> Prop) p (get_ : St -> T) (set_ : T -> St -> St)
    (m : M T E A) :
  (forall x s, I s -> I (set_ x s)) -> avoids (fun _ => True) p m -> avoids I p (zoom get_ set_ m).
Proof. intros Hset. apply avoids_zoom_inv; [done|]. intros. by apply Hset. Qed.

Ltac avoids_step :=
  lazymatch goal with
  | |- avoids _ _ (mbind _ (mbind _ _)) => apply avoids_assoc
  | |- avoids _ _ (mbind _ (mret _)) => apply avoids_ret_bind
  | |- avoids _ _ (mbind _ (if _ then _ else _)) => apply avoids_if_bind; intros ?
  | |- avoids _ _ (mbind _ get) => apply avoids_get; intros ? ?
  | |- avoids _ _ (mbind _ _) => apply avoids_bind; [|intros ?]
  | |- avoids _ _ (mret _) => apply avoids_ret
  | |- avoids _ _ (call _) => apply avoids_call; try reflexivity
  | |- avoids _ _ (stop _) => apply avoids_stop
  | |- avoids _ _ undef => apply avoids_stop
  | |- avoids _ _ (exit_ _) => apply avoids_stop
  | |- avoids _ _ (modify _) => apply avoids_modify; intros ? ?
  | |- avoids _ _ (put _) => apply avoids_put; try done
  | |- avoids _ _ (for_ _ _) => apply avoids_for; intros ?
  | |- avoids _ _ (deref _) => apply avoids_deref
  | |- avoids _ _ (assert_ _) => apply avoids_assert
  | |- avoids _ _ (loop _ _ _) => apply avoids_loop; intros ?
  | |- avoids _ _ (when _ _) => apply avoids_when
  | |- avoids _ _ (if ?c then _ else _) =>
      lazymatch type of c with bool => apply avoids_if; intros ? | _ => destruct c eqn:? end
  | |- avoids _ _ (match ?x with _ => _ end) => destruct x eqn:?
  | |- avoids _ _ _ => solve [eauto with avoids]
  end.
Create HintDb avoids discriminated.
