(* ===== verification/Ledger.v ===== *)
(** * What a program holds

    A ledger follows the descriptors and mounts of a program through its trace: a call
    may use and close what is held and nothing else.  [lawful H m Q]: starting with the
    holdings [H], every call of a run of [m] is allowed, and where the run returns [a]
    with the holdings [H'], [Q a H']. *)

From S2P Require Import Prelude IoWorld.

(** A descriptor of the file layer or of the host; a mount, and one the last attempt to
    undo was refused. *)
Inductive holding :=
  | FileFd (fd : Z)
  | HostFd (fd : Z)
  | Mounted (fsname : string)
  | Stuck (fsname : string).

Definition same_holding (x y : holding) : bool :=
  match x, y with
  | FileFd a, FileFd b | HostFd a, HostFd b => a =? b
  | Mounted a, Mounted b | Stuck a, Stuck b => String.eqb a b
  | _, _ => false
  end.

Lemma same_holding_refl x : same_holding x x = true.
Proof. destruct x; cbn; by rewrite ?Z.eqb_refl, ?String.eqb_refl. Qed.

Lemma same_holding_spec x y : same_holding x y = true -> x = y.
Proof. destruct x, y; cbn; try done; [intros ->%Z.eqb_eq..|intros ->%String.eqb_eq|intros ->%String.eqb_eq]; done. Qed.

(** One [x] less; [None] where there is none. *)
Fixpoint release (x : holding) (H : list holding) : option (list holding) :=
  match H with
  | [] => None
  | y :: H' => if same_holding x y then Some H' else cons y <$> release x H'
  end.

Definition use (x : holding) (H : list holding) : option (list holding) :=
  if existsb (same_holding x) H then Some H else None.

Definition release_mount (fsname : string) (H : list holding) : option (list holding) :=
  match release (Mounted fsname) H with
  | Some H' => Some H'
  | None => release (Stuck fsname) H
  end.

(** The holdings after a call, and [None] where it was not allowed.  Descriptors below 0
    (on the host, -1) are those of a failed open; a close gives the descriptor up
    whatever its result. *)
Definition account {A} (c : ioE A) : A -> list holding -> option (list holding) :=
  match c in ioE A return A -> list holding -> option (list holding) with
  | IomanX_open _ _ _ | IomanX_dopen _ => fun fd H => Some (if 0 <=? fd then FileFd fd :: H else H)
  | IomanX_close fd => fun _ H => if 0 <=? fd then release (FileFd fd) H else Some H
  | IomanX_read fd _ | IomanX_ioctl2 fd _ _ _ _ => fun _ H => use (FileFd fd) H
  | IomanX_write fd _ _ | IomanX_lseek fd _ _ | IomanX_lseek64 fd _ _ | IomanX_ioctl fd _ _ =>
      fun _ H => use (FileFd fd) H
  | IomanX_dread fd => fun _ H => use (FileFd fd) H
  | Host_open _ _ _ => fun fd H => Some (if fd =? -1 then H else HostFd fd :: H)
  | Host_close fd => fun _ H => if fd =? -1 then Some H else release (HostFd fd) H
  | Host_read fd _ => fun _ H => use (HostFd fd) H
  | Host_write fd _ | Host_lseek fd _ _ | Host_fsync fd => fun _ H => use (HostFd fd) H
  | IomanX_mount fsname _ _ _ _ => fun r H => Some (if 0 <=? r then Mounted fsname :: H else H)
  | IomanX_umount fsname => fun r H =>
      H' ← release_mount fsname H; Some (if 0 <=? r then H' else Stuck fsname :: H')
  | _ => fun _ H => Some H
  end.

Fixpoint ledger (H : list holding) (t : trace) : option (list holding) :=
  match t with
  | [] => Some H
  | Ev c r :: t' => H' ← account c r H; ledger H' t'
  end.

Lemma ledger_app H t1 t2 : ledger H (t1 ++ t2) = (H' ← ledger H t1; ledger H' t2).
Proof.
  revert H. induction t1 as [|[A c r] t1 IH]; intros H; [done|]. cbn.
  destruct (account c r H) as [H'|]; [apply IH|done].
Qed.

Lemma ledger_app_some H t1 t2 H1 : ledger H t1 = Some H1 -> ledger H (t1 ++ t2) = ledger H1 t2.
Proof. intros Ht. by rewrite ledger_app, Ht. Qed.

Section Lawful.
Context {St E : Type} `{HE : Handler E}.
Local Abbreviation P := (M St E).

Definition lawful {A} (H : list holding) (m : P A) (Q : A -> list holding -> Prop) : Prop :=
  forall s e, wp m (fun r _ _ t => exists H', ledger H t = Some H' /\ forall a, r = Ret a -> Q a H') s e.

(** What [m] opens it closes. *)
Definition balanced {A} (m : P A) : Prop := forall H, lawful H m (fun _ H' => H' = H).

Lemma lawful_mono {A} H (m : P A) (Q Q' : A -> list holding -> Prop) :
  lawful H m Q -> (forall a H', Q a H' -> Q' a H') -> lawful H m Q'.
Proof.
  intros Hm HQ s e. eapply wp_mono; [apply Hm|]. intros r s' e' t (H' & Ht & Ha).
  exists H'. split; [done|]. intros a Hr. by apply HQ, Ha.
Qed.

Lemma lawful_bind {A B} H (m : P A) (k : A -> P B) R Q :
  lawful H m R -> (forall a H', R a H' -> lawful H' (k a) Q) -> lawful H (m ≫= k) Q.
Proof.
  intros Hm Hk s e. apply wp_bind. eapply wp_mono; [apply Hm|].
  intros [a| | | |] s' e' t (H' & Ht & Ha); cbn [bind_post]; try by (exists H'; split; [done|]).
  eapply wp_mono; [by apply (Hk a H'), Ha|]. intros r s2 e2 t2 (H2 & Ht2 & Hb).
  exists H2. split; [|done]. by rewrite (ledger_app_some _ _ _ _ Ht).
Qed.

Lemma balanced_bind {A B} H (m : P A) (k : A -> P B) Q :
  balanced m -> (forall a, lawful H (k a) Q) -> lawful H (m ≫= k) Q.
Proof. intros Hm Hk. eapply lawful_bind; [apply Hm|]. by intros a H' ->. Qed.

Lemma lawful_ret {A} H (a : A) (Q : A -> list holding -> Prop) : Q a H -> lawful H (mret a) Q.
Proof. intros Ha s e. apply wp_ret. exists H. split; [done|]. by intros ? [= <-]. Qed.

Lemma lawful_stop {A} H r (Q : A -> list holding -> Prop) : (forall a, r <> Ret a) -> lawful H (stop r) Q.
Proof. intros Hr s e. apply wp_stop. exists H. split; [done|]. intros a Ha. by destruct (Hr a). Qed.

Lemma lawful_stop_bind {A B} H r (k : A -> P B) Q : (forall a, r <> Ret a) -> lawful H (stop r ≫= k) Q.
Proof. intros Hr. eapply lawful_bind; [by apply (lawful_stop _ _ (fun _ _ => False))|done]. Qed.

Lemma lawful_silent {A} H (m : P A) : (forall s e, o_tr (m s e) = []) -> lawful H m (fun _ H' => H' = H).
Proof. intros Hm s e. unfold wp. rewrite Hm. by exists H. Qed.

Lemma lawful_call {A} H (c : ioE A) (Q : A -> list holding -> Prop) :
  (forall r, exists H', account c r H = Some H' /\ Q r H') -> lawful H (call c) Q.
Proof.
  intros Hc s e. apply wp_call. intros r e' _. destruct (Hc r) as (H' & Ha & HQ).
  exists H'. cbn. rewrite Ha. split; [done|]. by intros ? [= <-].
Qed.

Lemma lawful_call_bind {A B} H (c : ioE A) (k : A -> P B) Q :
  (forall r, exists H', account c r H = Some H' /\ lawful H' (k r) Q) -> lawful H (call c ≫= k) Q.
Proof.
  intros Hc. eapply lawful_bind; [apply (lawful_call _ _ (fun r H' => lawful H' (k r) Q)), Hc|]. done.
Qed.

Lemma lawful_if {A} H (c : bool) (m1 m2 : P A) Q :
  (c = true -> lawful H m1 Q) -> (c = false -> lawful H m2 Q) -> lawful H (if c then m1 else m2) Q.
Proof. destruct c; auto. Qed.

Lemma lawful_assoc {A B C} H (m : P A) (k1 : A -> P B) (k2 : B -> P C) Q :
  lawful H (m ≫= fun a => k1 a ≫= k2) Q -> lawful H ((m ≫= k1) ≫= k2) Q.
Proof. intros Hm s e. rewrite (M_bind_assoc m k1 k2). apply Hm. Qed.

Lemma lawful_ret_bind {A B} H (a : A) (k : A -> P B) Q : lawful H (k a) Q -> lawful H (mret a ≫= k) Q.
Proof. intros Hk s e. rewrite (M_ret_bind a k). apply Hk. Qed.

Lemma lawful_if_bind {A B} H (c : bool) (m1 m2 : P A) (k : A -> P B) Q :
  (c = true -> lawful H (m1 ≫= k) Q) -> (c = false -> lawful H (m2 ≫= k) Q) ->
  lawful H ((if c then m1 else m2) ≫= k) Q.
Proof. destruct c; auto. Qed.

(** A loop of which every turn ends with the holdings it began with. *)
Lemma lawful_loop {X R} H fuel (body : X -> P (X + R)) x :
  (forall x, lawful H (body x) (fun _ H' => H' = H)) -> lawful H (loop fuel body x) (fun _ H' => H' = H).
Proof.
  intros Hb. revert x. induction fuel as [|fuel IH]; intros x; [by apply lawful_stop|].
  cbn [loop]. eapply lawful_bind; [apply Hb|]. intros [x'|y] H' ->; [apply IH|by apply lawful_ret].
Qed.

Lemma lawful_when H c (m : P unit) :
  (c = true -> lawful H m (fun _ H' => H' = H)) -> lawful H (when c m) (fun _ H' => H' = H).
Proof. destruct c; intros Hm; [by apply Hm|by apply lawful_ret]. Qed.

Lemma lawful_deref {A} H (o : option A) : lawful H (deref o) (fun _ H' => H' = H).
Proof. destruct o; [by apply lawful_ret|by apply lawful_stop]. Qed.
Lemma lawful_assert H c : lawful H (assert_ c) (fun _ H' => H' = H).
Proof. destruct c; [by apply lawful_ret|by apply lawful_stop]. Qed.
End Lawful.

Create HintDb lawful discriminated.

(** Evaluates the ledger at a call. *)
Ltac account_go :=
  cbn [account]; unfold use, release_mount;
  cbn [release existsb same_holding String.eqb Ascii.eqb Bool.eqb andb orb fmap option_fmap option_map mbind option_bind];
  rewrite ?Z.eqb_refl; cbn [orb fmap option_fmap option_map mbind option_bind].

Ltac clash := solve [exfalso; boolP; first [congruence | lia]].

Ltac account_step :=
  account_go;
  lazymatch goal with
  | |- exists H', Some (if ?c then _ else _) = Some H' /\ _ =>
      let Hc := fresh "Hc" in destruct c eqn:Hc; (eexists; split; [reflexivity|])
  | |- exists H', Some _ = Some H' /\ _ => eexists; split; [reflexivity|]
  | |- exists H', (if ?c then _ else _) = Some H' /\ _ =>
      let Hc := fresh "Hc" in destruct c eqn:Hc; [try clash|try clash]; account_step
  end.

(** Follows a program, call by call. *)
Ltac lawful_step :=
  lazymatch goal with
  | |- lawful _ (mbind _ (mbind _ _)) _ => apply lawful_assoc
  | |- lawful _ (mbind _ (mret _)) _ => apply lawful_ret_bind
  | |- lawful _ (mbind _ (if _ then _ else _)) _ => apply lawful_if_bind; intros ?; try clash
  | |- lawful _ (mbind _ (match ?x with _ => _ end)) _ => destruct x eqn:?
  | |- lawful _ (mbind _ (call _)) _ => apply lawful_call_bind; intros ?; account_step
  | |- lawful _ (mbind _ (exit_ _)) _ => by apply lawful_stop_bind
  | |- lawful _ (mbind _ undef) _ => by apply lawful_stop_bind
  | |- lawful _ (mbind _ get) _ => eapply lawful_bind; [by apply lawful_silent|intros ? ? ->]
  | |- lawful _ (mbind _ (modify _)) _ => eapply lawful_bind; [by apply lawful_silent|intros ? ? ->]
  | |- lawful _ (mbind _ (deref _)) _ => eapply lawful_bind; [apply lawful_deref|intros ? ? ->]
  | |- lawful _ (mbind _ (assert_ _)) _ => eapply lawful_bind; [apply lawful_assert|intros ? ? ->]
  | |- lawful _ (mbind _ (loop _ _ _)) _ => eapply lawful_bind; [apply lawful_loop; intros ?|intros ? ? ->]
  | |- lawful _ (mbind _ (when _ _)) _ => eapply lawful_bind; [apply lawful_when; intros ?|intros ? ? ->]
  | |- lawful _ (mbind _ _) _ => apply balanced_bind; [solve [eauto with lawful]|intros ?]
  | |- lawful _ (mret _) _ => apply lawful_ret
  | |- lawful _ (call _) _ => apply lawful_call; intros ?; account_step
  | |- lawful _ (loop _ _ _) _ => apply lawful_loop; intros ?
  | |- lawful _ (when _ _) _ => apply lawful_when; intros ?
  | |- lawful _ (if _ then _ else _) _ => apply lawful_if; intros ?; try clash
  | |- lawful _ (match ?x with _ => _ end) _ => destruct x eqn:?
  | |- lawful _ undef _ => by apply lawful_stop
  | |- lawful _ (stop _) _ => by apply lawful_stop
  | |- lawful _ (exit_ _) _ => by apply lawful_stop
  | |- lawful _ (modify _) _ => by apply lawful_silent
  | |- lawful _ get _ => by apply lawful_silent
  | |- lawful _ ?m _ =>
      let Hm := fresh "Hm" in
      assert (Hm : balanced m) by eauto with lawful;
      eapply lawful_mono; [apply Hm|intros ? ? ->]
  end.

Ltac lawful_go := repeat lawful_step; try done; try clash.
