(* ===== verification/ParseLine.v ===== *)
(** * The command-line tokenizer (src/src/util.c)

    [parse_line] walks a NUL-terminated line in place: it overwrites the end of
    each token with a NUL and stores a pointer to the token's start in the
    caller's array.  The model keeps the buffer, the pointers (indices) and the
    array's capacity; [tokenize] is the pure specification. *)

From S2P Require Import Prelude IoWorld.

Abbreviation NUL := ("000"%char).
Abbreviation TAB := ("009"%char).
Abbreviation LF := ("010"%char).
Abbreviation CR := ("013"%char).
Abbreviation SP := ("032"%char).
Abbreviation DQUOTE := ("034"%char).
Abbreviation SQUOTE := ("039"%char).

(** ** The code *)

Inductive parse_state :=
  | s_token_pending
  | s_parse_plain_token
  | s_parse_quoted_token
  | s_parse_aposd_token.

#[export] Instance parse_state_eq_dec : EqDecision parse_state.
Proof. solve_decision. Defined.

(** The local variables of [parse_line]: the buffer behind [line], the position
    of [line] in it, [start], the pointers stored in [tokens], and [state]. *)
Record parser := mk_parser {
  p_buf : list ascii;
  p_line : nat;
  p_start : nat;
  p_tokens : list nat;
  p_state : parse_state
}.

Definition is_blank (ch : ascii) : bool :=
  bool_decide (ch ∈ [SP; TAB; CR; LF; NUL]).

(** [term = (ch == '\0' || ch == '\r' || ch == '\n')] *)
Definition is_term (ch : ascii) : bool :=
  bool_decide (ch = NUL) || bool_decide (ch = CR) || bool_decide (ch = LF).

(** [*line = '\0'; tokens[count++] = start; state = s_token_pending;], where the
    caller's array has [cap] elements. *)
Definition end_token (cap : nat) (p : parser) : res parser :=
  if (length (p_tokens p) <? cap)%nat
  then Ret (mk_parser (<[p_line p := NUL]> (p_buf p)) (p_line p) (p_start p)
              (p_tokens p ++ [p_start p]) s_token_pending)
  else Undef.

(** The [switch] over [state] and [ch]; [inr] is [return (-1)]. *)
Definition parse_switch (cap : nat) (ch : ascii) (p : parser) : res (parser + Z) :=
  let cont (r : res parser) : res (parser + Z) :=
    match r with
    | Ret p' => Ret (inl p')
    | _ => Undef
    end in
  let goto start st := Ret (inl (mk_parser (p_buf p) (p_line p) start (p_tokens p) st)) in
  match p_state p with
  | s_token_pending =>
      if is_blank ch then Ret (inl p)
      else if bool_decide (ch = DQUOTE) then goto (S (p_line p)) s_parse_quoted_token
      else if bool_decide (ch = SQUOTE) then goto (S (p_line p)) s_parse_aposd_token
      else goto (p_line p) s_parse_plain_token
  | s_parse_plain_token =>
      if is_blank ch then cont (end_token cap p)
      else if bool_decide (ch = SQUOTE) || bool_decide (ch = DQUOTE) then Ret (inr (-1))
      else Ret (inl p)
  | s_parse_quoted_token =>
      if bool_decide (ch = NUL) then Ret (inr (-1))
      else if bool_decide (ch = DQUOTE) then cont (end_token cap p)
      else Ret (inl p)
  | s_parse_aposd_token =>
      if bool_decide (ch = NUL) then Ret (inr (-1))
      else if bool_decide (ch = SQUOTE) then cont (end_token cap p)
      else Ret (inl p)
  end.

(** One turn of [while (!term)]: read [*line], switch, [++line], test. *)
Fixpoint parse_loop (fuel : nat) (cap : nat) (p : parser) : res (Z * parser) :=
  match fuel with
  | O => OutOfFuel
  | S n =>
      match p_buf p !! p_line p with
      | None => Undef
      | Some ch =>
          match parse_switch cap ch p with
          | Ret (inl p1) =>
              let p2 := mk_parser (p_buf p1) (S (p_line p1)) (p_start p1)
                          (p_tokens p1) (p_state p1) in
              if is_term ch
              then Ret (if bool_decide (p_state p2 = s_token_pending) then 0 else -1, p2)
              else parse_loop n cap p2
          | Ret (inr code) => Ret (code, p)
          | _ => Undef
          end
      end
  end.

(** The C string a stored pointer denotes in the final buffer. *)
Fixpoint cstring (l : list ascii) : list ascii :=
  match l with
  | [] => []
  | c :: l' => if bool_decide (c = NUL) then [] else c :: cstring l'
  end.

Definition token_at (buf : list ascii) (i : nat) : list ascii := cstring (drop i buf).

(** The call: its return code and the strings the caller finds in [tokens]. *)
Definition parse_line (cap : nat) (line : list ascii) : res (Z * list (list ascii)) :=
  match parse_loop (S (length line)) cap (mk_parser line 0 0 [] s_token_pending) with
  | Ret (code, p) => Ret (code, token_at (p_buf p) <$> p_tokens p)
  | Exit c => Exit c
  | Undef => Undef
  | Blocked => Blocked
  | OutOfFuel => OutOfFuel
  end.

(** The array [shell_loop] passes. *)
Definition shell_tokens_cap : nat := 256.

(** ** The specification *)

(** What a line means, read left to right with no mutation: whether it is well
    formed, and the tokens completed before the end or the first error.  [acc] is
    the token being read, reversed. *)
Fixpoint tokenize (st : parse_state) (acc : list ascii) (l : list ascii)
    : bool * list (list ascii) :=
  match l with
  | [] => (false, [])
  | ch :: l' =>
      let emit := let '(ok, ts) := if is_term ch then (true, [])
                                   else tokenize s_token_pending [] l' in
                  (ok, rev acc :: ts) in
      let next st acc := if is_term ch then (false, []) else tokenize st acc l' in
      match st with
      | s_token_pending =>
          if is_blank ch then if is_term ch then (true, []) else tokenize st [] l'
          else if bool_decide (ch = DQUOTE) then tokenize s_parse_quoted_token [] l'
          else if bool_decide (ch = SQUOTE) then tokenize s_parse_aposd_token [] l'
          else tokenize s_parse_plain_token [ch] l'
      | s_parse_plain_token =>
          if is_blank ch then emit
          else if bool_decide (ch = SQUOTE) || bool_decide (ch = DQUOTE) then (false, [])
          else tokenize st (ch :: acc) l'
      | s_parse_quoted_token =>
          if bool_decide (ch = DQUOTE) then emit else next st (ch :: acc)
      | s_parse_aposd_token =>
          if bool_decide (ch = SQUOTE) then emit else next st (ch :: acc)
      end
  end.

(** Printing tokens back as a line the shell accepts. *)
Definition quote_token (t : list ascii) : list ascii := DQUOTE :: t ++ [DQUOTE; SP].
Definition print_line (ts : list (list ascii)) : list ascii :=
  concat (quote_token <$> ts) ++ [LF; NUL].

Definition quotable (t : list ascii) : Prop :=
  Forall (fun c => c <> DQUOTE /\ is_term c = false) t.

(** ** Memory invariant of the loop *)

Section Refinement.
(** Token [t] starts at [i], is followed by a NUL, and lies before [line]. *)
Definition stored (buf : list ascii) (line i : nat) (t : list ascii) : Prop :=
  (NUL ∉ t) /\ (i + length t < line)%nat /\
  (forall k c, t !! k = Some c -> buf !! (i + k)%nat = Some c) /\
  buf !! (i + length t)%nat = Some NUL.

(** The characters read since [start] are those of [acc]. *)
Definition reading (buf : list ascii) (line start : nat) (acc : list ascii) : Prop :=
  (NUL ∉ acc) /\ (start + length acc = line)%nat /\
  (forall k c, rev acc !! k = Some c -> buf !! (start + k)%nat = Some c).

Lemma stored_token_at buf line i t : stored buf line i t -> token_at buf i = t.
Proof.
  unfold token_at. intros (Hn & _ & Ht & Hz).
  revert i Ht Hz. induction t as [|c t IH]; intros i Ht Hz; simpl in *.
  - rewrite Nat.add_0_r in Hz. by rewrite (drop_S _ _ _ Hz).
  - assert (Hc : buf !! i = Some c) by (rewrite <- (Nat.add_0_r i); by apply Ht).
    rewrite (drop_S _ _ _ Hc); simpl. rewrite bool_decide_false by set_solver.
    f_equal. apply IH; [set_solver | intros k d Hd | by rewrite <- Hz; f_equal; lia].
    rewrite <- (Ht (S k) d Hd). f_equal; lia.
Qed.

Lemma stored_insert buf line i t c :
  stored buf line i t -> stored (<[line := c]> buf) (S line) i t.
Proof.
  intros (Hn & Hlt & Ht & Hz). split_and!; [done | lia | |].
  - intros k d Hd. pose proof (lookup_lt_Some _ _ _ Hd).
    rewrite list_lookup_insert_ne by lia. by apply Ht.
  - by rewrite list_lookup_insert_ne by lia.
Qed.

Lemma stored_mono buf line i t : stored buf line i t -> stored buf (S line) i t.
Proof. intros (? & ? & ? & ?). split_and!; [done | lia | done | done]. Qed.

Lemma reading_emit buf line start acc :
  (line < length buf)%nat -> reading buf line start acc ->
  stored (<[line := NUL]> buf) (S line) start (rev acc).
Proof.
  intros Hl (Hn & Hlen & Ha). unfold stored. rewrite length_rev. split_and!.
  - by rewrite list_elem_of_In, <- in_rev, <- list_elem_of_In.
  - lia.
  - intros k d Hd. pose proof (lookup_lt_Some _ _ _ Hd) as Hk. rewrite length_rev in Hk.
    rewrite list_lookup_insert_ne by lia. by apply Ha.
  - rewrite Hlen. by apply list_lookup_insert_eq.
Qed.

Lemma reading_next buf line start acc ch :
  buf !! line = Some ch -> ch <> NUL -> reading buf line start acc ->
  reading buf (S line) start (ch :: acc).
Proof.
  intros Hch Hz (Hn & Hlen & Ha). unfold reading; simpl. split_and!; [by rewrite not_elem_of_cons | lia |].
  intros k d Hd. apply lookup_app_Some in Hd as [Hd|[Hk Hd]]; [by apply Ha|].
  rewrite length_rev in Hk, Hd. apply list_lookup_singleton_Some in Hd as [? <-].
  rewrite <- Hch. f_equal. lia.
Qed.

Lemma reading_nil buf line start : line = start -> reading buf line start [].
Proof. intros ->. split_and!; [set_solver | simpl; lia | intros k c Hk; simpl in Hk; by rewrite lookup_nil in Hk]. Qed.

Definition loop_result (cap : nat) (pre : list (list ascii)) (r : res (Z * parser))
    (spec : bool * list (list ascii)) : Prop :=
  if (length pre + length spec.2 <=? cap)%nat
  then exists p', r = Ret (if spec.1 then 0 else -1, p') /\
                  token_at (p_buf p') <$> p_tokens p' = pre ++ spec.2
  else r = Undef.

(** What the loop relies on: the tokens stored so far, and the one being read. *)
Definition loop_inv (cap : nat) (p : parser) (acc : list ascii) (pre : list (list ascii)) : Prop :=
  Forall2 (stored (p_buf p) (p_line p)) (p_tokens p) pre /\
  (length pre <= cap)%nat /\
  (p_state p <> s_token_pending -> reading (p_buf p) (p_line p) (p_start p) acc).

Lemma loop_inv_tokens cap p acc pre :
  loop_inv cap p acc pre -> token_at (p_buf p) <$> p_tokens p = pre.
Proof.
  intros (H & _ & _). induction H as [|i t ps ts Hi _ IH]; csimpl; [done|].
  f_equal; [by eapply stored_token_at | done].
Qed.

Lemma loop_result_done cap p acc pre (ok : bool) :
  loop_inv cap p acc pre ->
  loop_result cap pre (Ret (if ok then 0 else -1, p)) (ok, []).
Proof.
  intros Hinv. unfold loop_result; simpl.
  destruct (Nat.leb_spec (length pre + 0) cap); [|destruct Hinv as (_ & ? & _); lia].
  exists p. split; [done|]. by rewrite app_nil_r, (loop_inv_tokens _ _ _ _ Hinv).
Qed.

Lemma loop_inv_next cap p acc pre start' st' acc' :
  loop_inv cap p acc pre ->
  (st' <> s_token_pending -> reading (p_buf p) (S (p_line p)) start' acc') ->
  loop_inv cap (mk_parser (p_buf p) (S (p_line p)) start' (p_tokens p) st') acc' pre.
Proof.
  intros (Ht & Hc & _) Hr. split_and!; simpl; [|done|done].
  eapply Forall2_impl; [done|]. intros; by apply stored_mono.
Qed.

Lemma loop_inv_emit cap p acc pre :
  loop_inv cap p acc pre -> p_state p <> s_token_pending ->
  (p_line p < length (p_buf p))%nat ->
  if (length (p_tokens p) <? cap)%nat
  then loop_inv cap (mk_parser (<[p_line p := NUL]> (p_buf p)) (S (p_line p)) (p_start p)
         (p_tokens p ++ [p_start p]) s_token_pending) [] (pre ++ [rev acc])
  else (length pre = cap)%nat.
Proof.
  intros (Ht & Hc & Hr) Hst Hl. pose proof (Forall2_length _ _ _ Ht) as Hlen.
  destruct (Nat.ltb_spec (length (p_tokens p)) cap); [|lia].
  split_and!; simpl; [| rewrite length_app; simpl; lia | done].
  apply Forall2_app.
  - eapply Forall2_impl; [done|]. intros; by apply stored_insert.
  - constructor; [|constructor]. by apply reading_emit; [|apply Hr].
Qed.
End Refinement.


Lemma loop_result_emit cap pre t spec r :
  loop_result cap (pre ++ [t]) r spec -> loop_result cap pre r (spec.1, t :: spec.2).
Proof.
  unfold loop_result; simpl. rewrite length_app; simpl.
  replace (length pre + S (length spec.2))%nat with (length pre + 1 + length spec.2)%nat by lia.
  destruct (_ <=? _)%nat; [|done]. intros (p' & -> & Ht). exists p'. split; [done|].
  by rewrite Ht, <- app_assoc.
Qed.

Lemma is_term_blank ch : is_blank ch = false -> is_term ch = false.
Proof.
  unfold is_blank, is_term. intros Hb%bool_decide_eq_false.
  rewrite !not_elem_of_cons in Hb. destruct_and!.
  by rewrite !bool_decide_false by done.
Qed.

Lemma is_term_NUL ch : is_term ch = false -> ch <> NUL.
Proof. by intros Ht ->. Qed.

(** One turn that only moves on: the loop answers as the specification does. *)
Definition next_result (n cap : nat) (p2 : parser) (ch : ascii) : res (Z * parser) :=
  if is_term ch
  then Ret (if bool_decide (p_state p2 = s_token_pending) then 0 else -1, p2)
  else parse_loop n cap p2.

Definition next_spec (st : parse_state) (acc : list ascii) (ch : ascii) (rest : list ascii)
    : bool * list (list ascii) :=
  if is_term ch then (bool_decide (st = s_token_pending), []) else tokenize st acc rest.

Section Turn.
Context (cap n : nat) (p : parser) (acc : list ascii) (pre : list (list ascii)).
Context (ch : ascii) (rest : list ascii).
Context (IH : forall p acc pre,
  drop (p_line p) (p_buf p) = rest -> NUL ∈ rest -> loop_inv cap p acc pre ->
  loop_result cap pre (parse_loop n cap p) (tokenize (p_state p) acc rest)).
Context (Hch : p_buf p !! p_line p = Some ch).
Context (Hdrop : drop (S (p_line p)) (p_buf p) = rest).
Context (HNUL : NUL ∈ ch :: rest).
Context (Hinv : loop_inv cap p acc pre).

Lemma next_result_spec p2 acc2 pre2 :
  drop (p_line p2) (p_buf p2) = rest -> loop_inv cap p2 acc2 pre2 ->
  loop_result cap pre2 (next_result n cap p2 ch) (next_spec (p_state p2) acc2 ch rest).
Proof using IH HNUL.
  intros Hd Hi. unfold next_result, next_spec. destruct (is_term ch) eqn:Ht.
  - exact (loop_result_done _ _ _ _ (bool_decide (p_state p2 = s_token_pending)) Hi).
  - apply IH; [done | | done].
    pose proof (is_term_NUL _ Ht). pose proof HNUL as HN.
    apply elem_of_cons in HN as [HN|HN]; [congruence | done].
Qed.

(** Going on in state [st'] with the same tokens. *)
Lemma turn_goto start' st' acc' :
  (st' <> s_token_pending -> reading (p_buf p) (S (p_line p)) start' acc') ->
  loop_result cap pre
    (next_result n cap (mk_parser (p_buf p) (S (p_line p)) start' (p_tokens p) st') ch)
    (next_spec st' acc' ch rest).
Proof using IH HNUL Hinv Hdrop.
  intros Hr. apply next_result_spec; [done|]. by eapply loop_inv_next.
Qed.

(** Ending the current token. *)
Lemma turn_emit :
  p_state p <> s_token_pending ->
  loop_result cap pre
    (match end_token cap p with
     | Ret p1 => next_result n cap (mk_parser (p_buf p1) (S (p_line p1)) (p_start p1)
                                      (p_tokens p1) (p_state p1)) ch
     | _ => Undef
     end)
    (let spec := next_spec s_token_pending [] ch rest in (spec.1, rev acc :: spec.2)).
Proof using IH HNUL Hinv Hdrop Hch.
  intros Hst. unfold end_token.
  pose proof (loop_inv_emit _ _ _ _ Hinv Hst (lookup_lt_Some _ _ _ Hch)) as Hemit.
  destruct (_ <? _)%nat.
  - assert (Hd : drop (S (p_line p)) (<[p_line p := NUL]> (p_buf p)) = rest)
      by by rewrite drop_insert_lt by lia.
    apply loop_result_emit. match type of Hemit with loop_inv _ ?q _ _ => exact (next_result_spec q _ _ Hd Hemit) end.
  - unfold loop_result; simpl.
    by rewrite (proj2 (Nat.leb_gt _ _)) by lia.
Qed.
End Turn.

(** The code and the specification around the end of a token, in one shape. *)
Lemma emit_shape n cap p acc pre ch rest :
  loop_result cap pre
    (match end_token cap p with
     | Ret p1 => next_result n cap (mk_parser (p_buf p1) (S (p_line p1)) (p_start p1)
                                      (p_tokens p1) (p_state p1)) ch
     | _ => Undef
     end)
    (let spec := next_spec s_token_pending [] ch rest in (spec.1, rev acc :: spec.2)) ->
  loop_result cap pre
    (match (match end_token cap p with Ret p' => Ret (inl p') | _ => Undef end) with
     | Ret (inl p1) =>
         let p2 := mk_parser (p_buf p1) (S (p_line p1)) (p_start p1) (p_tokens p1) (p_state p1) in
         if is_term ch
         then Ret (if bool_decide (p_state p2 = s_token_pending) then 0 else -1, p2)
         else parse_loop n cap p2
     | Ret (inr code) => Ret (code, p)
     | _ => Undef
     end)
    (let '(ok, ts) := if is_term ch then (true, []) else tokenize s_token_pending [] rest in
     (ok, rev acc :: ts)).
Proof.
  intros H. change (if is_term ch then (true, []) else tokenize s_token_pending [] rest)
    with (next_spec s_token_pending [] ch rest).
  destruct (next_spec s_token_pending [] ch rest) as [ok ts]. by destruct (end_token cap p).
Qed.

Lemma parse_loop_spec cap n p acc pre rest :
  drop (p_line p) (p_buf p) = rest -> (length rest < n)%nat -> NUL ∈ rest ->
  loop_inv cap p acc pre ->
  loop_result cap pre (parse_loop n cap p) (tokenize (p_state p) acc rest).
Proof.
  revert p acc pre rest. induction n as [|n IHn]; intros p acc pre rest Hrest Hlen HNUL Hinv; [lia|].
  destruct rest as [|ch rest]; [by apply not_elem_of_nil in HNUL|].
  assert (Hch : p_buf p !! p_line p = Some ch).
  { rewrite <- (Nat.add_0_r (p_line p)), <- lookup_drop, Hrest. done. }
  assert (Hdrop : drop (S (p_line p)) (p_buf p) = rest).
  { rewrite <- Nat.add_1_r, <- drop_drop, Hrest. done. }
  simpl in Hlen.
  assert (IH : forall p acc pre, drop (p_line p) (p_buf p) = rest -> NUL ∈ rest ->
     loop_inv cap p acc pre -> loop_result cap pre (parse_loop n cap p) (tokenize (p_state p) acc rest))
    by (intros; apply IHn; [done | lia | done | done]).
  clear IHn. pose proof (turn_goto cap n p acc pre ch rest IH Hdrop HNUL Hinv) as Hgoto.
  pose proof (turn_emit cap n p acc pre ch rest IH Hch Hdrop HNUL Hinv) as Hemit.
  pose proof (loop_result_done cap p acc pre false Hinv) as Herr.
  assert (Hread : p_state p <> s_token_pending -> ch <> NUL ->
     reading (p_buf p) (S (p_line p)) (p_start p) (ch :: acc)).
  { intros. apply reading_next; [done | done | by apply Hinv]. }
  simpl. rewrite Hch. unfold parse_switch. simpl.
  destruct (p_state p) eqn:Hst.
  - destruct (is_blank ch) eqn:Hb.
    { specialize (Hgoto (p_start p) s_token_pending []). rewrite Hst. by apply Hgoto. }
    pose proof (is_term_blank _ Hb) as Ht. unfold next_result, next_spec in Hgoto.
    rewrite Ht in *. assert (Hz : ch <> NUL) by by apply is_term_NUL.
    destruct (bool_decide (ch = DQUOTE)); [|destruct (bool_decide (ch = SQUOTE))]; simpl.
    + apply (Hgoto _ s_parse_quoted_token []). intros _. by apply reading_nil.
    + apply (Hgoto _ s_parse_aposd_token []). intros _. by apply reading_nil.
    + apply (Hgoto _ s_parse_plain_token [ch]). intros _. apply reading_next; [done..|].
      by apply reading_nil.
  - specialize (Hemit ltac:(done)). specialize (Hread ltac:(done)).
    destruct (is_blank ch) eqn:Hb; [by apply emit_shape|].
    pose proof (is_term_blank _ Hb) as Ht. unfold next_result, next_spec in Hgoto.
    rewrite Ht in *. destruct (_ || _); [done|]. rewrite Hst.
    apply (Hgoto _ s_parse_plain_token (ch :: acc)). intros _. apply Hread. by apply is_term_NUL.
  - specialize (Hemit ltac:(done)). specialize (Hread ltac:(done)).
    case_bool_decide as Hz; [by subst|].
    destruct (bool_decide (ch = DQUOTE)); [by apply emit_shape|]. rewrite Hst.
    exact (Hgoto _ s_parse_quoted_token (ch :: acc) (fun _ => Hread Hz)).
  - specialize (Hemit ltac:(done)). specialize (Hread ltac:(done)).
    case_bool_decide as Hz; [by subst|].
    destruct (bool_decide (ch = SQUOTE)); [by apply emit_shape|]. rewrite Hst.
    exact (Hgoto _ s_parse_aposd_token (ch :: acc) (fun _ => Hread Hz)).
Qed.

(** ** Lemmas about the specification *)

Definition state_credit (st : parse_state) : nat :=
  match st with s_token_pending => 0 | _ => 1 end.

(** Every token costs at least two characters of the line. *)
Lemma tokenize_length st acc l :
  (2 * length (tokenize st acc l).2 <= length l + state_credit st)%nat.
Proof.
  revert st acc. induction l as [|ch l IH]; intros st acc; [simpl; lia|].
  assert (Hemit : (2 * length (let '(ok, ts) := if is_term ch then (true, [])
                    else tokenize s_token_pending [] l in (ok, rev acc :: ts)).2
                   <= S (length l) + 1)%nat).
  { pose proof (IH s_token_pending []) as Hp; simpl in Hp.
    destruct (is_term ch); simpl; [lia|].
    destruct (tokenize s_token_pending [] l) as [ok ts]; simpl in *; lia. }
  pose proof (IH st acc) as H0. pose proof (IH st (ch :: acc)) as H1.
  pose proof (IH s_token_pending []) as H2. pose proof (IH s_parse_quoted_token []) as H3.
  pose proof (IH s_parse_aposd_token []) as H4. pose proof (IH s_parse_plain_token [ch]) as H5.
  destruct st; simpl in *; repeat case_match; simpl in *; try lia; exact Hemit.
Qed.

Lemma tokenize_quoted acc t rest :
  quotable t ->
  tokenize s_parse_quoted_token acc (t ++ DQUOTE :: rest) =
  (fun '(ok, ts) => (ok, (rev acc ++ t) :: ts)) (tokenize s_token_pending [] rest).
Proof.
  intros Ht. revert acc. induction Ht as [|c t [Hc Hterm] _ IH]; intros acc.
  - simpl. rewrite app_nil_r. by destruct (tokenize s_token_pending [] rest).
  - cbn [app tokenize]. rewrite bool_decide_false, Hterm by done.
    rewrite IH. simpl. by rewrite <- app_assoc.
Qed.

Lemma tokenize_print ts : Forall quotable ts -> tokenize s_token_pending [] (print_line ts) = (true, ts).
Proof.
  unfold print_line. induction 1 as [|t ts Ht _ IH]; [done|].
  csimpl. unfold quote_token at 1. cbn [app]. rewrite <- !app_assoc. cbn [app].
  change (tokenize s_parse_quoted_token []
    (t ++ DQUOTE :: SP :: concat (quote_token <$> ts) ++ [LF; NUL]) = (true, t :: ts)).
  rewrite tokenize_quoted by done.
  change (tokenize s_token_pending [] (SP :: ?l)) with (tokenize s_token_pending [] l).
  cbn [tokenize]. by rewrite IH.
Qed.

Lemma parse_line_eq cap line :
  NUL ∈ line ->
  parse_line cap line =
    if (length (tokenize s_token_pending [] line).2 <=? cap)%nat
    then Ret (if (tokenize s_token_pending [] line).1 then 0 else -1,
              (tokenize s_token_pending [] line).2)
    else Undef.
Proof.
  intros HNUL.
  assert (Hinv : loop_inv cap (mk_parser line 0 0 [] s_token_pending) [] [])
    by (split_and!; simpl; [constructor | lia | done]).
  pose proof (parse_loop_spec cap (S (length line))
                (mk_parser line 0 0 [] s_token_pending) [] [] line (eq_refl line)
                ltac:(lia) HNUL Hinv) as Hr.
  unfold parse_line, loop_result in *. cbn [length Nat.add app p_state] in Hr.
  destruct (_ <=? cap)%nat; [|by rewrite Hr].
  destruct Hr as (p' & -> & Ht). by rewrite Ht.
Qed.

(** ** Properties *)

(** C38: [parse_line], with its in-place NULs and stored pointers, implements the
    pure tokenizer: on every NUL-terminated line it ends, returns 0 exactly on
    well-formed lines (else -1), and the stored pointers denote the tokens of the
    specification; it is undefined exactly when the tokens exceed the array. *)
Theorem parse_line_refines cap line :
  NUL ∈ line ->
  let '(ok, ts) := tokenize s_token_pending [] line in
  parse_line cap line =
    if decide (length ts <= cap)%nat then Ret (if ok then 0 else -1, ts) else Undef.
Proof.
  intros HNUL. pose proof (parse_line_eq cap line HNUL) as Heq.
  destruct (tokenize s_token_pending [] line) as [ok ts]; simpl in Heq. rewrite Heq.
  destruct (Nat.leb_spec (length ts) cap); case_decide; done || lia.
Qed.

Lemma parse_line_refines_witness :
  parse_line 256 (list_ascii_of_string "ls -l" ++ [LF; NUL]) =
    Ret (0, [list_ascii_of_string "ls"; list_ascii_of_string "-l"]).
Proof.
  exact (parse_line_refines 256 (list_ascii_of_string "ls -l" ++ [LF; NUL])
           ltac:(list_mem)).
Defined.

(** Printing then parsing is the identity: tokens without double quotes and
    line ends, printed in double quotes, come back as they were. *)
Theorem parse_line_roundtrip cap ts :
  Forall quotable ts -> (length ts <= cap)%nat ->
  parse_line cap (print_line ts) = Ret (0, ts).
Proof.
  intros Hts Hlen. rewrite parse_line_eq, tokenize_print by (try done; unfold print_line; set_solver).
  simpl. by rewrite (proj2 (Nat.leb_le _ _) Hlen).
Qed.

Lemma parse_line_roundtrip_witness :
  parse_line 256 (print_line [list_ascii_of_string "put"; list_ascii_of_string "my game.iso"]) =
    Ret (0, [list_ascii_of_string "put"; list_ascii_of_string "my game.iso"]).
Proof.
  apply (parse_line_roundtrip 256); [|simpl; lia].
  repeat constructor; done.
Defined.

(** Memory safety of the token array: a line of at most [2 * cap + 1] bytes,
    the NUL included, is parsed without undefined behaviour; the bound is sharp for
    the 256-element array of [shell_loop], which a line of 514 bytes runs past. *)
Theorem parse_line_bounds cap line :
  NUL ∈ line -> (length line <= 2 * cap + 1)%nat ->
  (exists code ts, parse_line cap line = Ret (code, ts) /\ (length ts <= cap)%nat) /\
  parse_line shell_tokens_cap (concat (replicate 256 ["a"%char; SP]) ++ ["a"%char; NUL]) = Undef.
Proof.
  intros HNUL Hlen. split; [|by vm_compute].
  pose proof (tokenize_length s_token_pending [] line) as Hb; simpl in Hb.
  rewrite parse_line_eq by done. rewrite (proj2 (Nat.leb_le _ _)) by lia.
  eexists _, _. split; [done|lia].
Qed.

Lemma parse_line_bounds_witness :
  exists code ts, parse_line 1 (list_ascii_of_string "ls" ++ [NUL]) = Ret (code, ts).
Proof.
  destruct (parse_line_bounds 1 (list_ascii_of_string "ls" ++ [NUL])) as [(c & ts & H & _) _].
  - list_mem.
  - simpl; lia.
  - exists c, ts. exact H.
Defined.
