(* ===== verification/Getline.v ===== *)
(** * Reading a line (src/src/shell.c, getline, where NEED_GETLINE is defined)

    The replacement for [getline] that the shell is built with where the library has
    none: a buffer that grows by 128 bytes. *)

From S2P Require Import Prelude IoWorld Trace.

(** What the caller passes by reference: the buffer, all its bytes, with its size, and
    the bytes still ahead in the stream. *)
Record getline_args := mk_getline {
  lineptr : option (list Z);
  gl_n : Z;
  gl_stream : list Z
}.

Definition set_stream (x : list Z) (s : getline_args) : getline_args := mk_getline (lineptr s) (gl_n s) x.
Definition set_buffer (buf : list Z) (size : Z) (s : getline_args) : getline_args :=
  mk_getline (Some buf) size (gl_stream s).

Section Getline.
Context {E : Type} `{Handler E}.
Local Abbreviation G := (M getline_args E).

(** [realloc] to a size: whether it moves the block.  The new bytes are indeterminate;
    none is read before it is written. *)
Context (moves : Z -> bool).

Definition fgetc : G (option Z) :=
  s ← get;
  match gl_stream s with
  | [] => mret None
  | c :: rest => modify (set_stream rest);; mret (Some c)
  end.

(** [*p++ = c]: outside the buffer it is undefined. *)
Definition put_char (buf : list Z) (p : nat) (c : Z) : G (list Z) :=
  assert_ (p <? length buf)%nat;; mret (<[p := c]> buf).

(** The test for a full buffer; [p] is not adjusted when the block moves, and the next
    use of it is undefined. *)
Definition grow (buf : list Z) (size : Z) (p : nat) : G (option (list Z * Z)) :=
  if u64 (size - 1) <? Z.of_nat p then
    let size := u64 (size + 128) in
    ok ← call (Host_malloc size);
    if ok : bool then
      assert_ (negb (moves size));;
      mret (Some (take (Z.to_nat size) (buf ++ replicate 128 0), size))
    else mret None
  else mret (Some (buf, size)).

(** A turn of the loop: [None] is the return of -1. *)
Definition getline_turn (x : list Z * Z * nat * option Z) :
    G ((list Z * Z * nat * option Z) + option (list Z * Z * nat)) :=
  let '(buf, size, p, c) := x in
  match c with
  | None => mret (inr (Some (buf, size, p)))
  | Some c =>
      g ← grow buf size p;
      match g with
      | None => mret (inr None)
      | Some (buf, size) =>
          buf ← put_char buf p c;
          if c =? 10 then mret (inr (Some (buf, size, S p)))
          else c ← fgetc; mret (inl (buf, size, S p, c))
      end
  end.

(** [-1] is what the caller, who keeps the result in an [int], sees. *)
Definition getline (fuel : nat) (lineptr_null stream_null n_null : bool) : G Z :=
  if lineptr_null then mret (-1) else
  if stream_null then mret (-1) else
  if n_null then mret (-1) else
  s ← get;
  c ← fgetc;
  match c with
  | None => mret (-1)
  | Some _ =>
      b ← match lineptr s with
          | Some buf => mret (Some (buf, gl_n s))
          | None => ok ← call (Host_malloc 128);
                    mret (if ok : bool then Some (replicate 128 0, 128) else None)
          end;
      match b with
      | None => mret (-1)
      | Some (buf, size) =>
          end_ ← loop fuel getline_turn (buf, size, 0%nat, c);
          match end_ with
          | None => mret (-1)
          | Some (buf, size, p) =>
              buf ← put_char buf p 0;
              modify (set_buffer buf size);;
              mret (Z.of_nat p)
          end
      end
  end.
End Getline.

(** ** What it reads *)

(** The bytes up to and with the first newline, and those after it. *)
Fixpoint split_line (s : list Z) : list Z * list Z :=
  match s with
  | [] => ([], [])
  | c :: s' => if c =? 10 then ([c], s') else let '(l, rest) := split_line s' in (c :: l, rest)
  end.

(** The buffer a call works with. *)
Definition capacity (s : getline_args) : Z := match lineptr s with Some _ => gl_n s | None => 128 end.

Definition buffer_ok (s : getline_args) : Prop :=
  match lineptr s with Some buf => Z.of_nat (length buf) = gl_n s /\ 0 < gl_n s < 2 ^ 63 | None => True end.

Section Reads.
Context {E : Type} `{Handler E} (moves : Z -> bool).
Context (malloc_works : forall (e : E) n, fst (handle (Host_malloc n) e) = true).
Local Abbreviation G := (M getline_args E).

(** Inside the buffer a turn stores its character; at its end the block grows, and a
    block that moves leaves [p] behind. *)
Lemma grow_inside buf size p :
  0 < size < 2 ^ 63 -> Z.of_nat p < size -> grow moves buf size p = (mret (Some (buf, size)) : G _).
Proof.
  intros Hs Hp. unfold grow. rewrite u64_small by lia. by rewrite (proj2 (Z.ltb_ge _ _)) by lia.
Qed.

Lemma grow_moves buf size p s e :
  0 < size < 2 ^ 63 -> Z.of_nat p = size -> moves (size + 128) = true ->
  wp (grow moves buf size p : G _) (fun r _ _ _ => r = Undef) s e.
Proof.
  intros Hs Hp Hm. unfold grow. rewrite !u64_small by lia. rewrite (proj2 (Z.ltb_lt _ _)) by lia.
  apply wp_bind, wp_call. intros ok e' He. pose proof (malloc_works e (size + 128)) as Hok.
  rewrite He in Hok. cbn in Hok. subst ok. cbn [bind_post]. rewrite Hm. by apply wp_bind, wp_stop.
Qed.

Lemma take_insert_next (buf : list Z) pre c :
  take (length pre) buf = pre -> (length pre < length buf)%nat ->
  take (length (pre ++ [c])) (<[length pre := c]> buf) = pre ++ [c].
Proof.
  intros Hp Hl. rewrite length_app, Nat.add_1_r. rewrite (take_S_r _ _ c) by by apply list_lookup_insert_eq.
  by rewrite take_insert_ge, Hp by lia.
Qed.

(** The loop with [pre] stored and [l] to come. *)
Definition looped (buf : list Z) (size : Z) (pre l : list Z) (s : getline_args) (rest : list Z)
    (r : res (option (list Z * Z * nat))) (s' : getline_args) : Prop :=
  let k := Z.of_nat (length (pre ++ l)) in
  (k <= size -> exists buf', r = Ret (Some (buf', size, length (pre ++ l))) /\
     length buf' = length buf /\ take (length (pre ++ l)) buf' = pre ++ l /\ s' = set_stream rest s) /\
  (size < k -> moves (size + 128) = true -> r = Undef).

Lemma getline_loop fuel buf size pre c str s e :
  Z.of_nat (length buf) = size -> 0 < size < 2 ^ 63 -> take (length pre) buf = pre ->
  Z.of_nat (length pre) <= size -> gl_stream s = str -> (S (length str) < fuel)%nat ->
  wp (loop fuel (getline_turn moves) (buf, size, length pre, Some c))
     (fun r s' _ _ => looped buf size pre (split_line (c :: str)).1 s (split_line (c :: str)).2 r s') s e.
Proof.
  revert buf pre c str s e. induction fuel as [|fuel IH]; intros buf pre c str s e Hbuf Hsize Hpre Hle Hstr Hfuel; [lia|].
  assert (Hne : (0 < length (split_line (c :: str)).1)%nat).
  { cbn. destruct (c =? 10); [cbn; lia|]. destruct (split_line str). cbn. lia. }
  destruct (decide (Z.of_nat (length pre) = size)) as [Heq|Hlt].
  - assert (Hk : size < Z.of_nat (length (pre ++ (split_line (c :: str)).1))) by (rewrite length_app; lia).
    destruct (moves (size + 128)) eqn:Hm; [|split; [lia|by rewrite Hm]].
    apply wp_loop_S, wp_bind. eapply wp_mono; [by apply grow_moves|].
    intros r s' e' t ->. cbn [bind_post]. split; [lia|done].
  - apply wp_loop_S. unfold getline_turn at 1. rewrite grow_inside by lia. apply wp_bind, wp_ret. cbn [bind_post].
    apply wp_bind. unfold put_char at 1. rewrite (proj2 (Nat.ltb_lt _ _)) by lia.
    apply wp_bind, wp_ret. cbn [bind_post]. apply wp_ret. cbn [bind_post].
    pose proof (take_insert_next buf pre c Hpre ltac:(lia)) as Hnext.
    set (buf1 := <[length pre := c]> buf) in *. assert (Hbuf1 : length buf1 = length buf) by apply length_insert.
    clearbody buf1. replace (S (length pre)) with (length (pre ++ [c])) by (rewrite length_app; cbn; lia).
    cbn [split_line]. destruct (c =? 10).
    + apply wp_ret. cbn [bind_post]. apply wp_ret. cbn [fst snd]. subst str.
      split; [intros _|rewrite length_app; cbn; lia]. exists buf1. split_and!; [done..|].
      by destruct s.
    + unfold fgetc. apply wp_bind, wp_bind, wp_get. cbn [bind_post]. rewrite Hstr. destruct str as [|c' str].
      * apply wp_ret. cbn [bind_post]. apply wp_ret. cbn [bind_post split_line fst snd].
        destruct fuel as [|fuel]; [cbn in Hfuel; lia|]. apply wp_loop_S, wp_ret. cbn [bind_post]. apply wp_ret.
        split; [intros _|rewrite length_app; cbn; lia]. exists buf1. split_and!; [done..|].
        unfold set_stream. destruct s; cbn in *. by subst.
      * apply wp_bind, wp_modify. cbn [bind_post]. apply wp_ret. cbn [bind_post]. apply wp_ret. cbn [bind_post].
        eapply wp_mono.
        { apply (IH buf1 (pre ++ [c]) c' str); [lia|done|done| |done|cbn in Hfuel; lia]. rewrite length_app; cbn; lia. }
        cbv beta. destruct (split_line (c' :: str)) as [l rest]. cbn [fst snd]. unfold looped.
        rewrite <- !app_assoc. cbn [app]. rewrite Hbuf1. done.
Qed.

(** What a call makes of a line [l]. *)
Definition got_line (s : getline_args) (l rest : list Z) (r : res Z) (s' : getline_args) : Prop :=
  let k := Z.of_nat (length l) in
  (k < capacity s ->
     r = Ret k /\ exists buf, s' = mk_getline (Some buf) (capacity s) rest /\
       Z.of_nat (length buf) = capacity s /\ take (length l) buf = l /\ buf !! length l = Some 0) /\
  (k = capacity s -> r = Undef) /\
  (capacity s < k -> moves (capacity s + 128) = true -> r = Undef).

(** The end of a call, from its buffer on. *)
Lemma getline_from fuel buf c str s e :
  Z.of_nat (length buf) = capacity s -> 0 < capacity s < 2 ^ 63 ->
  gl_stream s = str -> (S (length str) < fuel)%nat ->
  wp (end_ ← loop fuel (getline_turn moves) (buf, capacity s, 0%nat, Some c);
      match end_ with
      | None => mret (-1)
      | Some (buf, size, p) => buf ← put_char buf p 0; modify (set_buffer buf size);; mret (Z.of_nat p)
      end)
     (fun r s' _ _ => got_line s (split_line (c :: str)).1 (split_line (c :: str)).2 r s') s e.
Proof.
  intros Hbuf Hcap Hstr Hfuel.
  destruct (decide (capacity s < Z.of_nat (length (split_line (c :: str)).1) /\ moves (capacity s + 128) = false))
    as [[Hgt Hm]|Hcase]; [split_and!; [lia|lia|congruence]|].
  apply wp_bind. eapply wp_mono.
  { apply (getline_loop fuel buf (capacity s) [] c str s e); cbn; try done; lia. }
  destruct (split_line (c :: str)) as [l rest]. cbn [fst snd app length Nat.add] in *.
  intros r s' e' t [Hin Hout]. cbn [app length] in *. unfold got_line.
  destruct (Z.le_gt_cases (Z.of_nat (length l)) (capacity s)) as [Hle|Hgt].
  - destruct (Hin Hle) as (buf' & -> & Hlen & Htake & ->). cbn [bind_post]. apply wp_bind. unfold put_char.
    destruct (decide (Z.of_nat (length l) = capacity s)) as [Heq|Hlt].
    + rewrite (proj2 (Nat.ltb_ge _ _)) by lia. apply wp_bind, wp_stop. split_and!; [lia|done|lia].
    + rewrite (proj2 (Nat.ltb_lt _ _)) by lia. apply wp_bind, wp_ret. cbn [bind_post]. apply wp_ret. cbn [bind_post].
      apply wp_bind, wp_modify. cbn [bind_post]. apply wp_ret. split_and!; [intros _|lia|lia].
      split; [done|]. eexists. split_and!; [reflexivity|by rewrite length_insert; lia| |].
      * by rewrite take_insert_ge by lia.
      * apply list_lookup_insert_eq. lia.
  - destruct (moves (capacity s + 128)) eqn:Hm; [|exfalso; apply Hcase; split; [lia|done]].
    rewrite (Hout Hgt eq_refl). cbn [bind_post]. split_and!; [lia|done|done].
Qed.

(** C39: a line shorter than the buffer is stored whole, with its newline and a final
    zero, and the stream stands after it; a line that fills the buffer exactly has its
    zero written past the end; and a longer one is written through a stale pointer when
    the block moves as it grows. *)
Theorem getline_bounds fuel c str s e :
  buffer_ok s -> gl_stream s = c :: str -> (S (length str) < fuel)%nat ->
  wp (getline moves fuel false false false)
     (fun r s' _ _ => got_line s (split_line (c :: str)).1 (split_line (c :: str)).2 r s') s e.
Proof.
  intros Hok Hstr Hfuel. unfold getline, fgetc. apply wp_bind, wp_get. cbn [bind_post].
  apply wp_bind, wp_bind, wp_get. cbn [bind_post]. rewrite Hstr. apply wp_bind, wp_modify. cbn [bind_post].
  apply wp_ret. cbn [bind_post]. apply wp_bind. unfold buffer_ok in Hok.
  destruct s as [[buf|] n st]; cbn [lineptr gl_n gl_stream] in *.
  - apply wp_ret. cbn [bind_post].
    exact (getline_from fuel buf c str (mk_getline (Some buf) n str) e (proj1 Hok) (proj2 Hok) eq_refl Hfuel).
  - apply wp_bind, wp_call. intros ok e' He. pose proof (malloc_works e 128) as Hw. rewrite He in Hw.
    cbn in Hw. subst ok. cbn [bind_post]. apply wp_ret. cbn [bind_post].
    exact (getline_from fuel (replicate 128 0) c str (mk_getline None n str) e' eq_refl ltac:(done) eq_refl Hfuel).
Qed.
End Reads.

(** The first line of a session, of 127 characters and its newline. *)
Lemma getline_bounds_witness :
  let full := replicate 127 97 ++ [10] in
  (split_line full).1 = full /\
  o_res (@getline (list Z) Sample.one_stream (fun _ => true) 200 false false false (mk_getline None 0 full) []) = Undef.
Proof.
  split; [reflexivity|].
  destruct (@getline_bounds (list Z) Sample.one_stream (fun _ => true) (fun _ _ => eq_refl) 200 97
              (replicate 126 97 ++ [10]) (mk_getline None 0 (replicate 127 97 ++ [10])) []
              I eq_refl ltac:(vm_compute; lia)) as (_ & Hfull & _).
  apply Hfull. reflexivity.
Defined.

(** A shorter one is read. *)
Example getline_sample :
  let o := @getline (list Z) Sample.one_stream (fun _ => true) 200 false false false
             (mk_getline None 0 [108; 115; 10; 113]) [] in
  o_res o = Ret 3 /\ (take 4 <$> lineptr (o_st o)) = Some [108; 115; 10; 0] /\ gl_stream (o_st o) = [113].
Proof. vm_compute. done. Qed.
