(* ===== verification/Modes.v ===== *)
(** * File modes and stat records

    iomanX and POSIX number the file types differently and share the permission
    bits.  pfs2tar converts bit by bit; the FUSE adapter widens each of read,
    write and execute to all three classes. *)

From S2P Require Import Prelude IoWorld.

(** ** Constants *)

(** src/src/iomanX_port.h *)
Definition FIO_S_IFMT := 0xF000.
Definition FIO_S_IFLNK := 0x4000.
Definition FIO_S_IFREG := 0x2000.
Definition FIO_S_IFDIR := 0x1000.
Definition FIO_S_ISUID := 0x0800.
Definition FIO_S_ISGID := 0x0400.
Definition FIO_S_ISVTX := 0x0200.
Definition FIO_S_IRUSR := 0x0100.
Definition FIO_S_IWUSR := 0x0080.
Definition FIO_S_IXUSR := 0x0040.
Definition FIO_S_IRGRP := 0x0020.
Definition FIO_S_IWGRP := 0x0010.
Definition FIO_S_IXGRP := 0x0008.
Definition FIO_S_IROTH := 0x0004.
Definition FIO_S_IWOTH := 0x0002.
Definition FIO_S_IXOTH := 0x0001.

Definition FIO_S_ISLNK (m : Z) : bool := Z.land m FIO_S_IFMT =? FIO_S_IFLNK.
Definition FIO_S_ISREG (m : Z) : bool := Z.land m FIO_S_IFMT =? FIO_S_IFREG.
Definition FIO_S_ISDIR (m : Z) : bool := Z.land m FIO_S_IFMT =? FIO_S_IFDIR.

(** The C library's [sys/stat.h]: 0170000, 0040000, 0100000, 0120000 and the
    permission bits 04000 .. 0001. *)
Definition S_IFMT := 0xF000.
Definition S_IFDIR := 0x4000.
Definition S_IFREG := 0x8000.
Definition S_IFLNK := 0xA000.
Definition S_ISUID := 0x800.
Definition S_ISGID := 0x400.
Definition S_ISVTX := 0x200.
Definition S_IRUSR := 0x100.
Definition S_IWUSR := 0x80.
Definition S_IXUSR := 0x40.
Definition S_IRGRP := 0x20.
Definition S_IWGRP := 0x10.
Definition S_IXGRP := 0x8.
Definition S_IROTH := 0x4.
Definition S_IWOTH := 0x2.
Definition S_IXOTH := 0x1.

Definition S_ISDIR (m : Z) : bool := Z.land m S_IFMT =? S_IFDIR.
Definition S_ISREG (m : Z) : bool := Z.land m S_IFMT =? S_IFREG.
Definition S_ISLNK (m : Z) : bool := Z.land m S_IFMT =? S_IFLNK.

(** ** pfs2tar (src/src/pfs2tar.c) *)

Definition tar_convert_mode_to_posix (iomanx_mode : Z) : Z :=
  let posix_mode := 0 in
  let posix_mode := or_if (FIO_S_ISDIR iomanx_mode) S_IFDIR posix_mode in
  let posix_mode := or_if (FIO_S_ISREG iomanx_mode) S_IFREG posix_mode in
  let posix_mode := or_if (FIO_S_ISLNK iomanx_mode) S_IFLNK posix_mode in
  let posix_mode := or_if (flag iomanx_mode FIO_S_IRUSR) S_IRUSR posix_mode in
  let posix_mode := or_if (flag iomanx_mode FIO_S_IWUSR) S_IWUSR posix_mode in
  let posix_mode := or_if (flag iomanx_mode FIO_S_IXUSR) S_IXUSR posix_mode in
  let posix_mode := or_if (flag iomanx_mode FIO_S_IRGRP) S_IRGRP posix_mode in
  let posix_mode := or_if (flag iomanx_mode FIO_S_IWGRP) S_IWGRP posix_mode in
  let posix_mode := or_if (flag iomanx_mode FIO_S_IXGRP) S_IXGRP posix_mode in
  let posix_mode := or_if (flag iomanx_mode FIO_S_IROTH) S_IROTH posix_mode in
  let posix_mode := or_if (flag iomanx_mode FIO_S_IWOTH) S_IWOTH posix_mode in
  let posix_mode := or_if (flag iomanx_mode FIO_S_IXOTH) S_IXOTH posix_mode in
  let posix_mode := or_if (flag iomanx_mode FIO_S_ISUID) S_ISUID posix_mode in
  let posix_mode := or_if (flag iomanx_mode FIO_S_ISGID) S_ISGID posix_mode in
  or_if (flag iomanx_mode FIO_S_ISVTX) S_ISVTX posix_mode.

Definition convert_posix_mode_to_iomanx (posix_mode : Z) : Z :=
  let iomanx_mode := 0 in
  let iomanx_mode := or_if (Z.land posix_mode 0xF000 =? 0x4000) FIO_S_IFDIR iomanx_mode in
  let iomanx_mode := or_if (Z.land posix_mode 0xF000 =? 0x8000) FIO_S_IFREG iomanx_mode in
  let iomanx_mode := or_if (Z.land posix_mode 0xF000 =? 0xA000) FIO_S_IFLNK iomanx_mode in
  let iomanx_mode := or_if (flag posix_mode 0x100) FIO_S_IRUSR iomanx_mode in
  let iomanx_mode := or_if (flag posix_mode 0x80) FIO_S_IWUSR iomanx_mode in
  let iomanx_mode := or_if (flag posix_mode 0x40) FIO_S_IXUSR iomanx_mode in
  let iomanx_mode := or_if (flag posix_mode 0x20) FIO_S_IRGRP iomanx_mode in
  let iomanx_mode := or_if (flag posix_mode 0x10) FIO_S_IWGRP iomanx_mode in
  let iomanx_mode := or_if (flag posix_mode 0x8) FIO_S_IXGRP iomanx_mode in
  let iomanx_mode := or_if (flag posix_mode 0x4) FIO_S_IROTH iomanx_mode in
  let iomanx_mode := or_if (flag posix_mode 0x2) FIO_S_IWOTH iomanx_mode in
  let iomanx_mode := or_if (flag posix_mode 0x1) FIO_S_IXOTH iomanx_mode in
  let iomanx_mode := or_if (flag posix_mode 0x800) FIO_S_ISUID iomanx_mode in
  let iomanx_mode := or_if (flag posix_mode 0x400) FIO_S_ISGID iomanx_mode in
  or_if (flag posix_mode 0x200) FIO_S_ISVTX iomanx_mode.

(** ** The FUSE adapter (src/src/iomanx_adapter.c); POSIX build *)

Definition adapter_convert_mode_to_posix (iomanx_mode : Z) : Z :=
  let posix_mode := 0 in
  let posix_mode := or_if (FIO_S_ISDIR iomanx_mode) S_IFDIR posix_mode in
  let posix_mode := or_if (FIO_S_ISREG iomanx_mode) S_IFREG posix_mode in
  let posix_mode := or_if (FIO_S_ISLNK iomanx_mode) S_IFLNK posix_mode in
  let posix_mode :=
    or_if (flag iomanx_mode (Z.lor (Z.lor FIO_S_IRUSR FIO_S_IRGRP) FIO_S_IROTH))
          (Z.lor (Z.lor S_IRUSR S_IRGRP) S_IROTH) posix_mode in
  let posix_mode :=
    or_if (flag iomanx_mode (Z.lor (Z.lor FIO_S_IWUSR FIO_S_IWGRP) FIO_S_IWOTH))
          (Z.lor (Z.lor S_IWUSR S_IWGRP) S_IWOTH) posix_mode in
  let posix_mode :=
    or_if (flag iomanx_mode (Z.lor (Z.lor FIO_S_IXUSR FIO_S_IXGRP) FIO_S_IXOTH))
          (Z.lor (Z.lor S_IXUSR S_IXGRP) S_IXOTH) posix_mode in
  let posix_mode := or_if (flag iomanx_mode FIO_S_ISUID) S_ISUID posix_mode in
  let posix_mode := or_if (flag iomanx_mode FIO_S_ISGID) S_ISGID posix_mode in
  or_if (flag iomanx_mode FIO_S_ISVTX) S_ISVTX posix_mode.

Definition adapter_convert_mode_to_iomanx (posix_mode : Z) : Z :=
  let iomanx_mode := 0 in
  let iomanx_mode := or_if (S_ISDIR posix_mode) FIO_S_IFDIR iomanx_mode in
  let iomanx_mode := or_if (S_ISREG posix_mode) FIO_S_IFREG iomanx_mode in
  let iomanx_mode := or_if (S_ISLNK posix_mode) FIO_S_IFLNK iomanx_mode in
  let iomanx_mode :=
    or_if (flag posix_mode (Z.lor (Z.lor S_IRUSR S_IRGRP) S_IROTH))
          (Z.lor (Z.lor FIO_S_IRUSR FIO_S_IRGRP) FIO_S_IROTH) iomanx_mode in
  let iomanx_mode :=
    or_if (flag posix_mode (Z.lor (Z.lor S_IWUSR S_IWGRP) S_IWOTH))
          (Z.lor (Z.lor FIO_S_IWUSR FIO_S_IWGRP) FIO_S_IWOTH) iomanx_mode in
  let iomanx_mode :=
    or_if (flag posix_mode (Z.lor (Z.lor S_IXUSR S_IXGRP) S_IXOTH))
          (Z.lor (Z.lor FIO_S_IXUSR FIO_S_IXGRP) FIO_S_IXOTH) iomanx_mode in
  let iomanx_mode := or_if (flag posix_mode S_ISUID) FIO_S_ISUID iomanx_mode in
  let iomanx_mode := or_if (flag posix_mode S_ISGID) FIO_S_ISGID iomanx_mode in
  or_if (flag posix_mode S_ISVTX) FIO_S_ISVTX iomanx_mode.

(** The low and the high word of a 64-bit [off_t], and back:
    [st_size = size; st_size |= (off_t)hisize << 32]. *)
Definition posix_size (size hisize : Z) : Z := Z.lor size (s64 (Z.shiftl hisize 32)).
Definition iomanx_size (st_size : Z) : Z := Z.land st_size 0xffffffff.
Definition iomanx_hisize (st_size : Z) : Z := Z.land (Z.shiftr st_size 32) 0xffffffff.

(** ** Lemmas *)

(** Every conversion tests and sets single bits: [bits] reduces a statement about
    one bit of a converted mode to booleans over the bits of the mode. *)

Lemma flag_bit m :
  flag m 0x800 = Z.testbit m 11 /\ flag m 0x400 = Z.testbit m 10 /\
  flag m 0x200 = Z.testbit m 9 /\ flag m 0x100 = Z.testbit m 8 /\
  flag m 0x80 = Z.testbit m 7 /\ flag m 0x40 = Z.testbit m 6 /\
  flag m 0x20 = Z.testbit m 5 /\ flag m 0x10 = Z.testbit m 4 /\
  flag m 0x8 = Z.testbit m 3 /\ flag m 0x4 = Z.testbit m 2 /\
  flag m 0x2 = Z.testbit m 1 /\ flag m 0x1 = Z.testbit m 0.
Proof. split_and!; by rewrite <- flag_testbit. Qed.

Ltac flags_to_bits m :=
  let H := fresh in
  pose proof (flag_bit m) as H;
  destruct H as (H11 & H10 & H9 & H8 & H7 & H6 & H5 & H4 & H3 & H2 & H1 & H0);
  rewrite ?H11, ?H10, ?H9, ?H8, ?H7, ?H6, ?H5, ?H4, ?H3, ?H2, ?H1, ?H0;
  clear H11 H10 H9 H8 H7 H6 H5 H4 H3 H2 H1 H0.

Lemma type_bits m :
  FIO_S_ISDIR m = (Z.testbit m 12 && negb (Z.testbit m 13) && negb (Z.testbit m 14) && negb (Z.testbit m 15)) /\
  FIO_S_ISREG m = (negb (Z.testbit m 12) && Z.testbit m 13 && negb (Z.testbit m 14) && negb (Z.testbit m 15)) /\
  FIO_S_ISLNK m = (negb (Z.testbit m 12) && negb (Z.testbit m 13) && Z.testbit m 14 && negb (Z.testbit m 15)) /\
  S_ISDIR m = (negb (Z.testbit m 12) && negb (Z.testbit m 13) && Z.testbit m 14 && negb (Z.testbit m 15)) /\
  S_ISREG m = (negb (Z.testbit m 12) && negb (Z.testbit m 13) && negb (Z.testbit m 14) && Z.testbit m 15) /\
  S_ISLNK m = (negb (Z.testbit m 12) && Z.testbit m 13 && negb (Z.testbit m 14) && Z.testbit m 15).
Proof.
  split_and!;
    [ etrans; [apply (nibble_testbit m 1); by apply enum16|]
    | etrans; [apply (nibble_testbit m 2); by apply enum16|]
    | etrans; [apply (nibble_testbit m 4); by apply enum16|]
    | etrans; [apply (nibble_testbit m 4); by apply enum16|]
    | etrans; [apply (nibble_testbit m 8); by apply enum16|]
    | etrans; [apply (nibble_testbit m 10); by apply enum16|] ];
    destruct (Z.testbit m 12), (Z.testbit m 13), (Z.testbit m 14), (Z.testbit m 15); reflexivity.
Qed.

(** Evaluates the bits of constants. *)
Ltac const_bits :=
  repeat match goal with
    | |- context [Z.testbit ?c ?k] =>
        let v := eval vm_compute in (Z.testbit c k) in
        lazymatch v with true => idtac | false => idtac end;
        change (Z.testbit c k) with v
    end;
  rewrite ?andb_false_r, ?andb_true_r, ?orb_false_r, ?orb_false_l.

(** Bit [i] of the four conversions, for [i < 16], in the bits of the argument. *)
Ltac conversion_bits f m :=
  unfold f; rewrite !testbit_or_if;
  destruct (type_bits m) as (Td & Tr & Tl & Sd & Sr & Sl);
  rewrite ?Td, ?Tr, ?Tl, ?Sd, ?Sr, ?Sl, ?flag_lor; clear Td Tr Tl Sd Sr Sl;
  unfold FIO_S_IRUSR, FIO_S_IWUSR, FIO_S_IXUSR, FIO_S_IRGRP, FIO_S_IWGRP, FIO_S_IXGRP,
    FIO_S_IROTH, FIO_S_IWOTH, FIO_S_IXOTH, FIO_S_ISUID, FIO_S_ISGID, FIO_S_ISVTX,
    S_IRUSR, S_IWUSR, S_IXUSR, S_IRGRP, S_IWGRP, S_IXGRP, S_IROTH, S_IWOTH, S_IXOTH,
    S_ISUID, S_ISGID, S_ISVTX; flags_to_bits m;
  const_bits.

Lemma tar_to_posix_bit m i :
  0 <= i < 12 -> Z.testbit (tar_convert_mode_to_posix m) i = Z.testbit m i.
Proof.
  intros Hi. assert (Hi' := enum16 i ltac:(lia)).
  enum Hi'; try lia; conversion_bits tar_convert_mode_to_posix m; reflexivity.
Qed.

Lemma tar_to_iomanx_bit m i :
  0 <= i < 12 -> Z.testbit (convert_posix_mode_to_iomanx m) i = Z.testbit m i.
Proof.
  intros Hi. assert (Hi' := enum16 i ltac:(lia)).
  enum Hi'; try lia; conversion_bits convert_posix_mode_to_iomanx m; reflexivity.
Qed.

(** The type nibble, for modes of one of the three types both sides know. *)
Definition iomanx_type_ok (m : Z) : bool := FIO_S_ISDIR m || FIO_S_ISREG m || FIO_S_ISLNK m.
Definition posix_type_ok (m : Z) : bool := S_ISDIR m || S_ISREG m || S_ISLNK m.

Ltac type_cases m :=
  destruct (type_bits m) as (Td & Tr & Tl & Sd & Sr & Sl);
  rewrite ?Td, ?Tr, ?Tl, ?Sd, ?Sr, ?Sl; clear Td Tr Tl Sd Sr Sl;
  destruct (Z.testbit m 12), (Z.testbit m 13), (Z.testbit m 14), (Z.testbit m 15);
  done || reflexivity.

(** The type bits of a conversion's result, in the type bits of its argument. *)
Definition b12 m := Z.testbit m 12.
Definition b13 m := Z.testbit m 13.
Definition b14 m := Z.testbit m 14.
Definition b15 m := Z.testbit m 15.

Definition posix_type_bits (p m : Z) : Prop :=
  b12 p = false /\
  b13 p = FIO_S_ISLNK m /\
  b14 p = FIO_S_ISDIR m /\
  b15 p = FIO_S_ISREG m || FIO_S_ISLNK m.

Definition iomanx_type_bits (p m : Z) : Prop :=
  b12 p = S_ISDIR m /\ b13 p = S_ISREG m /\ b14 p = S_ISLNK m /\ b15 p = false.

Ltac type_bits_of f :=
  unfold posix_type_bits, iomanx_type_bits, b12, b13, b14, b15;
  split_and!; unfold f; rewrite !testbit_or_if; const_bits; reflexivity.

Lemma tar_to_posix_type m : posix_type_bits (tar_convert_mode_to_posix m) m.
Proof. type_bits_of tar_convert_mode_to_posix. Qed.

Lemma tar_to_iomanx_type m : iomanx_type_bits (convert_posix_mode_to_iomanx m) m.
Proof. type_bits_of convert_posix_mode_to_iomanx. Qed.

Lemma adapter_to_posix_type m : posix_type_bits (adapter_convert_mode_to_posix m) m.
Proof. type_bits_of adapter_convert_mode_to_posix. Qed.

Lemma adapter_to_iomanx_type m : iomanx_type_bits (adapter_convert_mode_to_iomanx m) m.
Proof. type_bits_of adapter_convert_mode_to_iomanx. Qed.

(** A known type survives the trip there and back. *)
Lemma type_roundtrip_posix p q m i :
  posix_type_ok m = true -> iomanx_type_bits p m -> posix_type_bits q p ->
  12 <= i < 16 -> Z.testbit q i = Z.testbit m i.
Proof.
  unfold posix_type_ok, iomanx_type_bits, posix_type_bits, b12, b13, b14, b15.
  intros Hty (P12 & P13 & P14 & P15) (Q12 & Q13 & Q14 & Q15) Hi.
  revert Hty P12 P13 P14 P15. destruct (type_bits p) as (Td & Tr & Tl & _).
  rewrite Td, Tr, Tl in *. intros Hty P12 P13 P14 P15. rewrite P12, P13, P14, P15 in *.
  assert (Hi' := enum16 i ltac:(lia)). clear Td Tr Tl P12 P13 P14 P15.
  enum Hi'; try lia; rewrite ?Q12, ?Q13, ?Q14, ?Q15; revert Hty; type_cases m.
Qed.

Lemma type_roundtrip_iomanx p q m i :
  iomanx_type_ok m = true -> posix_type_bits p m -> iomanx_type_bits q p ->
  12 <= i < 16 -> Z.testbit q i = Z.testbit m i.
Proof.
  unfold iomanx_type_ok, iomanx_type_bits, posix_type_bits, b12, b13, b14, b15.
  intros Hty (P12 & P13 & P14 & P15) (Q12 & Q13 & Q14 & Q15) Hi.
  revert Hty P12 P13 P14 P15. destruct (type_bits p) as (_ & _ & _ & Sd & Sr & Sl).
  rewrite Sd, Sr, Sl in *. intros Hty P12 P13 P14 P15. rewrite P12, P13, P14, P15 in *.
  assert (Hi' := enum16 i ltac:(lia)). clear Sd Sr Sl P12 P13 P14 P15.
  enum Hi'; try lia; rewrite ?Q12, ?Q13, ?Q14, ?Q15; revert Hty; type_cases m.
Qed.

Ltac small_mask := vm_compute; intuition congruence.

(** No conversion sets a bit above the 16 of a mode. *)
Ltac no_high_bits f :=
  intros; unfold f; rewrite !testbit_or_if, !(testbit_above 16) by (assumption || small_mask);
  rewrite ?andb_false_r; reflexivity.

Lemma tar_to_posix_high m i : 16 <= i -> Z.testbit (tar_convert_mode_to_posix m) i = false.
Proof. no_high_bits tar_convert_mode_to_posix. Qed.

Lemma tar_to_iomanx_high m i : 16 <= i -> Z.testbit (convert_posix_mode_to_iomanx m) i = false.
Proof. no_high_bits convert_posix_mode_to_iomanx. Qed.

(** A value that agrees with [m] on the low 16 bits and has no others is [u16 m]. *)
Lemma u16_by_bits x m :
  (forall i, 0 <= i < 16 -> Z.testbit x i = Z.testbit m i) ->
  (forall i, 16 <= i -> Z.testbit x i = false) -> x = u16 m.
Proof.
  intros Hlow Hhigh. apply Z.bits_inj'. intros i Hi. unfold uwrap.
  destruct (Z.lt_ge_cases i 16).
  - rewrite Z.mod_pow2_bits_low by lia. by apply Hlow.
  - rewrite Z.mod_pow2_bits_high by lia. by apply Hhigh.
Qed.

(** What the adapter's round trip does to a POSIX mode. *)
Definition adapter_roundtrip (m : Z) : Z :=
  adapter_convert_mode_to_posix (adapter_convert_mode_to_iomanx m).

Definition any_class (m k : Z) : bool :=
  Z.testbit m k || Z.testbit m (k + 3) || Z.testbit m (k + 6).

(** Evaluates sums of constants. *)
Ltac const_sums :=
  repeat match goal with
    | |- context [?a + ?b] => let v := eval vm_compute in (a + b) in progress change (a + b) with v
    end.

Lemma adapter_to_posix_perm p k c :
  k ∈ [0; 1; 2] -> c ∈ [0; 3; 6] ->
  Z.testbit (adapter_convert_mode_to_posix p) (k + c) = any_class p k.
Proof.
  intros Hk Hc. unfold any_class. enum Hk; enum Hc; const_sums;
    conversion_bits adapter_convert_mode_to_posix p;
    repeat match goal with |- context [Z.testbit p ?i] => destruct (Z.testbit p i) end; reflexivity.
Qed.

Lemma adapter_to_iomanx_perm p k c :
  k ∈ [0; 1; 2] -> c ∈ [0; 3; 6] ->
  Z.testbit (adapter_convert_mode_to_iomanx p) (k + c) = any_class p k.
Proof.
  intros Hk Hc. unfold any_class. enum Hk; enum Hc; const_sums;
    conversion_bits adapter_convert_mode_to_iomanx p;
    repeat match goal with |- context [Z.testbit p ?i] => destruct (Z.testbit p i) end; reflexivity.
Qed.

Lemma adapter_to_posix_special p k :
  9 <= k < 12 -> Z.testbit (adapter_convert_mode_to_posix p) k = Z.testbit p k.
Proof.
  intros Hk. assert (Hk' := enum16 k ltac:(lia)).
  enum Hk'; try lia; conversion_bits adapter_convert_mode_to_posix p; reflexivity.
Qed.

Lemma adapter_to_iomanx_special p k :
  9 <= k < 12 -> Z.testbit (adapter_convert_mode_to_iomanx p) k = Z.testbit p k.
Proof.
  intros Hk. assert (Hk' := enum16 k ltac:(lia)).
  enum Hk'; try lia; conversion_bits adapter_convert_mode_to_iomanx p; reflexivity.
Qed.

(** The two halves of an [off_t]. *)
Lemma posix_size_split st_size :
  0 <= st_size < 2 ^ 63 ->
  posix_size (iomanx_size st_size) (iomanx_hisize st_size) = st_size.
Proof.
  intros Hs. unfold posix_size, iomanx_size, iomanx_hisize.
  change 0xffffffff with (Z.ones 32). rewrite !Z.land_ones, Z.shiftr_div_pow2 by lia.
  assert (Hhi : 0 <= st_size / 2 ^ 32 < 2 ^ 31)
    by (split; [apply Z.div_pos | apply Z.div_lt_upper_bound]; lia).
  rewrite (Z.mod_small (st_size / 2 ^ 32)) by lia.
  rewrite Z.shiftl_mul_pow2, (swrap_small 64) by lia.
  rewrite Z.lor_comm, <- Z.shiftl_mul_pow2 by lia.
  apply Z.bits_inj'. intros i Hi. rewrite Z.lor_spec, Z.shiftl_spec by done.
  destruct (Z.lt_ge_cases i 32).
  - rewrite (Z.testbit_neg_r _ (i - 32)), Z.mod_pow2_bits_low by lia. done.
  - rewrite Z.mod_pow2_bits_high, Z.div_pow2_bits, orb_false_r by lia. f_equal; lia.
Qed.

Lemma iomanx_size_join size hisize :
  0 <= size < 2 ^ 32 -> 0 <= hisize < 2 ^ 31 ->
  iomanx_size (posix_size size hisize) = size /\ iomanx_hisize (posix_size size hisize) = hisize.
Proof.
  intros Hs Hh. unfold posix_size, iomanx_size, iomanx_hisize.
  change 0xffffffff with (Z.ones 32).
  rewrite (swrap_small 64) by (rewrite ?Z.shiftl_mul_pow2; lia).
  split; apply Z.bits_inj'; intros i Hi; rewrite Z.land_spec.
  - rewrite Z.lor_spec, Z.testbit_ones_nonneg, Z.shiftl_spec by lia.
    destruct (Z.ltb_spec i 32).
    + by rewrite (Z.testbit_neg_r _ (i - 32)), orb_false_r, andb_true_r by lia.
    + rewrite andb_false_r. symmetry. rewrite <- (Z.mod_small size (2 ^ 32)) by lia.
      by apply Z.mod_pow2_bits_high.
  - rewrite Z.shiftr_spec, Z.lor_spec, Z.testbit_ones_nonneg, Z.shiftl_spec by lia.
    replace (i + 32 - 32) with i by lia.
    rewrite <- (Z.mod_small size (2 ^ 32)), Z.mod_pow2_bits_high by lia. simpl.
    destruct (Z.ltb_spec i 32); rewrite ?andb_true_r, ?andb_false_r; [done|].
    symmetry. rewrite <- (Z.mod_small hisize (2 ^ 32)) by lia. by apply Z.mod_pow2_bits_high.
Qed.

(** ** Properties *)

(** Pfs2tar keeps modes: on every mode of a directory, file or link, converting
    to POSIX for the archive and back at restore is the identity on the 16 mode
    bits, and so is the other way round. *)
Theorem tar_mode_roundtrip m :
  (iomanx_type_ok m = true ->
   convert_posix_mode_to_iomanx (tar_convert_mode_to_posix m) = u16 m) /\
  (posix_type_ok m = true ->
   tar_convert_mode_to_posix (convert_posix_mode_to_iomanx m) = u16 m).
Proof.
  split; intros Hty; apply u16_by_bits; intros i Hi.
  - destruct (Z.lt_ge_cases i 12).
    + by rewrite tar_to_iomanx_bit, tar_to_posix_bit by lia.
    + eapply type_roundtrip_iomanx; [done | apply tar_to_posix_type | apply tar_to_iomanx_type | lia].
  - by apply tar_to_iomanx_high.
  - destruct (Z.lt_ge_cases i 12).
    + by rewrite tar_to_posix_bit, tar_to_iomanx_bit by lia.
    + eapply type_roundtrip_posix; [done | apply tar_to_iomanx_type | apply tar_to_posix_type | lia].
  - by apply tar_to_posix_high.
Qed.

Lemma tar_mode_roundtrip_witness :
  convert_posix_mode_to_iomanx (tar_convert_mode_to_posix 0x21ED) = 0x21ED /\
  tar_convert_mode_to_posix (convert_posix_mode_to_iomanx 0x41ED) = 0x41ED.
Proof.
  split; [exact (proj1 (tar_mode_roundtrip 0x21ED) eq_refl) |
          exact (proj2 (tar_mode_roundtrip 0x41ED) eq_refl)].
Defined.

(** The FUSE adapter widens permissions: a POSIX mode that goes to iomanX and
    comes back has read (write, execute) for every class as soon as one class had
    it, and keeps set-uid, set-gid, sticky and the type of files, directories and
    links; so no bit is lost, and 0600 comes back as 0666. *)
Theorem adapter_mode_widens m :
  (forall k c, k ∈ [0; 1; 2] -> c ∈ [0; 3; 6] ->
     Z.testbit (adapter_roundtrip m) (k + c) = any_class m k) /\
  (forall k, 9 <= k < 12 -> Z.testbit (adapter_roundtrip m) k = Z.testbit m k) /\
  (posix_type_ok m = true ->
     forall k, 12 <= k < 16 -> Z.testbit (adapter_roundtrip m) k = Z.testbit m k) /\
  adapter_roundtrip 0x8180 = 0x81B6.
Proof.
  unfold adapter_roundtrip. split_and!; [| | |done].
  - intros k c Hk Hc. rewrite adapter_to_posix_perm by done. unfold any_class at 1.
    rewrite !adapter_to_iomanx_perm by (done || list_mem).
    rewrite <- (Z.add_0_r k) at 1. rewrite adapter_to_iomanx_perm by (done || list_mem).
    by rewrite !orb_diag.
  - intros k Hk. by rewrite adapter_to_posix_special, adapter_to_iomanx_special.
  - intros Hty k Hk. eapply type_roundtrip_posix;
      [done | apply adapter_to_iomanx_type | apply adapter_to_posix_type | done].
Qed.

Lemma adapter_mode_widens_witness :
  Z.testbit (adapter_roundtrip 0x8100) (2 + 0) = true /\
  Z.land (adapter_roundtrip 0x8100) 0xF000 = 0x8000.
Proof.
  destruct (adapter_mode_widens 0x8100) as (Hp & _).
  split; [|done]. exact (Hp 2 0 ltac:(list_mem) ltac:(list_mem)).
Defined.

(** A 64-bit file size survives the split into [size] and [hisize] and the join
    in [convert_stat_to_posix], for every non-negative [off_t]; and the two words of
    an iomanX stat survive the join and the split. *)
Theorem stat_size_roundtrip st_size size hisize :
  (0 <= st_size < 2 ^ 63 ->
     posix_size (iomanx_size st_size) (iomanx_hisize st_size) = st_size) /\
  (0 <= size < 2 ^ 32 -> 0 <= hisize < 2 ^ 31 ->
     iomanx_size (posix_size size hisize) = size /\ iomanx_hisize (posix_size size hisize) = hisize).
Proof. split; [apply posix_size_split | apply iomanx_size_join]. Qed.

Lemma stat_size_roundtrip_witness :
  posix_size (iomanx_size 0x123456789) (iomanx_hisize 0x123456789) = 0x123456789 /\
  iomanx_hisize (posix_size 7 5) = 5.
Proof.
  destruct (stat_size_roundtrip 0x123456789 7 5) as [H1 H2].
  split; [apply H1; lia | apply H2; lia].
Defined.
