(* ===== verification/Clock.v ===== *)
(** * Timestamps

    iomanX keeps a time as eight bytes of broken-down date and time; the host uses
    seconds since the epoch.  The code adds nine hours on the way to the host and
    takes them off on the way back.  The conversions call the C library's
    [timegm] and [gmtime]; [TimeLib] states what they promise, [gregorian] is the
    proleptic Gregorian calendar that discharges it. *)

From S2P Require Import Prelude.

(** ** The C library's broken-down time *)

Record tm := mk_tm {
  tm_sec : Z;
  tm_min : Z;
  tm_hour : Z;
  tm_mday : Z;
  tm_mon : Z;    (* January is 0 *)
  tm_year : Z    (* 1900 is 0 *)
}.

Definition leap_year (y : Z) : bool :=
  (y mod 4 =? 0) && (negb (y mod 100 =? 0) || (y mod 400 =? 0)).

Definition days_in_month (y m : Z) : Z :=
  if m =? 2 then (if leap_year y then 29 else 28)
  else if (m =? 4) || (m =? 6) || (m =? 9) || (m =? 11) then 30 else 31.

(** The fields are those of a calendar date and a time of day. *)
Definition tm_ok (t : tm) : Prop :=
  0 <= tm_sec t < 60 /\ 0 <= tm_min t < 60 /\ 0 <= tm_hour t < 24 /\
  0 <= tm_mon t < 12 /\
  1 <= tm_mday t <= days_in_month (tm_year t + 1900) (tm_mon t + 1).

Class TimeLib := {
  timegm : tm -> Z;
  gmtime : Z -> tm;
  gmtime_ok : forall t, tm_ok (gmtime t);
  timegm_gmtime : forall t, timegm (gmtime t) = t;
  gmtime_timegm : forall b, tm_ok b -> gmtime (timegm b) = b
}.

(** ** The conversions *)

Section Conversions.
Context `{TimeLib}.

Definition byte_at (b : list Z) (i : nat) : Z := default 0 (b !! i).

(** [convert_time_to_posix] of iomanx_adapter.c. *)
Definition convert_time_to_posix (iomanx_time : list Z) : Z :=
  let timeinfo := {|
    tm_sec := byte_at iomanx_time 1;
    tm_min := byte_at iomanx_time 2;
    tm_hour := byte_at iomanx_time 3;
    tm_mday := byte_at iomanx_time 4;
    tm_mon := byte_at iomanx_time 5 - 1;
    tm_year := Z.lor (byte_at iomanx_time 6) (Z.shiftl (byte_at iomanx_time 7) 8) - 1900
  |} in
  let rawtime := timegm timeinfo in
  rawtime + 9 * 60 * 60.

(** [convert_iox_stat_time_to_posix] of pfs2tar.c. *)
Definition convert_iox_stat_time_to_posix (iomanx_time : list Z) : Z :=
  let timeinfo := {|
    tm_sec := byte_at iomanx_time 1;
    tm_min := byte_at iomanx_time 2;
    tm_hour := byte_at iomanx_time 3;
    tm_mday := byte_at iomanx_time 4;
    tm_mon := byte_at iomanx_time 5 - 1;
    tm_year := Z.lor (byte_at iomanx_time 6) (Z.shiftl (byte_at iomanx_time 7) 8) - 1900
  |} in
  let rawtime := timegm timeinfo in
  rawtime + 9 * 60 * 60.

(** [convert_time_to_iomanx] of iomanx_adapter.c. *)
Definition convert_time_to_iomanx (posix_time : Z) : list Z :=
  let timeinfo := gmtime (posix_time - 9 * 60 * 60) in
  [ 0;
    u8 (tm_sec timeinfo);
    u8 (tm_min timeinfo);
    u8 (tm_hour timeinfo);
    u8 (tm_mday timeinfo);
    u8 (tm_mon timeinfo + 1);
    Z.land (tm_year timeinfo + 1900) 0xff;
    Z.land (Z.shiftr (tm_year timeinfo + 1900) 8) 0xff ].

(** [convert_posix_time_to_iox_time] of pfs2tar.c: the stores to
    [unsigned char] truncate where the adapter masks. *)
Definition convert_posix_time_to_iox_time (posix_time : Z) : list Z :=
  let tm_time := gmtime (posix_time - 9 * 60 * 60) in
  [ 0;
    u8 (tm_sec tm_time);
    u8 (tm_min tm_time);
    u8 (tm_hour tm_time);
    u8 (tm_mday tm_time);
    u8 (tm_mon tm_time + 1);
    u8 (tm_year tm_time + 1900);
    u8 (Z.shiftr (tm_year tm_time + 1900) 8) ].

(** An iomanX timestamp that denotes a date. *)
Definition iox_time_ok (b : list Z) : Prop :=
  length b = 8%nat /\ Forall is_byte b /\ byte_at b 0 = 0 /\
  tm_ok {| tm_sec := byte_at b 1; tm_min := byte_at b 2; tm_hour := byte_at b 3;
           tm_mday := byte_at b 4; tm_mon := byte_at b 5 - 1;
           tm_year := byte_at b 6 + 256 * byte_at b 7 - 1900 |}.
End Conversions.

(** ** The Gregorian calendar *)

(** Days from 1970-01-01 to the [d]-th of month [m] (1 to 12) of year [y]: years
    start in March, so that the leap day comes last. *)
Definition days_from_civil (y m d : Z) : Z :=
  let y' := if m <=? 2 then y - 1 else y in
  let era := y' / 400 in
  let yoe := y' - era * 400 in
  let doy := (153 * ((m + 9) mod 12) + 2) / 5 + d - 1 in
  let doe := yoe * 365 + yoe / 4 - yoe / 100 + doy in
  era * 146097 + doe - 719468.

(** Month overflow in [tm_mon] carries into the year. *)
Definition greg_timegm (t : tm) : Z :=
  let y := tm_year t + 1900 + tm_mon t / 12 in
  let days := days_from_civil y (tm_mon t mod 12 + 1) 1 + (tm_mday t - 1) in
  ((days * 24 + tm_hour t) * 60 + tm_min t) * 60 + tm_sec t.

(** Year, month (1 to 12) and day of a day number. *)
Definition civil_from_days (z : Z) : Z * Z * Z :=
  let z' := z + 719468 in
  let era := z' / 146097 in
  let doe := z' - era * 146097 in
  let yoe := (doe - doe / 1460 + doe / 36524 - doe / 146096) / 365 in
  let doy := doe - (365 * yoe + yoe / 4 - yoe / 100) in
  let mp := (5 * doy + 2) / 153 in
  let d := doy - (153 * mp + 2) / 5 + 1 in
  let m := if mp <? 10 then mp + 3 else mp - 9 in
  let y := yoe + era * 400 in
  (if m <=? 2 then y + 1 else y, m, d).

Definition greg_gmtime (t : Z) : tm :=
  let days := t / 86400 in
  let secs := t mod 86400 in
  let '(y, m, d) := civil_from_days days in
  {| tm_sec := secs mod 60; tm_min := secs / 60 mod 60; tm_hour := secs / 3600;
     tm_mday := d; tm_mon := m - 1; tm_year := y - 1900 |}.

(** ** The calendar's laws *)

(** First day, within a 400-year era starting on a 1st of March, of its [y]-th year. *)
Definition year_start (y : Z) : Z := 365 * y + y / 4 - y / 100.

Lemma year_start_next y1 y2 : y1 < y2 -> year_start (y1 + 1) <= year_start y2.
Proof. unfold year_start. intros. dlia. Qed.

(** The year the division formula finds contains the day. *)
Lemma year_of_day doe :
  0 <= doe < 146097 ->
  let y := (doe - doe / 1460 + doe / 36524 - doe / 146096) / 365 in
  0 <= y < 400 /\ year_start y <= doe /\ (doe < year_start (y + 1) \/ y = 399).
Proof.
  intros Hd y. unfold year_start. subst y.
  set (q1 := doe / 1460). set (q2 := doe / 36524). set (q3 := doe / 146096).
  assert (0 <= q2 <= 4 /\ 0 <= q3 <= 1) as [Hq2 Hq3] by (subst q2 q3; dlia).
  assert (H2 : q2 = 0 \/ q2 = 1 \/ q2 = 2 \/ q2 = 3 \/ q2 = 4) by lia.
  assert (H3 : q3 = 0 \/ q3 = 1) by lia.
  subst q1. unfold q2, q3 in *.
  destruct H2 as [H2|[H2|[H2|[H2|H2]]]], H3 as [H3|H3]; rewrite H2, H3; dlia.
Qed.

(** A day lies in one year only. *)
Lemma year_of_day_unique y1 y2 doe :
  year_start y1 <= doe -> (doe < year_start (y1 + 1) \/ y1 = 399) -> y1 < 400 ->
  year_start y2 <= doe -> (doe < year_start (y2 + 1) \/ y2 = 399) -> y2 < 400 -> y1 = y2.
Proof.
  intros. destruct (Z.lt_trichotomy y1 y2) as [Hlt|[?|Hlt]]; [|done|];
    pose proof (year_start_next _ _ Hlt); lia.
Qed.

Definition month_start (mp : Z) : Z := (153 * mp + 2) / 5.

(** Length of the [mp]-th month counted from March; the last one is February. *)
Definition march_month_length (mp : Z) (leap : bool) : Z :=
  if mp =? 11 then (if leap then 29 else 28)
  else if (mp =? 1) || (mp =? 3) || (mp =? 6) || (mp =? 8) then 30 else 31.

Definition month_of_day_test (doy : Z) : bool :=
  let mp := (5 * doy + 2) / 153 in
  let d := doy - month_start mp + 1 in
  (365 <? doy) ||
  ((0 <=? mp) && (mp <=? 11) && (1 <=? d) && (d <=? march_month_length mp (doy =? 365))).

Lemma month_of_day_tests : forall_bits 9 month_of_day_test 0 = true.
Proof. vm_compute. reflexivity. Qed.

Lemma month_of_day doy :
  0 <= doy < 366 ->
  let mp := (5 * doy + 2) / 153 in
  0 <= mp < 12 /\ 1 <= doy - month_start mp + 1 <= march_month_length mp (doy =? 365).
Proof.
  intros Hd mp. pose proof (forall_below 9 _ month_of_day_tests doy ltac:(lia)) as Ht.
  unfold month_of_day_test in Ht. fold mp in Ht.
  apply orb_true_iff in Ht as [Ht|Ht]; boolP; lia.
Qed.

Lemma month_of_day_inv mp d leap :
  0 <= mp < 12 -> 1 <= d <= march_month_length mp leap ->
  (5 * (month_start mp + d - 1) + 2) / 153 = mp /\
  0 <= month_start mp + d - 1 <= (if leap then 365 else 364).
Proof.
  intros Hmp Hd. assert (Hmp' := enum16 mp ltac:(lia)).
  unfold march_month_length, month_start in *.
  enum Hmp'; try lia; simpl in Hd; destruct leap; dlia.
Qed.

(** Civil months and months counted from March. *)
Lemma days_in_month_march y m :
  1 <= m <= 12 -> days_in_month y m = march_month_length ((m + 9) mod 12) (leap_year y).
Proof.
  intros Hm. assert (Hm' := enum16 m ltac:(lia)).
  enum Hm'; try lia; vm_compute; try reflexivity; by destruct (leap_year y).
Qed.

(** The year that starts on the 1st of March of [400 * era + yoe] is long when the
    February that ends it is in a leap year. *)
Lemma leap_year_end era yoe :
  0 <= yoe < 400 ->
  leap_year (era * 400 + yoe + 1) =
  ((yoe =? 399) || (year_start yoe + 366 =? year_start (yoe + 1))).
Proof.
  intros Hy. unfold leap_year, year_start.
  replace ((era * 400 + yoe + 1) mod 4) with ((yoe + 1) mod 4) by dlia.
  replace ((era * 400 + yoe + 1) mod 100) with ((yoe + 1) mod 100) by dlia.
  replace ((era * 400 + yoe + 1) mod 400) with ((yoe + 1) mod 400) by dlia.
  destruct (Z.eqb_spec ((yoe + 1) mod 4) 0), (Z.eqb_spec ((yoe + 1) mod 100) 0),
    (Z.eqb_spec ((yoe + 1) mod 400) 0), (Z.eqb_spec yoe 399);
    simpl; symmetry; rewrite ?Z.eqb_eq, ?Z.eqb_neq; dlia.
Qed.

(** A date by era, year of the era, month counted from March, and day. *)
Lemma days_from_civil_march era yoe mp d :
  0 <= yoe < 400 -> 0 <= mp < 12 ->
  let m := if mp <? 10 then mp + 3 else mp - 9 in
  let y := yoe + era * 400 in
  days_from_civil (if m <=? 2 then y + 1 else y) m d =
  era * 146097 + (year_start yoe + (month_start mp + d - 1)) - 719468.
Proof.
  intros Hy Hmp m y. unfold days_from_civil.
  replace (if m <=? 2 then (if m <=? 2 then y + 1 else y) - 1 else if m <=? 2 then y + 1 else y)
    with y by (destruct (m <=? 2); lia).
  replace (y / 400) with era by (subst y; dlia).
  replace ((m + 9) mod 12) with mp by (subst m; destruct (Z.ltb_spec mp 10); dlia).
  unfold month_start, year_start. subst y. replace (yoe + era * 400 - era * 400) with yoe by lia. lia.
Qed.

Lemma civil_from_days_march era yoe mp d :
  0 <= yoe < 400 -> 0 <= mp < 12 ->
  1 <= d <= march_month_length mp (leap_year (era * 400 + yoe + 1)) ->
  let m := if mp <? 10 then mp + 3 else mp - 9 in
  let y := yoe + era * 400 in
  civil_from_days (era * 146097 + (year_start yoe + (month_start mp + d - 1)) - 719468) =
  (if m <=? 2 then y + 1 else y, m, d).
Proof.
  intros Hy Hmp Hd m y. pose proof (month_of_day_inv _ _ _ Hmp Hd) as [Hm Hdoy].
  set (doy := month_start mp + d - 1) in *. rewrite leap_year_end in Hdoy by done.
  assert (Hin : doy < 365 \/ yoe = 399 \/ year_start yoe + 366 = year_start (yoe + 1)).
  { destruct (Z.eqb_spec yoe 399), (Z.eqb_spec (year_start yoe + 366) (year_start (yoe + 1)));
      simpl in Hdoy; lia. }
  assert (Hdoe : 0 <= year_start yoe + doy < 146097 /\
                 (year_start yoe + doy < year_start (yoe + 1) \/ yoe = 399)).
  { clear Hm Hd m y. clearbody doy.
    assert (doy <= 365) by (destruct (_ || _) in Hdoy; lia). unfold year_start in *. dlia. }
  unfold civil_from_days. cbv zeta.
  replace (era * 146097 + (year_start yoe + doy) - 719468 + 719468)
    with (era * 146097 + (year_start yoe + doy)) by lia.
  replace ((era * 146097 + (year_start yoe + doy)) / 146097) with era by dlia.
  replace (era * 146097 + (year_start yoe + doy) - era * 146097) with (year_start yoe + doy) by lia.
  set (doe := year_start yoe + doy) in *.
  pose proof (year_of_day doe ltac:(lia)) as (Hr & Hlo & Hhi).
  pose proof (year_of_day_unique _ yoe doe Hlo Hhi ltac:(lia) ltac:(lia) ltac:(lia) ltac:(lia)) as ->.
  fold (year_start yoe). replace (doe - year_start yoe) with doy by (subst doe; lia).
  rewrite Hm. fold m. fold (month_start mp).
  replace (doy - month_start mp + 1) with d by (subst doy; lia). done.
Qed.

(** Every day number is a date given by era, year, month and day. *)
Lemma day_number_march z :
  exists era yoe mp d,
    0 <= yoe < 400 /\ 0 <= mp < 12 /\
    1 <= d <= march_month_length mp (leap_year (era * 400 + yoe + 1)) /\
    z = era * 146097 + (year_start yoe + (month_start mp + d - 1)) - 719468.
Proof.
  set (era := (z + 719468) / 146097). set (doe := z + 719468 - era * 146097).
  assert (Hdoe : 0 <= doe < 146097) by (subst doe era; dlia).
  pose proof (year_of_day doe Hdoe) as (Hr & Hlo & Hhi).
  set (yoe := (doe - doe / 1460 + doe / 36524 - doe / 146096) / 365) in *.
  set (doy := doe - year_start yoe).
  assert (Hdoy : 0 <= doy < 366 /\
    (doy = 365 -> yoe = 399 \/ year_start yoe + 366 = year_start (yoe + 1))).
  { subst doy. clearbody yoe doe. unfold year_start in *. dlia. }
  destruct Hdoy as [Hdoy Hlong]. pose proof (month_of_day doy Hdoy) as (Hmp & Hd).
  set (mp := (5 * doy + 2) / 153) in *.
  exists era, yoe, mp, (doy - month_start mp + 1). split_and!; [lia..| |].
  - rewrite leap_year_end by lia.
    unfold march_month_length in *. destruct (mp =? 11); [|lia].
    destruct (Z.eqb_spec doy 365) as [E|E]; [|destruct (_ || _); lia].
    destruct (Hlong E) as [Hl | Hl]; rewrite Hl, Z.eqb_refl, ?orb_true_r; simpl; lia.
  - subst doy doe era. lia.
Qed.

Lemma march_month mp :
  0 <= mp < 12 ->
  let m := if mp <? 10 then mp + 3 else mp - 9 in
  1 <= m <= 12 /\ (m + 9) mod 12 = mp /\
  forall y, (if m <=? 2 then y + 1 else y) = y + (if mp <? 10 then 0 else 1).
Proof.
  intros Hmp m. assert (Hmp' := enum16 mp ltac:(lia)). subst m.
  enum Hmp'; try lia;
    (split_and!; [done..|]; intros; simpl; lia).
Qed.

(** The two calendar functions are inverse on valid dates. *)
Lemma civil_from_days_spec z :
  let '(y, m, d) := civil_from_days z in
  1 <= m <= 12 /\ 1 <= d <= days_in_month y m /\ days_from_civil y m d = z.
Proof.
  destruct (day_number_march z) as (era & yoe & mp & d & Hy & Hmp & Hd & ->).
  rewrite civil_from_days_march by done.
  pose proof (march_month mp Hmp) as (Hm & Hm9 & Hyear). split_and!; [lia.. | |].
  - rewrite days_in_month_march, Hm9 by done.
    revert Hd. unfold march_month_length. destruct (Z.eqb_spec mp 11); [subst; simpl | lia].
    replace (era * 400 + yoe + 1) with (yoe + era * 400 + 1) by lia. lia.
  - by apply days_from_civil_march.
Qed.

Lemma civil_from_days_from_civil y m d :
  1 <= m <= 12 -> 1 <= d <= days_in_month y m ->
  civil_from_days (days_from_civil y m d) = (y, m, d).
Proof.
  intros Hm Hd. set (mp := (m + 9) mod 12). set (y' := if m <=? 2 then y - 1 else y).
  assert (Hmp : 0 <= mp < 12) by (apply Z.mod_pos_bound; lia).
  assert (Hback : (if mp <? 10 then mp + 3 else mp - 9) = m /\
                  (if m <=? 2 then y' + 1 else y') = y).
  { subst mp y'. assert (Hm' := enum16 m ltac:(lia)). enum Hm'; try lia;
      (split; [reflexivity | simpl; lia]). }
  destruct Hback as [Hbm Hby].
  set (era := y' / 400). set (yoe := y' - era * 400).
  assert (Hyoe : 0 <= yoe < 400) by (subst yoe era; dlia).
  assert (Hyd : yoe + era * 400 = y') by (subst yoe; lia).
  pose proof (days_from_civil_march era yoe mp d Hyoe Hmp) as Hfrom.
  pose proof (civil_from_days_march era yoe mp d Hyoe Hmp) as Hto.
  cbv zeta in Hfrom, Hto. rewrite Hbm, Hyd, Hby in *. rewrite Hfrom. apply Hto.
  revert Hd. rewrite days_in_month_march by done. fold mp. unfold march_month_length.
  destruct (Z.eqb_spec mp 11) as [E|]; [|done].
  assert (m = 2) as -> by (subst mp; dlia). subst y'. simpl in *.
  replace (era * 400 + yoe + 1) with y by lia. lia.
Qed.

Lemma seconds_split s : 0 <= s < 86400 ->
  (s / 3600 * 60 + s / 60 mod 60) * 60 + s mod 60 = s /\
  0 <= s mod 60 < 60 /\ 0 <= s / 60 mod 60 < 60 /\ 0 <= s / 3600 < 24.
Proof. intros. dlia. Qed.

Lemma seconds_join days h mi s :
  0 <= s < 60 -> 0 <= mi < 60 -> 0 <= h < 24 ->
  let t := ((days * 24 + h) * 60 + mi) * 60 + s in
  t / 86400 = days /\ t mod 86400 = (h * 60 + mi) * 60 + s.
Proof.
  intros Hs Hmi Hh t. assert (E : t = ((h * 60 + mi) * 60 + s) + days * 86400) by (subst t; lia).
  rewrite E, Z.div_add, Z.mod_add, Z.div_small, Z.mod_small by lia. lia.
Qed.

Lemma greg_gmtime_ok t : tm_ok (greg_gmtime t).
Proof.
  unfold greg_gmtime. pose proof (civil_from_days_spec (t / 86400)) as Hc.
  destruct (civil_from_days (t / 86400)) as [[y m] d]. destruct Hc as (Hm & Hd & _).
  pose proof (seconds_split (t mod 86400) ltac:(by apply Z.mod_pos_bound)) as (_ & Hs).
  unfold tm_ok; simpl. replace (y - 1900 + 1900) with y by lia.
  replace (m - 1 + 1) with m by lia. lia.
Qed.

Lemma greg_timegm_gmtime t : greg_timegm (greg_gmtime t) = t.
Proof.
  unfold greg_gmtime, greg_timegm. pose proof (civil_from_days_spec (t / 86400)) as Hc.
  destruct (civil_from_days (t / 86400)) as [[y m] d]. destruct Hc as (Hm & _ & Hdays). simpl.
  pose proof (seconds_split (t mod 86400) ltac:(by apply Z.mod_pos_bound)) as (Hs & _).
  rewrite (Z.div_small (m - 1) 12), (Z.mod_small (m - 1) 12) by lia.
  replace (y - 1900 + 1900 + 0) with y by lia. replace (m - 1 + 1) with m by lia.
  assert (Hlin : days_from_civil y m 1 + (d - 1) = days_from_civil y m d)
    by (unfold days_from_civil; cbv zeta; lia).
  rewrite Hlin, Hdays. pose proof (Z.div_mod t 86400 ltac:(lia)). lia.
Qed.

Lemma greg_gmtime_timegm b : tm_ok b -> greg_gmtime (greg_timegm b) = b.
Proof.
  destruct b as [s mi h d mo y]. unfold tm_ok, greg_timegm, greg_gmtime.
  cbn [tm_sec tm_min tm_hour tm_mday tm_mon tm_year].
  intros (Hs & Hmi & Hh & Hmo & Hd).
  rewrite (Z.div_small mo 12), (Z.mod_small mo 12), Z.add_0_r by lia.
  assert (Hlin : days_from_civil (y + 1900) (mo + 1) 1 + (d - 1) =
                 days_from_civil (y + 1900) (mo + 1) d)
    by (unfold days_from_civil; cbv zeta; lia).
  rewrite Hlin. set (days := days_from_civil (y + 1900) (mo + 1) d).
  destruct (seconds_join days h mi s) as [-> ->]; [lia..|]. subst days. rewrite civil_from_days_from_civil by lia.
  f_equal; dlia.
Qed.

Lemma days_linear y m d :
  days_from_civil y m d =
  let y' := if m <=? 2 then y - 1 else y in
  365 * y' + y' / 4 - y' / 100 + y' / 400 + month_start ((m + 9) mod 12) + d - 1 - 719468.
Proof.
  unfold days_from_civil, month_start. cbv zeta. set (y' := if m <=? 2 then y - 1 else y).
  clearbody y'. set (k := (153 * _ + 2) / 5). clearbody k. dlia.
Qed.

(** Day -719528 is the 1st of January of year 0, day 23217004 that of year 65536. *)
Lemma civil_year_bounds y m d :
  1 <= m <= 12 -> 1 <= d <= 31 ->
  (-719528 <= days_from_civil y m d -> 0 <= y) /\
  (days_from_civil y m d < 23217004 -> y < 65536).
Proof.
  intros Hm Hd. rewrite days_linear. cbv zeta. unfold month_start.
  assert (Hm' := enum16 m ltac:(lia)).
  enum Hm'; try lia;
    match goal with |- context [(153 * ?k + 2) / 5] =>
      let v := eval vm_compute in ((153 * k + 2) / 5) in change ((153 * k + 2) / 5) with v end;
    match goal with |- context [if ?k then _ else _] =>
      let v := eval vm_compute in k in change k with v end;
    cbv iota; split; intros; dlia.
Qed.

#[export] Instance gregorian : TimeLib := {|
  timegm := greg_timegm;
  gmtime := greg_gmtime;
  gmtime_ok := greg_gmtime_ok;
  timegm_gmtime := greg_timegm_gmtime;
  gmtime_timegm := greg_gmtime_timegm
|}.

(** ** The conversions, against the interface *)

Lemma days_in_month_bounds y m : 28 <= days_in_month y m <= 31.
Proof. unfold days_in_month. repeat case_bool; lia. Qed.

Lemma year_bytes y :
  0 <= y < 65536 -> Z.lor (Z.land y 0xff) (Z.shiftl (Z.land (Z.shiftr y 8) 0xff) 8) = y.
Proof.
  intros Hy. change 0xff with (Z.ones 8). apply Z.bits_inj'. intros i Hi.
  rewrite Z.lor_spec, Z.land_spec, Z.testbit_ones_nonneg, Z.shiftl_spec by lia.
  destruct (Z.ltb_spec i 8).
  - by rewrite (Z.testbit_neg_r _ (i - 8)), orb_false_r, andb_true_r by lia.
  - rewrite andb_false_r, Z.land_spec, Z.testbit_ones_nonneg, Z.shiftr_spec by lia.
    replace (i - 8 + 8) with i by lia.
    destruct (Z.ltb_spec (i - 8) 8); rewrite ?andb_true_r, ?andb_false_r; [done|].
    symmetry. by apply (testbit_above 16); [|lia].
Qed.

Lemma land_ff z : Z.land z 0xff = u8 z.
Proof. change 0xff with (Z.ones 8). unfold uwrap. by apply Z.land_ones. Qed.

Lemma lor_bytes lo hi : 0 <= lo < 256 -> 0 <= hi < 256 -> Z.lor lo (Z.shiftl hi 8) = lo + 256 * hi.
Proof.
  intros Hlo Hhi. rewrite <- (year_bytes (lo + 256 * hi)) by lia.
  rewrite !land_ff, Z.shiftr_div_pow2 by lia.
  replace (u8 (lo + 256 * hi)) with lo by (unfold uwrap; dlia).
  replace (u8 ((lo + 256 * hi) / 2 ^ 8)) with hi by (unfold uwrap; dlia). done.
Qed.

Lemma greg_year_bounds t :
  -62167219200 <= t < 2005949145600 -> 0 <= tm_year (greg_gmtime t) + 1900 < 65536.
Proof.
  intros Ht. unfold greg_gmtime. pose proof (civil_from_days_spec (t / 86400)) as Hc.
  destruct (civil_from_days (t / 86400)) as [[y m] d]. destruct Hc as (Hm & Hd & Hz).
  pose proof (days_in_month_bounds y m).
  pose proof (civil_year_bounds y m d Hm ltac:(lia)) as [Hlo Hhi]. rewrite Hz in *.
  cbn [tm_year]. replace (y - 1900 + 1900) with y by lia.
  assert (-719528 <= t / 86400) by (apply Z.div_le_lower_bound; lia).
  assert (t / 86400 < 23217004) by (apply Z.div_lt_upper_bound; lia). lia.
Qed.

Section ConversionLemmas.
Context `{TimeLib}.

Lemma iox_stat_time_same t : convert_iox_stat_time_to_posix t = convert_time_to_posix t.
Proof using. done. Qed.

Lemma iox_time_same t : convert_posix_time_to_iox_time t = convert_time_to_iomanx t.
Proof using. unfold convert_posix_time_to_iox_time, convert_time_to_iomanx. by rewrite !land_ff. Qed.

Lemma time_to_iomanx_fields t :
  let b := gmtime (t - 32400) in
  0 <= tm_year b + 1900 < 65536 ->
  convert_time_to_iomanx t =
    [0; tm_sec b; tm_min b; tm_hour b; tm_mday b; tm_mon b + 1;
     u8 (tm_year b + 1900); u8 (Z.shiftr (tm_year b + 1900) 8)].
Proof using.
  intros b Hy. unfold convert_time_to_iomanx. change (t - 9 * 60 * 60) with (t - 32400). fold b.
  destruct (gmtime_ok (t - 32400)) as (Hs & Hm & Hh & Hmo & Hd). fold b in Hs, Hm, Hh, Hmo, Hd.
  pose proof (days_in_month_bounds (tm_year b + 1900) (tm_mon b + 1)).
  rewrite !land_ff, !(uwrap_small 8 (tm_sec b)), (uwrap_small 8 (tm_min b)),
    (uwrap_small 8 (tm_hour b)), (uwrap_small 8 (tm_mday b)), (uwrap_small 8 (tm_mon b + 1)) by lia.
  done.
Qed.

Lemma time_posix_iomanx_posix t :
  0 <= tm_year (gmtime (t - 32400)) + 1900 < 65536 ->
  convert_time_to_posix (convert_time_to_iomanx t) = t.
Proof using.
  intros Hy. rewrite time_to_iomanx_fields by done.
  unfold convert_time_to_posix, byte_at; simpl. rewrite <- !land_ff, year_bytes by done.
  replace (tm_mon (gmtime (t - 32400)) + 1 - 1) with (tm_mon (gmtime (t - 32400))) by lia.
  replace (tm_year (gmtime (t - 32400)) + 1900 - 1900) with (tm_year (gmtime (t - 32400))) by lia.
  pose proof (timegm_gmtime (t - 32400)) as Ht.
  destruct (gmtime (t - 32400)); simpl in *. rewrite Ht. lia.
Qed.

Lemma time_iomanx_posix_iomanx b :
  iox_time_ok b -> convert_time_to_iomanx (convert_time_to_posix b) = b.
Proof using.
  intros (Hlen & Hb & H0 & Hok). unfold iox_time_ok in *.
  do 9 (destruct b as [|? b]; try discriminate Hlen).
  unfold byte_at in *; simpl in *. subst. unfold is_byte in Hb.
  repeat (apply Forall_cons in Hb as [? Hb]).
  unfold convert_time_to_posix, convert_time_to_iomanx, byte_at; simpl.
  rewrite lor_bytes by lia.
  replace (timegm _ + 32400 - 32400) with
    (timegm {| tm_sec := z0; tm_min := z1; tm_hour := z2; tm_mday := z3; tm_mon := z4 - 1;
               tm_year := z5 + 256 * z6 - 1900 |}) by lia.
  rewrite gmtime_timegm by done; simpl.
  rewrite !land_ff, Z.shiftr_div_pow2 by lia. repeat f_equal; unfold uwrap; dlia.
Qed.

Lemma time_to_iomanx_ok t :
  0 <= tm_year (gmtime (t - 32400)) + 1900 < 65536 -> iox_time_ok (convert_time_to_iomanx t).
Proof using.
  intros Hy. rewrite time_to_iomanx_fields by done.
  destruct (gmtime_ok (t - 32400)) as (Hs & Hm & Hh & Hmo & Hd).
  set (b := gmtime (t - 32400)) in *.
  pose proof (days_in_month_bounds (tm_year b + 1900) (tm_mon b + 1)).
  unfold iox_time_ok, byte_at; cbn [lookup list_lookup length default].
  split_and!; [done | | done |].
  - repeat constructor; unfold is_byte; try lia; apply (uwrap_range 8); lia.
  - unfold tm_ok; simpl. replace (tm_mon b + 1 - 1 + 1) with (tm_mon b + 1) by lia.
    replace (tm_mon b + 1 - 1) with (tm_mon b) by lia.
    rewrite <- !land_ff.
    pose proof (year_bytes _ Hy) as Hyb. rewrite !land_ff, lor_bytes in Hyb
      by (apply (uwrap_range 8); lia). rewrite !land_ff.
    replace (u8 (tm_year b + 1900) + 256 * u8 (Z.shiftr (tm_year b + 1900) 8) - 1900 + 1900)
      with (tm_year b + 1900) by lia. done.
Qed.
End ConversionLemmas.

(** ** Properties *)

(** With the Gregorian calendar, every host time whose iomanX year is 0 to 65535
    becomes a valid iomanX timestamp and comes back unchanged, and pfs2tar and the
    FUSE adapter produce the same eight bytes. *)
Theorem time_roundtrip_posix t :
  -62167219200 + 32400 <= t < 2005949145600 + 32400 ->
  convert_time_to_posix (convert_time_to_iomanx t) = t /\
  iox_time_ok (convert_time_to_iomanx t) /\
  convert_posix_time_to_iox_time t = convert_time_to_iomanx t.
Proof.
  intros Ht. pose proof (greg_year_bounds (t - 32400) ltac:(lia)) as Hy.
  split_and!; [by apply time_posix_iomanx_posix | by apply time_to_iomanx_ok | apply iox_time_same].
Qed.

Lemma time_roundtrip_posix_witness :
  convert_time_to_iomanx 951901199 = [0; 59; 59; 23; 29; 2; 208; 7] /\
  convert_time_to_posix (convert_time_to_iomanx 951901199) = 951901199.
Proof. split; [by vm_compute | apply (time_roundtrip_posix 951901199); lia]. Defined.

(** With any C library whose [timegm] and [gmtime] are inverse on calendar
    dates, a valid iomanX timestamp survives the conversion to host time and back,
    byte for byte. *)
Theorem time_roundtrip_iomanx `{TimeLib} b :
  iox_time_ok b -> convert_time_to_iomanx (convert_time_to_posix b) = b.
Proof. apply time_iomanx_posix_iomanx. Qed.

Lemma time_roundtrip_iomanx_witness :
  convert_time_to_iomanx (convert_time_to_posix [0; 59; 59; 23; 29; 2; 208; 7]) =
  [0; 59; 59; 23; 29; 2; 208; 7].
Proof.
  apply time_roundtrip_iomanx. unfold iox_time_ok. split_and!; [done | | done |].
  - repeat constructor; done.
  - vm_compute. intuition congruence.
Defined.
