(* ===== verification/Tar.v ===== *)
(** * pfs2tar: the archive format, backup and restore (src/src/pfs2tar.c)

    The archive is a [FILE] of the host: its bytes and position are part of the
    program's state.  Headers are built and read on 512-byte blocks exactly as the
    code does, field by field; a [char] may be signed or not ([CharSign]). *)

From S2P Require Import Prelude IoWorld Modes Clock.

(** ** The archive file *)

Record tar_state := mk_tar {
  tarfile_data : list Z;
  tarfile_pos : nat;
  overwrite_mode : bool
}.

Class CharSign := char_signed : bool.

Definition IOMANX_PATH_MAX : nat := 256.
Definition IOMANX_MOUNT_POINT : string := "pfs0:".

(** [enum TarHeader] *)
Definition NAME : nat := 0.
Definition MODE : nat := 100.
Definition SIZE : nat := 124.
Definition MTIME : nat := 136.
Definition CHK : nat := 148.
Definition TYPE : nat := 156.
Definition LINK : nat := 157.
Definition MAGIC : nat := 257.
Definition VERS : nat := 263.
Definition NAME2 : nat := 345.
Definition END : nat := 512.

Definition SLASH : Z := 47.
Definition DOT : Z := 46.

(** [fwrite] at the file position. *)
Definition file_write (bs : list Z) (s : tar_state) : tar_state :=
  let d := tarfile_data s in
  let pos := tarfile_pos s in
  mk_tar (resize pos 0 d ++ bs ++ drop (pos + length bs) d) (pos + length bs) (overwrite_mode s).

(** [fread]: what is left of the file, at most [n] bytes. *)
Definition file_read (n : nat) (s : tar_state) : list Z * tar_state :=
  let bs := take n (drop (tarfile_pos s) (tarfile_data s)) in
  (bs, mk_tar (tarfile_data s) (tarfile_pos s + length bs) (overwrite_mode s)).

(** [fseek] with [SEEK_SET] and [SEEK_CUR]. *)
Definition file_seek (pos : nat) (s : tar_state) : tar_state :=
  mk_tar (tarfile_data s) pos (overwrite_mode s).
Definition file_skip (n : Z) (s : tar_state) : tar_state :=
  file_seek (tarfile_pos s + Z.to_nat n) s.

(** ** Octal numbers in headers *)

Fixpoint octal_digits (fuel : nat) (n : Z) : list Z :=
  match fuel with
  | O => []
  | S f => if n <? 8 then [48 + n] else octal_digits f (n / 8) ++ [48 + n mod 8]
  end.

(** [snprintf(dst, size, "%.<prec>o", n)] for an [unsigned int]: the bytes stored,
    terminator included.  32 bits have at most 11 octal digits. *)
Definition snprintf_octal (size prec : nat) (n : Z) : list Z :=
  let ds := octal_digits 11 (u32 n) in
  take (size - 1) (replicate (prec - length ds) 48 ++ ds) ++ [0].

Definition is_octal (c : Z) : bool := (48 <=? c) && (c <=? 55).

Fixpoint octal_value (acc : Z) (s : list Z) : Z :=
  match s with
  | c :: s' => if is_octal c then octal_value (acc * 8 + (c - 48)) s' else acc
  | [] => acc
  end.

(** [strtol(s, NULL, 8)] with a 64-bit [long]. *)
Definition strtol8 (s : list Z) : Z :=
  let v := match skip_spaces (cstr s) with
           | c :: s' => if c =? 45 then - octal_value 0 s'
                        else if c =? 43 then octal_value 0 s'
                        else octal_value 0 (c :: s')
           | [] => 0
           end in
  Z.max (- 2 ^ 63) (Z.min (2 ^ 63 - 1) v).

(** ** Building a header *)

Section Header.
Context `{TimeLib} `{CharSign}.

Definition char_val (b : Z) : Z := if char_signed then s8 b else b.

Definition checksum_term (i : nat) (b : Z) : Z :=
  if (CHK <=? i)%nat && (i <? CHK + 8)%nat then 32 else char_val b.

Definition sum_bytes (l : list Z) : Z := foldr Z.add 0 l.

(** [tar_checksum(b, chk)]: the bytes stored at [chk]. *)
Definition tar_checksum (b : list Z) : list Z :=
  snprintf_octal 8 7 (u32 (sum_bytes (imap checksum_term b))).

(** [strchr(s + from, '/') - s] *)
Fixpoint find_slash (s : list Z) : option nat :=
  match s with
  | [] => None
  | c :: s' => if c =? SLASH then Some O else S <$> find_slash s'
  end.

Definition strchr_slash (path : list Z) (from : nat) : option nat :=
  Nat.add from <$> find_slash (drop from path).

(** The [while] that moves [path_separate] to the last slash before 155. *)
Fixpoint split_loop (fuel : nat) (path : list Z) (path_separate : nat) : nat :=
  match fuel with
  | O => path_separate
  | S f =>
      if (path_separate <? 512)%nat then
        if default 0 (path !! path_separate) =? 0 then path_separate
        else match strchr_slash path (path_separate + 1) with
             | None => path_separate
             | Some new_path_separate =>
                 if (155 <=? new_path_separate)%nat then path_separate
                 else split_loop f path new_path_separate
             end
      else path_separate
  end.

Inductive put_path_result :=
  | PathPut (b : list Z)
  | PathNoSlash
  | PathTooLong.

Definition tar_put_path (path b : list Z) : put_path_result :=
  let pathlen := length path in
  if (100 <? pathlen)%nat then
    match strchr_slash path 0 with
    | None => PathNoSlash
    | Some sep =>
        let path_separate := split_loop pathlen path sep in
        if (155 <=? path_separate)%nat then PathTooLong
        else PathPut (overlay NAME (drop path_separate path)
                        (overlay NAME2 (take path_separate path) b))
    end
  else PathPut (overlay NAME path b).

(** The zeroed block with size, magic and version set. *)
Definition tar_init_header : list Z :=
  let b := replicate END 0 in
  let b := overlay SIZE (replicate 11 48) b in
  let b := overlay MAGIC [117; 115; 116; 97; 114; 0] b in
  overlay VERS [48; 48] b.

(** The mode and the modification time. *)
Definition tar_put_stat (st : iox_stat_t) (b : list Z) : list Z :=
  let b := overlay MODE (snprintf_octal 8 7 (u32 (tar_convert_mode_to_posix (st_mode st)))) b in
  overlay MTIME (snprintf_octal 12 11 (u32 (convert_iox_stat_time_to_posix (st_mtime st)))) b.

Definition tar_put_checksum (b : list Z) : list Z := overlay CHK (tar_checksum b) b.
End Header.

(** ** Backup *)

Section Backup.
Context {E : Type} `{Handler E} `{TimeLib} `{CharSign}.
Abbreviation TM := (M tar_state E).

(** [tar_c_file], with [path] the archive path [path_prefix ++ (in_path +
    orig_len)] cut at the 511 characters of the buffer. *)
Definition tar_c_file (fuel : nat) (prefix : string) (orig_len : nat)
    (in_path : string) (st : iox_stat_t) : TM Z :=
  if FIO_S_ISREG (st_mode st) && negb (st_hisize st =? 0) then
    printf (ln "(!) %s: too large file. Skipping.") [PStr in_path];;
    mret 0
  else
  let path := take 511 (bytes_of_string prefix ++ drop orig_len (bytes_of_string in_path)) in
  if (length path =? 0)%nat then mret 0 else
  match tar_put_path path tar_init_header with
  | PathNoSlash =>
      printf (ln "(!) %s: path is too long. Skipping.") [PStr in_path];;
      mret 0
  | PathTooLong => mret 0
  | PathPut b =>
      let b := tar_put_stat st b in
      '(b, f) ← (
        if FIO_S_ISREG (st_mode st) then
          let b := <[TYPE := 48]> b in
          let b := overlay SIZE (snprintf_octal 12 11 (u32 (st_size st))) b in
          f ← call (IomanX_open in_path FIO_O_RDONLY 0);
          mret (b, f)
        else if FIO_S_ISDIR (st_mode st) then mret (<[TYPE := 53]> b, -1)
        else if FIO_S_ISLNK (st_mode st) then
          let b := <[TYPE := 50]> b in
          '(_, target) ← call (IomanX_readlink in_path 100);
          assert_ (length target <=? 100)%nat;;
          mret (overlay LINK target b, -1)
        else mret (b, -1));
      let b := tar_put_checksum b in
      loop fuel (fun '(b, l) =>
        let b := if l <? Z.of_nat END
                 then take (Z.to_nat l) b ++ replicate (END - Z.to_nat l) 0 else b in
        modify (file_write b);;
        if 0 <=? f then
          '(l, data) ← call (IomanX_read f (Z.of_nat END));
          assert_ (length data <=? END)%nat;;
          if 0 <? l then mret (inl (overlay 0 data b, l)) else mret (inr tt)
        else mret (inr tt)) (b, Z.of_nat END);;
      call (IomanX_close f);;
      mret 0
  end.

Abbreviation ftw_callback := (string -> nat -> string -> iox_stat_t -> TM Z).

Definition is_dot_name (name : string) : bool :=
  bool_decide (name = "."%string) || bool_decide (name = ".."%string).

Definition ends_with_slash (path : list Z) : bool :=
  match last path with Some c => c =? SLASH | None => false end.

(** "\r\033[K", then the rest of the format. *)
Definition clear_line (s : string) : string := String "013" (String "027" ("[K" +:+ s)%string).

(** [do_wrapped_ftw]: [path] is the buffer's string on entry; every use of the
    buffer after a write to it goes through the first [j] bytes, which no write
    changes.  A name that does not fit the 257-byte buffer is undefined. *)
Fixpoint do_wrapped_ftw (fuel : nat) (prefix : string) (orig_len : nat) (path : list Z)
    (fn : ftw_callback) : TM Z :=
  match fuel with
  | O => stop OutOfFuel
  | S n =>
      let l := length path in
      let j := if ends_with_slash path then (l - 1)%nat else l in
      let pathstr := string_of_bytes path in
      '(g, st) ← call (IomanX_getstat pathstr);
      if g <? 0 then mret (-1) else
      r ← fn prefix orig_len pathstr st;
      if negb (r =? 0) then mret r else
      if FIO_S_ISDIR (st_mode st) then
        d ← call (IomanX_dopen pathstr);
        if 0 <=? d then
          loop n (fun _ : unit =>
            '(result, de) ← call (IomanX_dread d);
            if (result =? 0) || (result =? -1) then
              printf (clear_line "") [];;
              call (IomanX_close d);;
              mret (inr 0)
            else if is_dot_name (de_name de) then mret (inl tt)
            else
              let name := bytes_of_string (de_name de) in
              if Z.of_nat (IOMANX_PATH_MAX - l) <=? Z.of_nat (length name) then
                call (IomanX_close d);;
                mret (inr (-1))
              else
                let child := take j path ++ SLASH :: name in
                assert_ (length child <=? IOMANX_PATH_MAX)%nat;;
                printf (clear_line "     %s") [PStr (string_of_bytes child)];;
                r ← do_wrapped_ftw n prefix orig_len child fn;
                if negb (r =? 0) then
                  call (IomanX_close d);;
                  mret (inr r)
                else mret (inl tt)) tt
        else mret (-1)
      else mret 0
  end.

Definition wrapped_ftw (fuel : nat) (path_prefix path : string) (fn : ftw_callback) : TM Z :=
  let l := String.length path in
  if (IOMANX_PATH_MAX <? l)%nat then mret (-1)
  else do_wrapped_ftw fuel path_prefix l (bytes_of_string path) fn.

(** The loop over the partitions of the drive that [tar_part] and [part_tar]
    share but for their message, mount flag and body. *)
Definition strncat_dev (name : string) : string :=
  string_of_bytes (take 255 (bytes_of_string ("hdd0:" +:+ name))).

Definition partition_prefix (name : string) : string :=
  string_of_bytes (take 255 (bytes_of_string (name +:+ "/"))).

Definition is_pfs_main (de : iox_dirent_t) : bool :=
  (st_mode (de_stat de) =? 0x0100) && negb (st_attr (de_stat de) =? 1).

Definition selected (arg : option string) (name : string) : bool :=
  match arg with None => true | Some a => bool_decide (name = a) end.

Definition tar_part (fuel : nat) (arg : option string) : TM Z :=
  dh ← call (IomanX_dopen "hdd0:");
  if 0 <=? dh then
    loop fuel (fun _ : unit =>
      '(result, de) ← call (IomanX_dread dh);
      if (result =? 0) || (result =? -1) then mret (inr tt)
      else if is_pfs_main de then
        printf (ln "%s%s") [PStr "hdd0:"; PStr (de_name de)];;
        if selected arg (de_name de) then
          let mount_point := strncat_dev (de_name de) in
          result ← call (IomanX_mount IOMANX_MOUNT_POINT mount_point FIO_MT_RDONLY ArgNull 0);
          if result <? 0 then
            eprintf (ln "(!) %s: %s.") [PStr mount_point; PStrerror (- result)];;
            mret (inl tt)
          else
            wrapped_ftw fuel (partition_prefix (de_name de)) (IOMANX_MOUNT_POINT +:+ "/")
              (tar_c_file fuel);;
            call (IomanX_umount IOMANX_MOUNT_POINT);;
            printf (ln "") [];;
            mret (inl tt)
        else
          printf (ln "") [];;
          mret (inl tt)
      else mret (inl tt)) tt;;
    result ← call (IomanX_close dh);
    if result <? 0 then
      printf (ln "(!) dclose: failed with %d") [PInt result];;
      mret (-1)
    else mret 0
  else
    printf (ln "(!) dopen: failed with %d") [PInt dh];;
    mret dh.
End Backup.

(** ** Restore *)

(** What [restore_from_tar] reads from a header block. *)
Record tar_fields := mk_fields {
  h_name : list Z;
  h_size : Z;
  h_type : Z;
  h_mtime : Z;
  h_posix_mode : Z;
  h_link : list Z
}.

Definition field (off len : nat) (header : list Z) : list Z :=
  cstr (take len (drop off header)).

Definition parse_header (header : list Z) : tar_fields := {|
  h_name := field NAME 100 header;
  h_size := u32 (strtol8 (field SIZE 12 header));
  h_type := default 0 (header !! TYPE);
  h_mtime := strtol8 (field MTIME 12 header);
  h_posix_mode := u32 (strtol8 (field MODE 7 header));
  h_link := field LINK 100 header
|}.

(** [((size + 511) / 512) * 512] on [unsigned int]. *)
Definition padded_size (size : Z) : Z := u32 (u32 (size + 511) / 512 * 512).

(** [strncmp(name, prefix, strlen(prefix)) == 0] *)
Definition has_prefix (prefix name : list Z) : bool :=
  bool_decide (take (length prefix) name = prefix).

(** The directories [ensure_parent_dirs_exist] makes: what comes before each slash
    from index 6 on. *)
Fixpoint parent_dirs (i : nat) (tmp : list Z) (rest : list Z) : list (list Z) :=
  match rest with
  | [] => []
  | c :: rest' =>
      (if c =? SLASH then [take i tmp] else []) ++ parent_dirs (S i) tmp rest'
  end.

Section Restore.
Context {E : Type} `{Handler E} `{TimeLib}.
Abbreviation TM := (M tar_state E).

Definition ensure_parent_dirs_exist {St} (path : list Z) : M St E unit :=
  let tmp := take (IOMANX_PATH_MAX - 1) path in
  let start := (String.length IOMANX_MOUNT_POINT + 1)%nat in
  for_ (parent_dirs start tmp (drop start tmp)) (fun dir =>
    call (IomanX_mkdir (string_of_bytes dir) 0x1FF);; mret tt).

(** The two [chstat] calls: the mode, then the three times. *)
Definition restore_stat {St} (full_path : string) (iomanx_mode mtime : Z) : M St E unit :=
  let t := convert_posix_time_to_iox_time mtime in
  let st_time := mk_iox_stat 0 0 0 t t t 0 0 0 0 0 0 0 in
  let st := mk_iox_stat iomanx_mode 0 0 (replicate 8 0) (replicate 8 0) (replicate 8 0)
              0 0 0 0 0 0 0 in
  call (IomanX_chstat full_path st FIO_CST_MODE);;
  call (IomanX_chstat full_path st_time (Z.lor (Z.lor FIO_CST_MT FIO_CST_AT) FIO_CST_CT));;
  mret tt.

Definition fread (n : nat) : TM (list Z) := fun s e =>
  let '(bs, s') := file_read n s in Out (Ret bs) s' e [].

(** The copy of a file's content.  The result of [fread] is not looked at: where the
    archive ends too soon the loop goes on, and writes [chunk] bytes of which only those
    read are the program's; the rest is what the uninitialised array holds. *)
Definition restore_content (fuel : nat) (fd size : Z) : TM unit :=
  loop fuel (fun remaining =>
    if 0 <? remaining then
      let chunk := if 512 <? remaining then 512 else remaining in
      buf ← fread (Z.to_nat chunk);
      call (IomanX_write fd buf chunk);;
      mret (inl (remaining - chunk))
    else mret (inr tt)) size.

(** What the loop of [restore_from_tar] does with a header that has been read. *)
Definition restore_entry (fuel : nat) (pfs_mount_path : string) (prefix_path : list Z)
    (h : tar_fields) : TM unit :=
  let skip := modify (file_skip (padded_size (h_size h))) in
  let iomanx_mode := convert_posix_mode_to_iomanx (h_posix_mode h) in
  if negb (has_prefix prefix_path (h_name h)) then skip else
  let rel_path := drop (length prefix_path) (h_name h) in
  if (length rel_path =? 0)%nat then skip else
  let full := take 511 (bytes_of_string pfs_mount_path ++ rel_path) in
  let full_path := string_of_bytes full in
  s ← get;
  exists_ ← (if overwrite_mode s then mret false
             else '(r, _) ← call (IomanX_getstat full_path); mret (r =? 0));
  if exists_ : bool then
    printf (ln "Skipping existing file: %s") [PStr (string_of_bytes (h_name h))];;
    skip
  else if h_type h =? 53 then
    ensure_parent_dirs_exist full;;
    call (IomanX_mkdir full_path 0x1FF);;
    restore_stat full_path iomanx_mode (h_mtime h)
  else if h_type h =? 50 then
    let link_target := string_of_bytes (h_link h) in
    ensure_parent_dirs_exist full;;
    res ← call (IomanX_symlink link_target full_path);
    if res <? 0 then
      eprintf (ln "(!) Failed to create symlink: %s -> %s (%d)")
        [PStr full_path; PStr link_target; PInt res];;
      mret tt
    else
      printf (ln "Restoring symlink: %s -> %s") [PStr full_path; PStr link_target];;
      mret tt
  else if (h_type h =? 48) || (h_type h =? 0) then
    ensure_parent_dirs_exist full;;
    fd ← call (IomanX_open full_path
                 (Z.lor (Z.lor FIO_O_WRONLY FIO_O_CREAT) FIO_O_TRUNC) 0x1B6);
    if fd <? 0 then
      eprintf (ln "(!) Failed to create file: %s") [PStr full_path];;
      skip
    else
      restore_content fuel fd (h_size h);;
      call (IomanX_close fd);;
      restore_stat full_path iomanx_mode (h_mtime h);;
      printf (ln "Restoring file: %s (type: %c, size: %u, mask: %o)")
        [PStr (string_of_bytes (h_name h)); PInt (h_type h); PInt (h_size h);
         PInt (h_posix_mode h)];;
      when (negb (h_size h mod 512 =? 0)) (modify (file_skip (512 - h_size h mod 512)))
  else skip.

Definition restore_from_tar (fuel : nat) (pfs_mount_path : string) (prefix_path : list Z)
    : TM Z :=
  modify (file_seek 0);;
  loop fuel (fun _ : unit =>
    header ← fread 512;
    if negb (length header =? 512)%nat then mret (inr 0)
    else if default 0 (header !! 0%nat) =? 0 then mret (inr 0)
    else
      let h := parse_header header in
      if (length (h_name h) =? 0)%nat then mret (inl tt)
      else restore_entry fuel pfs_mount_path prefix_path h;; mret (inl tt)) tt.

Definition part_tar (fuel : nat) (arg : option string) : TM Z :=
  dh ← call (IomanX_dopen "hdd0:");
  if 0 <=? dh then
    loop fuel (fun _ : unit =>
      '(result, de) ← call (IomanX_dread dh);
      if (result =? 0) || (result =? -1) then mret (inr tt)
      else if is_pfs_main de then
        printf (ln "(%s) %s") [PStr "hdd0:"; PStr (de_name de)];;
        if selected arg (de_name de) then
          let mount_point := strncat_dev (de_name de) in
          result ← call (IomanX_mount IOMANX_MOUNT_POINT mount_point FIO_MT_RDWR ArgNull 0);
          if result <? 0 then
            eprintf (ln "(!) %s: %s.") [PStr mount_point; PStrerror (- result)];;
            mret (inl tt)
          else
            restore_from_tar fuel (IOMANX_MOUNT_POINT +:+ "/")
              (bytes_of_string (partition_prefix (de_name de)));;
            call (IomanX_umount IOMANX_MOUNT_POINT);;
            mret (inl tt)
        else mret (inl tt)
      else mret (inl tt)) tt;;
    result ← call (IomanX_close dh);
    if result <? 0 then
      printf (ln "(!) dclose: failed with %d") [PInt result];;
      mret (-1)
    else mret 0
  else
    printf (ln "(!) dopen: failed with %d") [PInt dh];;
    mret dh.
End Restore.

(** ** Lemmas on header fields *)

Definition slice (off len : nat) (b : list Z) : list Z := take len (drop off b).

Lemma field_slice off len b : field off len b = cstr (slice off len b).
Proof. done. Qed.

Section Slices.
Context (off len off' : nat) (src b : list Z).
Context (Hfit : (off' + length src <= length b)%nat).

Lemma slice_overlay_other :
  (off + len <= off' \/ off' + length src <= off)%nat ->
  slice off len (overlay off' src b) = slice off len b.
Proof using Hfit.
  intros [Hb|Ha]; unfold slice; [by rewrite overlay_before|].
  by rewrite overlay_after.
Qed.
End Slices.

Lemma slice_overlay_same off len src b :
  (off + length src <= length b)%nat -> (length src <= len)%nat ->
  slice off len (overlay off src b) = src ++ slice (off + length src) (len - length src) b.
Proof.
  intros Hfit Hle. unfold slice, overlay.
  rewrite drop_app_length' by (rewrite length_take; lia).
  rewrite take_app_ge by lia. done.
Qed.

Lemma slice_tail off len k b : slice (off + k) (len - k) b = drop k (slice off len b).
Proof. unfold slice. by rewrite skipn_firstn_comm, drop_drop. Qed.

Lemma insert_overlay (b : list Z) i x : (i < length b)%nat -> <[i := x]> b = overlay i [x] b.
Proof.
  intros Hi. unfold overlay. rewrite insert_take_drop by done. simpl.
  by replace (i + 1)%nat with (S i) by lia.
Qed.

Lemma lookup_slice (b : list Z) i x : slice i 1 b = [x] -> b !! i = Some x.
Proof.
  unfold slice. intros Hs. rewrite <- (Nat.add_0_r i), <- lookup_drop.
  destruct (drop i b) as [|y l]; [done|]. simpl in *. by injection Hs as ->.
Qed.

(** ** Octal round trip *)

Lemma octal_digits_octal fuel n :
  0 <= n -> Forall (fun c => 48 <= c <= 55) (octal_digits fuel n).
Proof.
  revert n. induction fuel as [|f IH]; intros n Hn; simpl; [constructor|].
  destruct (Z.ltb_spec n 8); [constructor; [lia|constructor]|].
  apply Forall_app. split; [apply IH; apply Z.div_pos; lia|].
  constructor; [|constructor]. pose proof (Z.mod_pos_bound n 8). lia.
Qed.

Lemma length_octal_digits fuel n k :
  0 <= n < 8 ^ Z.of_nat k -> (0 < k)%nat -> (length (octal_digits fuel n) <= k)%nat.
Proof.
  revert n k. induction fuel as [|f IH]; intros n k Hn Hk; simpl; [lia|].
  destruct (Z.ltb_spec n 8); simpl; [lia|].
  rewrite length_app; simpl. destruct k as [|[|k]]; [lia | change (8 ^ Z.of_nat 1) with 8 in Hn; lia |].
  assert (length (octal_digits f (n / 8)) <= S k)%nat; [|lia].
  apply IH; [|lia]. rewrite Nat2Z.inj_succ, Z.pow_succ_r in Hn by lia.
  split; [apply Z.div_pos; lia | apply Z.div_lt_upper_bound; lia].
Qed.

Lemma octal_value_app acc ds rest :
  Forall (fun c => 48 <= c <= 55) ds ->
  octal_value acc (ds ++ rest) = octal_value (octal_value acc ds) rest.
Proof.
  intros Hds. revert acc. induction Hds as [|c ds Hc _ IH]; intros acc; simpl; [done|].
  unfold is_octal. rewrite !(proj2 (Z.leb_le _ _)) by lia. simpl. apply IH.
Qed.

Lemma octal_value_zeros acc k rest :
  octal_value acc (replicate k 48 ++ rest) = octal_value (acc * 8 ^ Z.of_nat k) rest.
Proof.
  revert acc. induction k as [|k IH]; intros acc; simpl; [by rewrite Z.mul_1_r|].
  rewrite IH. f_equal. rewrite Nat2Z.inj_succ, Z.pow_succ_r by lia. lia.
Qed.

Lemma octal_value_digits fuel n :
  0 <= n < 8 ^ Z.of_nat fuel -> octal_value 0 (octal_digits fuel n) = n.
Proof.
  revert n. induction fuel as [|f IH]; intros n Hn; [simpl in *; lia|].
  rewrite Nat2Z.inj_succ, Z.pow_succ_r in Hn by lia. simpl.
  destruct (Z.ltb_spec n 8).
  - cbn [octal_value]. unfold is_octal. rewrite !(proj2 (Z.leb_le _ _)) by lia. simpl. lia.
  - assert (0 <= n / 8 < 8 ^ Z.of_nat f)
      by (split; [apply Z.div_pos; lia | apply Z.div_lt_upper_bound; lia]).
    rewrite octal_value_app by (apply octal_digits_octal; lia). rewrite IH by done.
    pose proof (Z.mod_pos_bound n 8 ltac:(lia)).
    cbn [octal_value]. unfold is_octal. rewrite !(proj2 (Z.leb_le _ _)) by lia. simpl.
    pose proof (Z.div_mod n 8). lia.
Qed.

(** The digits [snprintf] stores when they fit, without the terminator. *)
Definition octal_text (prec : nat) (n : Z) : list Z :=
  replicate (prec - length (octal_digits 11 n)) 48 ++ octal_digits 11 n.

Section Octal.
Context (prec : nat) (n : Z).
Context (Hprec : (0 < prec <= 11)%nat) (Hn : 0 <= n < 8 ^ Z.of_nat prec) (Hn32 : n < 2 ^ 32).

Lemma length_octal_text : length (octal_text prec n) = prec.
Proof using Hprec Hn.
  unfold octal_text. rewrite length_app, length_replicate.
  pose proof (length_octal_digits 11 n prec Hn ltac:(lia)). lia.
Qed.

Lemma octal_text_octal : Forall (fun c => 48 <= c <= 55) (octal_text prec n).
Proof using Hprec Hn.
  unfold octal_text. apply Forall_app. split; [|apply octal_digits_octal; lia].
  apply Forall_replicate. lia.
Qed.

Lemma snprintf_octal_text size : (prec < size)%nat ->
  snprintf_octal size prec n = octal_text prec n ++ [0].
Proof using Hprec Hn Hn32.
  intros Hs. unfold snprintf_octal. rewrite (uwrap_small 32) by lia.
  fold (octal_text prec n). by rewrite take_ge by (rewrite length_octal_text; lia).
Qed.

(** A field of exactly [prec] digits, or of [prec] digits and a NUL, is read back. *)
Lemma octal_text_read rest : rest = [] \/ rest = [0] ->
  strtol8 (cstr (octal_text prec n ++ rest)) = n.
Proof using Hprec Hn Hn32.
  intros Hrest. pose proof octal_text_octal as Hoct.
  assert (Hnz : nonzero (octal_text prec n))
    by (eapply Forall_impl; [done|]; simpl; lia).
  assert (Hc : cstr (octal_text prec n ++ rest) = octal_text prec n)
    by (rewrite cstr_app_nonzero by done; destruct Hrest as [-> | ->]; apply app_nil_r).
  rewrite Hc. unfold strtol8. rewrite cstr_nonzero by done.
  assert (Hval : octal_value 0 (octal_text prec n) = n).
  { unfold octal_text. rewrite octal_value_zeros, Z.mul_0_l. apply octal_value_digits.
    split; [lia|]. change (8 ^ Z.of_nat 11) with 8589934592. lia. }
  pose proof length_octal_text as Hlen.
  destruct (octal_text prec n) as [|c ds] eqn:Htxt; [simpl in Hlen; lia|].
  pose proof (Forall_inv Hoct) as Hc0. cbv beta in Hc0. cbn [skip_spaces]. unfold is_space.
  replace ((c =? 32) || ((9 <=? c) && (c <=? 13))) with false
    by (symmetry; destruct (Z.eqb_spec c 32), (Z.leb_spec 9 c), (Z.leb_spec c 13); simpl; done || (exfalso; lia)).
  rewrite !(proj2 (Z.eqb_neq c _)) by lia. rewrite Hval. lia.
Qed.
End Octal.

(** ** The header of an archive member *)

(** What pfs2tar archives: a file with its content, a directory, or a link. *)
Inductive node :=
  | NFile (content : list Z)
  | NDir
  | NLink (target : list Z).

Record entry := mk_entry {
  e_path : list Z;
  e_stat : iox_stat_t;
  e_node : node
}.

(** An entry pfs2tar can represent: a path of at most 100 bytes, a content whose
    size rounded up to blocks stays below 4 GB, a mode of the right type. *)
Definition entry_ok (x : entry) : Prop :=
  (0 < length (e_path x) <= 100)%nat /\ nonzero (e_path x) /\
  match e_node x with
  | NFile content => FIO_S_ISREG (st_mode (e_stat x)) = true /\
                     st_size (e_stat x) = Z.of_nat (length content) /\
                     Z.of_nat (length content) <= 2 ^ 32 - 512
  | NDir => FIO_S_ISDIR (st_mode (e_stat x)) = true
  | NLink target => FIO_S_ISLNK (st_mode (e_stat x)) = true /\
                    (length target <= 100)%nat /\ nonzero target
  end.

Lemma types_exclusive m :
  (FIO_S_ISDIR m = true -> FIO_S_ISREG m = false) /\
  (FIO_S_ISLNK m = true -> FIO_S_ISREG m = false /\ FIO_S_ISDIR m = false).
Proof.
  unfold FIO_S_ISDIR, FIO_S_ISREG, FIO_S_ISLNK, FIO_S_IFDIR, FIO_S_IFREG, FIO_S_IFLNK.
  split; intros ->%Z.eqb_eq; done.
Qed.

Lemma mode_bound m : 0 <= tar_convert_mode_to_posix m < 2 ^ 16.
Proof.
  assert (E : tar_convert_mode_to_posix m = u16 (tar_convert_mode_to_posix m)).
  { apply u16_by_bits; [done|]. intros; by apply tar_to_posix_high. }
  rewrite E. apply (uwrap_range 16). lia.
Qed.

Section EntryHeader.
Context `{TimeLib} `{CharSign}.

Definition mode_text (st : iox_stat_t) : list Z :=
  octal_text 7 (tar_convert_mode_to_posix (st_mode st)) ++ [0].
Definition mtime_text (st : iox_stat_t) : list Z :=
  octal_text 11 (u32 (convert_time_to_posix (st_mtime st))) ++ [0].
Definition size_text (st : iox_stat_t) : list Z := octal_text 11 (u32 (st_size st)) ++ [0].

Lemma mode_text_eq st :
  snprintf_octal 8 7 (u32 (tar_convert_mode_to_posix (st_mode st))) = mode_text st.
Proof using.
  pose proof (mode_bound (st_mode st)).
  rewrite (uwrap_small 32) by lia. apply snprintf_octal_text; lia.
Qed.

Lemma u32_octal z : 0 <= u32 z < 8 ^ Z.of_nat 11 /\ u32 z < 2 ^ 32.
Proof using.
  pose proof (uwrap_range 32 ltac:(lia) z). change (8 ^ Z.of_nat 11) with 8589934592. lia.
Qed.

Lemma mtime_text_eq st :
  snprintf_octal 12 11 (u32 (convert_time_to_posix (st_mtime st))) = mtime_text st.
Proof using.
  destruct (u32_octal (convert_time_to_posix (st_mtime st))).
  apply snprintf_octal_text; done || lia.
Qed.

Lemma size_text_eq st : snprintf_octal 12 11 (u32 (st_size st)) = size_text st.
Proof using.
  destruct (u32_octal (st_size st)). apply snprintf_octal_text; done || lia.
Qed.

Lemma length_mode_text st : length (mode_text st) = 8%nat.
Proof using.
  unfold mode_text. pose proof (mode_bound (st_mode st)).
  rewrite length_app, length_octal_text; simpl; lia.
Qed.

Lemma length_mtime_text st : length (mtime_text st) = 12%nat.
Proof using.
  unfold mtime_text. destruct (u32_octal (convert_time_to_posix (st_mtime st))).
  rewrite length_app, length_octal_text; simpl; done || lia.
Qed.

Lemma length_size_text st : length (size_text st) = 12%nat.
Proof using.
  unfold size_text. destruct (u32_octal (st_size st)).
  rewrite length_app, length_octal_text; simpl; done || lia.
Qed.

Lemma length_snprintf_octal size prec n :
  (prec < size)%nat -> (0 < prec)%nat ->
  (length (snprintf_octal size prec n) <= size)%nat /\
  (prec < length (snprintf_octal size prec n))%nat.
Proof using.
  intros. unfold snprintf_octal.
  rewrite length_app, length_take, length_app, length_replicate; simpl. lia.
Qed.

Lemma length_tar_checksum b : length (tar_checksum b) = 8%nat.
Proof using.
  unfold tar_checksum. pose proof (length_snprintf_octal 8 7 (u32 (sum_bytes (imap checksum_term b)))). lia.
Qed.

(** The header before its type, size, link and checksum. *)
Definition base_header (path : list Z) (st : iox_stat_t) : list Z :=
  overlay MTIME (mtime_text st) (overlay MODE (mode_text st)
    (overlay NAME path tar_init_header)).

Definition typed_header (x : entry) : list Z :=
  let b := base_header (e_path x) (e_stat x) in
  match e_node x with
  | NFile _ => overlay SIZE (size_text (e_stat x)) (<[TYPE := 48]> b)
  | NDir => <[TYPE := 53]> b
  | NLink target => overlay LINK target (<[TYPE := 50]> b)
  end.

Definition entry_header (x : entry) : list Z := tar_put_checksum (typed_header x).

Lemma base_header_eq path st :
  tar_put_stat st (overlay NAME path tar_init_header) = base_header path st.
Proof using. unfold tar_put_stat. by rewrite iox_stat_time_same, mode_text_eq, mtime_text_eq. Qed.

Lemma length_init_header : length tar_init_header = 512%nat.
Proof using. done. Qed.

Lemma length_base_header path st : (length path <= 100)%nat -> length (base_header path st) = 512%nat.
Proof using.
  intros Hp. unfold base_header, NAME, MODE, MTIME.
  repeat (rewrite length_overlay; rewrite ?length_mtime_text, ?length_mode_text, ?length_init_header; try lia).
Qed.

Lemma length_typed_header x : entry_ok x -> length (typed_header x) = 512%nat.
Proof using.
  intros (Hp & _ & Hn). pose proof (length_base_header (e_path x) (e_stat x) ltac:(lia)) as Hb.
  unfold typed_header. destruct (e_node x); rewrite ?length_overlay, ?length_insert;
    rewrite ?length_insert, ?length_size_text, ?Hb; unfold SIZE, LINK; lia.
Qed.

Lemma length_entry_header x : entry_ok x -> length (entry_header x) = 512%nat.
Proof using.
  intros Hx. unfold entry_header, tar_put_checksum.
  rewrite length_overlay; rewrite ?length_tar_checksum, length_typed_header by done; [done|].
  unfold CHK. lia.
Qed.
End EntryHeader.

Ltac unfold_offsets :=
  unfold NAME, MODE, SIZE, MTIME, CHK, TYPE, LINK, MAGIC, VERS, NAME2 in *.

(** Looks through the overlays that do not touch the slice. *)
Ltac peel len := repeat (rewrite slice_overlay_other by len).

Section HeaderFields.
Context `{TimeLib} `{CharSign}.

Lemma base_fields path st :
  (length path <= 100)%nat ->
  let b := base_header path st in
  slice NAME 100 b = path ++ replicate (100 - length path) 0 /\
  slice MODE 8 b = mode_text st /\
  slice SIZE 12 b = replicate 11 48 ++ [0] /\
  slice MTIME 12 b = mtime_text st /\
  slice LINK 100 b = replicate 100 0.
Proof using.
  intros Hp b. subst b. unfold base_header. unfold_offsets.
  assert (Hl1 : length (overlay 0 path tar_init_header) = 512%nat)
    by (rewrite length_overlay; rewrite ?length_init_header; lia).
  assert (Hl2 : length (overlay 100 (mode_text st) (overlay 0 path tar_init_header)) = 512%nat)
    by (rewrite length_overlay; rewrite ?length_mode_text, Hl1; lia).
  split_and!.
  - rewrite !slice_overlay_other by (rewrite ?length_mtime_text, ?length_mode_text, ?Hl2, ?Hl1; lia).
    rewrite slice_overlay_same by (rewrite ?length_init_header; lia). f_equal.
    rewrite slice_tail. change (slice 0 100 tar_init_header) with (replicate 100 0).
    apply drop_replicate.
  - rewrite slice_overlay_other by (rewrite ?length_mtime_text, ?Hl2; lia).
    rewrite slice_overlay_same by (rewrite ?length_mode_text, ?Hl1; lia).
    rewrite length_mode_text. apply app_nil_r.
  - by peel ltac:(rewrite ?length_mtime_text, ?length_mode_text, ?Hl2, ?Hl1, ?length_init_header; lia).
  - rewrite slice_overlay_same by (rewrite ?length_mtime_text, ?Hl2; lia).
    rewrite length_mtime_text. apply app_nil_r.
  - by peel ltac:(rewrite ?length_mtime_text, ?length_mode_text, ?Hl2, ?Hl1, ?length_init_header; lia).
Qed.

(** What [parse_header] gives for the header of an entry. *)
Definition entry_fields (x : entry) : tar_fields := {|
  h_name := e_path x;
  h_size := match e_node x with NFile content => Z.of_nat (length content) | _ => 0 end;
  h_type := match e_node x with NFile _ => 48 | NDir => 53 | NLink _ => 50 end;
  h_mtime := u32 (convert_time_to_posix (st_mtime (e_stat x)));
  h_posix_mode := tar_convert_mode_to_posix (st_mode (e_stat x));
  h_link := match e_node x with NLink target => target | _ => [] end
|}.

Definition type_char (n : node) : Z :=
  match n with NFile _ => 48 | NDir => 53 | NLink _ => 50 end.

Lemma typed_fields x :
  entry_ok x ->
  let b := typed_header x in
  slice NAME 100 b = e_path x ++ replicate (100 - length (e_path x)) 0 /\
  slice MODE 8 b = mode_text (e_stat x) /\
  slice SIZE 12 b = (match e_node x with
                     | NFile _ => size_text (e_stat x) | _ => replicate 11 48 ++ [0] end) /\
  slice MTIME 12 b = mtime_text (e_stat x) /\
  slice TYPE 1 b = [type_char (e_node x)] /\
  slice LINK 100 b = (match e_node x with
                      | NLink t => t ++ replicate (100 - length t) 0
                      | _ => replicate 100 0 end).
Proof using.
  intros (Hp & _ & Hn) b. subst b. unfold typed_header.
  pose proof (length_base_header (e_path x) (e_stat x) ltac:(lia)) as Hb.
  destruct (base_fields (e_path x) (e_stat x) ltac:(lia)) as (F1 & F2 & F3 & F4 & F5).
  set (b := base_header (e_path x) (e_stat x)) in *.
  assert (Hins : forall c, <[TYPE := c]> b = overlay TYPE [c] b)
    by (intros; apply insert_overlay; rewrite Hb; unfold TYPE; lia).
  assert (Hil : forall c, length (overlay TYPE [c] b) = 512%nat)
    by (intros; rewrite length_overlay; rewrite Hb; unfold TYPE; simpl; lia).
  assert (Htype : forall c, slice TYPE 1 (overlay TYPE [c] b) = [c])
    by (intros; rewrite slice_overlay_same; rewrite ?Hb; unfold TYPE; simpl; (done || lia)).
  unfold_offsets. destruct (e_node x) as [content| |t]; simpl (type_char _); rewrite Hins.
  - split_and!; try by peel ltac:(rewrite ?length_size_text, ?Hil, ?Hb; simpl; lia).
    rewrite slice_overlay_same by (rewrite ?length_size_text, ?Hil; lia).
    rewrite length_size_text. apply app_nil_r.
  - split_and!; by peel ltac:(rewrite ?Hb; simpl; lia).
  - destruct Hn as (_ & Hlen & _).
    split_and!; try by peel ltac:(rewrite ?Hil, ?Hb; simpl; lia).
    rewrite slice_overlay_same by (rewrite ?Hil; lia). f_equal.
    rewrite slice_tail, slice_overlay_other, F5 by (rewrite ?Hb; simpl; lia).
    apply drop_replicate.
Qed.

Lemma entry_slices x off len :
  entry_ok x -> (off + len <= CHK \/ CHK + 8 <= off)%nat ->
  slice off len (entry_header x) = slice off len (typed_header x).
Proof using.
  intros Hx Hoff. unfold entry_header, tar_put_checksum.
  apply slice_overlay_other; rewrite length_tar_checksum; [|done].
  rewrite length_typed_header by done. unfold CHK; lia.
Qed.

Lemma cstr_padded s n : nonzero s -> cstr (s ++ replicate n 0) = s.
Proof using. intros. by rewrite cstr_app_nonzero, cstr_replicate_0, app_nil_r. Qed.

Lemma slice_take off k len b : (k <= len)%nat -> slice off k b = take k (slice off len b).
Proof using. intros. unfold slice. rewrite take_take. f_equal. lia. Qed.

Lemma parse_entry_header x : entry_ok x -> parse_header (entry_header x) = entry_fields x.
Proof using.
  intros Hx. pose proof Hx as (Hp & Hnz & Hn).
  destruct (typed_fields x Hx) as (F1 & F2 & F3 & F4 & F5 & F6).
  pose proof (mode_bound (st_mode (e_stat x))) as Hm.
  destruct (u32_octal (convert_time_to_posix (st_mtime (e_stat x)))) as [Ht Ht'].
  unfold parse_header, entry_fields. rewrite !field_slice, !entry_slices
    by (done || (unfold_offsets; lia)).
  rewrite F1, F3, F4, F6, (slice_take MODE 7 8), F2 by lia.
  unfold mtime_text. rewrite octal_text_read by (done || lia || auto).
  unfold mode_text. rewrite take_app_le by (rewrite length_octal_text; lia).
  rewrite take_ge by (rewrite length_octal_text; lia).
  rewrite <- (app_nil_r (octal_text 7 _)), octal_text_read by (auto || lia).
  rewrite (uwrap_small 32 (tar_convert_mode_to_posix _)) by lia.
  assert (Hty : entry_header x !! TYPE = Some (type_char (e_node x))).
  { apply lookup_slice. by rewrite entry_slices by (done || (unfold_offsets; lia)). }
  rewrite Hty, cstr_padded by done. simpl. f_equal.
  - destruct (e_node x) as [content| |t]; [|done|done]. destruct Hn as (_ & Hsz & Hlen).
    destruct (u32_octal (st_size (e_stat x))). unfold size_text.
    rewrite octal_text_read, Hsz, !(uwrap_small 32) by (done || lia || auto || (rewrite ?(uwrap_small 32); lia)). done.
  - destruct (e_node x) as [content| |t]; [done..|]. destruct Hn as (_ & _ & Ht0).
    by apply cstr_padded.
Qed.
End HeaderFields.

(** ** Archives *)

(** The content of a file, in blocks of 512 bytes, the last one padded. *)
Definition padding (n : nat) : nat := ((512 - n mod 512) mod 512)%nat.
Definition pad512 (content : list Z) : list Z := content ++ replicate (padding (length content)) 0.

Definition node_content (n : node) : list Z :=
  match n with NFile content => content | _ => [] end.

Definition encode_entry `{TimeLib} `{CharSign} (x : entry) : list Z :=
  entry_header x ++ pad512 (node_content (e_node x)).

(** An archive: the members and two blocks of zeros. *)
Definition archive `{TimeLib} `{CharSign} (xs : list entry) : list Z :=
  concat (encode_entry <$> xs) ++ replicate 1024 0.

Fixpoint blocks (fuel : nat) (content : list Z) : list (list Z) :=
  match fuel with
  | O => []
  | S f => match content with
           | [] => []
           | _ => take 512 content :: blocks f (drop 512 content)
           end
  end.

(** ** Restoring, specified on entries instead of bytes *)

Section RestoreSpec.
Context {E : Type} `{Handler E} `{TimeLib}.

Definition write_content (fd : Z) (content : list Z) : M unit E unit :=
  for_ (blocks (length content) content) (fun b =>
    call (IomanX_write fd b (Z.of_nat (length b)));; mret tt).

(** What restoring one entry does: the directories above it are made, then the
    entry with its content, mode and times; entries of other partitions, the
    partition's root and, unless [ow], existing files are left alone. *)
Definition restore_node (ow : bool) (mount : string) (prefix : list Z) (x : entry)
    : M unit E unit :=
  let mode := convert_posix_mode_to_iomanx (tar_convert_mode_to_posix (st_mode (e_stat x))) in
  let mtime := u32 (convert_time_to_posix (st_mtime (e_stat x))) in
  let name := string_of_bytes (e_path x) in
  if negb (has_prefix prefix (e_path x)) then mret tt else
  let rel := drop (length prefix) (e_path x) in
  if (length rel =? 0)%nat then mret tt else
  let full := take 511 (bytes_of_string mount ++ rel) in
  let full_path := string_of_bytes full in
  exists_ ← (if ow then mret false
             else '(r, _) ← call (IomanX_getstat full_path); mret (r =? 0));
  if exists_ : bool then
    printf (ln "Skipping existing file: %s") [PStr name];; mret tt
  else match e_node x with
  | NDir =>
      ensure_parent_dirs_exist full;;
      call (IomanX_mkdir full_path 0x1FF);;
      restore_stat full_path mode mtime
  | NLink target =>
      ensure_parent_dirs_exist full;;
      res ← call (IomanX_symlink (string_of_bytes target) full_path);
      if res <? 0 then
        eprintf (ln "(!) Failed to create symlink: %s -> %s (%d)")
          [PStr full_path; PStr (string_of_bytes target); PInt res];;
        mret tt
      else
        printf (ln "Restoring symlink: %s -> %s")
          [PStr full_path; PStr (string_of_bytes target)];;
        mret tt
  | NFile content =>
      ensure_parent_dirs_exist full;;
      fd ← call (IomanX_open full_path
                   (Z.lor (Z.lor FIO_O_WRONLY FIO_O_CREAT) FIO_O_TRUNC) 0x1B6);
      if fd <? 0 then
        eprintf (ln "(!) Failed to create file: %s") [PStr full_path];; mret tt
      else
        write_content fd content;;
        call (IomanX_close fd);;
        restore_stat full_path mode mtime;;
        printf (ln "Restoring file: %s (type: %c, size: %u, mask: %o)")
          [PStr name; PInt 48; PInt (Z.of_nat (length content));
           PInt (tar_convert_mode_to_posix (st_mode (e_stat x)))];;
        mret tt
  end.

Definition restore_nodes (ow : bool) (mount : string) (prefix : list Z) (xs : list entry)
    : M unit E Z :=
  for_ xs (restore_node ow mount prefix);; mret 0.
End RestoreSpec.

(** ** The refinement, step by step *)

Lemma length_pad512 content :
  Z.of_nat (length content) <= 2 ^ 32 - 512 ->
  Z.of_nat (length (pad512 content)) = padded_size (Z.of_nat (length content)).
Proof.
  intros Hlen. unfold pad512, padding, padded_size. rewrite length_app, length_replicate.
  set (n := length content) in *. clearbody n.
  rewrite Nat2Z.inj_add, Nat2Z.inj_mod, Nat2Z.inj_sub, Nat2Z.inj_mod
    by (pose proof (Nat.mod_upper_bound n 512); lia).
  rewrite (uwrap_small 32 (Z.of_nat n + 511)) by lia. rewrite uwrap_small by dlia. dlia.
Qed.

Section RestoreRefines.
Context {E : Type} `{Handler E} `{TimeLib} `{CharSign}.

(** The state when the archive is read up to what [rest] remains. *)
Definition at_rest (s : tar_state) (rest : list Z) : Prop :=
  drop (tarfile_pos s) (tarfile_data s) = rest.

(** [s] further on by [n] bytes. *)
Definition advance (n : nat) (s : tar_state) : tar_state :=
  mk_tar (tarfile_data s) (tarfile_pos s + n) (overwrite_mode s).

Lemma advance_add m n s : advance n (advance m s) = advance (m + n) s.
Proof using. unfold advance; simpl. f_equal. lia. Qed.

Lemma advance_0 s : advance 0 s = s.
Proof using. destruct s. unfold advance; simpl. by rewrite Nat.add_0_r. Qed.

Lemma at_rest_advance n s rest : at_rest s rest -> at_rest (advance n s) (drop n rest).
Proof using. unfold at_rest, advance; simpl. intros <-. by rewrite drop_drop. Qed.

Lemma file_read_rest n s rest :
  at_rest s rest -> file_read n s = (take n rest, advance (length (take n rest)) s).
Proof using. unfold at_rest, file_read, advance. by intros ->. Qed.

(** Reading what is there. *)
Lemma refines_fread {B} n (k : list Z -> M tar_state E B) spec s s' rest :
  at_rest s rest -> refines (k (take n rest)) spec (advance (length (take n rest)) s) s' ->
  refines (fread n ≫= k) spec s s'.
Proof using.
  intros Hs Hk e. destruct (Hk e) as (b & e1 & t1 & E1 & E2). exists b, e1, t1.
  unfold mbind, M_bind, bind_outcome, fread. rewrite (file_read_rest _ _ _ Hs); simpl.
  by rewrite E1.
Qed.

Lemma restore_content_refines fuel k content rest fd s :
  at_rest s (content ++ rest) -> (length content < fuel)%nat -> (length content <= k)%nat ->
  refines (restore_content fuel fd (Z.of_nat (length content)))
    (for_ (blocks k content) (fun b =>
       call (IomanX_write fd b (Z.of_nat (length b)));; mret tt)) s
    (advance (length content) s).
Proof using.
  revert k content s. induction fuel as [|fuel IH]; intros k content s Hs Hf Hk; [lia|].
  unfold restore_content. apply refines_loop_S.
  destruct content as [|c content'] eqn:Hc.
  { simpl. rewrite advance_0. destruct k; apply refines_ret. }
  destruct k as [|k]; [simpl in Hk; lia|]. cbn [blocks for_]. rewrite <- Hc in *.
  assert (Hlen : (0 < length content)%nat) by (rewrite Hc; simpl; lia).
  rewrite (proj2 (Z.ltb_lt _ _)) by lia.
  set (chunk := if 512 <? Z.of_nat (length content) then 512 else Z.of_nat (length content)).
  assert (Hchunk : Z.of_nat (length (take 512 content)) = chunk)
    by (rewrite length_take; subst chunk; destruct (Z.ltb_spec 512 (Z.of_nat (length content))); lia).
  assert (Htake : take (Z.to_nat chunk) (content ++ rest) = take 512 content).
  { replace (Z.to_nat chunk) with (length (take 512 content)) by lia.
    rewrite <- (take_drop 512 content) at 2. rewrite <- app_assoc. apply take_app_length. }
  clearbody chunk.
  repeat refines_step. eapply refines_fread; [done|]. rewrite Htake.
  cbv beta. rewrite <- Hchunk. repeat refines_step. rewrite Hchunk.
  assert (Hnext : Z.of_nat (length content) - chunk = Z.of_nat (length (drop 512 content)))
    by (rewrite length_drop; rewrite length_take in Hchunk; lia).
  rewrite Hnext.
  assert (Hadv : advance (length content) s =
                 advance (length (drop 512 content)) (advance (length (take 512 content)) s))
    by (rewrite advance_add; f_equal; rewrite <- length_app, take_drop; done).
  rewrite Hadv. apply IH.
  - replace (drop 512 content ++ rest)
      with (drop (length (take 512 content)) (content ++ rest)); [by apply at_rest_advance|].
    rewrite <- (take_drop 512 content) at 2. rewrite <- app_assoc. apply drop_app_length.
  - rewrite length_drop. lia.
  - rewrite length_drop. lia.
Qed.

Lemma ensure_parents_refines path (s : tar_state) :
  refines (ensure_parent_dirs_exist path) (ensure_parent_dirs_exist path) s s.
Proof using.
  unfold ensure_parent_dirs_exist. apply refines_for. intros dir. repeat refines_step.
Qed.

Lemma restore_stat_refines path mode mtime (s : tar_state) :
  refines (restore_stat path mode mtime) (restore_stat path mode mtime) s s.
Proof using. unfold restore_stat. repeat refines_step. Qed.

(** After the content, the padding is skipped when there is one. *)
Lemma padding_refines (content : list Z) s :
  refines (E := E) (when (negb (Z.of_nat (length content) mod 512 =? 0))
             (modify (file_skip (512 - Z.of_nat (length content) mod 512))))
    (mret tt) s (advance (padding (length content)) s).
Proof using.
  unfold padding. set (n := length content). clearbody n.
  destruct (Z.eqb_spec (Z.of_nat n mod 512) 0) as [Hz|Hz]; cbn [negb when].
  - replace (n mod 512)%nat with 0%nat by (apply Nat2Z.inj; rewrite Nat2Z.inj_mod; lia).
    change ((512 - 0) mod 512)%nat with 0%nat. rewrite advance_0. apply refines_ret.
  - apply refines_modify. unfold file_skip, file_seek, advance. f_equal. f_equal.
    pose proof (Nat.mod_upper_bound n 512).
    assert (Z.of_nat (n mod 512)%nat = Z.of_nat n mod 512) as E1 by apply Nat2Z.inj_mod.
    rewrite Nat.mod_small by lia. lia.
Qed.

Lemma restore_entry_refines fuel mount prefix x rest s :
  entry_ok x -> (length (node_content (e_node x)) < fuel)%nat ->
  at_rest s (pad512 (node_content (e_node x)) ++ rest) ->
  refines (restore_entry fuel mount prefix (entry_fields x))
    (restore_node (overwrite_mode s) mount prefix x) s
    (advance (length (pad512 (node_content (e_node x)))) s).
Proof using.
  intros Hx Hf Hs. set (s' := advance _ s).
  assert (Hskip : refines (E := E) (modify (file_skip (padded_size (h_size (entry_fields x)))))
                    (mret tt) s s').
  { apply refines_modify. unfold file_skip, file_seek, s', advance. do 2 f_equal.
    destruct Hx as (_ & _ & Hn). simpl. destruct (e_node x) as [content| |]; simpl; [|done..].
    rewrite <- length_pad512 by (destruct Hn as (_ & _ & ?); lia). lia. }
  unfold restore_entry, restore_node. cbn [h_name entry_fields h_posix_mode h_mtime h_type h_link].
  apply refines_if; intros Hpre; [done|]. apply refines_if; intros Hrel; [done|].
  apply refines_get. eapply refines_bind.
  { destruct (overwrite_mode s); [apply refines_ret|]. refines_step. destruct a. apply refines_ret. }
  intros ex. apply refines_if; intros Hex; [repeat refines_step; exact Hskip|].
  destruct (e_node x) as [content| |target] eqn:Hn; cbn [Z.eqb Pos.eqb orb].
  - replace (h_size (entry_fields x)) with (Z.of_nat (length content)) in *
      by (simpl; by rewrite Hn).
    eapply refines_bind; [apply ensure_parents_refines|]. intros _.
    eapply refines_bind; [apply refines_call|]. intros fd.
    apply refines_if; intros Hfd; [repeat refines_step; exact Hskip|].
    eapply refines_bind.
    { apply restore_content_refines with (rest := replicate (padding (length content)) 0 ++ rest); [|exact Hf|done].
      simpl in Hs. unfold pad512 in Hs. by rewrite <- app_assoc in Hs. }
    intros _. eapply refines_bind; [apply refines_call|]. intros _.
    eapply refines_bind; [apply restore_stat_refines|]. intros _.
    eapply refines_bind; [apply refines_call|]. intros _.
    replace s' with (advance (padding (length content)) (advance (length content) s)).
    { apply padding_refines. }
    unfold s'. rewrite advance_add. unfold pad512. simpl. by rewrite length_app, length_replicate.
  - replace s' with s by (symmetry; apply advance_0).
    eapply refines_bind; [apply ensure_parents_refines|]. intros _.
    eapply refines_bind; [apply refines_call|]. intros _. apply restore_stat_refines.
  - replace s' with s by (symmetry; apply advance_0).
    eapply refines_bind; [apply ensure_parents_refines|]. intros _.
    eapply refines_bind; [apply refines_call|]. intros res.
    apply refines_if; intros _; repeat refines_step.
Qed.

Lemma length_encode_entry x :
  entry_ok x -> length (encode_entry x) = (512 + length (pad512 (node_content (e_node x))))%nat.
Proof using. intros Hx. unfold encode_entry. by rewrite length_app, length_entry_header. Qed.

(** The first byte of a header is that of the name, which is not empty. *)
Lemma entry_header_head x rest :
  entry_ok x -> default 0 ((entry_header x ++ rest) !! 0%nat) <> 0.
Proof using.
  intros Hx. pose proof Hx as ((Hp & _) & Hnz & _).
  destruct (typed_fields x Hx) as (F1 & _).
  pose proof (entry_slices x NAME 100 Hx ltac:(left; unfold NAME, CHK; lia)) as Hs.
  rewrite F1 in Hs. pose proof (length_entry_header x Hx) as Hlen.
  destruct (entry_header x) as [|b h]; [done|]. unfold slice, NAME in Hs; simpl in Hs.
  destruct (e_path x) as [|c path]; [simpl in Hp; lia|]. injection Hs as <- _.
  apply Forall_inv in Hnz. done.
Qed.

Lemma restore_loop_refines n fuel mount prefix xs tail s :
  Forall entry_ok xs -> (length xs < n)%nat ->
  Forall (fun x => length (node_content (e_node x)) < fuel)%nat xs ->
  (512 <= length tail)%nat -> default 0 (tail !! 0%nat) = 0 ->
  at_rest s (concat (encode_entry <$> xs) ++ tail) ->
  refines (loop n (fun _ : unit =>
    header ← fread 512;
    if negb (length header =? 512)%nat then mret (inr 0)
    else if default 0 (header !! 0%nat) =? 0 then mret (inr 0)
    else
      let h := parse_header header in
      if (length (h_name h) =? 0)%nat then mret (inl tt)
      else restore_entry fuel mount prefix h;; mret (inl tt)) tt)
    (restore_nodes (overwrite_mode s) mount prefix xs) s
    (advance (length (concat (encode_entry <$> xs)) + 512) s).
Proof using.
  intros Hxs. revert n s. induction Hxs as [|x xs Hx _ IH];
    intros n s Hn Hf Htail H0tail Hs; (destruct n as [|n]; [simpl in Hn; lia|]);
    apply refines_loop_S; repeat refines_step.
  - simpl in Hs. eapply refines_fread; [done|].
    assert (Hlen : length (take 512 tail) = 512%nat) by (rewrite length_take; lia).
    rewrite Hlen. cbn [Nat.eqb negb]. rewrite lookup_take_lt by lia. rewrite H0tail.
    cbn [Z.eqb]. unfold restore_nodes. cbn [for_]. repeat refines_step. apply refines_ret.
  - csimpl in Hs. unfold encode_entry at 1 in Hs. rewrite <- !app_assoc in Hs.
    pose proof (length_entry_header x Hx) as Hlen.
    assert (Htake : forall r, take 512 (entry_header x ++ r) = entry_header x)
      by (intros; rewrite <- Hlen; apply take_app_length).
    eapply refines_fread; [done|]. rewrite Htake, Hlen. cbn [Nat.eqb negb].
    pose proof (entry_header_head x [] Hx) as Hhead. rewrite app_nil_r in Hhead.
    rewrite (proj2 (Z.eqb_neq _ _) Hhead). rewrite parse_entry_header by done.
    cbv zeta. cbn [h_name entry_fields]. pose proof Hx as ((Hp & _) & _).
    rewrite (proj2 (Nat.eqb_neq _ 0)) by lia.
    apply Forall_cons in Hf as [Hfx Hf]. unfold restore_nodes. cbn [for_]. repeat refines_step.
    apply (at_rest_advance 512) in Hs.
    rewrite (drop_app_length' _ _ 512) in Hs by lia.
    eapply refines_bind.
    { change (overwrite_mode s) with (overwrite_mode (advance 512 s)).
      by eapply restore_entry_refines. }
    intros _. refines_step. apply (at_rest_advance (length (pad512 (node_content (e_node x))))) in Hs.
    rewrite drop_app_length in Hs. simpl in Hn.
    specialize (IH n _ ltac:(lia) Hf Htail H0tail Hs).
    rewrite !advance_add in IH. csimpl. rewrite length_app, length_encode_entry by done.
    replace (512 + length (pad512 (node_content (e_node x))) + length (concat (encode_entry <$> xs)) + 512)%nat
      with (512 + length (pad512 (node_content (e_node x))) + (length (concat (encode_entry <$> xs)) + 512))%nat by lia.
    rewrite advance_add. exact IH.
Qed.
End RestoreRefines.

(** ** The header of a member: validity of its checksum *)

(** What POSIX asks of the checksum field: the sum of the header's bytes, the field
    itself counted as spaces. *)
Definition posix_sum (header : list Z) : Z :=
  sum_bytes (imap (fun i b => if (CHK <=? i)%nat && (i <? CHK + 8)%nat then 32 else b) header).

Definition plain (b : Z) : Prop := 0 <= b < 128.

Lemma sum_bytes_bounds k l :
  Forall (fun b => 0 <= b < k) l -> 0 <= k -> 0 <= sum_bytes l <= k * Z.of_nat (length l).
Proof. unfold sum_bytes. induction 1; intros; csimpl; [lia|]. nia. Qed.

Lemma lookup_overlay_outside off (src dst : list Z) i :
  (off + length src <= length dst)%nat -> (i < off \/ off + length src <= i)%nat ->
  overlay off src dst !! i = dst !! i.
Proof.
  intros Hfit [Hi|Hi]; unfold overlay.
  - rewrite lookup_app_l by (rewrite length_take; lia). by apply lookup_take_lt.
  - rewrite !lookup_app_r by (rewrite length_take; lia).
    rewrite length_take, lookup_drop. f_equal. lia.
Qed.

Section Checksum.
Context `{TimeLib} `{CharSign}.

(** The field itself does not count. *)
Lemma checksum_mask (f : Z -> Z) chk b :
  length chk = 8%nat -> (CHK + 8 <= length b)%nat ->
  let term i c := if (CHK <=? i)%nat && (i <? CHK + 8)%nat then 32 else f c in
  imap term (overlay CHK chk b) = imap term b.
Proof using.
  intros Hchk Hb term. apply list_eq. intros i. rewrite !list_lookup_imap.
  destruct (decide (CHK <= i < CHK + 8)%nat) as [Hi|Hi].
  - assert (Hm : forall c, term i c = 32).
    { intros c. unfold term. rewrite (proj2 (Nat.leb_le _ _)), (proj2 (Nat.ltb_lt _ _)) by lia. done. }
    destruct (lookup_lt_is_Some_2 b i ltac:(lia)) as [c Hc].
    destruct (lookup_lt_is_Some_2 (overlay CHK chk b) i) as [c' Hc'];
      [rewrite length_overlay by lia; lia|].
    rewrite Hc, Hc'; simpl. by rewrite !Hm.
  - by rewrite lookup_overlay_outside by lia.
Qed.

Lemma octal_plain prec n : 0 <= n -> Forall plain (octal_text prec n ++ [0]).
Proof using.
  intros Hn. unfold octal_text. rewrite !Forall_app. split_and!; repeat constructor; try done.
  - apply Forall_replicate. done.
  - eapply Forall_impl; [by apply octal_digits_octal|]. unfold plain; simpl; lia.
Qed.

Lemma typed_header_plain x :
  entry_ok x -> Forall plain (e_path x) ->
  (forall t, e_node x = NLink t -> Forall plain t) ->
  Forall plain (typed_header x).
Proof using.
  intros Hx Hpath Hlink. pose proof (mode_bound (st_mode (e_stat x))).
  assert (Hb : Forall plain (base_header (e_path x) (e_stat x))).
  { assert (Hinit : Forall plain tar_init_header)
      by (unfold tar_init_header; repeat apply overlay_Forall;
          [by repeat constructor.. | by apply Forall_replicate]).
    apply overlay_Forall; [apply octal_plain; apply (uwrap_range 32); lia|].
    apply overlay_Forall; [apply octal_plain; lia|]. by apply overlay_Forall. }
  unfold typed_header. destruct (e_node x) as [content| |t].
  - apply overlay_Forall; [apply octal_plain; apply (uwrap_range 32); lia|].
    by apply Forall_insert.
  - by apply Forall_insert.
  - apply overlay_Forall; [by apply Hlink | by apply Forall_insert].
Qed.

Lemma char_val_plain b : plain b -> char_val b = b.
Proof using.
  intros Hb. unfold char_val. destruct char_signed; [|done]. unfold plain in Hb.
  apply swrap_small; lia.
Qed.

Lemma checksum_terms_plain b :
  Forall plain b ->
  imap checksum_term b =
  imap (fun i c => if (CHK <=? i)%nat && (i <? CHK + 8)%nat then 32 else c) b.
Proof using.
  intros Hb. apply list_eq. intros i. rewrite !list_lookup_imap.
  destruct (b !! i) as [c|] eqn:Hc; [|done]. simpl. f_equal. unfold checksum_term.
  rewrite char_val_plain; [done|]. by eapply Forall_lookup_1.
Qed.

Lemma posix_sum_bounds b : Forall plain b -> length b = 512%nat -> 0 <= posix_sum b <= 65536.
Proof using.
  intros Hb Hlen. unfold posix_sum.
  set (l := imap _ b). assert (Hl : Forall (fun c => 0 <= c < 128) l).
  { apply Forall_lookup_2. intros i c Hc. unfold l in Hc. rewrite list_lookup_imap in Hc.
    destruct (b !! i) as [d|] eqn:Hd; [|done]. simpl in Hc. injection Hc as <-.
    pose proof (Forall_lookup_1 _ _ _ _ Hb Hd) as Hpl. unfold plain in Hpl.
    destruct (_ && _); lia. }
  pose proof (sum_bytes_bounds 128 l Hl ltac:(lia)) as Hs.
  assert (length l = 512%nat) by (unfold l; by rewrite length_imap). lia.
Qed.

(** The stored digits are those of the sum of the finished header. *)
Lemma checksum_field x :
  entry_ok x -> Forall plain (typed_header x) ->
  strtol8 (field CHK 8 (entry_header x)) = posix_sum (entry_header x).
Proof using.
  intros Hx Hpl. pose proof (length_typed_header x Hx) as Hlen.
  unfold entry_header, tar_put_checksum. rewrite field_slice.
  rewrite slice_overlay_same by (rewrite length_tar_checksum, ?Hlen; unfold CHK; lia).
  rewrite length_tar_checksum, Nat.sub_diag. unfold slice. rewrite app_nil_r.
  unfold posix_sum at 1. rewrite (checksum_mask id) by
    (rewrite ?length_tar_checksum, ?Hlen; unfold CHK; lia).
  change (strtol8 (cstr (tar_checksum (typed_header x))) = posix_sum (typed_header x)).
  unfold tar_checksum. rewrite checksum_terms_plain by done.
  change (sum_bytes _) with (posix_sum (typed_header x)).
  pose proof (posix_sum_bounds _ Hpl Hlen).
  rewrite (uwrap_small 32), snprintf_octal_text by (change (8 ^ Z.of_nat 7) with 2097152; lia).
  apply octal_text_read; [lia | change (8 ^ Z.of_nat 7) with 2097152; lia | lia | by right].
Qed.
End Checksum.

(** ** Backup writes the encoding of an entry *)

Section BackupLemmas.
Context {E : Type} `{FileReads E} `{TimeLib} `{CharSign}.

Definition at_end (s : tar_state) : Prop := tarfile_pos s = length (tarfile_data s).

Definition append (bs : list Z) (s : tar_state) : tar_state :=
  mk_tar (tarfile_data s ++ bs) (tarfile_pos s + length bs) (overwrite_mode s).

Lemma file_write_end bs s : at_end s -> file_write bs s = append bs s.
Proof using.
  unfold at_end, file_write, append. intros ->.
  by rewrite resize_all, drop_ge, app_nil_r by lia.
Qed.

Lemma append_at_end bs s : at_end s -> at_end (append bs s).
Proof using. unfold at_end, append; simpl. intros ->. by rewrite length_app. Qed.

Lemma append_append bs1 bs2 s : append bs2 (append bs1 s) = append (bs1 ++ bs2) s.
Proof using. unfold append; simpl. by rewrite <- app_assoc, length_app, Nat.add_assoc. Qed.

Lemma append_nil s : append [] s = s.
Proof using. destruct s. unfold append. cbn. by rewrite app_nil_r, Nat.add_0_r. Qed.

(** The block that an iteration writes. *)
Definition out_block (b : list Z) (l : Z) : list Z :=
  if l <? Z.of_nat END then take (Z.to_nat l) b ++ replicate (END - Z.to_nat l) 0 else b.

Definition copy_body (f : Z) : list Z * Z -> M tar_state E ((list Z * Z) + unit) :=
  fun '(b, l) =>
    let b := if l <? Z.of_nat END
             then take (Z.to_nat l) b ++ replicate (END - Z.to_nat l) 0 else b in
    modify (file_write b);;
    if 0 <=? f then
      '(l, data) ← call (IomanX_read f (Z.of_nat END));
      assert_ (length data <=? END)%nat;;
      if 0 <? l then mret (inl (overlay 0 data b, l)) else mret (inr tt)
    else mret (inr tt).

(** A file of a multiple of 512 bytes has no padding; a longer one starts with a
    full block. *)
Lemma pad512_nil : pad512 [] = [].
Proof using. done. Qed.

Lemma pad512_short content :
  (0 < length content <= 512)%nat ->
  pad512 content = content ++ replicate (512 - length content) 0.
Proof using.
  intros Hl. unfold pad512, padding. do 2 f_equal.
  destruct (decide (length content = 512%nat)) as [->|Hne]; [done|].
  rewrite (Nat.mod_small (length content)) by lia. apply Nat.mod_small. lia.
Qed.

Lemma pad512_long content :
  (512 <= length content)%nat -> pad512 content = take 512 content ++ pad512 (drop 512 content).
Proof using.
  intros Hl. unfold pad512. rewrite app_assoc, take_drop. do 2 f_equal.
  rewrite length_drop. unfold padding.
  replace (length content mod 512)%nat with ((length content - 512) mod 512)%nat; [done|].
  rewrite <- (Nat.Div0.mod_add (length content - 512) 1 512). f_equal. lia.
Qed.

Lemma length_out_block b l : length b = 512%nat -> length (out_block b l) = 512%nat.
Proof using.
  intros Hb. unfold out_block. change END with 512%nat.
  destruct (Z.ltb_spec l (Z.of_nat 512)); [|done].
  rewrite length_app, length_take, length_replicate. lia.
Qed.

Lemma out_block_next b data :
  (0 < length data <= 512)%nat -> length b = 512%nat ->
  out_block (overlay 0 data b) (Z.of_nat (length data)) =
  data ++ replicate (512 - length data) 0.
Proof using.
  intros Hd Hb. change (overlay 0 data b) with (data ++ drop (length data) b).
  unfold out_block. change END with 512%nat. rewrite Nat2Z.id.
  destruct (Z.ltb_spec (Z.of_nat (length data)) (Z.of_nat 512)).
  - by rewrite take_app_length.
  - replace (512 - length data)%nat with 0%nat by lia. by rewrite drop_ge by lia.
Qed.

(** What remains of the file is copied, block by block. *)
Lemma copy_loop fuel f rest b l s e :
  0 <= f -> unread e f = Some rest -> at_end s -> length b = 512%nat ->
  (length rest < fuel)%nat ->
  wp (loop fuel (copy_body f) (b, l))
    (fun r s' _ _ => r = Ret tt /\ s' = append (out_block b l ++ pad512 rest) s) s e.
Proof using.
  intros Hf. revert rest b l s e.
  induction fuel as [|fuel IH]; intros rest b l s e Hu Hs Hb Hfuel; [lia|].
  destruct (read_unread e f (Z.of_nat END) rest ltac:(lia) Hu) as (e1 & He & Hu1).
  rewrite Nat2Z.id in He, Hu1. change END with 512%nat in He, Hu1.
  assert (Hlen : length (take 512 rest) = (512 `min` length rest)%nat) by apply length_take.
  apply wp_loop_S. unfold copy_body at 1. fold (out_block b l).
  apply wp_bind, wp_modify. unfold bind_post. rewrite file_write_end by done.
  rewrite (proj2 (Z.leb_le 0 f)) by done. change END with 512%nat.
  apply wp_bind, wp_call. intros r e' Hr. rewrite He in Hr. injection Hr as <- <-.
  unfold bind_post. apply wp_bind, wp_assert; [intros _|intros Hbad]; unfold bind_post;
    [|apply Nat.leb_gt in Hbad; lia].
  destruct (Z.ltb_spec 0 (Z.of_nat (length (take 512 rest)))).
  - apply wp_ret. unfold bind_post.
    eapply wp_mono.
    { apply IH; [exact Hu1 | by apply append_at_end | | rewrite length_drop; lia].
      rewrite length_overlay; rewrite length_out_block by done; lia. }
    intros r s' e' t [-> ->]. split; [done|]. rewrite append_append. f_equal.
    rewrite out_block_next by (rewrite ?length_out_block; lia). rewrite <- app_assoc. f_equal.
    destruct (decide (length rest <= 512)%nat).
    + rewrite take_ge, drop_ge, pad512_nil, app_nil_r by lia.
      symmetry. apply pad512_short. lia.
    + rewrite (pad512_long rest) by lia.
      by replace (512 - length (take 512 rest))%nat with 0%nat by lia.
  - apply wp_ret. unfold bind_post. apply wp_ret. split; [done|].
    assert (rest = []) as -> by (apply nil_length_inv; lia).
    by rewrite pad512_nil, app_nil_r.
Qed.

(** One pass of the loop when there is no file to read. *)
Lemma copy_once fuel f b s e :
  f < 0 -> at_end s -> (0 < fuel)%nat ->
  wp (loop fuel (copy_body f) (b, Z.of_nat END))
    (fun r s' _ _ => r = Ret tt /\ s' = append b s) s e.
Proof using.
  intros Hf Hs Hfuel. destruct fuel as [|fuel]; [lia|].
  apply wp_loop_S. unfold copy_body at 1. apply wp_bind, wp_modify. unfold bind_post.
  rewrite (proj2 (Z.leb_gt 0 f)) by done. apply wp_ret. unfold bind_post.
  apply wp_ret. split; [done|]. by apply file_write_end.
Qed.

(** What the environment answers about the entry: a file opens and reads as its
    content, a link reads as its target. *)
Definition serves (e : E) (in_path : string) (x : entry) : Prop :=
  match e_node x with
  | NFile content =>
      st_hisize (e_stat x) = 0 /\
      exists f e1, handle (IomanX_open in_path FIO_O_RDONLY 0) e = (f, e1) /\
                   0 <= f /\ unread e1 f = Some content
  | NDir => True
  | NLink target => exists r e1, handle (IomanX_readlink in_path 100) e = ((r, target), e1)
  end.

(** The end of [tar_c_file], after the copy. *)
Lemma finish_wp f s s1 e (m : M tar_state E unit) :
  wp m (fun r s' _ _ => r = Ret tt /\ s' = s1) s e ->
  wp (m ≫= fun _ => call (IomanX_close f) ≫= fun _ => mret 0)
    (fun r s' _ _ => r = Ret 0 /\ s' = s1) s e.
Proof using.
  intros Hm. apply wp_bind. eapply wp_mono; [exact Hm|].
  intros r s' e' t [-> ->]. unfold bind_post. wp_go. done.
Qed.

Lemma tar_c_file_wp fuel prefix orig_len in_path x s e :
  entry_ok x -> at_end s -> serves e in_path x ->
  e_path x = bytes_of_string prefix ++ drop orig_len (bytes_of_string in_path) ->
  (length (node_content (e_node x)) < fuel)%nat ->
  wp (tar_c_file fuel prefix orig_len in_path (e_stat x))
    (fun r s' _ _ => r = Ret 0 /\ s' = append (encode_entry x) s) s e.
Proof using.
  intros Hx Hs Hserve Hpath Hfuel. pose proof Hx as (Hp & Hnz & Hn).
  unfold tar_c_file. fold (copy_body).
  replace (FIO_S_ISREG (st_mode (e_stat x)) && negb (st_hisize (e_stat x) =? 0)) with false.
  2:{ unfold serves in Hserve. destruct (e_node x).
      - destruct Hserve as [-> _]. by rewrite andb_false_r.
      - by rewrite (proj1 (types_exclusive _)).
      - by rewrite (proj1 (proj2 (types_exclusive _) (proj1 Hn))). }
  rewrite <- Hpath, take_ge by lia. cbv zeta.
  rewrite (proj2 (Nat.eqb_neq (length (e_path x)) 0)) by lia.
  unfold tar_put_path. rewrite (proj2 (Nat.ltb_ge 100 (length (e_path x)))) by lia.
  cbv iota beta. rewrite base_header_eq.
  pose proof (length_entry_header x Hx) as Hlen. unfold entry_header, typed_header in Hlen.
  unfold encode_entry, entry_header, typed_header, serves in *.
  destruct (e_node x) as [content| |target].
  - destruct Hn as (-> & _). destruct Hserve as (_ & f & e1 & Hopen & Hf & Hu).
    rewrite size_text_eq. apply wp_bind, wp_bind, wp_call. intros r e' Hr.
    rewrite Hopen in Hr. injection Hr as <- <-. unfold bind_post. apply wp_ret.
    apply finish_wp. fold (copy_body f).
    eapply wp_mono; [apply (copy_loop _ _ _ _ _ _ _ Hf Hu Hs Hlen Hfuel)|].
    intros r s' e' t [-> ->]. split; [done|]. done.
  - rewrite Hn, (proj1 (types_exclusive _)) by done. apply wp_bind, wp_ret.
    unfold bind_post. apply finish_wp. simpl pad512. rewrite pad512_nil, app_nil_r.
    by apply copy_once.
  - destruct Hn as (Hl & Ht & _). destruct (proj2 (types_exclusive _) Hl) as [-> ->].
    rewrite Hl. destruct Hserve as (r & e1 & Hr).
    apply wp_bind, wp_bind, wp_call. intros r' e' Hr'. rewrite Hr in Hr'.
    injection Hr' as <- <-. unfold bind_post. apply wp_bind, wp_assert; intros Hb;
      [|apply Nat.leb_gt in Hb; lia].
    unfold bind_post. apply wp_ret. apply finish_wp. simpl pad512. rewrite pad512_nil, app_nil_r.
    by apply copy_once.
Qed.
End BackupLemmas.

(** ** The walk stays in its buffer *)

Section Walk.
Context {E : Type} `{Handler E}.

Lemma do_wrapped_ftw_safe fuel prefix orig_len path fn :
  (forall p st, (String.length p <= IOMANX_PATH_MAX)%nat ->
     safe (fn prefix orig_len p st : M tar_state E Z)) ->
  (length path <= IOMANX_PATH_MAX)%nat ->
  safe (do_wrapped_ftw fuel prefix orig_len path fn).
Proof using.
  intros Hfn. revert path. induction fuel as [|fuel IH]; intros path Hpath;
    [by apply safe_stop|].
  simpl. repeat safe_step; try by apply Hfn; rewrite length_string_of_bytes.
  - apply safe_assert. boolP. apply Nat.leb_le.
    rewrite length_app, length_take; simpl. unfold IOMANX_PATH_MAX in *.
    destruct (ends_with_slash path); lia.
  - apply IH. boolP.
    rewrite length_app, length_take; simpl. unfold IOMANX_PATH_MAX in *.
    destruct (ends_with_slash path); lia.
Qed.
End Walk.

(** ** Paths that do not fit *)

Lemma find_slash_lookup s i : find_slash s = Some i -> s !! i = Some SLASH.
Proof.
  revert i. induction s as [|c s IH]; intros i; simpl; [done|].
  destruct (Z.eqb_spec c SLASH) as [->|]; [by intros [= <-]|].
  destruct (find_slash s) as [j|] eqn:Hj; [|done]. intros [= <-]. by apply IH.
Qed.

Lemma strchr_slash_lookup path from i : strchr_slash path from = Some i -> path !! i = Some SLASH.
Proof.
  unfold strchr_slash. destruct (find_slash (drop from path)) as [j|] eqn:Hj; [|done].
  intros [= <-]. rewrite <- lookup_drop. by apply find_slash_lookup.
Qed.

Lemma split_loop_slash fuel path sep :
  path !! sep = Some SLASH -> path !! split_loop fuel path sep = Some SLASH.
Proof.
  revert sep. induction fuel as [|fuel IH]; intros sep Hs; [done|]. cbn [split_loop].
  destruct (sep <? 512)%nat; [|done]. destruct (_ =? 0); [done|].
  destruct (strchr_slash path (sep + 1)) as [new|] eqn:Hnew; [|done].
  destruct (155 <=? new)%nat; [done|]. apply IH. by eapply strchr_slash_lookup.
Qed.

(** In a long path that is archived, the name field starts with the separator. *)
Lemma put_long_path_head path b b' :
  (100 < length path <= 511)%nat -> length b = 512%nat ->
  tar_put_path path b = PathPut b' -> b' !! 0%nat = Some SLASH /\ length b' = 512%nat.
Proof.
  intros Hp Hb. unfold tar_put_path.
  rewrite (proj2 (Nat.ltb_lt _ _)) by lia.
  destruct (strchr_slash path 0) as [sep|] eqn:Hsep; [|done].
  apply strchr_slash_lookup, (split_loop_slash (length path)) in Hsep.
  set (cut := split_loop (length path) path sep) in *. clearbody cut.
  destruct (Nat.leb_spec 155 cut); [done|]. intros [= <-].
  pose proof (lookup_lt_Some _ _ _ Hsep).
  assert (Hlen : length (overlay NAME2 (take cut path) b) = 512%nat).
  { rewrite length_overlay; rewrite ?length_take; unfold NAME2; lia. }
  split; [|rewrite length_overlay; rewrite ?length_drop; unfold NAME; lia].
  unfold overlay, NAME. simpl (take 0 _). rewrite app_nil_l, lookup_app_l by (rewrite length_drop; lia).
  by rewrite lookup_drop, Nat.add_0_r.
Qed.

Lemma has_prefix_head prefix name c d :
  prefix !! 0%nat = Some c -> name !! 0%nat = Some d -> c <> d -> has_prefix prefix name = false.
Proof.
  intros Hp Hn Hne. apply bool_decide_eq_false. intros Heq.
  destruct prefix, name; simpl in *; congruence.
Qed.

Lemma field_head header len c :
  (0 < len)%nat -> header !! 0%nat = Some c -> c <> 0 -> field 0 len header !! 0%nat = Some c.
Proof.
  intros Hlen Hc Hz. destruct header as [|d h]; [done|]. injection Hc as ->.
  destruct len; [lia|]. unfold field; simpl. by destruct (Z.eqb_spec c 0).
Qed.

(** ** Termination of restore *)

Section Termination.
Context {E : Type} `{Handler E} `{TimeLib}.

(** The file is only read, forwards. *)
Definition grows (s s' : tar_state) : Prop :=
  tarfile_data s' = tarfile_data s /\ (tarfile_pos s <= tarfile_pos s')%nat.

#[local] Instance grows_preorder : PreOrder grows.
Proof using. split; [done|]. intros s1 s2 s3 [E1 ?] [E2 ?]. split; [congruence|lia]. Qed.

Definition remaining_bytes (s : tar_state) : nat := (length (tarfile_data s) - tarfile_pos s)%nat.

(** Returns, having only moved forwards. *)
Definition returns {A} (m : M tar_state E A) (s : tar_state) : Prop :=
  forall e, wp m (fun r s' _ _ => (exists a, r = Ret a) /\ grows s s') s e.

Lemma finishes_bind {A B} (m : M tar_state E A) (k : A -> M tar_state E B) s :
  returns m s -> (forall a s', grows s s' -> returns (k a) s') -> returns (m ≫= k) s.
Proof using.
  intros Hm Hk e. apply wp_bind. eapply wp_mono; [apply Hm|].
  intros ? s' e' t [[a ->] Hg]. eapply wp_mono; [by apply Hk|].
  intros r s'' e'' t' [Hr' Hg']. split; [done|]. by trans s'.
Qed.

Lemma finishes_ret {A} (a : A) s : returns (mret a) s.
Proof using. intros e. apply wp_ret. split; [by eexists|done]. Qed.

Lemma finishes_call {A} (c : ioE A) s : returns (call c) s.
Proof using. intros e. apply wp_call. intros r e' _. split; [by eexists|done]. Qed.

Lemma returns_get s : returns get s.
Proof using. intros e. apply wp_get. split; [by eexists|done]. Qed.

Lemma returns_skip n s : returns (modify (file_skip n)) s.
Proof using. intros e. apply wp_modify. split; [by eexists|]. split; simpl; [done|lia]. Qed.

Lemma returns_fread n s : returns (fread n) s.
Proof using. intros e. unfold wp, fread; simpl. split; [by eexists|]. split; simpl; [done|lia]. Qed.

Lemma returns_if {A} (c : bool) (m1 m2 : M tar_state E A) s :
  returns m1 s -> returns m2 s -> returns (if c then m1 else m2) s.
Proof using. by destruct c. Qed.

Lemma finishes_for {X} (l : list X) (body : X -> M tar_state E unit) s :
  (forall x s, returns (body x) s) -> returns (for_ l body) s.
Proof using.
  intros Hb. revert s. induction l as [|x l IH]; intros s; simpl; [apply finishes_ret|].
  apply finishes_bind; [apply Hb|]. intros _ s' _. apply IH.
Qed.

Ltac returns_step :=
  lazymatch goal with
  | |- returns (_ ≫= _) _ => apply finishes_bind; [|intros ? ? ?]
  | |- returns (mret _) _ => apply finishes_ret
  | |- returns (call _) _ => apply finishes_call
  | |- returns get _ => apply returns_get
  | |- returns (fread _) _ => apply returns_fread
  | |- returns (modify (file_skip _)) _ => apply returns_skip
  | |- returns (if _ then _ else _) _ => apply returns_if
  | |- returns (for_ _ _) _ => apply finishes_for; intros ? ?
  | |- returns (when ?c _) _ => unfold when
  | |- returns (match ?x with _ => _ end) _ => destruct x eqn:?
  end.

(** A turn of the copy takes 512 bytes off what remains, whatever has been read. *)
Lemma restore_content_returns fuel fd size s :
  0 <= size -> (size + 511) / 512 < Z.of_nat fuel -> returns (restore_content fuel fd size) s.
Proof using.
  intros Hsize Hfuel e. assert (Hq : 0 <= (size + 511) / 512) by dlia. unfold restore_content.
  apply (wp_loop_measure (fun _ s' => grows s s') (fun rem _ => Z.to_nat ((rem + 511) / 512))
           (fun r s' => (exists a, r = Ret a) /\ grows s s')); [|done|lia].
  clear e. intros rem s' e Hg. apply wp_if; intros Hrem; [|apply wp_ret; split; [by eexists|done]].
  apply Z.ltb_lt in Hrem. apply wp_bind. unfold wp, fread at 1; simpl.
  apply wp_bind, wp_call. intros r e' _. unfold bind_post. apply wp_ret. split.
  - trans s'; [done|]. split; simpl; [done|lia].
  - assert (Hone : 1 <= (rem + 511) / 512) by dlia. destruct (Z.ltb_spec 512 rem).
    + replace (rem + 511) with (rem - 512 + 511 + 1 * 512) by lia. rewrite Z.div_add by lia.
      assert (0 <= (rem - 512 + 511) / 512) by dlia. lia.
    + rewrite Z.sub_diag. change ((0 + 511) / 512) with 0. lia.
Qed.

Lemma restore_entry_returns fuel mount prefix h s :
  2 ^ 23 < Z.of_nat fuel -> 0 <= h_size h < 2 ^ 32 -> returns (restore_entry fuel mount prefix h) s.
Proof using.
  intros Hfuel Hsize. unfold restore_entry, ensure_parent_dirs_exist, restore_stat.
  repeat returns_step. apply restore_content_returns; [lia|]. apply Z.div_lt_upper_bound; lia.
Qed.

Lemma restore_from_tar_returns fuel mount prefix data pos ow e :
  2 ^ 23 < Z.of_nat fuel -> (length data < 512 * fuel)%nat ->
  wp (restore_from_tar fuel mount prefix) (fun r s' _ _ =>
    r = Ret 0 /\ tarfile_data s' = data) (mk_tar data pos ow) e.
Proof using.
  intros Hbig Hfuel. unfold restore_from_tar. apply wp_bind, wp_modify. unfold bind_post.
  apply (wp_loop_measure (fun _ s' => tarfile_data s' = data)
           (fun _ s' => (remaining_bytes s' / 512)%nat)
           (fun r s' => r = Ret 0 /\ tarfile_data s' = data)); [|done|].
  2:{ unfold remaining_bytes; cbn [tarfile_data tarfile_pos]. rewrite Nat.sub_0_r. by apply Nat.Div0.div_lt_upper_bound. }
  clear e. intros _ s e Hd. apply wp_bind. unfold wp, fread at 1; simpl.
  set (header := take 512 (drop (tarfile_pos s) (tarfile_data s))).
  set (s1 := mk_tar _ _ _).
  apply wp_if; intros Hlen; [by apply wp_ret|].
  apply negb_false_iff, Nat.eqb_eq in Hlen.
  assert (Hrem : (remaining_bytes s1 + 512 <= remaining_bytes s)%nat).
  { unfold remaining_bytes, s1; simpl. unfold header in *. rewrite length_take, length_drop in *. lia. }
  apply wp_if; intros _; [by apply wp_ret|]. cbv zeta.
  assert (Hless : forall s2, grows s1 s2 ->
    tarfile_data s2 = data /\ (remaining_bytes s2 / 512 < remaining_bytes s / 512)%nat).
  { intros s2 [Hd2 Hp2]. split; [by rewrite Hd2|].
    assert (remaining_bytes s2 <= remaining_bytes s1)%nat by (unfold remaining_bytes; rewrite Hd2; lia).
    pose proof (Nat.Div0.div_le_mono (remaining_bytes s2 + 1 * 512) (remaining_bytes s) 512) as Hm.
    rewrite Nat.div_add in Hm by lia. lia. }
  apply wp_if; intros _; [apply wp_ret; by apply Hless|].
  apply wp_bind. eapply wp_mono; [apply restore_entry_returns; [done|by apply (uwrap_range 32)]|].
  intros ? s2 e2 t2 [[a ->] Hg]. unfold bind_post. apply wp_ret. by apply Hless.
Qed.
End Termination.

(** ** Sample data, with a signed [char] *)

Import IoWorld.Sample.
#[local] Instance signed_char : CharSign := true.

Definition sample_stat (mode size : Z) : iox_stat_t :=
  mk_iox_stat mode 0 size (replicate 8 0) (replicate 8 0) [0; 59; 59; 23; 29; 2; 208; 7]
    0 0 0 0 0 0 0.

Definition sample_entry : entry :=
  mk_entry (bytes_of_string "P/a") (sample_stat 0x21B4 5) (NFile (bytes_of_string "hello")).

Lemma sample_entry_ok : entry_ok sample_entry.
Proof. unfold entry_ok; simpl. split_and!; try lia; try done. by repeat constructor. Defined.

(** ** Properties *)

(** The restore of an archive, from wherever the file stands. *)
Lemma archive_refines `{Handler E} `{TimeLib} `{CharSign} fuel mount prefix xs pos ow :
  Forall entry_ok xs -> (length (archive xs) < fuel)%nat ->
  refines (restore_from_tar fuel mount prefix) (restore_nodes (E := E) ow mount prefix xs)
    (mk_tar (archive xs) pos ow)
    (mk_tar (archive xs) (length (concat (encode_entry <$> xs)) + 512) ow).
Proof.
  intros Hxs Hfuel. unfold restore_from_tar. apply refines_modify_bind. unfold archive in *.
  rewrite length_app, length_replicate in Hfuel.
  assert (Hlen : Forall (fun x => length (node_content (e_node x)) < fuel)%nat xs /\
                 (length xs <= length (concat (encode_entry <$> xs)))%nat).
  { clear -Hxs Hfuel. revert Hfuel. induction Hxs as [|x xs Hx _ IH]; csimpl; [done|].
    rewrite length_app, length_encode_entry by done. intros Hf. destruct IH as [IH1 IH2]; [lia|].
    split; [|lia]. constructor; [|done]. unfold pad512 in Hf. rewrite length_app in Hf. lia. }
  exact (restore_loop_refines fuel fuel mount prefix xs (replicate 1024 0)
           (mk_tar (concat (encode_entry <$> xs) ++ replicate 1024 0) 0 ow)
           Hxs ltac:(lia) (proj1 Hlen) ltac:(by vm_compute; lia) eq_refl eq_refl).
Qed.

(** C2: archives restore what they hold.  On the bytes of any archive of well-formed
    entries, restore neither fails nor runs past a block: it makes exactly the calls
    of the specification on entries (parent directories, node, content in 512-byte
    writes, mode, times, in that order), whatever the file layer answers, and stops
    at the first zero block. *)
Theorem restore_archive_refines `{Handler E} `{TimeLib} `{CharSign} fuel mount prefix xs pos ow :
  Forall entry_ok xs -> (length (archive xs) < fuel)%nat ->
  refines (restore_from_tar fuel mount prefix) (restore_nodes (E := E) ow mount prefix xs)
    (mk_tar (archive xs) pos ow)
    (mk_tar (archive xs) (length (concat (encode_entry <$> xs)) + 512) ow).
Proof. apply archive_refines. Qed.

Lemma restore_archive_refines_witness :
  length (archive [sample_entry]) = 2048%nat /\
  refines (restore_from_tar 3000 "pfs0:/" (bytes_of_string "P/"))
    (restore_nodes (E := list Z) true "pfs0:/" (bytes_of_string "P/") [sample_entry])
    (mk_tar (archive [sample_entry]) 7 true) (mk_tar (archive [sample_entry]) 1536 true).
Proof.
  split; [by vm_compute|].
  replace 1536%nat with (length (concat (encode_entry <$> [sample_entry])) + 512)%nat
    by (by vm_compute).
  apply (restore_archive_refines 3000 "pfs0:/" (bytes_of_string "P/") [sample_entry] 7 true).
  - constructor; [exact sample_entry_ok | constructor].
  - replace (length (archive [sample_entry])) with 2048%nat by (by vm_compute). lia.
Defined.

(** C16: [tar_c_file] writes what restore reads: for a file, directory or link whose
    archive path is at most 100 bytes, it returns 0 having appended exactly the
    encoding of the entry, content padded to blocks, when the file layer serves the
    entry (opens the file and reads its bytes in order, or reads the link). *)
Theorem tar_c_file_encodes `{FileReads E} `{TimeLib} `{CharSign}
    fuel prefix orig_len in_path x s e :
  entry_ok x -> tarfile_pos s = length (tarfile_data s) -> serves e in_path x ->
  e_path x = bytes_of_string prefix ++ drop orig_len (bytes_of_string in_path) ->
  (length (node_content (e_node x)) < fuel)%nat ->
  let o := tar_c_file fuel prefix orig_len in_path (e_stat x) s e in
  o_res o = Ret 0 /\ tarfile_data (o_st o) = tarfile_data s ++ encode_entry x /\
  tarfile_pos (o_st o) = length (tarfile_data (o_st o)).
Proof.
  intros Hx Hs Hserve Hpath Hfuel o.
  destruct (tar_c_file_wp fuel prefix orig_len in_path x s e Hx Hs Hserve Hpath Hfuel) as [Hr Hst].
  fold o in Hr, Hst. rewrite Hst. split_and!; [done | done |].
  simpl. by rewrite length_app, Hs.
Qed.

Lemma tar_c_file_encodes_witness :
  let o := tar_c_file 6 "P/" 6 "pfs0:/a" (e_stat sample_entry) (mk_tar [] 0 false)
             (bytes_of_string "hello") in
  o_res o = Ret 0 /\ tarfile_data (o_st o) = encode_entry sample_entry.
Proof.
  destruct (tar_c_file_encodes 6 "P/" 6 "pfs0:/a" sample_entry (mk_tar [] 0 false)
              (bytes_of_string "hello") sample_entry_ok eq_refl) as (Hr & Hd & _).
  - split; [done|]. exists 0, (bytes_of_string "hello"). split_and!; [done | lia | done].
  - done.
  - simpl; lia.
  - split; [exact Hr | exact Hd].
Defined.

(** Headers round trip: parsing the header written for an entry gives back its
    name, size, type, mode, time and link target, and the checksum field holds the
    sum of the header's bytes with the field counted as spaces when the path and the
    target are 7-bit; with a signed [char] an accented name gets another sum. *)
Theorem header_roundtrip `{TimeLib} `{CharSign} x :
  entry_ok x ->
  parse_header (entry_header x) = entry_fields x /\ length (entry_header x) = 512%nat /\
  (Forall plain (e_path x) -> (forall t, e_node x = NLink t -> Forall plain t) ->
   strtol8 (field CHK 8 (entry_header x)) = posix_sum (entry_header x)).
Proof.
  intros Hx. split_and!; [by apply parse_entry_header | by apply length_entry_header |].
  intros Hp Ht. apply checksum_field; [done|]. by apply typed_header_plain.
Qed.

Lemma header_roundtrip_witness :
  h_mtime (parse_header (entry_header sample_entry)) = 951901199 /\
  strtol8 (field CHK 8 (entry_header sample_entry)) = posix_sum (entry_header sample_entry) /\
  let x := mk_entry [80; 47; 195; 169] (sample_stat 0x11ED 0) NDir in
  strtol8 (field CHK 8 (entry_header x)) <> posix_sum (entry_header x).
Proof.
  destruct (header_roundtrip sample_entry sample_entry_ok) as (Hf & _ & Hc).
  split_and!.
  - rewrite Hf. by vm_compute.
  - apply Hc; [by repeat constructor | done].
  - by vm_compute.
Defined.

(** C40: restore ends on every file, whatever its bytes, truncated ones included, and
    whatever the file layer answers: it returns 0, and never writes to the archive.  A
    turn of the loop over the members consumes a block of the archive and a turn of the
    copy takes 512 bytes off a size of 32 bits, so that fuel of more than 2^23 turns and
    more than the blocks of the archive is never used up. *)
Theorem restore_terminates `{Handler E} `{TimeLib} fuel mount prefix data pos ow e :
  2 ^ 23 < Z.of_nat fuel -> (length data < 512 * fuel)%nat ->
  let o := restore_from_tar fuel mount prefix (mk_tar data pos ow) e in
  o_res o = Ret 0 /\ tarfile_data (o_st o) = data.
Proof. intros Hbig Hfuel. by apply restore_from_tar_returns. Qed.

(** An archive cut off after the header of a file. *)
Lemma restore_terminates_witness :
  o_res (restore_from_tar (Z.to_nat (2 ^ 23 + 1)) "pfs0:/" (bytes_of_string "P/")
           (mk_tar (entry_header sample_entry) 0 true) ([] : list Z)) = Ret 0.
Proof.
  refine (proj1 (restore_terminates (Z.to_nat (2 ^ 23 + 1)) "pfs0:/" (bytes_of_string "P/")
           (entry_header sample_entry) 0 true [] _ _)); [lia|].
  rewrite (length_entry_header sample_entry sample_entry_ok). lia.
Defined.

(** Long paths do not come back: a file archived under a path of 101 to 511
    bytes has its name field start with the separator, so restore takes it for a
    member of another partition and makes no call for it, content and node alike. *)
Theorem long_path_not_restored `{Handler E} `{TimeLib} `{CharSign}
    path st b fuel mount prefix c s e :
  (100 < length path <= 511)%nat -> tar_put_path path tar_init_header = PathPut b ->
  prefix !! 0%nat = Some c -> c <> SLASH ->
  let header := tar_put_checksum
    (overlay SIZE (snprintf_octal 12 11 (u32 (st_size st))) (<[TYPE := 48]> (tar_put_stat st b))) in
  let o := restore_entry fuel mount prefix (parse_header header) s e in
  o_tr o = [] /\ o_env o = e /\ o_res o = Ret tt.
Proof.
  intros Hp Hput Hprefix Hc header o.
  destruct (put_long_path_head _ _ _ Hp length_init_header Hput) as [Hhead Hlen].
  assert (Hh : header !! 0%nat = Some SLASH).
  { unfold header, tar_put_checksum, tar_put_stat. rewrite iox_stat_time_same, mode_text_eq, mtime_text_eq, size_text_eq.
    unfold_offsets.
    assert (Hl1 : length (overlay 100 (mode_text st) b) = 512%nat)
      by (rewrite length_overlay; rewrite ?length_mode_text; lia).
    assert (Hl2 : length (overlay 136 (mtime_text st) (overlay 100 (mode_text st) b)) = 512%nat)
      by (rewrite length_overlay; rewrite ?length_mtime_text; lia).
    rewrite lookup_overlay_outside; [| | lia].
    - rewrite lookup_overlay_outside by (rewrite ?length_insert, ?length_size_text; lia).
      rewrite list_lookup_insert_ne by lia.
      rewrite lookup_overlay_outside by (rewrite ?length_mtime_text; lia).
      by rewrite lookup_overlay_outside by (rewrite ?length_mode_text; lia).
    - rewrite length_tar_checksum, length_overlay;
        rewrite ?length_insert, ?length_size_text; lia. }
  pose proof (field_head header 100 SLASH ltac:(lia) Hh ltac:(done)) as Hname.
  unfold o, restore_entry. cbn [h_name parse_header]. unfold NAME.
  by rewrite (has_prefix_head _ _ _ _ Hprefix Hname Hc).
Qed.

Lemma long_path_not_restored_witness :
  let path := bytes_of_string "P/" ++ replicate 120 97 in
  exists b, tar_put_path path tar_init_header = PathPut b /\
  o_tr (restore_entry 10 "pfs0:/" (bytes_of_string "P/") (parse_header
    (tar_put_checksum (overlay SIZE (snprintf_octal 12 11 (u32 5))
       (<[TYPE := 48]> (tar_put_stat (sample_stat 0x21B4 5) b))))) (mk_tar [] 0 false) ([] : list Z)) = [].
Proof.
  intros path. eexists. split; [reflexivity|].
  refine (proj1 (long_path_not_restored path (sample_stat 0x21B4 5) _ 10 "pfs0:/"
           (bytes_of_string "P/") 80 (mk_tar [] 0 false) [] _ eq_refl eq_refl _)).
  - simpl; lia.
  - done.
Defined.

(** The directory walk is memory safe: started on a path that fits, it never
    writes past its 257-byte path buffer and calls back with paths of at most 256
    bytes only, for every directory content. *)
Theorem wrapped_ftw_safe `{Handler E} fuel path_prefix path fn :
  (forall orig_len p st, (String.length p <= IOMANX_PATH_MAX)%nat ->
     safe (fn path_prefix orig_len p st : M tar_state E Z)) ->
  safe (wrapped_ftw fuel path_prefix path fn).
Proof.
  intros Hfn. unfold wrapped_ftw. apply safe_if; intros Hl; [apply safe_ret|].
  apply do_wrapped_ftw_safe; [auto|]. rewrite length_bytes_of_string.
  by apply Nat.ltb_ge in Hl.
Qed.

Lemma wrapped_ftw_safe_witness :
  safe (wrapped_ftw (E := list Z) 10 "P/" "pfs0:/" (fun _ _ p _ => printf p [];; mret 0)).
Proof.
  apply (wrapped_ftw_safe 10 "P/" "pfs0:/"). intros. apply safe_bind; [apply safe_call|].
  intros _. apply safe_ret.
Defined.

(** The skip over a member's content is its size rounded up to blocks while the
    rounded size fits 32 bits; above that the addition wraps and nothing is
    skipped, so that content is read as headers. *)
Theorem padded_size_spec size :
  0 <= size < 2 ^ 32 ->
  (size <= 2 ^ 32 - 512 ->
     padded_size size mod 512 = 0 /\ size <= padded_size size < size + 512) /\
  (2 ^ 32 - 512 < size -> padded_size size = 0).
Proof.
  intros Hs. unfold padded_size. split; intros Hle.
  - rewrite (uwrap_small 32 (size + 511)) by lia. rewrite uwrap_small by dlia. dlia.
  - replace (u32 (size + 511)) with (size + 511 - 2 ^ 32) by (unfold uwrap; dlia).
    rewrite Z.div_small by lia. done.
Qed.

Lemma padded_size_spec_witness : padded_size 513 = 1024 /\ padded_size 4294967295 = 0.
Proof.
  split; [|apply (padded_size_spec 4294967295); lia].
  destruct (padded_size_spec 513 ltac:(lia)) as [H _].
  destruct (H ltac:(lia)) as [H1 H2]. by vm_compute.
Defined.
