(* ===== verification/Shm.v ===== *)
(** * Structures in shared memory (src/src/pfsd_common.h, src/src/iomanX_port.h)

    The daemon and its clients hand each other stat and directory records as the
    raw bytes of the C structures, little-endian, in a shared segment. *)

From S2P Require Import Prelude IoWorld.

Definition SHM_SIZE : nat := Z.to_nat 0x20000.

Lemma SHM_SIZE_large n : (n <= 4096)%nat -> (n <= SHM_SIZE)%nat.
Proof.
  intros. unfold SHM_SIZE. apply Nat2Z.inj_le. rewrite Z2Nat.id by lia. lia.
Qed.

Lemma SHM_SIZE_Z : Z.of_nat SHM_SIZE = 0x20000.
Proof. unfold SHM_SIZE. by rewrite Z2Nat.id. Qed.

#[global] Opaque SHM_SIZE.

Definition le32 (z : Z) : list Z :=
  [u8 z; u8 (Z.shiftr z 8); u8 (Z.shiftr z 16); u8 (Z.shiftr z 24)].

Definition of_le32 (b : list Z) : Z :=
  match b with
  | [b0; b1; b2; b3] => b0 + 256 * b1 + 65536 * b2 + 16777216 * b3
  | _ => 0
  end.

(** [iox_stat_t], 64 bytes, fields in declaration order. *)
Definition stat_bytes (st : iox_stat_t) : list Z :=
  le32 (st_mode st) ++ le32 (st_attr st) ++ le32 (st_size st) ++
  st_ctime st ++ st_atime st ++ st_mtime st ++
  le32 (st_hisize st) ++ le32 (st_private_0 st) ++ le32 (st_private_1 st) ++
  le32 (st_private_2 st) ++ le32 (st_private_3 st) ++ le32 (st_private_4 st) ++
  le32 (st_private_5 st).

Definition slice_of (off len : nat) (b : list Z) : list Z := take len (drop off b).

Definition stat_of_bytes (b : list Z) : iox_stat_t :=
  let w off := of_le32 (slice_of off 4 b) in
  mk_iox_stat (w 0%nat) (w 4%nat) (w 8%nat)
    (slice_of 12 8 b) (slice_of 20 8 b) (slice_of 28 8 b)
    (w 36%nat) (w 40%nat) (w 44%nat) (w 48%nat) (w 52%nat) (w 56%nat) (w 60%nat).

(** [iox_dirent_t]: the stat, the name in 256 bytes, and the unused word, which the
    drivers leave alone (0 here). *)
Definition dirent_bytes (de : iox_dirent_t) : list Z :=
  stat_bytes (de_stat de) ++ strncpy_bytes 256 (bytes_of_string (de_name de)) ++ le32 0.

Definition dirent_of_bytes (b : list Z) : iox_dirent_t :=
  mk_iox_dirent (stat_of_bytes (take 64 b)) (string_of_bytes (cstr (slice_of 64 256 b))).

(** The values a C structure can hold. *)
Definition word (z : Z) : Prop := 0 <= z < 2 ^ 32.
Definition stamp (b : list Z) : Prop := length b = 8%nat.
Definition stat_ok (st : iox_stat_t) : Prop :=
  Forall word [st_mode st; st_attr st; st_size st; st_hisize st; st_private_0 st; st_private_1 st;
               st_private_2 st; st_private_3 st; st_private_4 st; st_private_5 st] /\
  stamp (st_ctime st) /\ stamp (st_atime st) /\ stamp (st_mtime st).

Lemma of_le32_le32 z : word z -> of_le32 (le32 z) = z.
Proof.
  unfold word, of_le32, le32, uwrap. intros Hz. rewrite !Z.shiftr_div_pow2 by lia.
  change (2 ^ 8) with 256. change (2 ^ 16) with 65536. change (2 ^ 24) with 16777216.
  dlia.
Qed.

Lemma length_stat_bytes st : stat_ok st -> length (stat_bytes st) = 64%nat.
Proof.
  intros (_ & Hc & Ha & Hm). unfold stamp in *. unfold stat_bytes.
  rewrite !length_app, Hc, Ha, Hm. done.
Qed.

Lemma stat_roundtrip_lemma st rest : stat_ok st -> stat_of_bytes (stat_bytes st ++ rest) = st.
Proof.
  destruct st as [md at_ sz ct at' mt hi p0 p1 p2 p3 p4 p5].
  intros (Hw & Hc & Ha & Hm). unfold stamp in *; simpl in *.
  repeat (apply Forall_cons in Hw as [? Hw]).
  do 9 (destruct ct as [|? ct]; try discriminate Hc).
  do 9 (destruct at' as [|? at']; try discriminate Ha).
  do 9 (destruct mt as [|? mt]; try discriminate Hm).
  unfold stat_of_bytes, stat_bytes, slice_of; cbn [app take drop le32 st_mode st_attr st_size
    st_ctime st_atime st_mtime st_hisize st_private_0 st_private_1 st_private_2 st_private_3
    st_private_4 st_private_5].
  repeat match goal with
  | |- context [of_le32 [u8 ?z; u8 (Z.shiftr ?z 8); u8 (Z.shiftr ?z 16); u8 (Z.shiftr ?z 24)]] =>
      change [u8 z; u8 (Z.shiftr z 8); u8 (Z.shiftr z 16); u8 (Z.shiftr z 24)] with (le32 z);
      rewrite (of_le32_le32 z) by done
  end.
  f_equal. by apply of_le32_le32.
Qed.

(** ** Properties *)

(** Structures cross the shared segment: a stat whose fields are 32-bit words
    and eight-byte stamps, and a directory record with a name of at most 255 bytes,
    are read back as they were written, whatever follows them in the segment. *)
Theorem shm_roundtrip de rest :
  stat_ok (de_stat de) -> (String.length (de_name de) <= 255)%nat ->
  nonzero (bytes_of_string (de_name de)) ->
  stat_of_bytes (stat_bytes (de_stat de) ++ rest) = de_stat de /\
  dirent_of_bytes (dirent_bytes de ++ rest) = de /\ length (dirent_bytes de) = 324%nat.
Proof.
  intros Hst Hlen Hnz. pose proof (length_stat_bytes _ Hst) as H64.
  split_and!; [by apply stat_roundtrip_lemma | |].
  - unfold dirent_of_bytes, dirent_bytes. rewrite <- !app_assoc.
    rewrite (take_app_length' _ _ 64) by done. rewrite <- (app_nil_r (stat_bytes _)) at 1.
    rewrite stat_roundtrip_lemma by done. unfold slice_of.
    rewrite (drop_app_length' _ _ 64), (take_app_length' _ _ 256)
      by (rewrite ?length_strncpy_bytes; done).
    rewrite cstr_strncpy_bytes, cstr_nonzero, string_of_bytes_of_string
      by (rewrite ?cstr_nonzero, ?length_bytes_of_string; done || lia).
    by destruct de.
  - unfold dirent_bytes. rewrite !length_app, H64, length_strncpy_bytes. done.
Qed.

Lemma shm_roundtrip_witness :
  let de := mk_iox_dirent (mk_iox_stat 0x21FF 0 100000 (replicate 8 1) (replicate 8 2)
              (replicate 8 3) 0 0 0 0 0 0 7) "game.iso" in
  dirent_of_bytes (dirent_bytes de ++ [1; 2; 3]) = de.
Proof.
  apply (shm_roundtrip (mk_iox_dirent (mk_iox_stat 0x21FF 0 100000 (replicate 8 1) (replicate 8 2)
              (replicate 8 3) 0 0 0 0 0 0 7) "game.iso") [1; 2; 3]).
  - split; [|done]. repeat constructor; done.
  - simpl. lia.
  - by repeat constructor.
Defined.
