(* ===== verification/Pfsd.v ===== *)
(** * The PFS daemon (src/src/pfsd.c, over src/src/pfslib_compat.h)

    The daemon serves clients over a socket.  Its state: the connected clients, the
    table of open files, the 32 mount slots, and the shared segment.  The
    [scepfs*] calls are the iomanX calls of the interface.  A client is known by the
    descriptor of its connection ([in_pid] in the code). *)

From stdpp Require Import pretty.
From S2P Require Import Prelude IoWorld Shm.

(** ** State *)

Definition MAX_ITEMS : nat := 32.

(** A free slot has [m_pid] 0; its strings are null, or dangle after
    [umount_cleanup]: [None]. *)
Record mountlist_item_t := mk_mount {
  m_pid : Z;
  m_str_fsprefix : option string;
  m_str_containerpath : option string;
  m_str_devprefix : option string
}.

Record openfile_item_t := mk_openfile {
  of_fd : Z;
  of_pid : Z;
  of_mountlist_index : nat
}.

(** [g_openfile_items] up to [g_openfile_count], and [g_connection_pollfds] up to
    [g_current_client_count] (the entry after those is the listening socket). *)
Record pfsd := mk_pfsd {
  g_openfile_items : list openfile_item_t;
  g_mountlist_items : list mountlist_item_t;
  g_clients : list Z;
  SocketFd : Z;
  ShmPtr : list Z;
  debug_mode : bool
}.

Definition free_mount : mountlist_item_t := mk_mount 0 None None None.

Definition set_openfiles (l : list openfile_item_t) (s : pfsd) : pfsd :=
  mk_pfsd l (g_mountlist_items s) (g_clients s) (SocketFd s) (ShmPtr s) (debug_mode s).
Definition set_mounts (l : list mountlist_item_t) (s : pfsd) : pfsd :=
  mk_pfsd (g_openfile_items s) l (g_clients s) (SocketFd s) (ShmPtr s) (debug_mode s).
Definition set_clients (l : list Z) (s : pfsd) : pfsd :=
  mk_pfsd (g_openfile_items s) (g_mountlist_items s) l (SocketFd s) (ShmPtr s) (debug_mode s).
Definition set_shm (b : list Z) (s : pfsd) : pfsd :=
  mk_pfsd (g_openfile_items s) (g_mountlist_items s) (g_clients s) (SocketFd s) b (debug_mode s).

(** The buffer names are remapped in: 1200 bytes on the stack. *)
Definition NAME_BUF : nat := 1200.

(** ** Tables *)

(** A [for] over the mount slots that stops where the condition of the code becomes
    false: [f] is whether the slot stops it, [None] when testing it reads a null or
    dangling string.  The result is [MAX_ITEMS] when no slot stops the loop. *)
Fixpoint search (f : mountlist_item_t -> option bool) (l : list mountlist_item_t) (i : nat)
    : option nat :=
  match l with
  | [] => Some i
  | x :: l' => match f x with
               | None => None
               | Some true => Some i
               | Some false => search f l' (S i)
               end
  end.

Definition find_mount (f : mountlist_item_t -> option bool) (s : pfsd) : option nat :=
  search f (g_mountlist_items s) 0.

Definition find_free_mount_info (s : pfsd) : option nat :=
  find_mount (fun x => Some (m_pid x =? 0)) s.

(** [!strncmp(name, prefix, strlen(prefix))] *)
Definition own_prefix (in_pid : Z) (name : string) (x : mountlist_item_t) : option bool :=
  if negb (m_pid x =? in_pid) then Some false
  else p ← m_str_fsprefix x; Some (String.prefix p name).

Definition own_field (in_pid : Z) (name : string) (proj : mountlist_item_t -> option string)
    (x : mountlist_item_t) : option bool :=
  if negb (m_pid x =? in_pid) then Some false
  else p ← proj x; Some (bool_decide (name = p)).

(** The name after its first [n] characters. *)
Fixpoint string_drop (n : nat) (s : string) : string :=
  match n, s with
  | S n', String _ s' => string_drop n' s'
  | _, _ => s
  end.

(** The name up to a comma. *)
Fixpoint before_comma (s : string) : string :=
  match s with
  | EmptyString => EmptyString
  | String c s' => if bool_decide (c = ","%char) then EmptyString else String c (before_comma s')
  end.

Fixpoint find_openfile (in_fd in_pid : Z) (l : list openfile_item_t) : option nat :=
  match l with
  | [] => None
  | x :: l' => if (of_fd x =? in_fd) && (of_pid x =? in_pid) then Some O
               else S <$> find_openfile in_fd in_pid l'
  end.

Section Daemon.
Context {E : Type} `{Handler E}.
Abbreviation DM := (M pfsd E).

(** [umount_cleanup(i)] *)
Definition umount_cleanup (in_mountlist_index : nat) : DM unit :=
  modify (fun s => set_mounts (<[in_mountlist_index := free_mount]> (g_mountlist_items s)) s).

Fixpoint print_mounts (l : list mountlist_item_t) (mount_count : Z) : DM Z :=
  match l with
  | [] => mret mount_count
  | x :: l' =>
      if negb (m_pid x =? 0) then
        when (mount_count =? 0) (printf (ln "") []);;
        fsprefix ← deref (m_str_fsprefix x);
        containerpath ← deref (m_str_containerpath x);
        devprefix ← deref (m_str_devprefix x);
        printf (ln " pid%2d %s(%s) --> %s")
          [PInt (m_pid x); PStr fsprefix; PStr containerpath; PStr devprefix];;
        print_mounts l' (mount_count + 1)
      else print_mounts l' mount_count
  end.

Definition output_statistics : DM unit :=
  s ← get;
  printf "MountList:" [];;
  mount_count ← print_mounts (g_mountlist_items s) 0;
  when (mount_count =? 0) (printf (ln " No partition mounted.") []);;
  if (length (g_openfile_items s) =? 0)%nat then printf (ln "OpenFile: No file inuse.") []
  else
    printf (ln "OpenFile:") [];;
    for_ (g_openfile_items s) (fun x =>
      printf " pid%2d fd%2d " [PInt (of_pid x); PInt (of_fd x)];;
      match g_mountlist_items s !! of_mountlist_index x with
      | Some y =>
          if negb (m_pid y =? 0) then
            fsprefix ← deref (m_str_fsprefix y);
            devprefix ← deref (m_str_devprefix y);
            printf (ln "(%s,%s)") [PStr fsprefix; PStr devprefix]
          else printf (ln ": Invalid MountPoint???") []
      | None => printf (ln ": Invalid MountPoint???") []
      end).

(** The second loop of [rpc_remap_name]: a name in the container of any client is
    blanked; later slots are compared with the blanked name. *)
Fixpoint blank_foreign (in_pid : Z) (l : list mountlist_item_t) (in_name : string) : DM string :=
  match l with
  | [] => mret in_name
  | x :: l' =>
      foreign ← (if negb (m_pid x =? 0)
                 then c ← deref (m_str_containerpath x); mret (String.prefix c in_name)
                 else mret false);
      if foreign : bool then
        printf (ln "pid%d requesting invalid filename '%s'") [PInt in_pid; PStr in_name];;
        blank_foreign in_pid l' ""
      else blank_foreign in_pid l' in_name
  end.

(** [rpc_remap_name], in place in a buffer of [cap] bytes. *)
Definition rpc_remap_name (cap : nat) (in_name : string) (in_pid : Z) : DM string :=
  s ← get;
  i ← deref (find_mount (own_prefix in_pid in_name) s);
  match g_mountlist_items s !! i with
  | Some x =>
      fsprefix ← deref (m_str_fsprefix x);
      containerpath ← deref (m_str_containerpath x);
      let name := containerpath +:+ string_drop (String.length fsprefix) in_name in
      assert_ (String.length name <? cap)%nat;;
      mret name
  | None => blank_foreign in_pid (g_mountlist_items s) in_name
  end.

Definition rpc_common_open (in_fd in_pid : Z) (in_filename : string) : DM unit :=
  s ← get;
  i ← deref (find_mount (own_prefix in_pid in_filename) s);
  when ((i =? MAX_ITEMS)%nat && negb (String.prefix "hdd" in_filename))
    (printf (ln "Invalid filename '%s', fd%d pid%d.") [PStr in_filename; PInt in_fd; PInt in_pid]);;
  assert_ (length (g_openfile_items s) <? MAX_ITEMS)%nat;;
  put (set_openfiles (g_openfile_items s ++ [mk_openfile in_fd in_pid i]) s).

(** [rpc_common_close]: without a match the last entry goes; an empty table would
    get a count of -1. *)
Definition rpc_common_close (in_fd in_pid : Z) : DM unit :=
  s ← get;
  let l := g_openfile_items s in
  assert_ (0 <? length l)%nat;;
  put (set_openfiles
         (match find_openfile in_fd in_pid l with
          | Some i => delete i l
          | None => take (length l - 1) l
          end) s).

Definition rpc_remap_fd (in_fd in_pid : Z) : DM Z :=
  s ← get;
  match find_openfile in_fd in_pid (g_openfile_items s) with
  | Some _ => mret in_fd
  | None =>
      printf (ln "pid%d requesting invalid fd%d access!") [PInt in_pid; PInt in_fd];;
      mret (-1)
  end.

(** ** Clients *)

Definition get_pid_from_socket_fd (in_socket_fd : Z) : DM Z :=
  pid ← call (Host_peer_pid in_socket_fd);
  if pid =? -1 then call (Perror "getsockopt SO_PEERCRED");; mret (-1) else mret pid.

Definition add_new_client : DM unit :=
  s ← get;
  fd ← call (Host_accept (SocketFd s));
  if fd <? 0 then call (Perror "accept")
  else if (MAX_ITEMS <=? length (g_clients s))%nat then
    printf (ln "Too many clients.") [];;
    call (Host_close fd);;
    mret tt
  else
    pid ← get_pid_from_socket_fd fd;
    '(bad, effective) ← (if pid =? -1 then mret (-1, 0) else call (Host_capget pid));
    if (pid =? -1) || negb (bad =? 0) then
      call (Perror "capget");;
      call (Host_close fd);;
      mret tt
    else if negb (flag effective 0x20000) then
      printf (ln "Client does not have capability. disconnecting.") [];;
      call (Host_close fd);;
      mret tt
    else
      let clients := g_clients s ++ [fd] in
      (* g_connection_pollfds[g_current_client_count] after the increment *)
      assert_ (length clients <? MAX_ITEMS)%nat;;
      put (set_clients clients s).

(** ** Commands *)

Definition table_full (s : pfsd) : bool := negb (length (g_openfile_items s) <? MAX_ITEMS)%nat.

Definition rpc_command_open (m_name : string) (m_flags m_mode in_pid : Z) : DM unit :=
  s ← get;
  rpcret ← (if table_full s then mret (-24)
            else name ← rpc_remap_name NAME_BUF m_name in_pid;
                 call (IomanX_open name m_flags m_mode));
  call (Reply in_pid rpcret);;
  when (0 <=? rpcret) (rpc_common_open rpcret in_pid m_name).

Definition rpc_command_close (m_fd in_pid : Z) : DM unit :=
  fd ← rpc_remap_fd m_fd in_pid;
  rpcret ← call (IomanX_close fd);
  when (rpcret =? 0) (rpc_common_close m_fd in_pid);;
  call (Reply in_pid rpcret).

Definition rpc_command_dopen (m_name : string) (in_pid : Z) : DM unit :=
  s ← get;
  rpcret ← (if table_full s then mret (-24)
            else name ← rpc_remap_name NAME_BUF m_name in_pid;
                 call (IomanX_dopen name));
  call (Reply in_pid rpcret);;
  when (0 <=? rpcret) (rpc_common_open rpcret in_pid m_name).

(** [rpc_command_dclose]: [scepfsDclose] is [iomanX_close]. *)
Definition rpc_command_dclose (m_fd in_pid : Z) : DM unit := rpc_command_close m_fd in_pid.

(** The shared segment as an argument, and data stored through it.  What does not
    fit the segment, or goes to a null pointer, is undefined. *)
Definition shm_arg (useshmptr : bool) : DM ioctl_arg :=
  s ← get; mret (if useshmptr then ArgBytes (ShmPtr s) else ArgNull).

Definition shm_store (useshmptr : bool) (data : list Z) : DM unit :=
  s ← get;
  if useshmptr then
    assert_ (length data <=? length (ShmPtr s))%nat;;
    put (set_shm (overlay 0 data (ShmPtr s)) s)
  else assert_ (length data =? 0)%nat.

(** [n] bytes of the segment. *)
Definition shm_load (useshmptr : bool) (n : nat) : DM (list Z) :=
  s ← get;
  if useshmptr then
    assert_ (n <=? length (ShmPtr s))%nat;;
    mret (take n (ShmPtr s))
  else assert_ (n =? 0)%nat;; mret [].

(** The loop that looks for a free container [pfs0:], [pfs1:], ... *)
Fixpoint try_containers (is_ : list nat) (devname : string) (flag : Z) (arg : ioctl_arg)
    (arglen : Z) (fsname : string) (rpcret : Z) : DM (Z * string) :=
  match is_ with
  | [] => mret (rpcret, fsname)
  | i :: is' =>
      if rpcret =? -16 then
        let fsname := ("pfs" +:+ pretty (N.of_nat i) +:+ ":")%string in
        rpcret ← call (IomanX_mount fsname devname flag arg arglen);
        try_containers is' devname flag arg arglen fsname rpcret
      else mret (rpcret, fsname)
  end.

Definition other_mount_of (devname : string) (x : mountlist_item_t) : option bool :=
  if m_pid x =? 0 then Some false
  else d ← m_str_devprefix x; Some (bool_decide (d = devname)).

Definition rpc_command_mount (m_fsname m_devname : string) (m_flag : Z) (useshm : bool)
    (m_arglen in_pid : Z) : DM unit :=
  let devname_buf := before_comma m_devname in
  s ← get;
  free_mount_info ← deref (find_free_mount_info s);
  '(rpcret, fsname_buf) ← (
    if (free_mount_info <? MAX_ITEMS)%nat then
      i ← deref (find_mount (own_field in_pid m_fsname m_str_fsprefix) s);
      if (MAX_ITEMS <=? i)%nat then
        arg ← shm_arg useshm;
        rpcret ← call (IomanX_mount m_fsname devname_buf m_flag arg m_arglen);
        if rpcret =? -16 then
          i ← deref (find_mount (other_mount_of devname_buf) s);
          match g_mountlist_items s !! i with
          | Some x =>
              c ← deref (m_str_containerpath x);
              mret (0, c)
          | None => try_containers (seq 0 MAX_ITEMS) devname_buf m_flag arg m_arglen m_fsname rpcret
          end
        else mret (rpcret, m_fsname)
      else mret (-16, m_fsname)
    else mret (-24, m_fsname));
  when (rpcret =? 0)
    (put (set_mounts (<[free_mount_info :=
            mk_mount in_pid (Some m_fsname) (Some fsname_buf) (Some devname_buf)]>
            (g_mountlist_items s)) s));;
  call (Reply in_pid rpcret).

Definition has_openfile (i : nat) (l : list openfile_item_t) : bool :=
  existsb (fun x => (of_mountlist_index x =? i)%nat) l.

(** The [k] loop: it goes on only while [i == k]. *)
Fixpoint umount_search (i : nat) (c : option string) (l : list mountlist_item_t) (k : nat)
    : option nat :=
  match l with
  | [] => Some k
  | x :: l' =>
      if (i =? k)%nat then
        if m_pid x =? 0 then umount_search i c l' (S k)
        else c1 ← c; c2 ← m_str_containerpath x;
             if bool_decide (c1 = c2) then Some k else umount_search i c l' (S k)
      else Some k
  end.

Definition rpc_command_umount (m_fsname : string) (in_pid : Z) : DM unit :=
  s ← get;
  i ← deref (find_mount (own_field in_pid m_fsname m_str_fsprefix) s);
  match g_mountlist_items s !! i with
  | None =>
      printf (ln "pid%d %s Unmount requested but not mounted.") [PInt in_pid; PStr m_fsname];;
      call (Reply in_pid (-19))
  | Some x =>
      if has_openfile i (g_openfile_items s) then
        devprefix ← deref (m_str_devprefix x);
        printf (ln "pid%d %s %s Umount requested but there are still opened files.")
          [PInt in_pid; PStr m_fsname; PStr devprefix];;
        output_statistics;;
        call (Reply in_pid (-16))
      else
        k ← deref (umount_search i (m_str_containerpath x) (g_mountlist_items s) 0);
        when ((k <? MAX_ITEMS)%nat && debug_mode s)
          (devprefix ← deref (m_str_devprefix x);
           printf (ln "pid%d %s %s Unmount requested but another process is using.")
             [PInt in_pid; PStr m_fsname; PStr devprefix]);;
        rpcret ← (if (MAX_ITEMS <=? k)%nat
                  then c ← deref (m_str_containerpath x); call (IomanX_umount c)
                  else mret 0);
        call (Reply in_pid rpcret);;
        when (rpcret =? 0) (umount_cleanup i);;
        when ((k <? MAX_ITEMS)%nat && debug_mode s) output_statistics
  end.

(** [rpc_command_getmountpoint]: the answer is a string in the shared segment. *)
Definition rpc_command_getmountpoint (m_path : string) (in_pid : Z) : DM unit :=
  let path_buf := before_comma m_path in
  s ← get;
  i ← deref (find_mount (own_field in_pid path_buf m_str_devprefix) s);
  match g_mountlist_items s !! i with
  | None => shm_store true [0];; call (Reply in_pid (-19))
  | Some x =>
      fsprefix ← deref (m_str_fsprefix x);
      shm_store true (bytes_of_string fsprefix ++ [0]);;
      call (Reply in_pid 0)
  end.

(** ** The end of a client *)

(** The loop over the open files: after a close the index stays, the close being
    expected to have removed the entry. *)
Definition cleanup_files (fuel : nat) (client_fd : Z) : DM bool :=
  loop fuel (fun '(i, outputflag) =>
    s ← get;
    match g_openfile_items s !! i with
    | None => mret (inr outputflag)
    | Some x =>
        if of_pid x =? client_fd then
          when outputflag (printf (ln "%d terminated abnormally.") [PInt (of_pid x)]);;
          printf (ln "Cleanup: Close %d") [PInt (of_fd x)];;
          rpc_command_close (of_fd x) (of_pid x);;
          mret (inl (i, false))
        else mret (inl (S i, outputflag))
    end) (O, true).

Fixpoint cleanup_mounts (n i : nat) (client_fd : Z) (outputflag : bool) : DM bool :=
  match n with
  | O => mret outputflag
  | S n' =>
      s ← get;
      x ← deref (g_mountlist_items s !! i);
      if m_pid x =? client_fd then
        fsprefix ← deref (m_str_fsprefix x);
        when outputflag (printf (ln "%d terminated abnormally.") [PInt (m_pid x)]);;
        printf (ln "Cleanup: Unmount %s") [PStr fsprefix];;
        rpc_command_umount fsprefix (m_pid x);;
        cleanup_mounts n' (S i) client_fd false
      else cleanup_mounts n' (S i) client_fd outputflag
  end.

Definition cleanup_client (fuel in_client_id : nat) : DM unit :=
  s ← get;
  client_fd ← deref (g_clients s !! in_client_id);
  outputflag ← cleanup_files fuel client_fd;
  outputflag ← cleanup_mounts MAX_ITEMS 0 client_fd outputflag;
  when (negb outputflag && debug_mode s) output_statistics;;
  call (Host_close client_fd);;
  modify (fun s => set_clients (delete in_client_id (g_clients s)) s).

(** ** Dispatch *)

(** The two [ioctl]s of pfslib_compat.c: [g_hdd_fd] is [hddFd[0]]. *)
Definition BLKRASET : Z := 0x1262.
Definition BLKRAGET : Z := 0x1263.

Definition scepfsGetReadAhead (hdd_fd : Z) : DM Z :=
  '(_, ret_ra) ← call (Host_ioctl hdd_fd BLKRAGET 0);
  printf (ln "current read ahead setting = %d") [PInt ret_ra];;
  mret ret_ra.

Definition scepfsSetReadAhead (hdd_fd enabled : Z) : DM Z :=
  scepfsGetReadAhead hdd_fd;;
  '(raget_res, _) ← call (Host_ioctl hdd_fd BLKRASET enabled);
  if negb (raget_res =? 0) then
    errno ← call Get_errno;
    printf (ln "BLKRASET failed. errno%d") [PInt errno];;
    mret raget_res
  else
    '(_, ret_ra) ← call (Host_ioctl hdd_fd BLKRAGET 0);
    printf (ln "read ahead setting set to %d") [PInt ret_ra];;
    mret 0.

(** [event_handler_func(pfd)] once the packet is read: [fd] is the client, [garbage]
    the initial content of the uninitialised [rpcret].  Where a case has two names to
    remap, C leaves the order open; the first is done first here. *)
Definition event_handler_func (hdd_fd garbage fd : Z) (req : request) : DM unit :=
  let remap name := rpc_remap_name PACKET_NAME name fd in
  let answer (rpcret : Z) := call (Reply fd rpcret) in
  match req with
  | PFSD_REQ_OPEN name flags mode => rpc_command_open name flags mode fd
  | PFSD_REQ_LSEEK m_fd offset whence =>
      f ← rpc_remap_fd m_fd fd;
      rpcret ← call (IomanX_lseek f offset whence);
      answer rpcret
  | PFSD_REQ_LSEEK64 m_fd offset whence =>
      f ← rpc_remap_fd m_fd fd;
      rpcret64 ← call (IomanX_lseek64 f offset whence);
      answer rpcret64
  | PFSD_REQ_READ m_fd useshm size =>
      f ← rpc_remap_fd m_fd fd;
      '(rpcret, data) ← call (IomanX_read f size);
      shm_store useshm data;;
      answer rpcret
  | PFSD_REQ_WRITE m_fd useshm size =>
      f ← rpc_remap_fd m_fd fd;
      data ← shm_load useshm (Z.to_nat size);
      rpcret ← call (IomanX_write f data size);
      answer rpcret
  | PFSD_REQ_CLOSE m_fd => rpc_command_close m_fd fd
  | PFSD_REQ_DOPEN name => rpc_command_dopen name fd
  | PFSD_REQ_DREAD m_fd useshm =>
      f ← rpc_remap_fd m_fd fd;
      '(rpcret, de) ← call (IomanX_dread f);
      shm_store useshm (dirent_bytes de);;
      answer rpcret
  | PFSD_REQ_DCLOSE m_fd => rpc_command_dclose m_fd fd
  | PFSD_REQ_CHSTAT name useshm mask =>
      name ← remap name;
      bs ← shm_load useshm 64;
      assert_ useshm;;
      rpcret ← call (IomanX_chstat name (stat_of_bytes bs) mask);
      answer rpcret
  | PFSD_REQ_GETSTAT name useshm =>
      name ← remap name;
      '(rpcret, st) ← call (IomanX_getstat name);
      shm_store useshm (stat_bytes st);;
      answer rpcret
  | PFSD_REQ_MKDIR name mode =>
      name ← remap name;
      rpcret ← call (IomanX_mkdir name mode);
      answer rpcret
  | PFSD_REQ_RMDIR name =>
      name ← remap name;
      rpcret ← call (IomanX_rmdir name);
      answer rpcret
  | PFSD_REQ_CHDIR name =>
      name ← remap name;
      rpcret ← call (IomanX_chdir name);
      answer rpcret
  | PFSD_REQ_REMOVE name =>
      name ← remap name;
      rpcret ← call (IomanX_remove name);
      answer rpcret
  | PFSD_REQ_RENAME old new =>
      old ← remap old;
      new ← remap new;
      rpcret ← call (IomanX_rename old new);
      answer rpcret
  | PFSD_REQ_IOCTL m_fd cmd useshm =>
      f ← rpc_remap_fd m_fd fd;
      arg ← shm_arg useshm;
      rpcret ← call (IomanX_ioctl f cmd arg);
      answer rpcret
  | PFSD_REQ_IOCTL2 m_fd cmd argshm arglen bufshm buflen =>
      f ← rpc_remap_fd m_fd fd;
      arg ← shm_arg argshm;
      '(rpcret, data) ← call (IomanX_ioctl2 f cmd arg arglen buflen);
      shm_store bufshm data;;
      answer rpcret
  | PFSD_REQ_SYMLINK old new =>
      old ← remap old;
      new ← remap new;
      rpcret ← call (IomanX_symlink old new);
      answer rpcret
  | PFSD_REQ_READLINK name useshm buflen =>
      name ← remap name;
      '(rpcret, data) ← call (IomanX_readlink name buflen);
      shm_store useshm data;;
      answer rpcret
  | PFSD_REQ_SYNC dev flag =>
      dev ← remap dev;
      rpcret ← call (IomanX_sync dev flag);
      answer rpcret
  | PFSD_REQ_FORMAT dev blockdev useshm arglen =>
      arg ← shm_arg useshm;
      rpcret ← call (IomanX_format dev (Some (before_comma blockdev)) arg arglen);
      answer rpcret
  | PFSD_REQ_MOUNT fsname devname flag useshm arglen =>
      rpc_command_mount fsname devname flag useshm arglen fd
  | PFSD_REQ_UMOUNT fsname => rpc_command_umount fsname fd
  | PFSD_REQ_DEVCTL name cmd argshm arglen bufshm buflen =>
      name ← remap name;
      arg ← shm_arg argshm;
      '(rpcret, data) ← call (IomanX_devctl name cmd arg arglen buflen);
      shm_store bufshm data;;
      answer rpcret
  | PFSD_REQ_SETREADAHEAD enabled =>
      rpcret ← scepfsSetReadAhead hdd_fd enabled;
      answer rpcret
  | PFSD_REQ_GETREADAHEAD =>
      rpcret ← scepfsGetReadAhead hdd_fd;
      answer rpcret
  | PFSD_REQ_GETMOUNTPOINT path =>
      rpc_command_getmountpoint path fd;;
      answer garbage
  | PFSD_REQ_IOCTL2_HIOCTRANSFER m_fd sub sector size mode useshm =>
      s ← get;
      f ← rpc_remap_fd m_fd fd;
      let buffer := if useshm then ShmPtr s else [] in
      '(rpcret, data) ← call (IomanX_ioctl2 f HIOCTRANSFER
                                (ArgTransfer sub sector size mode buffer) 24 0);
      shm_store useshm data;;
      answer rpcret
  | PFSD_REQ_OTHER m_command =>
      printf (ln "Not supported function %d.") [PInt m_command]
  end.

(** ** The main loop *)

(** The [for] over the clients: a hang-up ends it and clears [flag], the result. *)
Fixpoint poll_clients (hdd_fd : Z) (fuel : nat) (evs : list client_events) (i : nat) : DM bool :=
  match evs with
  | [] => mret true
  | ev :: evs' =>
      s ← get;
      match g_clients s !! i with
      | None => mret true
      | Some fd =>
          if ev_pollhup ev then cleanup_client fuel i;; mret false
          else
            when (ev_pollin ev)
              (if ev_read ev <? 0 then call (Perror "read")
               else event_handler_func hdd_fd (ev_garbage ev) fd (ev_request ev));;
            poll_clients hdd_fd fuel evs' (S i)
      end
  end.

(** One return of [poll]: a new connection, or events of the clients. *)
Definition poll_turn (hdd_fd : Z) (fuel : nat) (new_client : bool) (evs : list client_events)
    : DM bool :=
  if new_client then add_new_client;; mret true else poll_clients hdd_fd fuel evs 0.
End Daemon.

(** The daemon as it starts: globals are zero, the segment is fresh. *)
Definition initial_state (socket_fd : Z) (debug : bool) : pfsd :=
  mk_pfsd [] (replicate MAX_ITEMS free_mount) [] socket_fd (replicate SHM_SIZE 0) debug.
