(* ===== verification/PfsdInv.v ===== *)
(** * The daemon's invariant

    The tables of the daemon stay well formed under every request, connection and
    hang-up, and no request of a well-behaved size reaches undefined behaviour. *)

From stdpp Require Import pretty.
From S2P Require Import Prelude IoWorld Shm Pfsd.

(** ** What the environment promises *)

(** Closing a descriptor that is not one fails; accepted descriptors are not 0 (the
    daemon keeps its standard input open); out-parameters stay within the lengths
    passed and hold well-formed structures. *)
Class DaemonEnv (E : Type) `{Handler E} := {
  close_invalid : forall e, fst (handle (IomanX_close (-1)) e) <> 0;
  accept_not_stdin : forall fd e, fst (handle (Host_accept fd) e) <> 0;
  read_len : forall fd n e, (length (snd (fst (handle (IomanX_read fd n) e))) <= Z.to_nat n)%nat;
  ioctl2_len : forall fd cmd arg arglen buflen e,
    (length (snd (fst (handle (IomanX_ioctl2 fd cmd arg arglen buflen) e))) <=
     match arg with ArgTransfer _ _ size _ _ => Z.to_nat (512 * size) | _ => Z.to_nat buflen end)%nat;
  devctl_len : forall name cmd arg arglen buflen e,
    (length (snd (fst (handle (IomanX_devctl name cmd arg arglen buflen) e))) <= Z.to_nat buflen)%nat;
  readlink_len : forall name n e,
    (length (snd (fst (handle (IomanX_readlink name n) e))) <= Z.to_nat n)%nat;
  getstat_ok : forall name e, stat_ok (snd (fst (handle (IomanX_getstat name) e)));
  dread_ok : forall fd e, stat_ok (de_stat (snd (fst (handle (IomanX_dread fd) e))))
}.

(** ** The invariant *)

Definition CONTAINER_MAX : nat := 31.

Definition slot_ok (x : mountlist_item_t) : Prop :=
  m_pid x <> 0 -> exists fsprefix containerpath devprefix,
    m_str_fsprefix x = Some fsprefix /\ m_str_containerpath x = Some containerpath /\
    m_str_devprefix x = Some devprefix /\
    (String.length fsprefix <= CONTAINER_MAX)%nat /\
    (String.length containerpath <= CONTAINER_MAX)%nat.

(** An open file belongs to a client, and to a mount of that client when its name
    was in one. *)
Definition openfile_ok (mounts : list mountlist_item_t) (x : openfile_item_t) : Prop :=
  0 <= of_fd x /\ of_pid x <> 0 /\ (of_mountlist_index x <= MAX_ITEMS)%nat /\
  forall y, mounts !! of_mountlist_index x = Some y -> m_pid y = of_pid x.

Record inv (s : pfsd) : Prop := {
  inv_mounts : length (g_mountlist_items s) = MAX_ITEMS;
  inv_slots : Forall slot_ok (g_mountlist_items s);
  inv_count : (length (g_openfile_items s) <= MAX_ITEMS)%nat;
  inv_files : Forall (openfile_ok (g_mountlist_items s)) (g_openfile_items s);
  inv_shm : length (ShmPtr s) = SHM_SIZE;
  inv_clients : Forall (fun c => c <> 0) (g_clients s);
  inv_nclients : (length (g_clients s) < MAX_ITEMS)%nat
}.

(** ** Programs that keep it *)

Definition keeps {E A} `{Handler E} (m : M pfsd E A) (s : pfsd) (Q : A -> pfsd -> Prop) : Prop :=
  forall e, wp m (fun r s' _ _ =>
    r <> Undef /\ inv s' /\ match r with Ret a => Q a s' | _ => True end) s e.

Section Keeps.
Context {E : Type} `{Handler E}.

Lemma keeps_bind {A B} (m : M pfsd E A) (k : A -> M pfsd E B) s Q :
  keeps m s (fun a s' => inv s' -> keeps (k a) s' Q) -> keeps (m ≫= k) s Q.
Proof.
  intros Hm e. apply wp_bind. eapply wp_mono; [apply Hm|].
  intros [a| | | |] s' e' t (Hr & Hi & Hk); unfold bind_post; try done.
  eapply wp_mono; [by apply Hk|]. done.
Qed.

Lemma keeps_mono {A} (m : M pfsd E A) s (Q Q' : A -> pfsd -> Prop) :
  keeps m s Q -> (forall a s', inv s' -> Q a s' -> Q' a s') -> keeps m s Q'.
Proof.
  intros Hm HQ e. eapply wp_mono; [apply Hm|]. intros r s' e' t (? & ? & Hr).
  split_and!; [done..|]. destruct r; auto.
Qed.

Lemma keeps_ret {A} (a : A) s (Q : A -> pfsd -> Prop) : inv s -> Q a s -> keeps (mret a) s Q.
Proof. intros ?? e. by apply wp_ret. Qed.

Lemma keeps_call {A} (c : ioE A) s (Q : A -> pfsd -> Prop) :
  inv s -> (forall e, Q (fst (handle c e)) s) -> keeps (call c) s Q.
Proof.
  intros Hs HQ e. apply wp_call. intros r e' Hr. split_and!; [done..|].
  specialize (HQ e). by rewrite Hr in HQ.
Qed.

Lemma keeps_get s (Q : pfsd -> pfsd -> Prop) : inv s -> Q s s -> keeps get s Q.
Proof. intros ?? e. by apply wp_get. Qed.

Lemma keeps_put s s' (Q : unit -> pfsd -> Prop) : inv s' -> Q tt s' -> keeps (put s') s Q.
Proof. intros ?? e. by apply wp_put. Qed.

Lemma keeps_modify f s (Q : unit -> pfsd -> Prop) : inv (f s) -> Q tt (f s) -> keeps (modify f) s Q.
Proof. intros ?? e. by apply wp_modify. Qed.

Lemma keeps_deref {A} (o : option A) a s (Q : A -> pfsd -> Prop) :
  o = Some a -> inv s -> Q a s -> keeps (deref o) s Q.
Proof. intros -> ?? e. by apply wp_deref. Qed.

Lemma keeps_assert c s (Q : unit -> pfsd -> Prop) :
  c = true -> inv s -> Q tt s -> keeps (assert_ c) s Q.
Proof. intros -> ?? e. by apply wp_ret. Qed.

Lemma keeps_when c (m : M pfsd E unit) s Q :
  inv s -> (c = true -> keeps m s Q) -> (c = false -> Q tt s) -> keeps (when c m) s Q.
Proof. intros. destruct c; simpl; [auto|]. apply keeps_ret; auto. Qed.

Lemma keeps_if {A} (c : bool) (m1 m2 : M pfsd E A) s Q :
  (c = true -> keeps m1 s Q) -> (c = false -> keeps m2 s Q) -> keeps (if c then m1 else m2) s Q.
Proof. destruct c; auto. Qed.

Lemma keeps_for {X} (l : list X) (body : X -> M pfsd E unit) s :
  inv s -> (forall x, x ∈ l -> keeps (body x) s (fun _ s' => s' = s)) ->
  keeps (for_ l body) s (fun _ s' => s' = s).
Proof.
  intros Hs Hb. induction l as [|x l IH]; simpl; [by apply keeps_ret|].
  apply keeps_bind. eapply keeps_mono; [apply Hb; set_solver|].
  intros [] s' _ -> _. apply IH. set_solver.
Qed.
End Keeps.

(** One step over a construct that does not change the state. *)
Ltac keeps_step :=
  lazymatch goal with
  | |- keeps (_ ≫= _) _ _ => apply keeps_bind
  | |- keeps (call _) _ _ => apply keeps_call; [done|intros ?; try intros _]
  | |- keeps get _ _ => apply keeps_get; [done|intros _]
  | |- keeps (mret _) _ _ => apply keeps_ret; [done|]
  | |- keeps (if _ then _ else _) _ _ => apply keeps_if; intros ?
  | |- keeps (when _ _) _ _ => apply keeps_when; [done|intros ?|intros ?; try intros _]
  end; cbv beta.
Ltac keeps_go := repeat keeps_step.

(** ** Searching the mount table *)

Lemma search_spec f l k :
  Forall (fun x => f x <> None) l ->
  exists i, search f l k = Some (k + i)%nat /\ (i <= length l)%nat /\
    (forall j x, (j < i)%nat -> l !! j = Some x -> f x = Some false) /\
    (forall x, l !! i = Some x -> f x = Some true).
Proof.
  intros Hl. revert k. induction Hl as [|x l Hx _ IH]; intros k; simpl.
  - exists O. rewrite Nat.add_0_r. split_and!; [done | lia | lia |].
    intros x Hx. by rewrite lookup_nil in Hx.
  - destruct (f x) as [[|]|] eqn:Hf; [| |done].
    + exists O. rewrite Nat.add_0_r. split_and!; [done | lia | lia |]. by intros y [= <-].
    + destruct (IH (S k)) as (i & -> & Hi & Hbefore & Hat). exists (S i).
      split_and!; [f_equal; lia | lia | | done].
      intros [|j] y Hj Hy; [by injection Hy as <- | by eapply Hbefore, Hy; lia].
Qed.

Section Find.
Context (s : pfsd) (Hs : inv s).

Lemma find_spec f :
  (forall x, slot_ok x -> f x <> None) ->
  exists i, find_mount f s = Some i /\ (i <= MAX_ITEMS)%nat /\
    (forall j x, (j < i)%nat -> g_mountlist_items s !! j = Some x -> f x = Some false) /\
    (forall x, g_mountlist_items s !! i = Some x -> slot_ok x /\ f x = Some true).
Proof using Hs.
  intros Hf. destruct (search_spec f (g_mountlist_items s) 0) as (i & Hi & Hle & Hb & Ha).
  { eapply Forall_impl; [apply (inv_slots s Hs)|]. exact Hf. }
  exists i. rewrite (inv_mounts s Hs) in Hle. split_and!; [done..|].
  intros x Hx. split; [|by apply Ha]. eapply Forall_lookup_1; [apply (inv_slots s Hs) | done].
Qed.

Lemma own_prefix_defined pid name x : pid <> 0 -> slot_ok x -> own_prefix pid name x <> None.
Proof using.
  intros Hp Hx. unfold own_prefix. destruct (Z.eqb_spec (m_pid x) pid) as [Heq|]; [|done].
  destruct (Hx ltac:(by rewrite Heq)) as (a & b & c & -> & _). done.
Qed.

Lemma own_prefix_true pid name x :
  own_prefix pid name x = Some true ->
  m_pid x = pid /\ exists p, m_str_fsprefix x = Some p /\ String.prefix p name = true.
Proof using.
  unfold own_prefix. destruct (Z.eqb_spec (m_pid x) pid) as [->|]; [|done].
  destruct (m_str_fsprefix x) as [p|]; [|done]. intros [= Hp]. eauto.
Qed.

Lemma own_field_defined pid name proj x :
  pid <> 0 -> slot_ok x -> proj = m_str_fsprefix \/ proj = m_str_devprefix ->
  own_field pid name proj x <> None.
Proof using.
  intros Hp Hx Hproj. unfold own_field. destruct (Z.eqb_spec (m_pid x) pid) as [Heq|]; [|done].
  destruct (Hx ltac:(by rewrite Heq)) as (a & b & c & H1 & H2 & H3 & _).
  destruct Hproj as [-> | ->]; [by rewrite H1 | by rewrite H3].
Qed.

Lemma own_field_true pid name proj x :
  own_field pid name proj x = Some true -> m_pid x = pid /\ proj x = Some name.
Proof using.
  unfold own_field. destruct (Z.eqb_spec (m_pid x) pid) as [->|]; [|done].
  destruct (proj x) as [p|]; [|done]. intros [= Hp]. case_bool_decide; [|done]. by subst.
Qed.

Lemma other_mount_defined d x : slot_ok x -> other_mount_of d x <> None.
Proof using.
  intros Hx. unfold other_mount_of. destruct (Z.eqb_spec (m_pid x) 0) as [|Hp]; [done|].
  destruct (Hx Hp) as (a & b & c & _ & _ & -> & _). done.
Qed.
End Find.

(** ** The operations *)

Section Operations.
Context {E : Type} `{DaemonEnv E}.

(** The state is untouched. *)
Abbreviation same s := (fun _ s' => s' = s).

Lemma print_mounts_keeps l n s :
  inv s -> Forall slot_ok l -> keeps (E := E) (print_mounts l n) s (same s).
Proof.
  intros Hs Hl. revert n. induction Hl as [|x l Hx _ IH]; intros n; simpl; [by keeps_go|].
  destruct (Z.eqb_spec (m_pid x) 0) as [|Hp]; [apply IH|].
  destruct (Hx Hp) as (a & b & c & -> & -> & -> & _). cbn [negb].
  apply keeps_bind. eapply (keeps_mono _ _ (same s)); [by keeps_go|]. intros [] s' _ -> _.
  do 3 (apply keeps_bind; eapply keeps_deref; [done..|]; intros _). keeps_go. apply IH.
Qed.

Lemma output_statistics_keeps s : inv s -> keeps (E := E) output_statistics s (same s).
Proof.
  intros Hs. unfold output_statistics. do 4 keeps_step.
  apply keeps_bind. eapply keeps_mono; [apply print_mounts_keeps; [done | apply (inv_slots s Hs)]|].
  intros n s' _ -> _. keeps_go; try done.
  all: apply keeps_for; [done|]; intros x _; keeps_go.
  all: destruct (g_mountlist_items s !! of_mountlist_index x) as [y|] eqn:Hy; [|by keeps_go].
  all: pose proof (Forall_lookup_1 _ _ _ _ (inv_slots s Hs) Hy) as Hslot.
  all: destruct (Z.eqb_spec (m_pid y) 0) as [|Hp]; cbn [negb]; [by keeps_go|].
  all: destruct (Hslot Hp) as (a & b & c & -> & _ & -> & _).
  all: do 2 (apply keeps_bind; eapply keeps_deref; [done..|]; intros _); by keeps_go.
Qed.

Lemma blank_foreign_keeps pid l name s :
  inv s -> Forall slot_ok l -> keeps (E := E) (blank_foreign pid l name) s (same s).
Proof.
  intros Hs Hl. revert name. induction Hl as [|x l Hx _ IH]; intros name; simpl; [by keeps_go|].
  apply keeps_bind. eapply (keeps_mono _ _ (same s)).
  - destruct (Z.eqb_spec (m_pid x) 0) as [|Hp]; cbn [negb]; [by keeps_go|].
    destruct (Hx Hp) as (a & b & c & _ & -> & _).
    apply keeps_bind. eapply keeps_deref; [done..|]. intros _. by keeps_go.
  - intros [] s' _ -> _; keeps_go; apply IH.
Qed.

(** Room for a name once its prefix has become a container. *)
Definition name_fits (cap : nat) (name : string) : Prop :=
  (String.length name + CONTAINER_MAX < cap)%nat.

Lemma length_string_drop n name : (String.length (string_drop n name) <= String.length name)%nat.
Proof.
  revert name. induction n as [|n IH]; intros [|c name]; simpl; try lia.
  specialize (IH name). lia.
Qed.

Lemma rpc_remap_name_keeps cap name pid s :
  inv s -> pid <> 0 -> name_fits cap name -> keeps (E := E) (rpc_remap_name cap name pid) s (same s).
Proof.
  intros Hs Hp Hfit. unfold rpc_remap_name. do 2 keeps_step.
  destruct (find_spec s Hs (own_prefix pid name)) as (i & Hi & _ & _ & Hat);
    [intros; by apply own_prefix_defined|].
  apply keeps_bind. eapply keeps_deref; [done..|]. intros _.
  destruct (g_mountlist_items s !! i) as [x|] eqn:Hx.
  - destruct (Hat x eq_refl) as [Hslot (Hpid & p & Hfs & _)%own_prefix_true].
    destruct (Hslot ltac:(by rewrite Hpid)) as (a & b & c & Ha & Hb & _ & _ & Hlen).
    apply keeps_bind. eapply keeps_deref; [done..|]. intros _.
    apply keeps_bind. eapply keeps_deref; [done..|]. intros _.
    apply keeps_bind. eapply keeps_assert; [|done|intros _; by keeps_go].
    apply Nat.ltb_lt. rewrite length_append.
    match goal with |- context [string_drop ?n name] => pose proof (length_string_drop n name) end.
    unfold name_fits in Hfit. lia.
  - apply blank_foreign_keeps; [done | apply (inv_slots s Hs)].
Qed.

Lemma find_openfile_lookup fd pid l i :
  find_openfile fd pid l = Some i -> exists x, l !! i = Some x /\ of_fd x = fd /\ of_pid x = pid.
Proof.
  revert i. induction l as [|x l IH]; intros i; simpl; [done|].
  destruct (Z.eqb_spec (of_fd x) fd), (Z.eqb_spec (of_pid x) pid); simpl; intros Hi.
  1: injection Hi as <-; by exists x.
  all: destruct (find_openfile fd pid l) as [j|]; [|done]; injection Hi as <-;
    destruct (IH j eq_refl) as (y & ?); by exists y.
Qed.

Lemma rpc_remap_fd_keeps fd pid s :
  inv s -> keeps (E := E) (rpc_remap_fd fd pid) s (fun f s' => s' = s /\
    (f = -1 \/ f = fd /\ is_Some (find_openfile fd pid (g_openfile_items s)))).
Proof.
  intros Hs. unfold rpc_remap_fd. do 2 keeps_step.
  destruct (find_openfile fd pid (g_openfile_items s)) eqn:Hf; keeps_go; split; auto.
Qed.

Lemma set_openfiles_inv l s :
  inv s -> (length l <= MAX_ITEMS)%nat -> Forall (openfile_ok (g_mountlist_items s)) l ->
  inv (set_openfiles l s).
Proof. intros [] ??. by constructor. Qed.

Lemma set_shm_inv b s : inv s -> length b = SHM_SIZE -> inv (set_shm b s).
Proof. intros [] ?. by constructor. Qed.

Lemma rpc_common_open_keeps fd pid name s :
  inv s -> 0 <= fd -> pid <> 0 -> (length (g_openfile_items s) < MAX_ITEMS)%nat ->
  keeps (E := E) (rpc_common_open fd pid name) s (fun _ _ => True).
Proof.
  intros Hs Hfd Hp Hroom. unfold rpc_common_open. do 2 keeps_step.
  destruct (find_spec s Hs (own_prefix pid name)) as (i & Hi & Hle & _ & Hat);
    [intros; by apply own_prefix_defined|].
  apply keeps_bind. eapply keeps_deref; [done..|]. intros _.
  apply keeps_bind. eapply (keeps_mono _ _ (same s)); [by keeps_go|]. intros [] s' _ -> _.
  apply keeps_bind, keeps_assert; [by apply Nat.ltb_lt | done | intros _].
  apply keeps_put; [|done]. apply set_openfiles_inv; [done | rewrite length_app; simpl; lia |].
  apply Forall_app. split; [apply (inv_files s Hs)|]. constructor; [|constructor].
  split_and!; simpl; [done..|]. intros y Hy. by destruct (Hat y Hy) as [_ [? _]%own_prefix_true].
Qed.

Lemma rpc_common_close_keeps fd pid s :
  inv s -> is_Some (find_openfile fd pid (g_openfile_items s)) ->
  keeps (E := E) (rpc_common_close fd pid) s (fun _ _ => True).
Proof.
  intros Hs [i Hi]. unfold rpc_common_close. do 2 keeps_step. rewrite Hi.
  destruct (find_openfile_lookup _ _ _ _ Hi) as (x & Hx & _).
  pose proof (lookup_lt_Some _ _ _ Hx) as Hlt.
  apply keeps_bind, keeps_assert; [apply Nat.ltb_lt; lia | done | intros _].
  apply keeps_put; [|done]. apply set_openfiles_inv; [done | |].
  - rewrite length_delete by done. pose proof (inv_count s Hs). lia.
  - apply Forall_delete, (inv_files s Hs).
Qed.

Lemma rpc_command_close_keeps fd pid s :
  inv s -> keeps (E := E) (rpc_command_close fd pid) s (fun _ _ => True).
Proof.
  intros Hs. unfold rpc_command_close. apply keeps_bind.
  eapply keeps_mono; [by apply rpc_remap_fd_keeps|]. intros f s' _ [-> Hf] _.
  keeps_step. apply keeps_call; [done|]. intros e. set (rpcret := fst _). intros _.
  apply keeps_bind, keeps_when; [done | | intros _ _; by keeps_go].
  intros Hz. apply Z.eqb_eq in Hz. destruct Hf as [-> | [-> Hfound]].
  { by destruct (close_invalid e). }
  eapply keeps_mono; [by apply rpc_common_close_keeps|]. intros [] s' Hs' _ _. by keeps_go.
Qed.

Lemma open_like_keeps (name : string) pid (m : string -> M pfsd E Z) s :
  inv s -> pid <> 0 -> name_fits NAME_BUF name ->
  (forall n, keeps (m n) s (fun _ s' => s' = s)) ->
  keeps (E := E) (rpcret ← (if table_full s then mret (-24)
            else n ← rpc_remap_name NAME_BUF name pid; m n);
         call (Reply pid rpcret);;
         when (0 <=? rpcret) (rpc_common_open rpcret pid name)) s (fun _ _ => True).
Proof.
  intros Hs Hp Hfit Hm. apply keeps_bind.
  eapply (keeps_mono _ _ (fun r s' => s' = s /\ (0 <= r -> table_full s = false))).
  - apply keeps_if; intros Hfull.
    + keeps_go. split; [done|lia].
    + apply keeps_bind. eapply keeps_mono; [by apply rpc_remap_name_keeps|].
      intros n s' _ -> _. eapply keeps_mono; [apply Hm|]. auto.
  - intros r s' _ [-> Hr] _. keeps_go; [|done]. boolP. apply rpc_common_open_keeps; try done.
    specialize (Hr ltac:(done)). unfold table_full in Hr. apply negb_false_iff in Hr.
    by apply Nat.ltb_lt.
Qed.

Lemma rpc_command_open_keeps name flags mode pid s :
  inv s -> pid <> 0 -> name_fits NAME_BUF name ->
  keeps (E := E) (rpc_command_open name flags mode pid) s (fun _ _ => True).
Proof.
  intros. unfold rpc_command_open. do 2 keeps_step. apply open_like_keeps; try done.
  intros n. by keeps_go.
Qed.

Lemma rpc_command_dopen_keeps name pid s :
  inv s -> pid <> 0 -> name_fits NAME_BUF name ->
  keeps (E := E) (rpc_command_dopen name pid) s (fun _ _ => True).
Proof.
  intros. unfold rpc_command_dopen. do 2 keeps_step. apply open_like_keeps; try done.
  intros n. by keeps_go.
Qed.

(** *** Mounting *)

Lemma pretty_short i : (i < MAX_ITEMS)%nat ->
  (String.length ("pfs" +:+ pretty (N.of_nat i) +:+ ":") <= CONTAINER_MAX)%nat.
Proof.
  intros Hi. unfold MAX_ITEMS, CONTAINER_MAX in *.
  do 32 (destruct i as [|i]; [vm_compute; lia|]). lia.
Qed.

Lemma shm_arg_keeps u s :
  inv s -> keeps (E := E) (shm_arg u) s (fun a s' =>
    s' = s /\ a = if u then ArgBytes (ShmPtr s) else ArgNull).
Proof. intros Hs. unfold shm_arg. by keeps_go. Qed.

Lemma try_containers_keeps is_ devname flag arg arglen fsname r s :
  inv s -> (forall i, i ∈ is_ -> (i < MAX_ITEMS)%nat) ->
  (String.length fsname <= CONTAINER_MAX)%nat ->
  keeps (E := E) (try_containers is_ devname flag arg arglen fsname r) s
    (fun a s' => s' = s /\ (String.length a.2 <= CONTAINER_MAX)%nat).
Proof.
  intros Hs. revert fsname r. induction is_ as [|i is_ IH]; intros fsname r Hin Hlen; simpl;
    [by keeps_go|].
  keeps_step; [|by keeps_go]. do 2 keeps_step. apply IH; [set_solver | apply pretty_short; set_solver].
Qed.

(** A slot that is written: the rest of the invariant does not see it when it was
    free or no file is open in it. *)
Lemma set_slot_inv i y s :
  inv s -> slot_ok y ->
  (forall x, x ∈ g_openfile_items s -> of_mountlist_index x <> i) ->
  inv (set_mounts (<[i := y]> (g_mountlist_items s)) s).
Proof.
  intros [] Hy Hfiles. constructor; simpl; try done.
  - by rewrite length_insert.
  - by apply Forall_insert.
  - apply Forall_forall. intros x Hx. rewrite Forall_forall in inv_files0.
    destruct (inv_files0 x Hx) as (? & ? & ? & Hm). split_and!; try done.
    intros z Hz. rewrite list_lookup_insert_ne in Hz by (specialize (Hfiles x Hx); congruence).
    by apply Hm.
Qed.

Lemma free_slot_unused s i x :
  inv s -> g_mountlist_items s !! i = Some x -> m_pid x = 0 ->
  forall y, y ∈ g_openfile_items s -> of_mountlist_index y <> i.
Proof.
  intros Hs Hx Hp y Hy Heq. rewrite <- Heq in Hx. pose proof (inv_files s Hs) as Hf. rewrite Forall_forall in Hf.
  destruct (Hf y Hy) as (_ & Hpid & _ & Hm). specialize (Hm x Hx). congruence.
Qed.

Lemma rpc_command_mount_keeps fsname devname flag u arglen pid s :
  inv s -> pid <> 0 -> (String.length fsname <= CONTAINER_MAX)%nat ->
  keeps (E := E) (rpc_command_mount fsname devname flag u arglen pid) s (fun _ _ => True).
Proof.
  intros Hs Hp Hlen. unfold rpc_command_mount. do 2 keeps_step.
  destruct (find_spec s Hs (fun x => Some (m_pid x =? 0))) as (free & Hfree & Hle & _ & Hat);
    [done|].
  apply keeps_bind. eapply keeps_deref; [done..|]. intros _. apply keeps_bind.
  eapply (keeps_mono _ _ (fun a s' => s' = s /\ (String.length a.2 <= CONTAINER_MAX)%nat /\
            (a.1 = 0 -> (free < MAX_ITEMS)%nat))).
  - keeps_step; boolP; [|by keeps_go].
    assert (Hroom : (free < MAX_ITEMS)%nat) by (by apply Nat.ltb_lt).
    destruct (find_spec s Hs (own_field pid fsname m_str_fsprefix)) as (i & Hi & _ & _ & _);
      [intros; apply own_field_defined; auto|].
    apply keeps_bind. eapply keeps_deref; [done..|]. intros _. keeps_step; [|by keeps_go].
    apply keeps_bind. eapply keeps_mono; [by apply shm_arg_keeps|]. intros arg s' _ [-> _] _.
    keeps_go; [|by keeps_go].
    destruct (find_spec s Hs (other_mount_of (before_comma devname))) as (j & Hj & _ & _ & Hatj);
      [intros; by apply other_mount_defined|].
    eapply keeps_deref; [done..|]. intros _.
    destruct (g_mountlist_items s !! j) as [x|] eqn:Hx.
    + destruct (Hatj x eq_refl) as [Hslot Hother]. unfold other_mount_of in Hother.
      destruct (Z.eqb_spec (m_pid x) 0) as [|Hpx]; [done|].
      destruct (Hslot Hpx) as (a & b & c & _ & -> & _ & _ & Hb).
      apply keeps_bind. eapply keeps_deref; [done..|]. intros _. by keeps_go.
    + eapply keeps_mono; [apply try_containers_keeps; try done|].
      * intros k Hk. by apply elem_of_seq in Hk as [_ ?].
      * intros [r n] s' _ [-> Hn]. done.
  - intros [rpcret fsname_buf] s' _ (-> & Hbuf & Hroom) _. simpl in *.
    apply keeps_bind, keeps_when; [done | | intros _ _; by keeps_go].
    intros Hz. apply Z.eqb_eq in Hz. specialize (Hroom Hz).
    destruct (lookup_lt_is_Some_2 (g_mountlist_items s) free) as [x Hx];
      [by rewrite (inv_mounts s Hs)|].
    destruct (Hat x Hx) as [_ Hfr]. injection Hfr as Hfr%Z.eqb_eq.
    apply keeps_put; [|intros; by keeps_go]. apply set_slot_inv; [done | |].
    + intros _. by eexists _, _, _.
    + by eapply free_slot_unused.
Qed.

(** *** Unmounting *)

Lemma umount_search_stops i x l c :
  l !! i = Some x -> m_pid x <> 0 -> m_str_containerpath x = Some c ->
  umount_search i (Some c) l 0 = Some O.
Proof.
  intros Hx Hp Hc. destruct l as [|y l]; [done|]. destruct i as [|i]; [|done].
  injection Hx as ->. simpl. rewrite (proj2 (Z.eqb_neq _ _) Hp), Hc; simpl.
  by rewrite bool_decide_true.
Qed.

Lemma has_openfile_false i l :
  has_openfile i l = false -> forall x, x ∈ l -> of_mountlist_index x <> i.
Proof.
  unfold has_openfile. intros Hf x Hx <-. apply not_true_iff_false in Hf. apply Hf.
  apply existsb_exists. exists x. split; [by apply list_elem_of_In | apply Nat.eqb_refl].
Qed.

Lemma rpc_command_umount_keeps fsname pid s :
  inv s -> pid <> 0 -> keeps (E := E) (rpc_command_umount fsname pid) s (fun _ _ => True).
Proof.
  intros Hs Hp. unfold rpc_command_umount. do 2 keeps_step.
  destruct (find_spec s Hs (own_field pid fsname m_str_fsprefix)) as (i & Hi & _ & _ & Hat);
    [intros; apply own_field_defined; auto|].
  apply keeps_bind. eapply keeps_deref; [done..|]. intros _.
  destruct (g_mountlist_items s !! i) as [x|] eqn:Hx; [|by keeps_go].
  destruct (Hat x eq_refl) as [Hslot [Hpid Hfs]%own_field_true].
  assert (Hpx : m_pid x <> 0) by congruence.
  destruct (Hslot Hpx) as (a & c & d & _ & Hc & Hd & _).
  keeps_step.
  - apply keeps_bind. eapply keeps_deref; [done..|]. intros _. do 2 keeps_step.
    apply keeps_bind. eapply keeps_mono; [by apply output_statistics_keeps|].
    intros [] s' _ -> _. by keeps_go.
  - rewrite Hc, (umount_search_stops i x _ c) by done.
    apply keeps_bind. eapply keeps_deref; [done..|]. intros _.
    apply keeps_bind, (keeps_mono _ _ (same s)).
    + keeps_step; [|done]. apply keeps_bind. eapply keeps_deref; [done..|]. intros _. by keeps_go.
    + intros [] s' _ -> _. change (MAX_ITEMS <=? 0)%nat with false. cbv iota.
      do 2 keeps_step. intros _. do 3 keeps_step. unfold umount_cleanup. cbn [Z.eqb when].
      assert (Hinv : inv (set_mounts (<[i := free_mount]> (g_mountlist_items s)) s)).
      { apply set_slot_inv; [done | by intros [] | by apply has_openfile_false]. }
      apply keeps_modify; [done|]. intros _.
      apply keeps_when; [done | intros _ | done].
      eapply keeps_mono; [by apply output_statistics_keeps|]. done.
Qed.

(** *** The shared segment *)

Lemma shm_store_keeps u data s :
  inv s -> (length data <= SHM_SIZE)%nat -> (u = false -> length data = 0%nat) ->
  keeps (E := E) (shm_store u data) s (fun _ _ => True).
Proof.
  intros Hs Hlen Hu. unfold shm_store. do 2 keeps_step. destruct u.
  - apply keeps_bind, keeps_assert; [rewrite (inv_shm s Hs); by apply Nat.leb_le | done | intros _].
    apply keeps_put; [|done]. apply set_shm_inv; [done|].
    rewrite length_overlay; rewrite ?(inv_shm s Hs); done.
  - apply keeps_assert; [by rewrite Hu | done..].
Qed.

Lemma shm_load_keeps u n s :
  inv s -> (n <= SHM_SIZE)%nat -> (u = false -> n = 0%nat) ->
  keeps (E := E) (shm_load u n) s (same s).
Proof.
  intros Hs Hlen Hu. unfold shm_load. do 2 keeps_step. destruct u.
  - apply keeps_bind, keeps_assert; [rewrite (inv_shm s Hs); by apply Nat.leb_le | done | intros _].
    by keeps_go.
  - apply keeps_bind, keeps_assert; [by rewrite Hu | done | intros _]. by keeps_go.
Qed.

Lemma rpc_command_getmountpoint_keeps path pid s :
  inv s -> pid <> 0 -> keeps (E := E) (rpc_command_getmountpoint path pid) s (fun _ _ => True).
Proof.
  intros Hs Hp. unfold rpc_command_getmountpoint. do 2 keeps_step.
  destruct (find_spec s Hs (own_field pid (before_comma path) m_str_devprefix))
    as (i & Hi & _ & _ & Hat); [intros; apply own_field_defined; auto|].
  apply keeps_bind. eapply keeps_deref; [done..|]. intros _.
  destruct (g_mountlist_items s !! i) as [x|] eqn:Hx.
  - destruct (Hat x eq_refl) as [Hslot [Hpid _]%own_field_true].
    destruct (Hslot ltac:(congruence)) as (a & c & d & Ha & _ & _ & Hlen & _).
    apply keeps_bind. eapply keeps_deref; [done..|]. intros _. apply keeps_bind.
    eapply keeps_mono; [apply shm_store_keeps; [done | | done]|].
    + apply SHM_SIZE_large. rewrite length_app, length_bytes_of_string; simpl.
      unfold CONTAINER_MAX in *. lia.
    + intros [] s' Hs' _ _. by keeps_go.
  - apply keeps_bind. eapply keeps_mono; [apply shm_store_keeps; [done | | done]|].
    + apply SHM_SIZE_large. simpl. lia.
    + intros [] s' Hs' _ _. by keeps_go.
Qed.

(** *** Clients *)

Lemma keeps_loop {X R} fuel (body : X -> M pfsd E (X + R)) x s :
  inv s -> (forall x s, inv s -> keeps (body x) s (fun _ _ => True)) ->
  keeps (loop fuel body x) s (fun _ _ => True).
Proof.
  intros Hs Hb. revert x s Hs. induction fuel as [|fuel IH]; intros x s Hs; simpl.
  { intros e. by apply wp_stop. }
  apply keeps_bind. eapply keeps_mono; [by apply Hb|].
  intros [x'|y] s' Hs' _ _; [by apply IH | by keeps_go].
Qed.

Lemma cleanup_files_keeps fuel fd s :
  inv s -> keeps (E := E) (cleanup_files fuel fd) s (fun _ _ => True).
Proof.
  intros Hs. unfold cleanup_files. apply keeps_loop; [done|]. clear s Hs.
  intros [i outputflag] s Hs. do 2 keeps_step.
  destruct (g_openfile_items s !! i) as [x|]; [|by keeps_go].
  keeps_step; [|by keeps_go]. apply keeps_bind.
  eapply (keeps_mono _ _ (same s)); [by keeps_go|]. intros [] s' _ -> _.
  do 3 keeps_step. eapply keeps_mono; [by apply rpc_command_close_keeps|].
  intros [] s' Hs' _ _. by keeps_go.
Qed.

Lemma cleanup_mounts_keeps n i fd flag s :
  inv s -> fd <> 0 -> (i + n <= MAX_ITEMS)%nat ->
  keeps (E := E) (cleanup_mounts n i fd flag) s (fun _ _ => True).
Proof.
  intros Hs Hfd. revert i flag s Hs. induction n as [|n IH]; intros i flag s Hs Hn; simpl;
    [by keeps_go|].
  do 2 keeps_step.
  destruct (lookup_lt_is_Some_2 (g_mountlist_items s) i) as [x Hx];
    [rewrite (inv_mounts s Hs); lia|].
  apply keeps_bind. eapply keeps_deref; [done..|]. intros _. keeps_step; [|apply IH; done || lia].
  boolP. pose proof (Forall_lookup_1 _ _ _ _ (inv_slots s Hs) Hx) as Hslot.
  destruct (Hslot ltac:(congruence)) as (a & c & d & -> & _).
  apply keeps_bind. eapply keeps_deref; [done..|]. intros _. apply keeps_bind.
  eapply (keeps_mono _ _ (same s)); [by keeps_go|]. intros [] s' _ -> _. do 3 keeps_step.
  eapply keeps_mono; [apply rpc_command_umount_keeps; [done|congruence]|].
  intros [] s' Hs' _ _. apply IH; [done|lia].
Qed.

Lemma set_clients_inv l s :
  inv s -> Forall (fun c => c <> 0) l -> (length l < MAX_ITEMS)%nat -> inv (set_clients l s).
Proof. intros [] ??. by constructor. Qed.

Lemma cleanup_client_keeps fuel i s :
  inv s -> (i < length (g_clients s))%nat ->
  keeps (E := E) (cleanup_client fuel i) s (fun _ _ => True).
Proof.
  intros Hs Hi. unfold cleanup_client. do 2 keeps_step.
  destruct (lookup_lt_is_Some_2 _ _ Hi) as [fd Hfd].
  assert (Hnz : fd <> 0) by exact (Forall_lookup_1 _ _ _ _ (inv_clients s Hs) Hfd).
  apply keeps_bind. eapply keeps_deref; [done..|]. intros _. apply keeps_bind.
  eapply keeps_mono; [by apply cleanup_files_keeps|]. intros flag s1 Hs1 _ _. apply keeps_bind.
  eapply keeps_mono; [by apply cleanup_mounts_keeps|]. intros flag' s2 Hs2 _ _. apply keeps_bind.
  eapply (keeps_mono _ _ (fun _ _ => True)).
  { keeps_step; [|done]. eapply keeps_mono; [by apply output_statistics_keeps|]. done. }
  intros [] s3 Hs3 _ _. do 2 keeps_step. apply keeps_modify; [|done].
  apply set_clients_inv; [done | apply Forall_delete, (inv_clients s3 Hs3) |].
  pose proof (inv_nclients s3 Hs3).
  pose proof (length_delete_le (g_clients s3) i). lia.
Qed.

(** One client short of the array: the connection is accepted or refused safely. *)
Lemma add_new_client_keeps s :
  inv s -> (length (g_clients s) < MAX_ITEMS - 1)%nat ->
  keeps (E := E) add_new_client s (fun _ _ => True).
Proof.
  intros Hs Hroom. unfold add_new_client, get_pid_from_socket_fd. do 3 keeps_step.
  apply keeps_call; [done|]. intros e. pose proof (accept_not_stdin (SocketFd s) e) as Hfd.
  set (fd := fst _) in *. intros _. keeps_step; [by keeps_go|].
  keeps_step; [by keeps_go|]. apply keeps_bind.
  eapply (keeps_mono _ _ (same s)); [by keeps_go|]. intros pid s' _ -> _. apply keeps_bind.
  eapply (keeps_mono _ _ (same s)); [by keeps_go|]. intros [bad eff] s' _ -> _.
  keeps_step; [by keeps_go|]. keeps_step; [by keeps_go|].
  assert (Hlen : (length (g_clients s ++ [fd]) < MAX_ITEMS)%nat)
    by (rewrite length_app; simpl; lia).
  apply keeps_bind, keeps_assert; [by apply Nat.ltb_lt | done | intros _].
  apply keeps_put; [|done]. apply set_clients_inv; [done | | done].
  apply Forall_app. split; [apply (inv_clients s Hs) | by constructor].
Qed.

(** *** Requests *)

(** A request of a size the daemon has room for, with no null buffer where one is
    needed. *)
Definition buffer_ok (useshm : bool) (n : Z) : Prop :=
  (Z.to_nat n <= SHM_SIZE)%nat /\ (useshm = false -> Z.to_nat n = 0%nat).

Definition req_ok (r : request) : Prop :=
  match r with
  | PFSD_REQ_OPEN name _ _ | PFSD_REQ_DOPEN name => name_fits NAME_BUF name
  | PFSD_REQ_READ _ u size | PFSD_REQ_WRITE _ u size => buffer_ok u size
  | PFSD_REQ_DREAD _ u => u = true
  | PFSD_REQ_CHSTAT name u _ | PFSD_REQ_GETSTAT name u => name_fits PACKET_NAME name /\ u = true
  | PFSD_REQ_MKDIR name _ | PFSD_REQ_RMDIR name | PFSD_REQ_CHDIR name | PFSD_REQ_REMOVE name
  | PFSD_REQ_SYNC name _ => name_fits PACKET_NAME name
  | PFSD_REQ_RENAME old new | PFSD_REQ_SYMLINK old new =>
      name_fits PACKET_NAME old /\ name_fits PACKET_NAME new
  | PFSD_REQ_IOCTL2 _ _ _ _ u buflen => buffer_ok u buflen
  | PFSD_REQ_READLINK name u buflen | PFSD_REQ_DEVCTL name _ _ _ u buflen =>
      name_fits PACKET_NAME name /\ buffer_ok u buflen
  | PFSD_REQ_MOUNT fsname _ _ _ _ => (String.length fsname <= CONTAINER_MAX)%nat
  | PFSD_REQ_IOCTL2_HIOCTRANSFER _ _ _ size _ u => buffer_ok u (512 * size)
  | _ => True
  end.

Lemma get_readahead_keeps hdd s : inv s -> keeps (E := E) (scepfsGetReadAhead hdd) s (same s).
Proof. intros Hs. unfold scepfsGetReadAhead. do 2 keeps_step. destruct (fst _). by keeps_go. Qed.

Lemma set_readahead_keeps hdd n s :
  inv s -> keeps (E := E) (scepfsSetReadAhead hdd n) s (same s).
Proof.
  intros Hs. unfold scepfsSetReadAhead. apply keeps_bind.
  eapply keeps_mono; [by apply get_readahead_keeps|]. intros _ s' _ -> _.
  do 2 keeps_step. destruct (fst _) as [r d]. keeps_step; [by keeps_go|].
  do 2 keeps_step. destruct (fst _). by keeps_go.
Qed.

(** The steps that handlers share; [side] proves the bounds of a store. *)
Ltac handler_step side :=
  lazymatch goal with
  | |- keeps (rpc_remap_name _ _ _ ≫= _) _ _ =>
      apply keeps_bind; eapply keeps_mono; [apply rpc_remap_name_keeps; side|];
      intros ? ? _ -> _
  | |- keeps (rpc_remap_fd _ _ ≫= _) _ _ =>
      apply keeps_bind; eapply keeps_mono; [by apply rpc_remap_fd_keeps|];
      intros ? ? _ [-> _] _
  | |- keeps (shm_arg _ ≫= _) _ _ =>
      apply keeps_bind; eapply keeps_mono; [by apply shm_arg_keeps|]; intros ? ? _ [-> ->] _
  | |- keeps (shm_load _ _ ≫= _) _ _ =>
      apply keeps_bind; eapply keeps_mono; [apply shm_load_keeps; side|]; intros ? ? _ -> _
  | |- keeps (shm_store _ _ ≫= _) _ _ =>
      apply keeps_bind; eapply keeps_mono; [apply shm_store_keeps; side|]; intros ? ? ? _ _
  | |- keeps (match fst (handle ?c ?e) with _ => _ end) _ _ =>
      let r := fresh "ret" in let d := fresh "data" in let Hr := fresh "Hans" in
      destruct (fst (handle c e)) as [r d] eqn:Hr
  | |- keeps (let '(_, _) := fst (handle ?c ?e) in _) _ _ =>
      let r := fresh "ret" in let d := fresh "data" in let Hr := fresh "Hans" in
      destruct (fst (handle c e)) as [r d] eqn:Hr
  | |- keeps (_ ≫= _) _ _ => apply keeps_bind
  | |- keeps (call _) _ _ => apply keeps_call; [done|intros ?; try intros _]
  | |- keeps get _ _ => apply keeps_get; [done|intros _]
  | |- True => exact I
  end; cbv beta.

(** Data a call answers, stored and replied to. *)
Lemma store_reply u data fd ret s :
  inv s -> (length data <= SHM_SIZE)%nat -> (u = false -> length data = 0%nat) ->
  keeps (E := E) (shm_store u data;; call (Reply fd ret)) s (fun _ _ => True).
Proof.
  intros. apply keeps_bind. eapply keeps_mono; [by apply shm_store_keeps|].
  intros [] s' Hs' _ _. by repeat handler_step idtac.
Qed.

Lemma buffer_reply u n data fd ret s :
  inv s -> buffer_ok u n -> (length data <= Z.to_nat n)%nat ->
  keeps (E := E) (shm_store u data;; call (Reply fd ret)) s (fun _ _ => True).
Proof.
  intros Hs [Hn Hu] Hl. apply store_reply; [done | lia |]. intros Hf. specialize (Hu Hf). lia.
Qed.

(** Brings the law of the call that answered [Ha] to bear. *)
Ltac answer_law law :=
  match goal with
  | Ha : fst (handle _ ?e) = (_, _) |- _ =>
      pose proof law as Hlaw; specialize (Hlaw e); rewrite Ha in Hlaw; cbn [fst snd] in Hlaw
  end.

Lemma event_handler_keeps hdd garbage fd req s :
  inv s -> fd <> 0 -> req_ok req ->
  keeps (E := E) (event_handler_func hdd garbage fd req) s (fun _ _ => True).
Proof.
  intros Hs Hfd Hok. unfold event_handler_func.
  destruct req; cbn [req_ok] in Hok; try destruct_and? Hok; subst.
  all: try by first [ apply rpc_command_open_keeps | apply rpc_command_close_keeps
                    | apply rpc_command_dopen_keeps | apply rpc_command_mount_keeps
                    | apply rpc_command_umount_keeps ].
  all: repeat handler_step ltac:(done).
  - answer_law (read_len a m_size). by eapply buffer_reply.
  - destruct Hok. apply keeps_bind. eapply keeps_mono; [by apply shm_load_keeps|].
    intros data s' _ -> _. by repeat handler_step idtac.
  - answer_law (dread_ok a). apply store_reply; [done | | done]. apply SHM_SIZE_large.
    unfold dirent_bytes. rewrite !length_app, length_stat_bytes, length_strncpy_bytes by done.
    simpl. lia.
  - apply keeps_bind. eapply keeps_mono; [apply shm_load_keeps; [done | | done]|].
    { apply SHM_SIZE_large. lia. }
    intros bs s' _ -> _. apply keeps_bind, keeps_assert; [done..|]. intros _.
    by repeat handler_step idtac.
  - answer_law (getstat_ok a). apply store_reply; [done | | done]. apply SHM_SIZE_large.
    rewrite length_stat_bytes by done. lia.
  - match goal with Ha : fst (handle (IomanX_ioctl2 ?f ?c ?arg ?al ?bl) _) = _ |- _ =>
      answer_law (ioctl2_len f c arg al bl) end.
    eapply buffer_reply; [done..|].
    by destruct m_arg_useshmptr.
  - answer_law (readlink_len a m_buflen). by eapply buffer_reply.
  - match goal with Ha : fst (handle (IomanX_devctl ?f ?c ?arg ?al ?bl) _) = _ |- _ =>
      answer_law (devctl_len f c arg al bl) end. by eapply buffer_reply.
  - eapply keeps_mono; [by apply set_readahead_keeps|].
    intros r s' _ -> _. by repeat handler_step idtac.
  - eapply keeps_mono; [by apply get_readahead_keeps|].
    intros r s' _ -> _. by repeat handler_step idtac.
  - eapply keeps_mono; [by apply rpc_command_getmountpoint_keeps|].
    intros [] s' Hs' _ _. by repeat handler_step idtac.
  - match goal with Ha : fst (handle (IomanX_ioctl2 ?f ?c ?arg ?al ?bl) _) = _ |- _ =>
      answer_law (ioctl2_len f c arg al bl) end. by eapply buffer_reply.
Qed.

(** *** The main loop *)

Definition events_ok (evs : list client_events) : Prop :=
  Forall (fun ev => req_ok (ev_request ev)) evs.

Lemma poll_clients_keeps hdd fuel evs i s :
  inv s -> events_ok evs -> keeps (E := E) (poll_clients hdd fuel evs i) s (fun _ _ => True).
Proof.
  intros Hs Hevs. revert i s Hs. induction Hevs as [|ev evs Hev _ IH]; intros i s Hs; simpl;
    [by keeps_go|].
  do 2 keeps_step. destruct (g_clients s !! i) as [fd|] eqn:Hfd; [|by keeps_go].
  pose proof (Forall_lookup_1 _ _ _ _ (inv_clients s Hs) Hfd) as Hnz.
  keeps_step.
  { apply keeps_bind. eapply keeps_mono; [apply cleanup_client_keeps; [done | by eapply lookup_lt_Some]|].
    intros [] s' Hs' _ _. by apply keeps_ret. }
  apply keeps_bind. eapply (keeps_mono _ _ (fun _ _ => True)).
  - keeps_step; [|done]. keeps_step; [by keeps_go|]. by apply event_handler_keeps.
  - intros [] s' Hs' _ _. by apply IH.
Qed.

(** A turn, from any state with the invariant and room for one more client. *)
Lemma poll_turn_keeps hdd fuel new_client evs s :
  inv s -> events_ok evs ->
  (new_client = true -> (length (g_clients s) < MAX_ITEMS - 1)%nat) ->
  keeps (E := E) (poll_turn hdd fuel new_client evs) s (fun _ _ => True).
Proof.
  intros Hs Hevs Hnew. unfold poll_turn. destruct new_client.
  - apply keeps_bind. eapply keeps_mono; [by apply add_new_client_keeps; [|apply Hnew]|].
    intros [] s' Hs' _ _. by apply keeps_ret.
  - by apply poll_clients_keeps.
Qed.

(** With no room left a connection is refused or undefined. *)
Lemma add_new_client_full s e :
  inv s -> ~ (length (g_clients s) < MAX_ITEMS - 1)%nat ->
  wp (E := E) add_new_client (fun r s' _ _ => r <> Undef -> s' = s) s e.
Proof.
  intros Hs Hfull. unfold add_new_client, get_pid_from_socket_fd.
  repeat (wp_go; unfold bind_post; simpl); try done.
  match goal with Hc : (_ <? _)%nat = true |- _ => apply Nat.ltb_lt in Hc;
    rewrite length_app in Hc; simpl in Hc end. lia.
Qed.
End Operations.

(** States the daemon comes to, by whole turns that end normally, on requests it has
    room for. *)
Inductive reachable {E} `{Handler E} (hdd_fd : Z) : pfsd -> Prop :=
  | reach_init socket_fd debug : reachable hdd_fd (initial_state socket_fd debug)
  | reach_turn fuel new_client evs s e flag :
      reachable hdd_fd s -> events_ok evs ->
      o_res (poll_turn hdd_fd fuel new_client evs s e) = Ret flag ->
      reachable hdd_fd (o_st (poll_turn hdd_fd fuel new_client evs s e)).

Lemma initial_inv socket_fd debug : inv (initial_state socket_fd debug).
Proof.
  unfold initial_state.
  constructor; cbn [g_openfile_items g_mountlist_items ShmPtr g_clients].
  - apply length_replicate.
  - apply Forall_replicate. by intros [].
  - apply Nat.le_0_l.
  - constructor.
  - apply length_replicate.
  - constructor.
  - apply Nat.lt_0_succ.
Qed.

Lemma reachable_inv {E} `{DaemonEnv E} hdd s : reachable (E := E) hdd s -> inv s.
Proof.
  induction 1 as [socket_fd debug | fuel new_client evs s e flag _ IH Hevs Hret]; [apply initial_inv|].
  destruct (decide (new_client = true /\ ~ (length (g_clients s) < MAX_ITEMS - 1)%nat))
    as [[-> Hfull]|Hroom].
  - pose proof (add_new_client_full s e IH Hfull) as Hf. unfold wp in Hf.
    unfold poll_turn, mbind, M_bind, bind_outcome in *.
    destruct (add_new_client s e) as [[] s' e' t]; cbn in *; try discriminate. by rewrite Hf.
  - destruct (poll_turn_keeps hdd fuel new_client evs s IH Hevs) with (e := e) as (_ & Hi & _);
      [|exact Hi].
    intros ->. destruct (decide (length (g_clients s) < MAX_ITEMS - 1)%nat); [done|].
    by destruct Hroom.
Qed.
