(* ===== verification/PfsdProps.v ===== *)
(** * The daemon's behaviour

    What requests do to the tables and to the file layer: names and descriptors of
    other clients are out of reach, every request has its replies, resources of a
    client go with it, and the ways in which the code falls short of that. *)

From S2P Require Import Prelude IoWorld Trace Shm Pfsd PfsdInv.

(** ** Names *)

Definition in_container (name : string) (x : mountlist_item_t) : bool :=
  negb (m_pid x =? 0) &&
  match m_str_containerpath x with Some c => String.prefix c name | None => false end.

Definition owns_prefix (pid : Z) (name : string) (x : mountlist_item_t) : bool :=
  (m_pid x =? pid) &&
  match m_str_fsprefix x with Some p => String.prefix p name | None => false end.

(** What a name becomes: in the client's first matching mount, its prefix is replaced
    by the container; otherwise it stays, unless it lies in someone's container. *)
Definition remapped (s : pfsd) (pid : Z) (name : string) : string :=
  match List.find (owns_prefix pid name) (g_mountlist_items s) with
  | Some x => default "" (m_str_containerpath x) +:+
              string_drop (String.length (default "" (m_str_fsprefix x))) name
  | None => if existsb (in_container name) (g_mountlist_items s) then "" else name
  end.

Lemma own_prefix_owns pid name x :
  pid <> 0 -> slot_ok x -> own_prefix pid name x = Some (owns_prefix pid name x).
Proof.
  intros Hp Hx. unfold own_prefix, owns_prefix.
  destruct (Z.eqb_spec (m_pid x) pid) as [Heq|]; [|done].
  destruct (Hx ltac:(congruence)) as (a & b & c & -> & _). done.
Qed.

Lemma search_find (f : mountlist_item_t -> option bool) p l k :
  Forall (fun x => f x = Some (p x)) l ->
  match List.find p l with
  | Some x => exists i, search f l k = Some (k + i)%nat /\ l !! i = Some x
  | None => search f l k = Some (k + length l)%nat
  end.
Proof.
  intros Hl. revert k. induction Hl as [|x l Hx _ IH]; intros k; simpl; [by rewrite Nat.add_0_r|].
  rewrite Hx. destruct (p x); [exists O; by rewrite Nat.add_0_r|].
  specialize (IH (S k)). destruct (List.find p l) as [y|].
  - destruct IH as (i & -> & Hi). exists (S i). split; [f_equal; lia | done].
  - rewrite IH. f_equal. lia.
Qed.

Section Names.
Context {E : Type} `{Handler E}.

Lemma blank_foreign_spec pid l name s e :
  Forall slot_ok l ->
  wp (E := E) (blank_foreign pid l name)
    (fun r s' _ _ => s' = s /\ r = Ret (if existsb (in_container name) l then "" else name)) s e.
Proof.
  intros Hl. revert name e. induction Hl as [|x l Hx _ IH]; intros name e; simpl;
    [by apply wp_ret|].
  apply wp_bind. unfold in_container at 1.
  destruct (Z.eqb_spec (m_pid x) 0) as [|Hp]; cbn [negb andb].
  - apply wp_ret. unfold bind_post. eapply wp_mono; [apply IH|]. done.
  - destruct (Hx Hp) as (a & c & d & _ & -> & _).
    apply wp_bind, wp_deref. unfold bind_post. apply wp_ret.
    destruct (String.prefix c name) eqn:Hc; cbn [orb].
    + apply wp_bind, wp_call. intros r e' _. unfold bind_post.
      eapply wp_mono; [apply IH|]. intros r' s' e'' t [-> ->]. split; [done|].
      by destruct (existsb _ l).
    + eapply wp_mono; [apply IH|]. done.
Qed.

Lemma rpc_remap_name_cases cap name pid s e :
  inv s -> pid <> 0 ->
  wp (E := E) (rpc_remap_name cap name pid)
    (fun r s' _ _ => s' = s /\
       (r = Ret (remapped s pid name) \/ r = Undef /\ ~ name_fits cap name)) s e.
Proof.
  intros Hs Hp. unfold rpc_remap_name, remapped. apply wp_bind, wp_get. unfold bind_post.
  pose proof (inv_slots s Hs) as Hslots.
  assert (Hf : Forall (fun x => own_prefix pid name x = Some (owns_prefix pid name x))
                 (g_mountlist_items s)).
  { eapply Forall_impl; [exact Hslots|]. intros x Hx. by apply own_prefix_owns. }
  pose proof (search_find _ _ _ 0 Hf) as Hsearch. fold (find_mount (own_prefix pid name) s) in Hsearch.
  destruct (List.find (owns_prefix pid name) (g_mountlist_items s)) as [x|] eqn:Hfind.
  - destruct Hsearch as (i & -> & Hi). apply wp_bind, wp_deref. unfold bind_post. simpl. rewrite Hi.
    apply List.find_some in Hfind as [_ Hown]. unfold owns_prefix in Hown. boolP.
    pose proof (Forall_lookup_1 _ _ _ _ Hslots Hi) as Hx.
    destruct (Hx ltac:(congruence)) as (a & c & d & -> & -> & _ & _ & Hlen).
    do 2 (apply wp_bind, wp_deref; unfold bind_post). simpl.
    pose proof (length_string_drop (String.length a) name).
    apply wp_bind, wp_assert; intros Hc; unfold bind_post; [by apply wp_ret; auto|].
    split; [done|right]. split; [done|]. unfold name_fits. intros Hfit.
    apply Nat.ltb_ge in Hc. rewrite length_append in Hc. lia.
  - rewrite Hsearch. apply wp_bind, wp_deref. unfold bind_post. simpl.
    rewrite lookup_ge_None_2 by lia. eapply wp_mono; [by apply blank_foreign_spec|].
    intros r s' e' t [-> ->]. auto.
Qed.

Lemma rpc_remap_name_spec cap name pid s e :
  inv s -> pid <> 0 -> name_fits cap name ->
  wp (E := E) (rpc_remap_name cap name pid)
    (fun r s' _ _ => s' = s /\ r = Ret (remapped s pid name)) s e.
Proof.
  intros Hs Hp Hfit. eapply wp_mono; [by apply rpc_remap_name_cases|].
  intros r s' e' t [-> [->|[_ Hno]]]; [done|by destruct Hno].
Qed.
End Names.

(** ** Traces *)

(** The descriptor a call to the file layer acts on. *)
Definition call_fd {A} (c : ioE A) : option Z :=
  match c with
  | IomanX_close fd | IomanX_read fd _ | IomanX_write fd _ _ | IomanX_lseek fd _ _
  | IomanX_lseek64 fd _ _ | IomanX_ioctl fd _ _ | IomanX_ioctl2 fd _ _ _ _ | IomanX_dread fd =>
      Some fd
  | _ => None
  end.

Definition owned (s : pfsd) (pid fd : Z) : Prop :=
  is_Some (find_openfile fd pid (g_openfile_items s)).

(** The call acts on no descriptor, on -1, or on one of the client's. *)
Definition fd_allowed (s : pfsd) (pid : Z) (ev : event) : Prop :=
  match ev with
  | Ev c _ => match call_fd c with Some fd => fd = -1 \/ owned s pid fd | None => True end
  end.

Definition only {E A} `{Handler E} (P : event -> Prop) (m : M pfsd E A) : Prop :=
  forall s e, wp m (fun _ _ _ t => Forall P t) s e.

Section Only.
Context {E : Type} `{Handler E} (P : event -> Prop).

Lemma only_bind {A B} (m : M pfsd E A) (k : A -> M pfsd E B) :
  only P m -> (forall a, only P (k a)) -> only P (m ≫= k).
Proof.
  intros Hm Hk s e. apply wp_bind. eapply wp_mono; [apply Hm|].
  intros [a| | | |] s' e' t Ht; unfold bind_post; try done.
  eapply wp_mono; [apply Hk|]. intros. by apply Forall_app.
Qed.

Lemma only_call {A} (c : ioE A) : (forall r, P (Ev c r)) -> only P (call c : M pfsd E A).
Proof. intros Hc s e. apply wp_call. intros. by constructor. Qed.

Lemma only_ret {A} (a : A) : only P (mret a : M pfsd E A).
Proof. intros s e. by apply wp_ret. Qed.

Lemma only_silent {A} (m : M pfsd E A) : (forall s e, o_tr (m s e) = []) -> only P m.
Proof. intros Hm s e. unfold wp. rewrite Hm. constructor. Qed.

Lemma only_deref {A} (o : option A) : only P (deref o : M pfsd E A).
Proof. apply only_silent. by destruct o. Qed.

Lemma only_deref_bind {A B} (o : option A) (k : A -> M pfsd E B) :
  (forall a, o = Some a -> only P (k a)) -> only P (deref o ≫= k).
Proof.
  intros Hk s e. destruct o as [a|]; [|by constructor]. apply wp_bind, wp_deref. unfold bind_post. by apply Hk.
Qed.

Lemma only_assert c : only P (assert_ c : M pfsd E unit).
Proof. apply only_silent. by destruct c. Qed.

Lemma only_if {A} (c : bool) (m1 m2 : M pfsd E A) :
  only P m1 -> only P m2 -> only P (if c then m1 else m2).
Proof. by destruct c. Qed.

Lemma only_when c (m : M pfsd E unit) : only P m -> only P (when c m).
Proof. destruct c; [done|]. intros _. apply only_ret. Qed.

Lemma only_for {X} (l : list X) (body : X -> M pfsd E unit) :
  (forall x, only P (body x)) -> only P (for_ l body).
Proof.
  intros Hb. induction l as [|x l IH]; simpl; [apply only_ret|]. by apply only_bind.
Qed.
End Only.

(** Goes through a program; what is left are the calls to justify. *)
Ltac only_step :=
  lazymatch goal with
  | |- only _ (_ ≫= _) => apply only_bind; [|intros ?]
  | |- only _ (call _) => apply only_call; intros ?
  | |- only _ (mret _) => apply only_ret
  | |- only _ get => by apply only_silent
  | |- only _ (put _) => by apply only_silent
  | |- only _ (modify _) => by apply only_silent
  | |- only _ (deref _) => apply only_deref
  | |- only _ (assert_ _) => apply only_assert
  | |- only _ (when _ _) => apply only_when
  | |- only _ (for_ _ _) => apply only_for; intros ?
  | |- only _ (match ?x with _ => _ end) => first [apply only_if | destruct x]
  end.
Ltac only_go := repeat only_step; try exact I.

(** Calls that reach neither a file nor a file system. *)
Definition harmless {A} (c : ioE A) : bool :=
  match c with
  | Printf _ _ _ | Perror _ | Reply _ _ | Get_errno | Host_ioctl _ _ _ => true
  | _ => false
  end.

Section Harmless.
Context {E : Type} `{Handler E} (P : event -> Prop).
Context (HP : forall A (c : ioE A) r, harmless c = true -> P (Ev c r)).

Ltac quiet_go := repeat only_step; try by apply HP.

Lemma output_statistics_only : only (E := E) P output_statistics.
Proof using HP.
  assert (Hm : forall l n, only (E := E) P (print_mounts l n)).
  { intros l. induction l as [|x l IH]; intros n; simpl; quiet_go; apply IH. }
  unfold output_statistics. quiet_go. apply Hm.
Qed.

Lemma remap_name_only cap name q : only (E := E) P (rpc_remap_name cap name q).
Proof using HP.
  assert (Hb : forall l n, only (E := E) P (blank_foreign q l n)).
  { intros l. induction l as [|x l IH]; intros n; simpl; quiet_go; apply IH. }
  unfold rpc_remap_name. quiet_go. apply Hb.
Qed.

Lemma remap_fd_silent fd q : only (E := E) P (rpc_remap_fd fd q).
Proof using HP. unfold rpc_remap_fd. quiet_go. Qed.

Lemma common_open_only fd q name : only (E := E) P (rpc_common_open fd q name).
Proof using HP. unfold rpc_common_open. quiet_go. Qed.

Lemma common_close_only fd q : only (E := E) P (rpc_common_close fd q).
Proof using HP. unfold rpc_common_close. quiet_go. Qed.

Lemma shm_only : (forall u, only (E := E) P (shm_arg u)) /\
  (forall u d, only (E := E) P (shm_store u d)) /\ (forall u n, only (E := E) P (shm_load u n)).
Proof using HP. unfold shm_arg, shm_store, shm_load. split_and!; intros; quiet_go. Qed.

Lemma getmountpoint_only path q : only (E := E) P (rpc_command_getmountpoint path q).
Proof using HP. unfold rpc_command_getmountpoint. destruct shm_only as (_ & Hst & _). quiet_go; apply Hst. Qed.

Lemma readahead_only hdd : only (E := E) P (scepfsGetReadAhead hdd) /\
  forall n, only (E := E) P (scepfsSetReadAhead hdd n).
Proof using HP.
  assert (Hra : only (E := E) P (scepfsGetReadAhead hdd)) by (unfold scepfsGetReadAhead; quiet_go).
  split; [done|]. intros n. unfold scepfsSetReadAhead. quiet_go. exact Hra.
Qed.
End Harmless.

Section FdIsolation.
Context {E : Type} `{Handler E} (s0 : pfsd) (pid : Z).
Abbreviation P := (fd_allowed s0 pid).

Lemma harmless_fds A (c : ioE A) r : harmless c = true -> P (Ev c r).
Proof. by destruct c. Qed.
#[local] Hint Resolve harmless_fds : core.

Lemma try_containers_only is_ d f a n fs r :
  only (E := E) P (try_containers is_ d f a n fs r).
Proof. revert fs r. induction is_ as [|i is_ IH]; intros fs r; simpl; only_go. apply IH. Qed.

(** Starting from [s0], what the remapped descriptor is used for is allowed. *)
Lemma remap_fd_only {B} fd (k : Z -> M pfsd E B) e :
  (forall f, f = -1 \/ owned s0 pid f -> only P (k f)) ->
  wp (rpc_remap_fd fd pid ≫= k) (fun _ _ _ t => Forall P t) s0 e.
Proof.
  intros Hk. unfold rpc_remap_fd. apply wp_bind, wp_bind, wp_get. unfold bind_post.
  destruct (find_openfile fd pid (g_openfile_items s0)) as [i|] eqn:Hf.
  - apply wp_ret. eapply wp_mono; [apply Hk|by simpl]. right. by exists i.
  - apply wp_bind, wp_call. intros r e' _. unfold bind_post. apply wp_ret.
    eapply wp_mono; [apply Hk; by left|]. intros. simpl. by constructor.
Qed.

Lemma command_close_fds fd e :
  wp (rpc_command_close fd pid) (fun _ _ _ t => Forall P t) s0 e.
Proof.
  unfold rpc_command_close. apply remap_fd_only. intros f Hf. only_go; [exact Hf|].
  apply common_close_only, harmless_fds.
Qed.

Lemma event_handler_fds hdd garbage req e :
  wp (E := E) (event_handler_func hdd garbage pid req) (fun _ _ _ t => Forall P t) s0 e.
Proof.
  destruct (shm_only P harmless_fds) as (Ha & Hst & Hld).
  destruct (readahead_only P harmless_fds hdd) as [Hra Hsa].
  pose proof (remap_name_only P harmless_fds) as Hname.
  pose proof (common_open_only P harmless_fds) as Hco.
  pose proof (output_statistics_only P harmless_fds) as Hos.
  pose proof (getmountpoint_only P harmless_fds) as Hgm.
  assert (Hopen : forall name flags mode, only (E := E) P (rpc_command_open name flags mode pid)).
  { intros. unfold rpc_command_open. only_go; [apply Hname | apply Hco]. }
  assert (Hdopen : forall name, only (E := E) P (rpc_command_dopen name pid)).
  { intros. unfold rpc_command_dopen. only_go; [apply Hname | apply Hco]. }
  assert (Hmount : forall a b c d f, only (E := E) P (rpc_command_mount a b c d f pid)).
  { intros. unfold rpc_command_mount. only_go; [apply Ha | apply try_containers_only]. }
  assert (Hum : forall a, only (E := E) P (rpc_command_umount a pid)).
  { intros. unfold rpc_command_umount, umount_cleanup. only_go; apply Hos. }
  destruct req; unfold event_handler_func; try (by auto);
    try apply command_close_fds;
    try (apply remap_fd_only; intros f Hf; only_go; first [exact Hf | by auto]);
    try (match goal with |- wp ?m _ _ _ => cut (only P m); [intros Ho; apply Ho|] end;
         only_go; by auto).
Qed.
End FdIsolation.

(** ** The names that reach the file layer *)

(** Client [pid] has container [c]. *)
Definition contains (s : pfsd) (pid : Z) (c : string) : Prop :=
  pid <> 0 /\ exists x, x ∈ g_mountlist_items s /\ m_pid x = pid /\ m_str_containerpath x = Some c.

(** A name in a container of some client is blanked, or in a container of [pid]'s own:
    the same one, or one of which the other is a part. *)
Definition permitted (s : pfsd) (pid : Z) (name : string) : Prop :=
  forall q c, contains s q c -> String.prefix c name = true ->
    name = ""%string \/
    exists c', contains s pid c' /\ String.prefix c' name = true /\
      (String.prefix c c' = true \/ String.prefix c' c = true).

Definition request_names (req : request) : list string :=
  match req with
  | PFSD_REQ_OPEN n _ _ | PFSD_REQ_DOPEN n | PFSD_REQ_CHSTAT n _ _ | PFSD_REQ_GETSTAT n _
  | PFSD_REQ_MKDIR n _ | PFSD_REQ_RMDIR n | PFSD_REQ_CHDIR n | PFSD_REQ_REMOVE n
  | PFSD_REQ_READLINK n _ _ | PFSD_REQ_SYNC n _ | PFSD_REQ_DEVCTL n _ _ _ _ _ => [n]
  | PFSD_REQ_RENAME old new | PFSD_REQ_SYMLINK old new => [old; new]
  | _ => []
  end.

(** The names a call acts on, on the disk or on the host. *)
Definition call_names {A} (c : ioE A) : list string :=
  match c with
  | IomanX_open n _ _ | IomanX_dopen n | IomanX_chstat n _ _ | IomanX_getstat n
  | IomanX_mkdir n _ | IomanX_rmdir n | IomanX_chdir n | IomanX_remove n
  | IomanX_readlink n _ | IomanX_sync n _ | IomanX_devctl n _ _ _ _ | IomanX_DelDrv n
  | Init_module n _ | Host_open n _ _ | Host_chdir n | Host_unlink n | Host_mkdir n _
  | Host_rmdir n | Host_opendir n | Host_stat n | Host_chmod n _ | Host_readlink n _
  | Host_fopen n _ => [n]
  | IomanX_rename old new | IomanX_symlink old new
  | Host_rename old new | Host_symlink old new => [old; new]
  | _ => []
  end.

(** What a call of the handling of [req] for client [pid] may name.  FORMAT and MOUNT pass
    their own names on as they come, up to a comma; MOUNT may try [pfs0:] to [pfs31:]. *)
Definition name_allowed (s : pfsd) (pid : Z) (req : request) (ev : event) : Prop :=
  match ev with
  | Ev c _ =>
      match c with
      | IomanX_format dev blockdev _ _ =>
          exists b u n, req = PFSD_REQ_FORMAT dev b u n /\ blockdev = Some (before_comma b)
      | IomanX_mount fsname devname _ _ _ =>
          exists name d flag u n, req = PFSD_REQ_MOUNT name d flag u n /\ devname = before_comma d /\
            (fsname = name \/ exists i, (i < MAX_ITEMS)%nat /\ fsname = ("pfs" +:+ pretty (N.of_nat i) +:+ ":")%string)
      | IomanX_umount c => contains s pid c
      | c => Forall (fun n => permitted s pid n /\
               exists m, m ∈ request_names req /\ n = remapped s pid m) (call_names c)
      end
  end.

Lemma prefix_comparable a b n :
  String.prefix a n = true -> String.prefix b n = true ->
  String.prefix a b = true \/ String.prefix b a = true.
Proof.
  revert b n. induction a as [|x a IH]; intros [|y b] [|z n]; simpl; try (by auto); try done.
  destruct (Ascii.ascii_dec x z) as [->|]; [|done]. destruct (Ascii.ascii_dec y z) as [->|]; [|done].
  intros Ha Hb. destruct (Ascii.ascii_dec z z); [by apply (IH b n)|done].
Qed.

Lemma prefix_append a b : String.prefix a (a +:+ b) = true.
Proof. induction a as [|x a IH]; simpl; [by destruct b|]. by destruct (Ascii.ascii_dec x x). Qed.

Lemma remapped_permitted s pid name : inv s -> pid <> 0 -> permitted s pid (remapped s pid name).
Proof.
  intros Hs Hp q c (Hq & x & Hx & Hxq & Hxc) Hpre. unfold remapped in *.
  destruct (List.find (owns_prefix pid name) (g_mountlist_items s)) as [y|] eqn:Hfind.
  - apply List.find_some in Hfind as [Hy Hown]. unfold owns_prefix in Hown. boolP.
    pose proof (inv_slots s Hs) as Hslots. rewrite Forall_forall in Hslots. apply list_elem_of_In in Hy.
    destruct (Hslots y Hy ltac:(congruence)) as (a & c' & d & Hya & Hyc & _).
    rewrite Hya, Hyc in *. cbn [default] in *. right. exists c'. split_and!.
    + split; [done|]. by exists y.
    + apply prefix_append.
    + eapply prefix_comparable; [exact Hpre|apply prefix_append].
  - destruct (existsb (in_container name) (g_mountlist_items s)) eqn:Hex; [by left|].
    assert (Hin : existsb (in_container name) (g_mountlist_items s) = true); [|congruence].
    apply existsb_exists. exists x. split; [by apply list_elem_of_In|].
    unfold in_container. rewrite Hxc, Hpre, (proj2 (Z.eqb_neq _ _)) by congruence. done.
Qed.

(** From one state. *)
Definition only_at {E A} `{Handler E} (P : event -> Prop) (s : pfsd) (m : M pfsd E A) : Prop :=
  forall e, wp m (fun _ _ _ t => Forall P t) s e.

Section NameIsolation.
Context {E : Type} `{Handler E} (s0 : pfsd) (pid : Z) (req : request).
Context (Hs : inv s0) (Hpid : pid <> 0).
Abbreviation P := (name_allowed s0 pid req).

Lemma harmless_names A (c : ioE A) r : harmless c = true -> P (Ev c r).
Proof using. destruct c; intros Hc; try discriminate Hc; constructor. Qed.
#[local] Hint Resolve harmless_names : core.

Lemma only_at_of {A} (m : M pfsd E A) : only P m -> only_at P s0 m.
Proof using. intros Hm e. apply Hm. Qed.

Lemma only_at_bind {A B} (m : M pfsd E A) (k : A -> M pfsd E B) :
  only_at P s0 m -> (forall a, only P (k a)) -> only_at P s0 (m ≫= k).
Proof using.
  intros Hm Hk e. apply wp_bind. eapply wp_mono; [apply Hm|].
  intros [a| | | |] s' e' t Ht; unfold bind_post; try done.
  eapply wp_mono; [apply Hk|]. intros. by apply Forall_app.
Qed.

Lemma only_at_get {B} (k : pfsd -> M pfsd E B) : only_at P s0 (k s0) -> only_at P s0 (get ≫= k).
Proof using. intros Hk e. apply wp_bind, wp_get. unfold bind_post. apply Hk. Qed.

Lemma only_at_deref {A B} (o : option A) (k : A -> M pfsd E B) :
  (forall a, o = Some a -> only_at P s0 (k a)) -> only_at P s0 (deref o ≫= k).
Proof using.
  intros Hk e. destruct o as [a|]; [|by constructor]. apply wp_bind, wp_deref. unfold bind_post. by apply Hk.
Qed.

Lemma only_at_remap {B} cap name (k : string -> M pfsd E B) :
  name ∈ request_names req ->
  (forall n, permitted s0 pid n /\ (exists m, m ∈ request_names req /\ n = remapped s0 pid m) ->
     only_at P s0 (k n)) ->
  only_at P s0 (rpc_remap_name cap name pid ≫= k).
Proof using Hs Hpid.
  intros Hin Hk e. apply wp_bind. eapply wp_mono.
  { apply wp_and; [by apply (rpc_remap_name_cases cap name pid)|].
    apply (remap_name_only P harmless_names cap name pid). }
  intros r s' e' t [[-> [->|[-> _]]] Ht]; unfold bind_post; [|done].
  eapply wp_mono; [apply Hk|].
  - split; [by apply remapped_permitted|]. by exists name.
  - intros. by apply Forall_app.
Qed.

Lemma only_at_remap_fd {B} fd (k : Z -> M pfsd E B) :
  (forall f, only P (k f)) -> only_at P s0 (rpc_remap_fd fd pid ≫= k).
Proof using. intros Hk. apply only_at_bind; [|done]. apply only_at_of, remap_fd_silent, harmless_names. Qed.

(** Calls with the names of a remapping, or none. *)
Ltac names_go := repeat only_step; try (by constructor); try (by repeat constructor); auto.

Lemma try_containers_names is_ name d f u n :
  req = PFSD_REQ_MOUNT name d f u n -> Forall (fun i => (i < MAX_ITEMS)%nat) is_ -> forall a fs r,
  only (E := E) P (try_containers is_ (before_comma d) f a n fs r).
Proof using.
  intros -> His a. induction His as [|i is_ Hi _ IH]; intros fs r; simpl; names_go.
  exists name, d, f, u, n. split_and!; [done..|]. right. by exists i.
Qed.

Lemma open_names name flags mode :
  name ∈ request_names req -> only_at (E := E) P s0 (rpc_command_open name flags mode pid).
Proof using Hs Hpid.
  intros Hn. unfold rpc_command_open. apply only_at_get, only_at_bind.
  - destruct (table_full s0); [by apply only_at_of, only_ret|].
    apply only_at_remap; [done|]. intros n Hn'. apply only_at_of, only_call. by constructor.
  - intros a. names_go. by apply common_open_only, harmless_names.
Qed.

Lemma dopen_names name :
  name ∈ request_names req -> only_at (E := E) P s0 (rpc_command_dopen name pid).
Proof using Hs Hpid.
  intros Hn. unfold rpc_command_dopen. apply only_at_get, only_at_bind.
  - destruct (table_full s0); [by apply only_at_of, only_ret|].
    apply only_at_remap; [done|]. intros n Hn'. apply only_at_of, only_call. by constructor.
  - intros a. names_go. by apply common_open_only, harmless_names.
Qed.

Lemma close_names fd : only_at (E := E) P s0 (rpc_command_close fd pid).
Proof using.
  unfold rpc_command_close. apply only_at_remap_fd. intros f. names_go. by apply common_close_only, harmless_names.
Qed.

Lemma mount_names name d f u n :
  req = PFSD_REQ_MOUNT name d f u n -> only_at (E := E) P s0 (rpc_command_mount name d f u n pid).
Proof using.
  intros Hreq. unfold rpc_command_mount. apply only_at_of.
  destruct (shm_only P harmless_names) as (Ha & _).
  repeat only_step; try by constructor; try apply Ha.
  - exists name, d, f, u, n. auto.
  - apply (try_containers_names _ name d f u n Hreq). apply Forall_seq. lia.
Qed.

Lemma umount_names name : only_at (E := E) P s0 (rpc_command_umount name pid).
Proof using Hs Hpid.
  unfold rpc_command_umount. apply only_at_get, only_at_deref. intros i Hi.
  destruct (g_mountlist_items s0 !! i) as [x|] eqn:Hx; [|apply only_at_of; names_go].
  destruct (find_spec s0 Hs (own_field pid name m_str_fsprefix)) as (j & Hj & _ & _ & Hown);
    [intros; apply own_field_defined; auto|].
  unfold find_mount in Hi, Hj. rewrite Hi in Hj. injection Hj as <-.
  destruct (Hown x Hx) as [_ [Hxp _]%own_field_true].
  assert (Hum : forall c, m_str_containerpath x = Some c -> contains s0 pid c).
  { intros c Hc. split; [done|]. exists x. split; [by eapply list_elem_of_lookup_2|done]. }
  apply only_at_of. unfold umount_cleanup. repeat (first [apply only_deref_bind; intros ? ? | only_step]);
    auto; try (by apply output_statistics_only, harmless_names).
    by apply Hum.
Qed.
End NameIsolation.

(** The commands with names, and the remapping of names and descriptors. *)
Ltac named_step :=
  first [apply open_names | apply dopen_names | apply close_names | apply umount_names
        | eapply mount_names; reflexivity | apply only_at_remap_fd; intros ?
        | apply only_at_remap; [| |solve [cbn; rewrite !elem_of_cons; auto]|intros ? ?]]; try done.

Lemma event_handler_names {E} `{Handler E} s pid hdd garbage req :
  inv s -> pid <> 0 ->
  only_at (E := E) (name_allowed s pid req) s (event_handler_func hdd garbage pid req).
Proof.
  intros Hs Hp. pose proof (harmless_names s pid req) as Hq.
  destruct (shm_only _ Hq) as (Ha & Hst & Hld).
  destruct (readahead_only _ Hq hdd) as [Hra Hsa].
  pose proof (getmountpoint_only _ Hq) as Hgm.
  pose proof (remap_fd_silent _ Hq) as Hfd.
  destruct req; unfold event_handler_func; repeat named_step.
  all: try (apply only_at_of); repeat only_step; try auto.
  all: try (by constructor); try (by repeat constructor).
  1, 2: do 2 (constructor; [assumption|]); constructor.
  by eexists _, _, _.
Qed.

(** ** Replies *)

Definition is_reply (ev : event) : bool :=
  match ev with Ev (Reply _ _) _ => true | _ => false end.
Definition replies (t : trace) : nat := length (List.filter is_reply t).

(** How often a request is answered. *)
Definition reply_count (req : request) : nat :=
  match req with
  | PFSD_REQ_GETMOUNTPOINT _ => 2
  | PFSD_REQ_OTHER _ => 0
  | _ => 1
  end.

Definition counts {E A} `{Handler E} (m : M pfsd E A) (n : nat) : Prop :=
  forall s e, wp m (fun r _ _ t => match r with Ret _ => replies t = n | _ => True end) s e.

Section Counts.
Context {E : Type} `{Handler E}.

Lemma counts_bind {A B} n1 n2 (m : M pfsd E A) (k : A -> M pfsd E B) :
  counts m n1 -> (forall a, counts (k a) n2) -> counts (m ≫= k) (n1 + n2).
Proof.
  intros Hm Hk s e. apply wp_bind. eapply wp_mono; [apply Hm|].
  intros [a| | | |] s' e' t Ht; unfold bind_post; try done.
  eapply wp_mono; [apply Hk|]. intros [b| | | |] s'' e'' t' Ht'; try done.
  unfold replies in *. rewrite List.filter_app, length_app. lia.
Qed.

Lemma counts_quiet {A B} n (m : M pfsd E A) (k : A -> M pfsd E B) :
  counts m 0 -> (forall a, counts (k a) n) -> counts (m ≫= k) n.
Proof. apply (counts_bind 0 n). Qed.

Lemma counts_silent {A} (m : M pfsd E A) : (forall s e, o_tr (m s e) = []) -> counts m 0.
Proof. intros Hm s e. unfold wp. rewrite Hm. by destruct (o_res _). Qed.

Lemma counts_call {A} (c : ioE A) :
  (forall r, is_reply (Ev c r) = false) -> counts (call c : M pfsd E A) 0.
Proof. intros Hc s e. apply wp_call. intros r e' _. unfold replies. cbn [List.filter]. by rewrite Hc. Qed.

Lemma counts_reply fd v : counts (call (Reply fd v) : M pfsd E unit) 1.
Proof. intros s e. by apply wp_call. Qed.

Lemma counts_reply_bind {B} fd v n (k : unit -> M pfsd E B) :
  counts (k tt) n -> counts (call (Reply fd v) ≫= k) (S n).
Proof. intros Hk. apply (counts_bind 1 n); [apply counts_reply | by intros []]. Qed.

Lemma counts_if {A} (c : bool) (m1 m2 : M pfsd E A) n :
  counts m1 n -> counts m2 n -> counts (if c then m1 else m2) n.
Proof. by destruct c. Qed.

Lemma counts_when c (m : M pfsd E unit) : counts m 0 -> counts (when c m) 0.
Proof. destruct c; [done|]. intros _. by apply counts_silent. Qed.

Lemma counts_for {X} (l : list X) (body : X -> M pfsd E unit) :
  (forall x, counts (body x) 0) -> counts (for_ l body) 0.
Proof.
  intros Hb. induction l as [|x l IH]; simpl; [by apply counts_silent|].
  by apply counts_quiet.
Qed.
End Counts.

Ltac counts_step :=
  lazymatch goal with
  | |- counts (call (Reply _ _) ≫= _) _ => apply counts_reply_bind
  | |- counts (_ ≫= _) _ => apply counts_quiet; [|intros ?]
  | |- counts (call (Reply _ _)) _ => apply counts_reply
  | |- counts (call _) _ => apply counts_call; intros ?; reflexivity
  | |- counts (mret _) _ => by apply counts_silent
  | |- counts get _ => by apply counts_silent
  | |- counts (put _) _ => by apply counts_silent
  | |- counts (modify _) _ => by apply counts_silent
  | |- counts (deref ?o) _ => apply counts_silent; by destruct o
  | |- counts (assert_ ?c) _ => apply counts_silent; by destruct c
  | |- counts (when _ _) _ => apply counts_when
  | |- counts (for_ _ _) _ => apply counts_for; intros ?
  | |- counts (match ?x with _ => _ end) _ => first [apply counts_if | destruct x]
  end.
Ltac counts_go := repeat counts_step.

Section Replies.
Context {E : Type} `{Handler E}.

Lemma output_statistics_counts : counts (E := E) output_statistics 0.
Proof.
  assert (Hm : forall l n, counts (E := E) (print_mounts l n) 0).
  { intros l. induction l as [|x l IH]; intros n; simpl; counts_go; apply IH. }
  unfold output_statistics. counts_go. apply Hm.
Qed.

Lemma remap_name_counts cap name q : counts (E := E) (rpc_remap_name cap name q) 0.
Proof.
  assert (Hb : forall l n, counts (E := E) (blank_foreign q l n) 0).
  { intros l. induction l as [|x l IH]; intros n; simpl; counts_go; apply IH. }
  unfold rpc_remap_name. counts_go. apply Hb.
Qed.

Lemma try_containers_counts is_ d f a n fs r :
  counts (E := E) (try_containers is_ d f a n fs r) 0.
Proof. revert fs r. induction is_ as [|i is_ IH]; intros fs r; simpl; counts_go. apply IH. Qed.

Lemma shm_counts : (forall u, counts (E := E) (shm_arg u) 0) /\
  (forall u d, counts (E := E) (shm_store u d) 0) /\ (forall u n, counts (E := E) (shm_load u n) 0).
Proof. unfold shm_arg, shm_store, shm_load. split_and!; intros; counts_go. Qed.

Lemma event_handler_counts hdd garbage fd req :
  counts (E := E) (event_handler_func hdd garbage fd req) (reply_count req).
Proof.
  destruct shm_counts as (Ha & Hst & Hld).
  pose proof remap_name_counts as Hname. pose proof output_statistics_counts as Hos.
  pose proof try_containers_counts as Htc.
  assert (Hfd : forall f q, counts (E := E) (rpc_remap_fd f q) 0)
    by (intros; unfold rpc_remap_fd; counts_go).
  assert (Hco : forall a b c, counts (E := E) (rpc_common_open a b c) 0)
    by (intros; unfold rpc_common_open; counts_go).
  assert (Hcc : forall a b, counts (E := E) (rpc_common_close a b) 0)
    by (intros; unfold rpc_common_close; counts_go).
  assert (Hra : counts (E := E) (scepfsGetReadAhead hdd) 0)
    by (unfold scepfsGetReadAhead; counts_go).
  assert (Hsa : forall n, counts (E := E) (scepfsSetReadAhead hdd n) 0)
    by (intros; unfold scepfsSetReadAhead; counts_go; done).
  destruct req; unfold event_handler_func, rpc_command_open, rpc_command_close, rpc_command_dopen,
    rpc_command_dclose, rpc_command_close, rpc_command_mount, rpc_command_umount,
    umount_cleanup; cbn [reply_count]; try (counts_go; by auto).
  apply (counts_bind 1 1); [|intros _; apply counts_reply].
  unfold rpc_command_getmountpoint. counts_go; by auto.
Qed.
End Replies.

(** ** Unmounting *)

(** The calls that act on the drivers or end a connection. *)
Definition resource_call {A} (c : ioE A) : bool :=
  driver_call c || match c with Host_close _ => true | _ => false end.
Definition no_resource (ev : event) : Prop := ev_test (@resource_call) ev = false.

Lemma no_resource_calls t : Forall no_resource t -> calls_of (@resource_call) t = [].
Proof. induction 1 as [|ev t Hev _ IH]; [done|]. unfold calls_of in *. cbn. by rewrite Hev. Qed.

(** The slot a client's [fsname] is found in. *)
Definition mount_of (s : pfsd) (pid : Z) (fsname : string) : option nat :=
  find_mount (own_field pid fsname m_str_fsprefix) s.

Section Unmount.
Context {E : Type} `{Handler E}.

(** A program that returns and leaves the state. *)
Definition returns {A} (m : M pfsd E A) (s : pfsd) : Prop :=
  forall e, wp m (fun r s' _ _ => (exists a, r = Ret a) /\ s' = s) s e.

Lemma returns_bind {A B} (m : M pfsd E A) (k : A -> M pfsd E B) s :
  returns m s -> (forall a, returns (k a) s) -> returns (m ≫= k) s.
Proof.
  intros Hm Hk e. apply wp_bind. eapply wp_mono; [apply Hm|].
  intros r s' e' t [[a ->] ->]. unfold bind_post. eapply wp_mono; [apply Hk|]. done.
Qed.

Lemma returns_ret {A} (a : A) s : returns (mret a) s.
Proof. intros e. apply wp_ret. eauto. Qed.

Lemma returns_call {A} (c : ioE A) s : returns (call c) s.
Proof. intros e. apply wp_call. eauto. Qed.

Lemma returns_get_bind {B} (k : pfsd -> M pfsd E B) s : returns (k s) s -> returns (get ≫= k) s.
Proof.
  intros Hk e. apply wp_bind, wp_get. unfold bind_post. eapply wp_mono; [apply Hk|]. done.
Qed.

Lemma returns_deref {A} (a : A) s : returns (deref (Some a)) s.
Proof. intros e. apply wp_ret. eauto. Qed.

Lemma returns_when c (m : M pfsd E unit) s : returns m s -> returns (when c m) s.
Proof. destruct c; [done|]. intros _. apply returns_ret. Qed.

Lemma returns_for {X} (l : list X) (body : X -> M pfsd E unit) s :
  (forall x, returns (body x) s) -> returns (for_ l body) s.
Proof.
  intros Hb. induction l as [|x l IH]; simpl; [apply returns_ret|]. by apply returns_bind.
Qed.

Ltac returns_go :=
  repeat lazymatch goal with
    | |- returns (get ≫= _) _ => apply returns_get_bind
    | |- returns (_ ≫= _) _ => apply returns_bind; [|intros ?]
    | |- returns (mret _) _ => apply returns_ret
    | |- returns (call _) _ => apply returns_call
    | |- returns (deref (Some _)) _ => apply returns_deref
    | |- returns (when _ _) _ => apply returns_when
    end.

Lemma output_statistics_returns s : inv s -> returns output_statistics s.
Proof.
  intros Hs.
  assert (Hm : forall l n, Forall slot_ok l -> returns (print_mounts l n) s).
  { intros l n Hl. revert n. induction Hl as [|x l Hx _ IH]; intros n; simpl; [returns_go|].
    destruct (Z.eqb_spec (m_pid x) 0) as [|Hp]; cbn [negb]; [apply IH|].
    destruct (Hx Hp) as (a & b & c & -> & -> & -> & _). returns_go. apply IH. }
  unfold output_statistics. returns_go; [apply Hm, (inv_slots s Hs)|].
  destruct (_ =? _)%nat; returns_go. apply returns_for. intros x. returns_go.
  destruct (g_mountlist_items s !! of_mountlist_index x) as [y|] eqn:Hy; [|returns_go].
  pose proof (Forall_lookup_1 _ _ _ _ (inv_slots s Hs) Hy) as Hslot.
  destruct (Z.eqb_spec (m_pid y) 0) as [|Hp]; cbn [negb]; [returns_go|].
  destruct (Hslot Hp) as (u & v & w & -> & _ & -> & _). returns_go.
Qed.

(** Past the checks, whatever [debug_mode]: 0 is answered and the slot is free. *)
Lemma umount_granted fsname pid s e i x :
  inv s -> pid <> 0 -> mount_of s pid fsname = Some i -> g_mountlist_items s !! i = Some x ->
  has_openfile i (g_openfile_items s) = false ->
  wp (E := E) (rpc_command_umount fsname pid) (fun r s' _ _ => r = Ret tt /\
    s' = set_mounts (<[i := free_mount]> (g_mountlist_items s)) s) s e.
Proof.
  intros Hs Hp Hi Hx Hfree. unfold rpc_command_umount, mount_of in *.
  destruct (find_spec s Hs (own_field pid fsname m_str_fsprefix)) as (j & Hj & _ & _ & Hat);
    [intros; apply own_field_defined; auto|].
  rewrite Hi in Hj. injection Hj as <-.
  destruct (Hat x Hx) as [Hslot [Hpid Hfs]%own_field_true].
  assert (Hpx : m_pid x <> 0) by congruence.
  destruct (Hslot Hpx) as (a & c & d & _ & Hc & Hd & _).
  apply wp_bind, wp_get. unfold bind_post. rewrite Hi. apply wp_bind, wp_deref.
  unfold bind_post; cbn beta. rewrite Hx, Hfree, Hc, Hd, (umount_search_stops i x _ c) by done.
  apply wp_bind, wp_deref. unfold bind_post; cbn beta.
  change (MAX_ITEMS <=? 0)%nat with false. change (0 <? MAX_ITEMS)%nat with true. cbn [andb].
  assert (Hdone : forall e0, wp (E := E)
    (call (Reply pid 0);; when (0 =? 0) (umount_cleanup i);; when (debug_mode s) output_statistics)
    (fun r s' _ _ => r = Ret tt /\ s' = set_mounts (<[i := free_mount]> (g_mountlist_items s)) s)
    s e0).
  { intros e0. apply wp_bind, wp_call. intros r e' _. unfold bind_post. cbn [Z.eqb when].
    apply wp_bind, wp_modify. unfold bind_post.
    set (s1 := set_mounts _ s).
    assert (Hs1 : inv s1).
    { apply set_slot_inv; [done | by intros [] | by apply has_openfile_false]. }
    destruct (debug_mode s); cbn [when]; [|by apply wp_ret].
    eapply wp_mono; [by apply output_statistics_returns|].
    intros q s' e'' t [[[] ->] ->]. done. }
  apply wp_bind. destruct (debug_mode s); cbn [when].
  - apply wp_bind, wp_deref. unfold bind_post; cbn beta. apply wp_call. intros r e' _.
    unfold bind_post; cbn beta. apply wp_bind, wp_ret. unfold bind_post; cbn beta. apply Hdone.
  - apply wp_ret. unfold bind_post; cbn beta. apply wp_bind, wp_ret. unfold bind_post; cbn beta.
    apply Hdone.
Qed.

Lemma output_statistics_quiet : only (E := E) no_resource output_statistics.
Proof.
  assert (Hm : forall l n, only (E := E) no_resource (print_mounts l n)).
  { intros l. induction l as [|x l IH]; intros n; simpl; repeat only_step; (done || apply IH). }
  unfold output_statistics. repeat only_step; (done || apply Hm).
Qed.

(** No path of the command calls a driver. *)
Lemma umount_never_umounts fsname pid s e :
  inv s -> pid <> 0 ->
  wp (E := E) (rpc_command_umount fsname pid) (fun _ _ _ t =>
    Forall no_resource t) s e.
Proof.
  intros Hs Hp. unfold rpc_command_umount.
  pose proof output_statistics_quiet as Hos.
  destruct (find_spec s Hs (own_field pid fsname m_str_fsprefix)) as (i & Hi & _ & _ & Hat);
    [intros; apply own_field_defined; auto|].
  apply wp_bind, wp_get. unfold bind_post; cbn beta. rewrite Hi.
  apply wp_bind, wp_deref. unfold bind_post; cbn beta.
  destruct (g_mountlist_items s !! i) as [x|] eqn:Hx.
  2:{ match goal with |- wp ?m _ _ _ => cut (only no_resource m) end;
        [intros Ho; apply Ho | repeat only_step; done]. }
  destruct (Hat x eq_refl) as [Hslot [Hpid Hfs]%own_field_true].
  destruct (Hslot ltac:(congruence)) as (a & c & d & _ & Hc & Hd & _).
  rewrite Hc, (umount_search_stops i x _ c) by (done || congruence).
  match goal with |- wp ?m _ _ _ => cut (only no_resource m) end;
    [intros Ho; apply Ho|].
  apply only_if; [repeat only_step; (done || exact Hos)|].
  intros s1 e1. apply wp_bind, wp_deref. unfold bind_post; cbn beta. change (MAX_ITEMS <=? 0)%nat with false. cbv iota.
  match goal with |- wp ?m _ _ _ => cut (only no_resource m) end;
    [intros Ho; apply Ho|]. unfold umount_cleanup.
  repeat only_step; (done || exact Hos).
Qed.
End Unmount.

(** ** The end of a client *)

(** Closing an open descriptor succeeds. *)
Class CloseWorks (E : Type) `{Handler E} :=
  close_works : forall fd e, 0 <= fd -> fst (handle (IomanX_close fd) e) = 0.

Definition no_files (pid : Z) (s : pfsd) : Prop :=
  forall x, x ∈ g_openfile_items s -> of_pid x <> pid.
Definition no_mounts (pid : Z) (s : pfsd) : Prop :=
  forall x, x ∈ g_mountlist_items s -> m_pid x <> pid.

Lemma find_openfile_first l i x :
  l !! i = Some x -> (forall j y, (j < i)%nat -> l !! j = Some y -> of_pid y <> of_pid x) ->
  find_openfile (of_fd x) (of_pid x) l = Some i.
Proof.
  revert i. induction l as [|y l IH]; intros i Hx Hbefore; [done|]. simpl.
  destruct i as [|i].
  - injection Hx as ->. by rewrite !Z.eqb_refl.
  - destruct (Z.eqb_spec (of_pid y) (of_pid x)) as [Heq|].
    { by destruct (Hbefore 0%nat y ltac:(lia) eq_refl). }
    rewrite andb_false_r, (IH i); [done..|]. intros j z Hj Hz. apply (Hbefore (S j)); [lia|done].
Qed.

(** The client's files closed, in the order of the table; the files of the others; and
    the table of mounts without the client's. *)
Definition closes (pid : Z) (l : list openfile_item_t) : trace :=
  (fun x => Ev (IomanX_close (of_fd x)) 0) <$> List.filter (fun x => of_pid x =? pid) l.
Definition others (pid : Z) (l : list openfile_item_t) : list openfile_item_t :=
  List.filter (fun x => negb (of_pid x =? pid)) l.
Definition freed (pid : Z) (l : list mountlist_item_t) : list mountlist_item_t :=
  (fun x => if m_pid x =? pid then free_mount else x) <$> l.

Lemma print_quiet {E} `{Handler E} {St} c st fmt args (s : St) (e : E) :
  wp (when c (call (Printf st fmt args))) (fun r s' _ t =>
    r = Ret tt /\ s' = s /\ calls_of (@resource_call) t = []) s e.
Proof. destruct c; cbn [when]; [|by apply wp_ret]. by apply wp_call; intros [] e' _. Qed.

Section Cleanup.
Context {E : Type} `{CloseWorks E} (fd : Z) (Hfd : fd <> 0).

Lemma close_owned f pid s i e :
  inv s -> find_openfile f pid (g_openfile_items s) = Some i ->
  wp (E := E) (rpc_command_close f pid) (fun r s' _ t =>
    r = Ret tt /\ s' = set_openfiles (delete i (g_openfile_items s)) s /\
    calls_of (@resource_call) t = [Ev (IomanX_close f) 0]) s e.
Proof using Type*.
  clear Hfd. intros Hs Hi. destruct (find_openfile_lookup _ _ _ _ Hi) as (x & Hx & <- & <-).
  pose proof (Forall_lookup_1 _ _ _ _ (inv_files s Hs) Hx) as (Hpos & _).
  unfold rpc_command_close, rpc_remap_fd. apply wp_bind, wp_bind, wp_get.
  unfold bind_post; cbn beta. rewrite Hi. apply wp_ret. unfold bind_post; cbn beta.
  apply wp_bind, wp_call. intros r e' Hr. unfold bind_post; cbn beta.
  pose proof (close_works (of_fd x) e Hpos) as Hz. rewrite Hr in Hz. simpl in Hz. subst r.
  cbn [Z.eqb when]. unfold rpc_common_close. apply wp_bind, wp_bind, wp_get.
  unfold bind_post; cbn beta. rewrite Hi. pose proof (lookup_lt_Some _ _ _ Hx).
  apply wp_bind, wp_assert; intros Hb; unfold bind_post; cbn beta;
    [|apply Nat.ltb_ge in Hb; lia].
  apply wp_put. unfold bind_post; cbn beta. apply wp_call. by intros [] ? _.
Qed.

(** The loop from entry [i] on, none of the client's before it. *)
Lemma cleanup_files_spec fuel i flag s e :
  inv s -> Forall (fun x => of_pid x <> fd) (take i (g_openfile_items s)) ->
  (length (g_openfile_items s) - i < fuel)%nat ->
  wp (E := E) (loop fuel (fun '(i, outputflag) =>
    s ← get;
    match g_openfile_items s !! i with
    | None => mret (inr outputflag)
    | Some x =>
        if of_pid x =? fd then
          when outputflag (printf (ln "%d terminated abnormally.") [PInt (of_pid x)]);;
          printf (ln "Cleanup: Close %d") [PInt (of_fd x)];;
          rpc_command_close (of_fd x) (of_pid x);;
          mret (inl (i, false))
        else mret (inl (S i, outputflag))
    end) (i, flag)) (fun r s' _ t =>
    (exists b, r = Ret b) /\ inv s' /\
    s' = set_openfiles (take i (g_openfile_items s) ++ others fd (drop i (g_openfile_items s))) s /\
    calls_of (@resource_call) t = closes fd (drop i (g_openfile_items s))) s e.
Proof using Type*.
  revert i flag s e. induction fuel as [|fuel IH]; intros i flag s e Hs Hbefore Hfuel; [lia|].
  apply wp_loop_S, wp_bind, wp_get. unfold bind_post at 1.
  destruct (g_openfile_items s !! i) as [x|] eqn:Hx.
  2:{ apply wp_ret. unfold bind_post. apply wp_ret. apply lookup_ge_None_1 in Hx.
      rewrite drop_ge, take_ge by lia. cbn. rewrite app_nil_r. split_and!; [by eexists|done|by destruct s|done]. }
  pose proof (lookup_lt_Some _ _ _ Hx) as Hlt.
  rewrite (drop_S _ _ _ Hx). unfold others, closes. cbn [List.filter].
  destruct (Z.eqb_spec (of_pid x) fd) as [Hpid|Hpid]; cbn [negb fmap list_fmap].
  - apply wp_bind. eapply wp_mono; [apply print_quiet|]. intros ? ? e2 t2 (-> & -> & Ht2). unfold bind_post at 1.
    apply wp_bind, wp_call. intros [] e3 _. unfold bind_post at 1. apply wp_bind.
    assert (Hfind : find_openfile (of_fd x) (of_pid x) (g_openfile_items s) = Some i).
    { apply find_openfile_first; [done|]. intros j y Hj Hy. rewrite Hpid. rewrite Forall_forall in Hbefore.
      apply Hbefore. apply list_elem_of_lookup. exists j. by rewrite lookup_take_lt. }
    eapply wp_mono; [by apply close_owned|]. intros ? ? e4 t4 (-> & -> & Ht4). unfold bind_post at 1.
    apply wp_ret. unfold bind_post. set (s1 := set_openfiles (delete i (g_openfile_items s)) s).
    assert (Hfiles : g_openfile_items s1 = take i (g_openfile_items s) ++ drop (S i) (g_openfile_items s))
      by apply delete_take_drop.
    assert (Htk : length (take i (g_openfile_items s)) = i) by (rewrite length_take; lia).
    eapply wp_mono; [apply (IH i false s1)|].
    + apply set_openfiles_inv; [done | | apply Forall_delete, (inv_files s Hs)].
      pose proof (length_delete_le (g_openfile_items s) i). pose proof (inv_count s Hs). lia.
    + by rewrite Hfiles, take_app_length'.
    + rewrite Hfiles, length_app, Htk, length_drop. lia.
    + rewrite Hfiles, take_app_length', drop_app_length' by done.
      intros r s' e' t (Hr & Hi & -> & Ht). split_and!; [done..|]. autorewrite with clist_rw. rewrite Ht2, Ht4, Ht. done.
  - apply wp_ret. unfold bind_post. eapply wp_mono; [apply (IH (S i) flag s)|]; [done| |lia|].
    + rewrite (take_S_r _ _ _ Hx). apply Forall_app. by repeat constructor.
    + rewrite (take_S_r _ _ _ Hx). intros r s' e' t (Hr & Hi & -> & Ht). rewrite <- app_assoc in Hi. rewrite <- app_assoc. done.
Qed.

Lemma mount_of_first s i x p :
  inv s -> g_mountlist_items s !! i = Some x -> m_pid x = fd -> m_str_fsprefix x = Some p ->
  (forall j y, (j < i)%nat -> g_mountlist_items s !! j = Some y -> m_pid y <> fd) ->
  mount_of s fd p = Some i.
Proof using Hfd.
  intros Hs Hx Hpid Hp Hbefore. unfold mount_of.
  destruct (find_spec s Hs (own_field fd p m_str_fsprefix)) as (j & Hj & Hle & Hb & Hat);
    [intros; apply own_field_defined; auto|].
  rewrite Hj. f_equal. destruct (Nat.lt_trichotomy j i) as [Hlt|[?|Hlt]]; [|done|].
  - destruct (lookup_lt_is_Some_2 (g_mountlist_items s) j) as [y Hy];
      [apply lookup_lt_Some in Hx; lia|].
    destruct (Hat y Hy) as [_ [Hpy _]%own_field_true]. by destruct (Hbefore j y).
  - specialize (Hb i x Hlt Hx). unfold own_field in Hb.
    rewrite Hpid, Z.eqb_refl, Hp in Hb. simpl in Hb. by rewrite bool_decide_true in Hb.
Qed.

(** No open file is in a slot of a client without files. *)
Lemma client_slot_unused i x s :
  inv s -> no_files fd s -> g_mountlist_items s !! i = Some x -> m_pid x = fd ->
  has_openfile i (g_openfile_items s) = false.
Proof using.
  intros Hs Hnf Hx Hpid. apply not_true_iff_false. unfold has_openfile.
  intros (f & Hin_f & Hfi)%existsb_exists. apply list_elem_of_In in Hin_f.
  apply Nat.eqb_eq in Hfi. pose proof (inv_files s Hs) as Hf. rewrite Forall_forall in Hf.
  destruct (Hf f Hin_f) as (_ & _ & _ & Hm). rewrite Hfi in Hm. specialize (Hm x Hx).
  apply (Hnf f Hin_f). congruence.
Qed.

Lemma freed_slot (x : mountlist_item_t) l i :
  l !! i = Some x -> m_pid x = fd -> freed fd (<[i := free_mount]> l) = freed fd l.
Proof using.
  intros Hx Hp. unfold freed. rewrite list_fmap_insert. apply list_insert_id.
  rewrite list_lookup_fmap, Hx. cbn. rewrite (proj2 (Z.eqb_eq _ _) Hp). f_equal. by case_bool.
Qed.

Lemma freed_none l : Forall (fun x => m_pid x <> fd) l -> freed fd l = l.
Proof using.
  unfold freed. induction 1 as [|x l Hx _ IH]; [done|]. rewrite fmap_cons, IH.
  by rewrite (proj2 (Z.eqb_neq _ _) Hx).
Qed.

Lemma cleanup_mounts_spec n i flag s e :
  inv s -> no_files fd s -> (i + n = MAX_ITEMS)%nat ->
  (forall j y, (j < i)%nat -> g_mountlist_items s !! j = Some y -> m_pid y <> fd) ->
  wp (E := E) (cleanup_mounts n i fd flag) (fun r s' _ t =>
    (exists b, r = Ret b) /\ inv s' /\ s' = set_mounts (freed fd (g_mountlist_items s)) s /\
    calls_of (@resource_call) t = []) s e.
Proof using Hfd.
  revert i flag s e. induction n as [|n IH]; intros i flag s e Hs Hnf Hin Hbefore; simpl.
  - apply wp_ret. rewrite freed_none; [split_and!; [by eexists|done|by destruct s|done]|].
    apply Forall_forall. intros y [j Hy]%list_elem_of_lookup. apply (Hbefore j); [|done].
    apply lookup_lt_Some in Hy. rewrite (inv_mounts s Hs) in Hy. lia.
  - apply wp_bind, wp_get. unfold bind_post; cbn beta.
    destruct (lookup_lt_is_Some_2 (g_mountlist_items s) i) as [x Hx];
      [rewrite (inv_mounts s Hs); lia|].
    rewrite Hx. apply wp_bind, wp_deref. unfold bind_post; cbn beta.
    apply wp_if; intros Hpid; boolP.
    + pose proof (Forall_lookup_1 _ _ _ _ (inv_slots s Hs) Hx) as Hslot.
      destruct (Hslot ltac:(congruence)) as (a & c & d & Ha & _). rewrite Ha.
      apply wp_bind, wp_deref. unfold bind_post; cbn beta. apply wp_bind.
      eapply wp_mono; [apply print_quiet|]. intros ? ? e2 t2 (-> & -> & Ht2). unfold bind_post; cbn beta.
      apply wp_bind, wp_call. intros [] e3 _. unfold bind_post; cbn beta. apply wp_bind.
      assert (Hfree : has_openfile i (g_openfile_items s) = false) by by apply (client_slot_unused i x).
      eapply wp_mono.
      { apply wp_and; [apply umount_granted with (i := i) (x := x)|apply umount_never_umounts]; try done; try congruence.
        rewrite Hpid. by eapply mount_of_first. }
      intros r s2 e4 t4 [[-> ->] Ht4]. unfold bind_post; cbn beta.
      eapply wp_mono; [apply IH|]; [| done | lia | | ].
      * apply set_slot_inv; [done | by intros [] | by apply has_openfile_false].
      * intros j y Hj Hy. simpl in Hy. destruct (decide (j = i)) as [->|].
        -- rewrite list_lookup_insert_eq in Hy by (by eapply lookup_lt_Some).
           injection Hy as <-. simpl. done.
        -- rewrite list_lookup_insert_ne in Hy by done. apply (Hbefore j); [lia|done].
      * intros r s' e' t (Hr & Hi & -> & Ht). cbn [g_mountlist_items set_mounts] in Hi |- *.
        rewrite (freed_slot x) in Hi |- * by done. split_and!; [done..|].
        autorewrite with clist_rw. by rewrite Ht2, Ht, (no_resource_calls _ Ht4).
    + apply IH; [done | done | lia |]. intros j y Hj Hy.
      destruct (decide (j = i)) as [->|]; [by rewrite Hx in Hy; injection Hy as <-|].
      apply (Hbefore j); [lia|done].
Qed.

(** What is left when client [i] is gone. *)
Definition without_client (i : nat) (s : pfsd) : pfsd :=
  set_clients (delete i (g_clients s))
    (set_mounts (freed fd (g_mountlist_items s)) (set_openfiles (others fd (g_openfile_items s)) s)).

Lemma without_client_none i s :
  no_files fd (without_client i s) /\ no_mounts fd (without_client i s).
Proof using Hfd.
  split.
  - intros x Hx. apply list_elem_of_In, List.filter_In in Hx as [_ Hx]. by boolP.
  - intros x (y & -> & _)%list_elem_of_fmap. case_bool; boolP; [|done]. cbn. congruence.
Qed.

Lemma cleanup_client_spec fuel i s e :
  inv s -> g_clients s !! i = Some fd -> (length (g_openfile_items s) < fuel)%nat ->
  wp (E := E) (cleanup_client fuel i) (fun r s' _ t =>
    r = Ret tt /\ inv s' /\ s' = without_client i s /\
    exists v, calls_of (@resource_call) t = closes fd (g_openfile_items s) ++ [Ev (Host_close fd) v]) s e.
Proof using Type*.
  intros Hs Hc Hfuel. unfold cleanup_client. apply wp_bind, wp_get. unfold bind_post; cbn beta.
  rewrite Hc. apply wp_bind, wp_deref. unfold bind_post; cbn beta. apply wp_bind.
  eapply wp_mono; [apply (cleanup_files_spec fuel 0 true s); [done|constructor|lia]|].
  intros r s1 e1 t1 ([flag ->] & Hs1 & -> & Ht1). unfold bind_post; cbn beta.
  rewrite drop_0 in Ht1. cbn [take app drop] in *.
  set (s1 := set_openfiles _ s) in *. apply wp_bind. eapply wp_mono.
  { apply (cleanup_mounts_spec MAX_ITEMS 0 flag s1); [done | | done | intros; lia].
    intros x Hx. apply list_elem_of_In, List.filter_In in Hx as [_ Hx]. by boolP. }
  intros r s2 e2 t2 ([flag' ->] & Hs2 & -> & Ht2). unfold bind_post; cbn beta.
  set (s2 := set_mounts _ s1) in *. apply wp_bind.
  assert (Hq : wp (E := E) (when (negb flag' && debug_mode s2) output_statistics)
    (fun r s' _ t => r = Ret tt /\ s' = s2 /\ calls_of (@resource_call) t = []) s2 e2).
  { apply wp_when; intros _; [|done].
    eapply wp_mono; [apply wp_and; [by apply output_statistics_returns|apply output_statistics_quiet]|].
    intros r s' e' t [[[[] ->] ->] Ht]. by rewrite (no_resource_calls _ Ht). }
  eapply wp_mono; [apply Hq|]. intros r s3 e3 t3 (-> & -> & Ht3). unfold bind_post; cbn beta.
  apply wp_bind, wp_call. intros v e4 _. unfold bind_post; cbn beta. apply wp_modify.
  split_and!; [done| |done|].
  - apply set_clients_inv; [done | apply Forall_delete, (inv_clients s2 Hs2) |].
    pose proof (length_delete_le (g_clients s2) i). pose proof (inv_nclients s2 Hs2). lia.
  - exists v. autorewrite with clist_rw. rewrite Ht1, Ht2, Ht3. done.
Qed.
End Cleanup.

(** ** When closing fails *)

Section CloseFails.
Context {E : Type} `{Handler E} (fd : Z).
Context (Hfail : forall f e, fst (handle (IomanX_close f) e) <> 0).

Lemma close_fails_same f pid s e :
  wp (E := E) (rpc_command_close f pid) (fun r s' _ _ => r = Ret tt /\ s' = s) s e.
Proof using Hfail.
  unfold rpc_command_close. apply wp_bind.
  assert (Hr : returns (E := E) (rpc_remap_fd f pid) s).
  { unfold rpc_remap_fd. apply returns_get_bind.
    destruct (find_openfile f pid (g_openfile_items s)); [apply returns_ret|].
    apply returns_bind; [apply returns_call | intros; apply returns_ret]. }
  eapply wp_mono; [apply Hr|]. intros r s' e' t [[g ->] ->]. unfold bind_post; cbn beta.
  apply wp_bind, wp_call. intros r e2 Hh. unfold bind_post; cbn beta.
  pose proof (Hfail g e') as Hz. rewrite Hh in Hz. simpl in Hz.
  rewrite (proj2 (Z.eqb_neq r 0) Hz). cbn [when]. apply wp_bind, wp_ret.
  unfold bind_post; cbn beta. apply wp_call. by intros [] ? _.
Qed.

Lemma cleanup_files_stuck fuel i k x flag s e :
  (i <= k)%nat -> g_openfile_items s !! k = Some x -> of_pid x = fd ->
  wp (E := E) (loop fuel (fun '(i, outputflag) =>
    s ← get;
    match g_openfile_items s !! i with
    | None => mret (inr outputflag)
    | Some x =>
        if of_pid x =? fd then
          when outputflag (printf (ln "%d terminated abnormally.") [PInt (of_pid x)]);;
          printf (ln "Cleanup: Close %d") [PInt (of_fd x)];;
          rpc_command_close (of_fd x) (of_pid x);;
          mret (inl (i, false))
        else mret (inl (S i, outputflag))
    end) (i, flag)) (fun r _ _ _ => r = OutOfFuel) s e.
Proof using Hfail.
  intros Hik Hx Hpid. revert i flag e Hik.
  induction fuel as [|fuel IH]; intros i flag e Hik; [by apply wp_loop_O|].
  apply wp_loop_S. apply wp_bind, wp_get. unfold bind_post; cbn beta.
  destruct (lookup_lt_is_Some_2 (g_openfile_items s) i) as [y Hy];
    [apply lookup_lt_Some in Hx; lia|].
  rewrite Hy. apply wp_if; intros Hp; boolP.
  - apply wp_bind.
    assert (Hq : returns (E := E) (when flag (printf (ln "%d terminated abnormally.") [PInt (of_pid y)])) s)
      by (apply returns_when, returns_call).
    eapply wp_mono; [apply Hq|]. intros r s2 e2 t2 [[[] ->] ->]. unfold bind_post; cbn beta.
    apply wp_bind, wp_call. intros [] e3 _. unfold bind_post; cbn beta. apply wp_bind.
    eapply wp_mono; [apply close_fails_same|]. intros r s' e4 t4 [-> ->].
    unfold bind_post; cbn beta. apply wp_ret. unfold bind_post; cbn beta. by apply IH.
  - apply wp_ret. unfold bind_post; cbn beta. apply IH.
    destruct (decide (i = k)) as [->|]; [|lia]. rewrite Hx in Hy. injection Hy as <-. done.
Qed.
End CloseFails.

(** ** Opening and mounting *)

Definition is_mount_call (A : Type) (c : ioE A) : bool :=
  match c with IomanX_mount _ _ _ _ _ => true | _ => false end.

Section OpenMount.
Context {E : Type} `{Handler E}.

Lemma find_openfile_snoc f pid i l :
  find_openfile f pid l = None ->
  find_openfile f pid (l ++ [mk_openfile f pid i]) = Some (length l).
Proof.
  induction l as [|x l IH]; simpl; [by rewrite !Z.eqb_refl|].
  destruct (_ && _); [done|]. destruct (find_openfile f pid l); [done|]. by intros; rewrite IH.
Qed.

(** One entry more, with the index of the client's mount. *)
Lemma common_open_spec name pid s e f :
  inv s -> pid <> 0 -> table_full s = false -> 0 <= f ->
  wp (E := E) (rpc_common_open f pid name) (fun r s' _ _ => r = Ret tt /\ inv s' /\
    exists i, s' = set_openfiles (g_openfile_items s ++ [mk_openfile f pid i]) s) s e.
Proof.
  intros Hs Hp Hroom Hf.
  assert (Hlen : (length (g_openfile_items s) < MAX_ITEMS)%nat).
  { unfold table_full in Hroom. apply negb_false_iff in Hroom. by apply Nat.ltb_lt. }
  pose proof (rpc_common_open_keeps (E := E) f pid name s Hs Hf Hp Hlen e) as Hk. revert Hk.
  unfold rpc_common_open.
  destruct (find_spec s Hs (own_prefix pid name)) as (i & Hi & Hle & _ & Hat);
    [intros; by apply own_prefix_defined|].
  intros Hk.
  cut (wp (E := E) (rpc_common_open f pid name) (fun r s' _ _ => r = Ret tt /\
         s' = set_openfiles (g_openfile_items s ++ [mk_openfile f pid i]) s) s e).
  { intros Hc. unfold wp in Hk, Hc |- *. destruct Hk as (_ & Hinv & _). destruct Hc as [Hr Hst].
    unfold rpc_common_open in Hr, Hst. split_and!; [exact Hr | exact Hinv | by exists i]. }
  unfold rpc_common_open. apply wp_bind, wp_get. unfold bind_post; cbn beta. rewrite Hi.
  apply wp_bind, wp_deref. unfold bind_post; cbn beta. apply wp_bind.
  assert (Hq : returns (E := E) (when ((i =? MAX_ITEMS)%nat && negb (String.prefix "hdd" name))
    (printf (ln "Invalid filename '%s', fd%d pid%d.") [PStr name; PInt f; PInt pid])) s)
    by (apply returns_when, returns_call).
  eapply wp_mono; [apply Hq|]. intros r s2 e5 t2 [[[] ->] ->]. unfold bind_post; cbn beta.
  apply wp_bind, wp_assert; intros Hb; unfold bind_post; cbn beta;
    [by apply wp_put | apply Nat.ltb_ge in Hb; lia].
Qed.

(** A successful open. *)
Lemma open_granted name flags mode pid s e f :
  inv s -> pid <> 0 -> name_fits NAME_BUF name -> table_full s = false -> 0 <= f ->
  (forall e0, exists e', handle (IomanX_open (remapped s pid name) flags mode) e0 = (f, e')) ->
  wp (E := E) (rpc_command_open name flags mode pid) (fun r s' _ _ => r = Ret tt /\ inv s' /\
    exists i, s' = set_openfiles (g_openfile_items s ++ [mk_openfile f pid i]) s) s e.
Proof.
  intros Hs Hp Hfit Hroom Hf Hopen. unfold rpc_command_open.
  apply wp_bind, wp_get. unfold bind_post; cbn beta. rewrite Hroom. apply wp_bind, wp_bind.
  eapply wp_mono; [by apply rpc_remap_name_spec|]. intros r s1 e2 t [-> ->].
  unfold bind_post; cbn beta. apply wp_call. intros r e3 Hr. unfold bind_post; cbn beta.
  destruct (Hopen e2) as [e' He']. rewrite He' in Hr. injection Hr as <- <-.
  apply wp_bind, wp_call. intros [] e4 _. unfold bind_post; cbn beta.
  rewrite (proj2 (Z.leb_le 0 f) Hf). cbn [when].
  eapply wp_mono; [by apply common_open_spec|]. done.
Qed.

Lemma mount_no_slot fsname dev flag u n pid s e :
  find_free_mount_info s = Some MAX_ITEMS ->
  wp (E := E) (rpc_command_mount fsname dev flag u n pid) (fun r s' _ t =>
    r = Ret tt /\ s' = s /\ t = [Ev (Reply pid (-24)) tt]) s e.
Proof.
  intros Hf. unfold rpc_command_mount. apply wp_bind, wp_get. unfold bind_post; cbn beta.
  rewrite Hf. apply wp_bind, wp_deref. unfold bind_post; cbn beta. apply wp_bind.
  rewrite Nat.ltb_irrefl. apply wp_ret. unfold bind_post; cbn beta. cbn [Z.eqb when].
  apply wp_bind, wp_ret. unfold bind_post; cbn beta. apply wp_call. by intros [] ? _.
Qed.

Lemma mount_twice fsname dev flag u n pid s e free i :
  find_free_mount_info s = Some free -> (free < MAX_ITEMS)%nat ->
  mount_of s pid fsname = Some i -> (i < MAX_ITEMS)%nat ->
  wp (E := E) (rpc_command_mount fsname dev flag u n pid) (fun r s' _ t =>
    r = Ret tt /\ s' = s /\ t = [Ev (Reply pid (-16)) tt]) s e.
Proof.
  intros Hf Hlt Hi Hilt. unfold mount_of in Hi. unfold rpc_command_mount.
  apply wp_bind, wp_get. unfold bind_post; cbn beta. rewrite Hf.
  apply wp_bind, wp_deref. unfold bind_post; cbn beta. apply wp_bind.
  rewrite (proj2 (Nat.ltb_lt _ _) Hlt), Hi. apply wp_bind, wp_deref. unfold bind_post; cbn beta.
  rewrite (proj2 (Nat.leb_gt _ _) Hilt). apply wp_ret. unfold bind_post; cbn beta. cbn [Z.eqb when].
  apply wp_bind, wp_ret. unfold bind_post; cbn beta. apply wp_call. by intros [] ? _.
Qed.

(** A device that is busy because another client has it mounted is shared. *)
Lemma mount_shares fsname dev flag (u : bool) n pid s e free j x c e' :
  inv s -> pid <> 0 ->
  find_free_mount_info s = Some free -> (free < MAX_ITEMS)%nat ->
  mount_of s pid fsname = Some MAX_ITEMS ->
  handle (IomanX_mount fsname (before_comma dev) flag
            (if u then ArgBytes (ShmPtr s) else ArgNull) n) e = (-16, e') ->
  find_mount (other_mount_of (before_comma dev)) s = Some j ->
  g_mountlist_items s !! j = Some x -> m_str_containerpath x = Some c ->
  wp (E := E) (rpc_command_mount fsname dev flag u n pid) (fun r s' _ t =>
    r = Ret tt /\
    s' = set_mounts (<[free := mk_mount pid (Some fsname) (Some c) (Some (before_comma dev))]>
                       (g_mountlist_items s)) s /\
    calls_of is_mount_call t =
      [Ev (IomanX_mount fsname (before_comma dev) flag
             (if u then ArgBytes (ShmPtr s) else ArgNull) n) (-16)]) s e.
Proof.
  intros Hs Hp Hf Hlt Hi Hbusy Hj Hx Hc. unfold mount_of in Hi. unfold rpc_command_mount.
  apply wp_bind, wp_get. unfold bind_post; cbn beta. rewrite Hf.
  apply wp_bind, wp_deref. unfold bind_post; cbn beta. apply wp_bind.
  rewrite (proj2 (Nat.ltb_lt _ _) Hlt), Hi. apply wp_bind, wp_deref. unfold bind_post; cbn beta.
  rewrite Nat.leb_refl. apply wp_bind. unfold shm_arg. apply wp_bind, wp_get.
  unfold bind_post; cbn beta. apply wp_ret. unfold bind_post; cbn beta.
  apply wp_bind, wp_call. intros r e2 Hr. rewrite Hbusy in Hr. injection Hr as <- <-.
  unfold bind_post; cbn beta. cbn [Z.eqb Pos.eqb].
  rewrite Hj. apply wp_bind, wp_deref. unfold bind_post; cbn beta. rewrite Hx, Hc.
  apply wp_bind, wp_deref. unfold bind_post; cbn beta. apply wp_ret.
  unfold bind_post; cbn beta. cbn [Z.eqb when]. apply wp_bind, wp_put.
  unfold bind_post; cbn beta. apply wp_call. by intros [] ? _.
Qed.
End OpenMount.

(** ** A sample environment *)

Module DaemonSample.
#[export] Instance drivers : Handler unit := fun A c e =>
  match c in ioE A return A * unit with
  | IomanX_close fd => (if fd =? -1 then -9 else 0, e)
  | IomanX_open _ _ _ => (5, e)
  | Host_accept _ => (7, e)
  | Host_peer_pid _ => (100, e)
  | Host_capget _ => ((0, 0x20000), e)
  | c => (default_answer c, e)
  end.

#[export] Instance drivers_env : DaemonEnv unit.
Proof.
  constructor; try (intros; simpl; lia).
  - intros name e. split; [by repeat constructor | done].
  - intros fd e. split; [by repeat constructor | done].
Defined.

#[export] Instance drivers_close : CloseWorks unit.
Proof. intros fd e Hfd. simpl. destruct (Z.eqb_spec fd (-1)); [lia|done]. Defined.

(** Drivers whose close fails. *)
Definition broken : Handler unit := fun A c e =>
  match c in ioE A return A * unit with
  | IomanX_close fd => (-5, e)
  | c => (default_answer c, e)
  end.

(** Client 4 has [pfs0:] mounted and descriptor 9 open in it; client 6 is connected. *)
Definition mounted : pfsd :=
  mk_pfsd [mk_openfile 9 4 0]
    (mk_mount 4 (Some "game:"%string) (Some "pfs0:"%string) (Some "hdd0:GAME"%string) ::
     replicate 31 free_mount) [4; 6] 3 (replicate SHM_SIZE 0) false.

Lemma mounted_inv : inv mounted.
Proof.
  constructor; cbn [g_openfile_items g_mountlist_items ShmPtr g_clients mounted].
  - reflexivity.
  - constructor; [|apply Forall_replicate; by intros []].
    intros _. exists "game:"%string, "pfs0:"%string, "hdd0:GAME"%string.
    split_and!; try done; unfold CONTAINER_MAX; simpl; lia.
  - simpl. unfold MAX_ITEMS. lia.
  - constructor; [|constructor]. split_and!; simpl; [lia | done | unfold MAX_ITEMS; lia |].
    by intros y [= <-].
  - apply length_replicate.
  - by repeat constructor.
  - simpl. unfold MAX_ITEMS. lia.
Defined.
End DaemonSample.

(** ** Properties *)

Import DaemonSample.

(** C19: the daemon's tables stay well formed: in every state reached by whole turns
    (connections, requests, hang-ups, in any order) there are 32 slots whose used
    ones hold their strings, at most 32 open files, each owned by the client of its
    mount, and fewer than 32 clients; and from there a turn never runs into undefined
    behaviour, save for a connection beyond the 30th client already there. *)
Theorem daemon_invariant `{DaemonEnv E} hdd s fuel new_client evs e :
  reachable (E := E) hdd s -> events_ok evs ->
  (new_client = true -> (length (g_clients s) < MAX_ITEMS - 1)%nat) ->
  inv s /\ o_res (poll_turn hdd fuel new_client evs s e) <> Undef.
Proof.
  intros Hr Hevs Hnew. pose proof (reachable_inv hdd s Hr) as Hs. split; [done|].
  by destruct (poll_turn_keeps hdd fuel new_client evs s Hs Hevs Hnew e).
Qed.

Lemma daemon_invariant_witness :
  o_res (poll_turn 3 1 true [] (initial_state 3 false) tt) <> Undef.
Proof.
  refine (proj2 (daemon_invariant 3 (initial_state 3 false) 1 true [] tt _ _ _)).
  - constructor.
  - constructor.
  - intros _. simpl. unfold MAX_ITEMS. lia.
Defined.

(** C34: descriptors are isolated: whatever a request says, every descriptor that its
    handling passes to the file layer is -1 or one that the same client has open. *)
Theorem fd_isolation `{Handler E} hdd garbage fd req s e :
  Forall (fd_allowed s fd) (o_tr (event_handler_func (E := E) hdd garbage fd req s e)).
Proof. apply event_handler_fds. Qed.

(** C33: names are isolated.  Every name of a file or directory that the handling of a
    request passes on is one of the request's own, with the prefix of the client's own
    mount replaced by its container; and where it lies in a container of any client, it
    has been blanked or lies in a container of this client.  UMOUNT unmounts only the
    client's own container.  The exceptions are FORMAT and MOUNT, whose own device names
    reach the driver as they come, and which call it with nothing else. *)
Theorem name_isolation `{Handler E} hdd garbage pid req s e :
  inv s -> pid <> 0 ->
  Forall (name_allowed s pid req) (o_tr (event_handler_func (E := E) hdd garbage pid req s e)).
Proof. intros Hs Hp. by apply event_handler_names. Qed.

Lemma name_isolation_witness :
  Forall (name_allowed mounted 6 (PFSD_REQ_RENAME "pfs0:/a" "pfs1:/b"))
    (o_tr (event_handler_func 3 0 6 (PFSD_REQ_RENAME "pfs0:/a" "pfs1:/b") mounted tt)) /\
  Ev (IomanX_rename "" "pfs1:/b") 0 ∈ o_tr (event_handler_func 3 0 6 (PFSD_REQ_RENAME "pfs0:/a" "pfs1:/b") mounted tt).
Proof.
  split; [by apply (name_isolation 3 0 6 _ mounted tt mounted_inv)|].
  apply list_elem_of_lookup_2 with (i := 1%nat). by vm_compute.
Defined.

(** Every request is answered as often as the protocol has it: when its handling
    ends, one reply was sent, two for GETMOUNTPOINT (the second an uninitialised
    value), none for an unknown command. *)
Theorem handler_replies `{Handler E} hdd garbage fd req s e :
  let o := event_handler_func (E := E) hdd garbage fd req s e in
  o_res o = Ret tt -> replies (o_tr o) = reply_count req.
Proof.
  intros o Ho. pose proof (event_handler_counts hdd garbage fd req s e) as Hc.
  unfold wp in Hc. fold o in Hc. by rewrite Ho in Hc.
Qed.

Lemma handler_replies_witness :
  replies (o_tr (event_handler_func 3 0 4 (PFSD_REQ_CLOSE 9) mounted tt)) = 1%nat.
Proof. apply (handler_replies 3 0 4 (PFSD_REQ_CLOSE 9) mounted tt). reflexivity. Defined.

(** C37: a client's resources go with it.  When closing an open descriptor works, the
    clean-up after a hang-up returns and calls the file layer for one thing only: each
    file the client has open is closed, once and in the order of the table, before the
    connection is.  What is left are the tables without the client, its files and its
    mounts, those of the other clients as they were.  The driver is not asked to unmount:
    the mounts go from the table alone. *)
Theorem cleanup_client_releases `{CloseWorks E} fuel i fd s e :
  inv s -> g_clients s !! i = Some fd -> (length (g_openfile_items s) < fuel)%nat ->
  let o := cleanup_client (E := E) fuel i s e in
  o_res o = Ret tt /\ inv (o_st o) /\ o_st o = without_client fd i s /\
  exists v, calls_of (@resource_call) (o_tr o) = closes fd (g_openfile_items s) ++ [Ev (Host_close fd) v].
Proof.
  intros Hs Hc Hfuel. refine (cleanup_client_spec fd _ fuel i s e Hs Hc Hfuel).
  exact (Forall_lookup_1 _ _ _ _ (inv_clients s Hs) Hc).
Qed.

Lemma cleanup_client_releases_witness :
  o_res (cleanup_client 2 0 mounted tt) = Ret tt /\
  exists v, calls_of (@resource_call) (o_tr (cleanup_client 2 0 mounted tt)) =
    [Ev (IomanX_close 9) 0; Ev (Host_close 4) v].
Proof.
  destruct (cleanup_client_releases 2 0 4 mounted tt mounted_inv) as (Hr & _ & _ & Ht).
  - reflexivity.
  - simpl. lia.
  - split; [exact Hr | exact Ht].
Defined.

(** When the file layer refuses to close, the clean-up of a client with an open
    file never ends: the index is not moved on and the entry not removed, whatever
    the fuel. *)
Theorem cleanup_files_diverges `{Handler E} fuel fd x s e :
  (forall f e, fst (handle (IomanX_close f) e) <> 0) ->
  x ∈ g_openfile_items s -> of_pid x = fd ->
  o_res (cleanup_files (E := E) fuel fd s e) = OutOfFuel.
Proof.
  intros Hfail [k Hk]%list_elem_of_lookup Hp.
  exact (cleanup_files_stuck fd Hfail fuel 0 k x true s e ltac:(lia) Hk Hp).
Qed.

Lemma cleanup_files_diverges_witness :
  o_res (cleanup_files (H := broken) 50 4 mounted tt) = OutOfFuel.
Proof.
  apply (cleanup_files_diverges (H := broken) 50 4 (mk_openfile 9 4 0) mounted tt).
  - intros. simpl. lia.
  - list_mem.
  - reflexivity.
Defined.

(** Unmounting frees the client's slot, and only that: when no file is open in
    it the client is answered 0 and the slot becomes free, but the driver is never
    asked to unmount, whoever else uses the container or not. *)
Theorem umount_frees_slot_only `{Handler E} fsname pid s e i x :
  inv s -> pid <> 0 -> mount_of s pid fsname = Some i -> g_mountlist_items s !! i = Some x ->
  has_openfile i (g_openfile_items s) = false ->
  let o := rpc_command_umount (E := E) fsname pid s e in
  o_res o = Ret tt /\
  o_st o = set_mounts (<[i := free_mount]> (g_mountlist_items s)) s /\
  Forall no_resource (o_tr o).
Proof.
  intros Hs Hp Hi Hx Hf o.
  destruct (umount_granted fsname pid s e i x Hs Hp Hi Hx Hf) as [Hr Hst].
  split_and!; [exact Hr | exact Hst | by apply umount_never_umounts].
Qed.

Lemma umount_frees_slot_only_witness :
  Forall no_resource
    (o_tr (rpc_command_umount "game:" 4 (set_openfiles [] mounted) tt)).
Proof.
  refine (proj2 (proj2 (umount_frees_slot_only "game:" 4 (set_openfiles [] mounted) tt 0 _ _ _ _ _ _)));
    try reflexivity; [|done].
  apply set_openfiles_inv; [exact mounted_inv | simpl; lia | constructor].
Defined.

(** The 32nd client overflows: with 31 clients connected, accepting one that has
    the capability stores the listening socket past the end of the array. *)
Theorem add_new_client_overflow `{Handler E} s e fd e1 pid e2 eff e3 :
  length (g_clients s) = 31%nat ->
  handle (Host_accept (SocketFd s)) e = (fd, e1) -> 0 <= fd ->
  handle (Host_peer_pid fd) e1 = (pid, e2) -> pid <> -1 ->
  handle (Host_capget pid) e2 = ((0, eff), e3) -> flag eff 0x20000 = true ->
  o_res (add_new_client s e) = Undef.
Proof.
  intros Hlen Hacc Hfd Hpid Hne Hcap Hflag.
  cut (wp add_new_client (fun r _ _ _ => r = Undef) s e); [done|].
  unfold add_new_client, get_pid_from_socket_fd.
  apply wp_bind, wp_get. unfold bind_post; cbn beta. apply wp_bind, wp_call. intros r e' Hr.
  rewrite Hacc in Hr. injection Hr as <- <-. unfold bind_post; cbn beta.
  rewrite (proj2 (Z.ltb_ge fd 0) Hfd), Hlen. cbn [Nat.leb MAX_ITEMS].
  apply wp_bind, wp_bind, wp_call. intros r e' Hr. rewrite Hpid in Hr. injection Hr as <- <-.
  unfold bind_post; cbn beta. rewrite (proj2 (Z.eqb_neq pid (-1)) Hne).
  apply wp_ret. unfold bind_post; cbn beta. rewrite (proj2 (Z.eqb_neq pid (-1)) Hne).
  apply wp_bind, wp_call. intros r e' Hr. rewrite Hcap in Hr. injection Hr as <- <-.
  unfold bind_post; cbn beta. rewrite Hflag. cbn [orb negb Z.eqb].
  apply wp_bind, wp_assert; intros Hb; unfold bind_post; cbn beta; [|done].
  apply Nat.ltb_lt in Hb. rewrite length_app, Hlen in Hb. simpl in Hb. unfold MAX_ITEMS in Hb. lia.
Qed.

Lemma add_new_client_overflow_witness :
  o_res (add_new_client (set_clients (replicate 31 9) (initial_state 3 false)) tt) = Undef.
Proof.
  by apply (add_new_client_overflow _ tt 7 tt 100 tt 0x20000 tt).
Defined.

(** What a mount request comes to before the drivers decide: -24 with all slots
    in use, -16 for a prefix the client has mounted, neither touching the tables or
    the drivers; and a device the driver reports busy because some client has it
    mounted is shared, under that mount's container, without a second driver call. *)
Theorem mount_outcomes `{Handler E} fsname dev flag (u : bool) n pid s e :
  inv s -> pid <> 0 ->
  let o := rpc_command_mount (E := E) fsname dev flag u n pid s e in
  (find_free_mount_info s = Some MAX_ITEMS ->
     o_st o = s /\ o_tr o = [Ev (Reply pid (-24)) tt]) /\
  (forall free i, find_free_mount_info s = Some free -> (free < MAX_ITEMS)%nat ->
     mount_of s pid fsname = Some i -> (i < MAX_ITEMS)%nat ->
     o_st o = s /\ o_tr o = [Ev (Reply pid (-16)) tt]) /\
  (forall free j x c e',
     find_free_mount_info s = Some free -> (free < MAX_ITEMS)%nat ->
     mount_of s pid fsname = Some MAX_ITEMS ->
     handle (IomanX_mount fsname (before_comma dev) flag
               (if u then ArgBytes (ShmPtr s) else ArgNull) n) e = (-16, e') ->
     find_mount (other_mount_of (before_comma dev)) s = Some j ->
     g_mountlist_items s !! j = Some x -> m_str_containerpath x = Some c ->
     o_st o = set_mounts (<[free := mk_mount pid (Some fsname) (Some c) (Some (before_comma dev))]>
                            (g_mountlist_items s)) s /\
     length (calls_of is_mount_call (o_tr o)) = 1%nat).
Proof.
  intros Hs Hp o. split_and!.
  - intros Hf. by destruct (mount_no_slot fsname dev flag u n pid s e Hf) as (_ & ? & ?).
  - intros free i H1 H2 H3 H4.
    by destruct (mount_twice fsname dev flag u n pid s e free i H1 H2 H3 H4) as (_ & ? & ?).
  - intros free j x c e' H1 H2 H3 H4 H5 H6 H7.
    destruct (mount_shares fsname dev flag u n pid s e free j x c e' Hs Hp H1 H2 H3 H4 H5 H6 H7)
      as (_ & Hst & Hc). split; [exact Hst|]. unfold o. by rewrite Hc.
Qed.

Lemma mount_outcomes_witness :
  o_tr (rpc_command_mount "game:" "hdd0:GAME" 0 false 0 4 mounted tt) = [Ev (Reply 4 (-16)) tt].
Proof.
  destruct (mount_outcomes "game:" "hdd0:GAME" 0 false 0 4 mounted tt mounted_inv) as (_ & H2 & _);
    [done|].
  apply (H2 1%nat 0%nat); try reflexivity; unfold MAX_ITEMS; lia.
Defined.

(** Opening and closing is the identity on the tables: a client that opens a file
    and closes the descriptor it was given leaves the daemon as it found it. *)
Theorem open_close_roundtrip `{CloseWorks E} name flags mode pid f s e :
  inv s -> pid <> 0 -> name_fits NAME_BUF name -> table_full s = false -> 0 <= f ->
  (forall e0, exists e', handle (IomanX_open (remapped s pid name) flags mode) e0 = (f, e')) ->
  find_openfile f pid (g_openfile_items s) = None ->
  let o := (rpc_command_open name flags mode pid;; rpc_command_close f pid) s e in
  o_res o = Ret tt /\ o_st o = s.
Proof.
  intros Hs Hp Hfit Hroom Hf Hopen Hnew.
  cut (wp (rpc_command_open name flags mode pid;; rpc_command_close f pid)
         (fun r s' _ _ => r = Ret tt /\ s' = s) s e); [done|].
  apply wp_bind. eapply wp_mono; [by apply open_granted|].
  intros r s1 e1 t (-> & Hs1 & i & ->). unfold bind_post; cbn beta.
  eapply wp_mono.
  { apply close_owned; [exact Hs1|]. simpl. by apply find_openfile_snoc. }
  intros r s2 e2 t2 (-> & -> & _). split; [done|]. destruct s; unfold set_openfiles; simpl. f_equal.
  rewrite delete_middle. apply app_nil_r.
Qed.

Lemma open_close_roundtrip_witness :
  o_st ((rpc_command_open "game:/a" 1 0 4;; rpc_command_close 5 4) mounted tt) = mounted.
Proof.
  refine (proj2 (open_close_roundtrip "game:/a" 1 0 4 5 mounted tt mounted_inv _ _ _ _ _ _)).
  - done.
  - unfold name_fits, NAME_BUF, CONTAINER_MAX; simpl. lia.
  - reflexivity.
  - lia.
  - intros []. by exists tt.
  - reflexivity.
Defined.
