(* ===== verification/PfsdCalls.v ===== *)
(** * What the daemon calls while serving

    Serving removes no System V object, opens and reads no file of the host, and only a
    request to write writes. *)

From S2P Require Import Prelude IoWorld Trace Shm Pfsd.

(** The calls that remove the semaphore and the segment, or leave it. *)
Definition removal {A} (c : ioE A) : bool :=
  match c with Sys_semctl_rmid _ | Sys_shmdt | Sys_shmctl_rmid _ => true | _ => false end.

(** Opening or reading a file of the host. *)
Definition host_file_call {A} (c : ioE A) : bool :=
  match c with Host_open _ _ _ | Host_read _ _ => true | _ => false end.

(** A write to a file of a partition. *)
Definition writes {A} (c : ioE A) : bool :=
  match c with IomanX_write _ _ _ => true | _ => false end.

Section Serving.
Context {E : Type} `{Handler E} (p : forall A, ioE A -> bool).
Context (Hp : forall A (c : ioE A), p A c = true -> removal c || host_file_call c || writes c = true).
Local Abbreviation DM := (M pfsd E).
Local Abbreviation makes_none := (avoids (fun _ => True) p).

Lemma unasked {A} (c : ioE A) : removal c || host_file_call c || writes c = false -> p A c = false.
Proof. intros Hc. apply not_true_iff_false. intros Ht%Hp. by rewrite Hc in Ht. Qed.

Ltac calls_go :=
  repeat (cbv zeta; first [progress cbn [fst snd] | avoids_step | by apply unasked]); auto with avoids.

Lemma print_mounts_calls l n : makes_none (print_mounts l n : DM Z).
Proof. revert n. induction l as [|x l IH]; intros n; simpl; calls_go. Qed.
#[local] Hint Resolve print_mounts_calls : avoids.

Lemma output_statistics_calls : makes_none (output_statistics : DM unit).
Proof. unfold output_statistics. calls_go. Qed.
#[local] Hint Resolve output_statistics_calls : avoids.

Lemma blank_foreign_calls pid l name : makes_none (blank_foreign pid l name : DM string).
Proof. revert name. induction l as [|x l IH]; intros name; simpl; calls_go. Qed.
#[local] Hint Resolve blank_foreign_calls : avoids.

Lemma remap_calls cap name pid :
  makes_none (rpc_remap_name cap name pid : DM string).
Proof. unfold rpc_remap_name. calls_go. Qed.
#[local] Hint Resolve remap_calls : avoids.

Lemma remap_fd_calls fd pid : makes_none (rpc_remap_fd fd pid : DM Z).
Proof. unfold rpc_remap_fd. calls_go. Qed.
#[local] Hint Resolve remap_fd_calls : avoids.

Lemma common_calls fd pid name :
  makes_none (rpc_common_open fd pid name : DM unit) /\ makes_none (rpc_common_close fd pid : DM unit).
Proof. unfold rpc_common_open, rpc_common_close. split; calls_go. Qed.
#[local] Hint Extern 1 (avoids _ _ (rpc_common_open _ _ _)) => exact (proj1 (common_calls _ _ _)) : avoids.
#[local] Hint Extern 1 (avoids _ _ (rpc_common_close _ _)) => exact (proj2 (common_calls _ _ "")) : avoids.

Lemma shm_calls u data n :
  makes_none (shm_arg u : DM _) /\ makes_none (shm_store u data : DM _) /\
  makes_none (shm_load u n : DM _).
Proof. unfold shm_arg, shm_store, shm_load. split_and!; calls_go. Qed.
#[local] Hint Extern 1 (avoids _ _ (shm_arg _)) => exact (proj1 (shm_calls _ [] 0)) : avoids.
#[local] Hint Extern 1 (avoids _ _ (shm_store _ _)) => exact (proj1 (proj2 (shm_calls _ _ 0))) : avoids.
#[local] Hint Extern 1 (avoids _ _ (shm_load _ _)) => exact (proj2 (proj2 (shm_calls _ [] _))) : avoids.

Lemma try_containers_calls is_ dev flag arg n fs r :
  makes_none (try_containers is_ dev flag arg n fs r : DM _).
Proof. revert fs r. induction is_ as [|i is_ IH]; intros fs r; simpl; calls_go. Qed.
#[local] Hint Resolve try_containers_calls : avoids.

Lemma close_calls fd pid : makes_none (rpc_command_close fd pid : DM unit).
Proof. unfold rpc_command_close. calls_go. Qed.
#[local] Hint Resolve close_calls : avoids.

Lemma umount_calls name pid : makes_none (rpc_command_umount name pid : DM unit).
Proof. unfold rpc_command_umount, umount_cleanup. calls_go. Qed.
#[local] Hint Resolve umount_calls : avoids.

Lemma readahead_calls hdd : makes_none (scepfsGetReadAhead hdd : DM Z).
Proof. unfold scepfsGetReadAhead. calls_go. Qed.
#[local] Hint Resolve readahead_calls : avoids.

Definition write_request (req : request) : bool :=
  match req with PFSD_REQ_WRITE _ _ _ => true | _ => false end.

Lemma event_handler_calls hdd garbage fd req :
  (write_request req = true -> forall f d n, p _ (IomanX_write f d n) = false) ->
  makes_none (event_handler_func hdd garbage fd req : DM unit).
Proof.
  intros Hwr. destruct req; unfold event_handler_func, rpc_command_open, rpc_command_dopen,
    rpc_command_dclose, rpc_command_mount, rpc_command_getmountpoint, scepfsSetReadAhead; calls_go.
Qed.

Lemma cleanup_mounts_calls n i fd flag : makes_none (cleanup_mounts n i fd flag : DM bool).
Proof. revert i flag. induction n as [|n IH]; intros i flag; simpl; calls_go. Qed.
#[local] Hint Resolve cleanup_mounts_calls : avoids.

Lemma cleanup_client_calls fuel i : makes_none (cleanup_client fuel i : DM unit).
Proof. unfold cleanup_client, cleanup_files. calls_go. Qed.
#[local] Hint Resolve cleanup_client_calls : avoids.

Context (Hw : forall fd d n, p _ (IomanX_write fd d n) = false).

Lemma any_request_calls hdd garbage fd req :
  makes_none (event_handler_func hdd garbage fd req : DM unit).
Proof. by apply event_handler_calls. Qed.
#[local] Hint Resolve any_request_calls : avoids.

Lemma poll_clients_calls hdd fuel evs i : makes_none (poll_clients hdd fuel evs i : DM bool).
Proof. revert i. induction evs as [|ev evs IH]; intros i; simpl; calls_go. Qed.
#[local] Hint Resolve poll_clients_calls : avoids.

Lemma poll_turn_calls hdd fuel new evs : makes_none (poll_turn hdd fuel new evs : DM bool).
Proof. unfold poll_turn, add_new_client, get_pid_from_socket_fd. calls_go. Qed.
End Serving.
