(* ===== verification/Sema.v ===== *)
(** * Semaphores (src/subprojects/fakeps2sdk/thsemap.c)

    The IOP's semaphores over POSIX ones, in a table of 100 pointers; the branch
    for hosts without named semaphores.  A component that uses them keeps the
    table in its state: the class [HasSema]. *)

From S2P Require Import Prelude IoWorld.

Definition SEMA_COUNT : nat := 100.
Definition SEM_VALUE_MAX : Z := 0x7FFFFFFF.

(** [sem]: [None] is the null pointer, [Some n] a [sem_t] that counts [n]. *)
Abbreviation sem_table := (list (option Z)).

Definition initial_sem : sem_table := replicate SEMA_COUNT None.

Record iop_sema_t := mk_iop_sema {
  sema_attr : Z;
  sema_option : Z;
  sema_initial : Z;
  sema_max : Z
}.

Class HasSema (St : Type) := {
  sem : St -> sem_table;
  set_sem : sem_table -> St -> St;
  sem_set_sem : forall t s, sem (set_sem t s) = t;
  set_sem_sem : forall s, set_sem (sem s) s = s;
  set_sem_twice : forall t t' s, set_sem t (set_sem t' s) = set_sem t s
}.

#[export] Instance sem_table_has_sema : HasSema sem_table.
Proof. by refine {| sem := fun t => t; set_sem := fun t _ => t |}. Defined.

(** [while (i < SEMA_COUNT && sem[i] != NULL) ++i;] *)
Fixpoint first_null (t : sem_table) : nat :=
  match t with
  | None :: _ => O
  | Some _ :: t' => S (first_null t')
  | [] => O
  end.

(** [semid >= 0 && semid < SEMA_COUNT] *)
Definition valid_semid (semid : Z) : bool := (0 <=? semid) && (semid <? Z.of_nat SEMA_COUNT).

Section Sema.
Context {St E : Type} `{HasSema St} `{Handler E}.

Definition set_entry (i : nat) (v : option Z) (s : St) : St := set_sem (<[i := v]> (sem s)) s.

(** The count is 1 whatever [sema] asks for. *)
Definition CreateSema (sema : iop_sema_t) : M St E Z :=
  s ← get;
  let i := first_null (sem s) in
  if (i <? SEMA_COUNT)%nat then
    ok ← call (Host_malloc 32);
    if (ok : bool) then
      retv ← call (Host_sem_init 1);
      if negb (retv =? -1) then
        modify (set_entry i (Some 1));; mret (Z.of_nat i)
      else
        errno ← call Get_errno;
        printf (ln "sem_init failed with %d") [PInt errno];;
        modify (set_entry i None);; mret (-1)
    else
      errno ← call Get_errno;
      printf (ln "sem_open failed with %d") [PInt errno];; mret (-1)
  else
    printf (ln "too many semaphores allocated") [];; mret (-1).

Definition DeleteSema (semid : Z) : M St E Z :=
  if valid_semid semid then
    s ← get;
    p ← deref (sem s !! Z.to_nat semid);
    match p with
    | Some _ =>
        retv ← call Host_sem_destroy;
        if retv =? 0 then modify (set_entry (Z.to_nat semid) None);; mret 0
        else
          errno ← call Get_errno;
          printf (ln "sem_close failed with %d") [PInt errno];; mret (-1)
    | None => printf (ln "DeleteSema: already freed: %d") [PInt semid];; mret (-1)
    end
  else printf (ln "DeleteSema: invalid index: %d") [PInt semid];; mret (-1).

(** [sem_wait] of a semaphore at 0 waits for another thread: [Blocked]. *)
Definition WaitSema (semid : Z) : M St E Z :=
  if valid_semid semid then
    s ← get;
    p ← deref (sem s !! Z.to_nat semid);
    match p with
    | Some n =>
        if 0 <? n then modify (set_entry (Z.to_nat semid) (Some (n - 1)));; mret 0
        else stop Blocked
    | None => printf (ln "WaitSema: already freed: %d") [PInt semid];; mret (-1)
    end
  else printf (ln "WaitSema: invalid index: %d") [PInt semid];; mret (-1).

(** [sem_post] fails at the largest count. *)
Definition SignalSema (semid : Z) : M St E Z :=
  if valid_semid semid then
    s ← get;
    p ← deref (sem s !! Z.to_nat semid);
    match p with
    | Some n =>
        if n <? SEM_VALUE_MAX then modify (set_entry (Z.to_nat semid) (Some (n + 1)));; mret 0
        else mret (-1)
    | None => printf (ln "SignalSema: already freed: %d") [PInt semid];; mret (-1)
    end
  else printf (ln "SignalSema: invalid index: %d") [PInt semid];; mret (-1).
End Sema.

(** ** Lemmas for the clients *)

Section SemaLemmas.
Context {St E : Type} `{HasSema St} `{Handler E}.
Implicit Types (s : St) (e : E) (t : sem_table).

(** [semid] is a semaphore with count [n]. *)
Definition counts (s : St) (semid n : Z) : Prop :=
  valid_semid semid = true /\ sem s !! Z.to_nat semid = Some (Some n).

Lemma sem_set_entry i v s : sem (set_entry i v s) = <[i := v]> (sem s).
Proof. apply sem_set_sem. Qed.

Lemma set_entry_twice i v w s : set_entry i v (set_entry i w s) = set_entry i v s.
Proof.
  unfold set_entry. rewrite sem_set_sem, set_sem_twice. by rewrite list_insert_insert_eq.
Qed.

Lemma set_entry_same i v s : sem s !! i = Some v -> set_entry i v s = s.
Proof. intros Hi. unfold set_entry. by rewrite list_insert_id, set_sem_sem. Qed.

Lemma counts_set semid n m s :
  counts s semid n -> counts (set_entry (Z.to_nat semid) (Some m) s) semid m.
Proof.
  intros [Hv Hl]. split; [done|]. rewrite sem_set_entry.
  apply list_lookup_insert_eq. by eapply lookup_lt_Some.
Qed.

Lemma WaitSema_free semid n s e :
  counts s semid n -> 0 < n ->
  (WaitSema semid : M St E Z) s e =
    Out (Ret 0) (set_entry (Z.to_nat semid) (Some (n - 1)) s) e [].
Proof.
  intros [Hv Hl] Hn. unfold WaitSema. rewrite Hv.
  unfold mbind, M_bind, bind_outcome; simpl. rewrite Hl; simpl.
  destruct (Z.ltb_spec 0 n); [done|lia].
Qed.

Lemma WaitSema_taken semid s e :
  counts s semid 0 -> (WaitSema semid : M St E Z) s e = Out Blocked s e [].
Proof.
  intros [Hv Hl]. unfold WaitSema. rewrite Hv.
  unfold mbind, M_bind, bind_outcome; simpl. by rewrite Hl.
Qed.

Lemma SignalSema_step semid n s e :
  counts s semid n -> n < SEM_VALUE_MAX ->
  (SignalSema semid : M St E Z) s e =
    Out (Ret 0) (set_entry (Z.to_nat semid) (Some (n + 1)) s) e [].
Proof.
  intros [Hv Hl] Hn. unfold SignalSema. rewrite Hv.
  unfold mbind, M_bind, bind_outcome; simpl. rewrite Hl; simpl.
  destruct (Z.ltb_spec n SEM_VALUE_MAX); [done|lia].
Qed.

Lemma wp_wait semid Q s e :
  counts s semid 1 -> Q (Ret 0) (set_entry (Z.to_nat semid) (Some 0) s) e [] ->
  wp (WaitSema semid : M St E Z) Q s e.
Proof. intros Hc HQ. unfold wp. by rewrite (WaitSema_free _ 1) by (done || lia). Qed.

(** Giving back a semaphore taken when it counted 1. *)
Lemma wp_signal semid Q s e :
  counts s semid 0 -> Q (Ret 0) (set_entry (Z.to_nat semid) (Some 1) s) e [] ->
  wp (SignalSema semid : M St E Z) Q s e.
Proof. intros Hc HQ. unfold wp. by rewrite (SignalSema_step _ 0). Qed.

Lemma set_entry_back semid v s :
  counts s semid 1 ->
  set_entry (Z.to_nat semid) (Some 1) (set_entry (Z.to_nat semid) v s) = s.
Proof. intros [_ Hl]. by rewrite set_entry_twice, set_entry_same. Qed.

Lemma first_null_free t :
  (first_null t < length t)%nat -> t !! first_null t = Some None.
Proof. induction t as [|[n|] t IH]; simpl; intros Hlt; [lia | apply IH; lia | done]. Qed.

End SemaLemmas.

(** ** Properties *)

Section SemaProps.
Context {St E : Type} `{HasSema St} `{Handler E}.

Inductive sema_op := Wait | Signal.

Definition run_op (semid : Z) (op : sema_op) : M St E unit :=
  match op with
  | Wait => WaitSema semid;; mret tt
  | Signal => SignalSema semid;; mret tt
  end.

Definition is_wait (op : sema_op) : bool := match op with Wait => true | Signal => false end.
Definition waits (ops : list sema_op) : Z := Z.of_nat (length (List.filter is_wait ops)).
Definition signals (ops : list sema_op) : Z :=
  Z.of_nat (length (List.filter (fun o => negb (is_wait o)) ops)).

Lemma waits_cons o l : waits (o :: l) = (if is_wait o then 1 else 0) + waits l.
Proof. unfold waits. destruct o; cbn [List.filter is_wait length]; lia. Qed.

Lemma signals_cons o l : signals (o :: l) = (if is_wait o then 0 else 1) + signals l.
Proof. unfold signals. destruct o; cbn [List.filter is_wait negb length]; lia. Qed.

Lemma run_ops_count semid ops :
  forall n s e, counts s semid n -> 0 <= n -> n + signals ops <= SEM_VALUE_MAX ->
  wp (for_ ops (run_op semid) : M St E unit)
     (fun r s' _ _ =>
        match r with
        | Ret _ => counts s' semid (n + signals ops - waits ops) /\ 0 <= n + signals ops - waits ops
        | Blocked => exists k, n + signals (take k ops) < waits (take (S k) ops)
        | _ => False
        end) s e.
Proof.
  induction ops as [|[] ops IH]; intros n s e Hc Hn Hmax.
  - apply wp_ret. unfold signals, waits; simpl. by rewrite Z.sub_0_r, Z.add_0_r.
  - cbn [for_ run_op]. apply wp_bind, wp_bind.
    change (signals (Wait :: ops)) with (signals ops) in *.
    pose proof (waits_cons Wait ops : _ = 1 + _) as Hw.
    destruct (Z.eq_dec n 0) as [->|Hpos].
    + unfold wp. rewrite WaitSema_taken by done. exists 0%nat.
      change (signals (take 0 (Wait :: ops))) with 0.
      change (waits (take 1 (Wait :: ops))) with 1. lia.
    + unfold wp at 1. rewrite (WaitSema_free _ n) by (done || lia).
      unfold bind_post; simpl. apply wp_ret; simpl.
      eapply wp_mono; [apply (IH (n - 1)); [by eapply counts_set | lia | lia]|].
      cbv beta. rewrite Hw. intros [] s' e' tr; try done.
      * intros [Hc' Hge]. split; [|lia]. by replace (n + _ - _) with (n - 1 + signals ops - waits ops) by lia.
      * intros [k Hk]. exists (S k).
        rewrite !firstn_cons, waits_cons, signals_cons. simpl is_wait; cbv iota. lia.
  - cbn [for_ run_op]. apply wp_bind, wp_bind.
    change (waits (Signal :: ops)) with (waits ops) in *.
    pose proof (signals_cons Signal ops : _ = 1 + _) as Hw.
    assert (Hsg : 0 <= signals ops) by (unfold signals; lia).
    unfold wp at 1. rewrite (SignalSema_step _ n) by (done || lia).
    unfold bind_post; simpl. apply wp_ret; simpl.
    eapply wp_mono; [apply (IH (n + 1)); [by eapply counts_set | lia | lia]|].
    cbv beta. rewrite Hw. intros [] s' e' tr; try done.
    + intros [Hc' Hge]. split; [|lia]. by replace (n + _ - _) with (n + 1 + signals ops - waits ops) by lia.
    + intros [k Hk]. exists (S k).
      rewrite !firstn_cons, waits_cons, signals_cons. simpl is_wait; cbv iota. lia.
Qed.

(** C36: a semaphore just created, whatever count was asked for, is a mutex: after
    any sequence of waits and signals that returns, its count is one plus the
    signals less the waits, never negative; a sequence that does not return waits
    where the waits so far exceed the signals by two or more. *)
Theorem sema_mutex sema ops :
  signals ops < SEM_VALUE_MAX ->
  forall s e, length (sem s) = SEMA_COUNT ->
  wp (semid ← CreateSema sema; if 0 <=? semid then for_ ops (run_op semid);; mret semid
                               else mret semid : M St E Z)
     (fun r s' _ _ =>
        match r with
        | Ret semid =>
            (0 <= semid /\ sem s !! Z.to_nat semid = Some None /\
             counts s' semid (1 + signals ops - waits ops) /\ 0 <= 1 + signals ops - waits ops) \/
            (semid = -1 /\ sem s' = sem s)
        | Blocked => exists k, 1 + signals (take k ops) < waits (take (S k) ops)
        | _ => False
        end) s e.
Proof.
  intros Hops s e Hlen. unfold CreateSema. apply wp_bind, wp_bind, wp_get. unfold bind_post.
  set (i := first_null (sem s)). apply wp_if; intros Hi.
  2: { wp_go. by right. }
  apply Nat.ltb_lt in Hi. rewrite <- Hlen in Hi.
  pose proof (first_null_free _ Hi) as Hfree. fold i in Hfree.
  apply wp_bind, wp_call; intros ok e1 _. unfold bind_post.
  destruct ok; [|wp_go; by right].
  apply wp_bind, wp_call; intros retv e2 _. unfold bind_post.
  apply wp_if; intros _.
  - apply wp_bind, wp_modify. unfold bind_post. apply wp_ret.
    apply wp_if; intros Hz; [|lia]. apply wp_bind.
    assert (Hc : counts (set_entry i (Some 1) s) (Z.of_nat i) 1).
    { split; [unfold valid_semid; apply andb_true_intro; rewrite Z.leb_le, Z.ltb_lt; lia|].
      rewrite sem_set_entry, Nat2Z.id. by apply list_lookup_insert_eq. }
    eapply wp_mono; [apply (run_ops_count _ ops 1 _ _ Hc); unfold signals in *; lia|].
    intros [] s' e' tr; try done. intros [Hc' Hge]. apply wp_ret. left.
    rewrite Nat2Z.id. split_and!; [lia | done | done | lia].
  - apply wp_bind, wp_call; intros errno e3 _. unfold bind_post.
    apply wp_bind, wp_call; intros ? e4 _. unfold bind_post.
    apply wp_bind, wp_modify. unfold bind_post. apply wp_ret. cbn [Z.leb Z.compare].
    apply wp_ret. right. by rewrite set_entry_same.
Qed.
End SemaProps.

Import Sample.

Lemma sema_mutex_witness :
  wp (semid ← CreateSema (mk_iop_sema 0 0 5 5);
      if 0 <=? semid then for_ [Wait; Signal; Wait] (run_op semid);; mret semid
      else mret semid : M sem_table (list Z) Z)
     (fun r s' _ _ => exists semid, r = Ret semid /\ counts s' semid 0) initial_sem [].
Proof.
  pose proof (sema_mutex (mk_iop_sema 0 0 5 5) [Wait; Signal; Wait]
                ltac:(vm_compute; reflexivity) initial_sem ([] : list Z)
                ltac:(vm_compute; reflexivity)) as Hm.
  unfold wp in *. vm_compute in Hm. vm_compute.
  destruct Hm as [(_ & _ & Hc & _)|[? _]]; [by exists 0 | discriminate].
Defined.
