(* ===== verification/Atad.v ===== *)
(** * The disk under the drivers (src/subprojects/fakeps2sdk/atad.c)

    The ATA device is a file or block device of the host, in sectors of 512 bytes;
    the branches for hosts other than Windows. *)

From S2P Require Import Prelude IoWorld.

Definition ATA_DIR_READ : Z := 0.
Definition ATA_DIR_WRITE : Z := 1.

(** [handle] and [hdd_length], the static variables. *)
Record atad := mk_atad {
  at_handle : Z;
  hdd_length : Z
}.

Definition atad_initial : atad := mk_atad (-1) 0.

Record ata_devinfo_t := mk_ata_devinfo {
  di_exists : Z;
  has_packet : Z;
  total_sectors : Z;
  security_status : Z
}.

Definition host_O_RDWR : Z := 2.
Definition host_ENOTTY : Z := 25.
Definition host_SEEK_SET : Z := 0.
Definition host_SEEK_END : Z := 2.

Section Atad.
Context {E : Type} `{Handler E}.
Local Abbreviation P := (M atad E).

(** [hdd_length = (size - 511) / 512] *)
Definition sectors_of_size (size : Z) : Z := u32 (Z.quot (size - 511) 512).

Definition set_atad_device_handle (fd : Z) : P Z :=
  size ← call (Host_lseek fd 0 host_SEEK_END);
  if negb (size =? -1) then
    modify (fun s => mk_atad (at_handle s) (sectors_of_size size));;
    modify (fun s => mk_atad fd (hdd_length s));;
    mret 0
  else mret 1.

(** How macOS has the size of a device: [sector_count] sectors of [sector_size] bytes, in
    64 bits. *)
Definition DKIOCGETBLOCKCOUNT : Z := 0x40086419.
Definition DKIOCGETBLOCKSIZE : Z := 0x40046418.
Definition apple_sectors (sector_count sector_size : Z) : Z :=
  if negb (sector_size =? 512) then Z.quot (u64 (u64 (sector_count * sector_size) - 511)) 512
  else sector_count.

(** [set_atad_device_handle] on macOS.  When the size of the sectors cannot be had it is 0;
    after an error other than [ENOTTY] the length stays what it was. *)
Definition set_atad_device_handle_apple (fd : Z) : P Z :=
  '(r, sector_count) ← call (Host_ioctl fd DKIOCGETBLOCKCOUNT 0);
  if r =? 0 then
    '(r', v) ← call (Host_ioctl fd DKIOCGETBLOCKSIZE 0);
    let sector_size := if r' =? 0 then u32 v else 0 in
    let size := apple_sectors (u64 sector_count) sector_size in
    if size <? 2 ^ 63 then
      modify (fun s => mk_atad (at_handle s) (u32 size));;
      modify (fun s => mk_atad fd (hdd_length s));;
      mret 0
    else mret 1
  else
    errno ← call Get_errno;
    if errno =? host_ENOTTY then set_atad_device_handle fd
    else modify (fun s => mk_atad fd (hdd_length s));; mret 0.

Definition set_atad_device_path (path : string) : P unit :=
  fd ← call (Host_open path host_O_RDWR 0);
  bad ← (if fd =? -1 then mret true
         else r ← set_atad_device_handle fd; mret (negb (r =? 0)));
  if (bad : bool) then call (Perror path);; exit_ 1 else mret tt.

Definition atad_close : P unit :=
  s ← get;
  when (negb (at_handle s =? -1))
    (call (Host_close (at_handle s));; modify (fun s => mk_atad (-1) (hdd_length s))).

Definition ata_get_devinfo (device : Z) : P ata_devinfo_t :=
  s ← get;
  mret (if (device =? 0) && negb (at_handle s =? -1)
        then mk_ata_devinfo 1 0 (hdd_length s) 0
        else mk_ata_devinfo 0 0 0 0).

(** The result, and what the buffer holds afterwards ([buf] for a write). *)
Definition ata_device_sector_io (device : Z) (buf : list Z) (lba nsectors dir : Z)
    : P (Z * list Z) :=
  s ← get;
  let handle := at_handle s in
  if handle =? -1 then
    printf (ln "atadDmaTransfer: device fd not set") [];; mret (-1, buf)
  else if negb (device =? 0) then
    printf (ln "atadDmaTransfer: invalid device %d") [PInt device];; mret (-1, buf)
  else
    pos ← call (Host_lseek handle (lba * 512) host_SEEK_SET);
    if pos =? -1 then
      errno ← call Get_errno;
      printf (ln "lseek: atad device fd %d: %s") [PInt handle; PStrerror errno];; mret (-1, buf)
    else
      let size := u32 (nsectors * 512) in
      '(len, buf') ← (if dir =? ATA_DIR_WRITE
                      then assert_ (size <=? Z.of_nat (length buf));;
                           len ← call (Host_write handle (take (Z.to_nat size) buf));
                           mret (len, buf)
                      else '(len, data) ← call (Host_read handle size);
                           assert_ (Z.of_nat (length data) <=? Z.of_nat (length buf));;
                           mret (len, overlay 0 data buf));
      if len =? size then mret (0, buf')
      else
        errno ← call Get_errno;
        printf (ln "read/write: atad device fd %d: %s") [PInt handle; PStrerror errno];;
        mret (-1, buf').
End Atad.

(** What macOS says of a device: right for sectors of 512 bytes, one sector of 512 bytes
    short for larger ones, and the greatest number there is for an empty device. *)
Lemma apple_sectors_spec n k :
  0 < n -> 0 < k -> n * (k * 512) < 2 ^ 63 -> apple_sectors n (k * 512) = if k =? 1 then n else n * k - 1.
Proof.
  intros Hn Hk Hb. unfold apple_sectors. destruct (Z.eqb_spec k 1) as [->|Hk1]; [done|].
  rewrite (proj2 (Z.eqb_neq (k * 512) 512)) by lia. cbn [negb].
  rewrite (uwrap_small 64 (n * _)) by nia. rewrite uwrap_small by nia. rewrite Z.quot_div_nonneg by nia.
  symmetry. apply (Z.div_unique _ _ _ 1); lia.
Qed.

Example apple_empty : u32 (apple_sectors 0 4096) = 2 ^ 32 - 1.
Proof. reflexivity. Qed.

(** An error of the first question other than [ENOTTY] is no error of the function: the
    device is used, and as long as the one before it. *)
Lemma apple_error_ignored {E} `{Handler E} fd s e x v e1 n e2 :
  handle (Host_ioctl fd DKIOCGETBLOCKCOUNT 0) e = ((x, v), e1) -> x <> 0 ->
  handle Get_errno e1 = (n, e2) -> n <> host_ENOTTY ->
  wp (set_atad_device_handle_apple fd) (fun r s' _ _ => r = Ret 0 /\ s' = mk_atad fd (hdd_length s)) s e.
Proof.
  intros H1 Hx H2 Hn. unfold set_atad_device_handle_apple. apply wp_bind, wp_call. rewrite H1.
  intros ? ? [= <- <-]. unfold bind_post. rewrite (proj2 (Z.eqb_neq _ _) Hx).
  apply wp_bind, wp_call. rewrite H2. intros ? ? [= <- <-]. unfold bind_post.
  rewrite (proj2 (Z.eqb_neq _ _) Hn). by apply wp_bind, wp_modify, wp_ret.
Qed.

(** ** The host's files

    What the driver relies on: a file of the host is bytes with an offset, which
    [lseek] moves, and [read] and [write] use and advance. *)

Class HostFile (E : Type) `{Handler E} := {
  content : E -> Z -> list Z;
  position : E -> Z -> Z;
  host_seek : forall e fd o, 0 <= o ->
    exists e', handle (Host_lseek fd o host_SEEK_SET) e = (o, e') /\
               content e' fd = content e fd /\ position e' fd = o;
  host_seek_end : forall e fd,
    exists e', handle (Host_lseek fd 0 host_SEEK_END) e = (Z.of_nat (length (content e fd)), e') /\
               content e' fd = content e fd;
  host_read : forall e fd n, 0 <= n -> 0 <= position e fd ->
    exists e', handle (Host_read fd n) e =
                 ((Z.of_nat (length (take (Z.to_nat n) (drop (Z.to_nat (position e fd)) (content e fd)))),
                   take (Z.to_nat n) (drop (Z.to_nat (position e fd)) (content e fd))), e') /\
               content e' fd = content e fd;
  host_write : forall e fd data,
    0 <= position e fd ->
    position e fd + Z.of_nat (length data) <= Z.of_nat (length (content e fd)) ->
    exists e', handle (Host_write fd data) e = (Z.of_nat (length data), e') /\
               content e' fd = overlay (Z.to_nat (position e fd)) data (content e fd)
}.

Section AtadProps.
Context {E : Type} `{HostFile E}.

(** The [n] sectors from [lba] on. *)
Definition sectors (lba n : Z) (disk : list Z) : list Z :=
  take (Z.to_nat (n * 512)) (drop (Z.to_nat (lba * 512)) disk).

Definition on_disk (lba n : Z) (disk : list Z) : Prop :=
  0 <= lba /\ 0 <= n /\ n * 512 < 2 ^ 32 /\ (lba + n) * 512 <= Z.of_nat (length disk).

Lemma length_disk_sectors lba n disk :
  on_disk lba n disk -> Z.of_nat (length (sectors lba n disk)) = n * 512.
Proof.
  intros (? & ? & _ & ?). unfold sectors. rewrite length_take, length_drop. lia.
Qed.

(** Up to the transfer: the file is at the sector asked for. *)
Lemma wp_sector_io buf lba n dir s e
    (Q : res (Z * list Z) -> atad -> E -> trace -> Prop) :
  at_handle s <> -1 -> 0 <= lba -> n * 512 < 2 ^ 32 -> 0 <= n ->
  (forall e1 t, content e1 (at_handle s) = content e (at_handle s) ->
     position e1 (at_handle s) = lba * 512 ->
     wp ('(len, buf') ← (if dir =? ATA_DIR_WRITE
                      then assert_ (n * 512 <=? Z.of_nat (length buf));;
                           len ← call (Host_write (at_handle s) (take (Z.to_nat (n * 512)) buf));
                           mret (len, buf)
                      else '(len, data) ← call (Host_read (at_handle s) (n * 512));
                           assert_ (Z.of_nat (length data) <=? Z.of_nat (length buf));;
                           mret (len, overlay 0 data buf));
         if len =? n * 512 then mret (0, buf')
         else
           errno ← call Get_errno;
           printf (ln "read/write: atad device fd %d: %s")
             [PInt (at_handle s); PStrerror errno];;
           mret (-1, buf')) (fun r s e t' => Q r s e (t ++ t')) s e1) ->
  wp (ata_device_sector_io 0 buf lba n dir) Q s e.
Proof.
  intros Hh Hlba Hsz Hn Hk. unfold ata_device_sector_io. apply wp_bind, wp_get. unfold bind_post.
  rewrite (proj2 (Z.eqb_neq _ _) Hh). cbn [Z.eqb negb].
  destruct (host_seek e (at_handle s) (lba * 512)) as (e1 & Hs1 & Hc1 & Hp1); [lia|].
  apply wp_bind, wp_call. rewrite Hs1. intros ? ? [= <- <-]. unfold bind_post.
  rewrite (proj2 (Z.eqb_neq (lba * 512) (-1))) by lia.
  rewrite (uwrap_small 32) by lia. cbv zeta. by apply Hk.
Qed.

Lemma sector_read buf lba n s e :
  at_handle s <> -1 -> on_disk lba n (content e (at_handle s)) ->
  n * 512 <= Z.of_nat (length buf) ->
  wp (ata_device_sector_io 0 buf lba n ATA_DIR_READ) (fun r s' e' _ =>
    r = Ret (0, overlay 0 (sectors lba n (content e (at_handle s))) buf) /\ s' = s /\
    content e' (at_handle s) = content e (at_handle s)) s e.
Proof.
  intros Hh Hd Hbuf. pose proof (length_disk_sectors _ _ _ Hd) as Hl. unfold sectors in Hl.
  destruct Hd as (Hlba & Hn & Hsz & Hfit). apply wp_sector_io; [done..|]. intros e1 t Hc1 Hp1.
  destruct (host_read e1 (at_handle s) (n * 512)) as (e2 & Hr & Hc2); [lia..|].
  rewrite Hp1, Hc1 in Hr. rewrite Hl in Hr. change (ATA_DIR_READ =? ATA_DIR_WRITE) with false.
  apply wp_bind, wp_bind, wp_call. rewrite Hr. intros ? ? [= <- <-]. unfold bind_post.
  rewrite Hl. apply wp_bind, wp_assert; [|lia]. intros _. unfold bind_post.
  apply wp_ret. rewrite Z.eqb_refl. apply wp_ret. by rewrite Hc2, Hc1.
Qed.

Lemma sector_write buf lba n s e :
  at_handle s <> -1 -> on_disk lba n (content e (at_handle s)) ->
  Z.of_nat (length buf) = n * 512 ->
  wp (ata_device_sector_io 0 buf lba n ATA_DIR_WRITE) (fun r s' e' _ =>
    r = Ret (0, buf) /\ s' = s /\
    content e' (at_handle s) = overlay (Z.to_nat (lba * 512)) buf (content e (at_handle s))) s e.
Proof.
  intros Hh (Hlba & Hn & Hsz & Hfit) Hbuf. apply wp_sector_io; [done..|]. intros e1 t Hc1 Hp1.
  destruct (host_write e1 (at_handle s) buf) as (e2 & Hw & Hc2); [lia | rewrite Hp1, Hc1; lia |].
  change (ATA_DIR_WRITE =? ATA_DIR_WRITE) with true.
  apply wp_bind, wp_bind, wp_assert; [|lia]. intros _. unfold bind_post.
  apply wp_bind, wp_call. rewrite take_ge, Hw by lia. intros ? ? [= <- <-]. unfold bind_post.
  apply wp_ret. rewrite Hbuf, Z.eqb_refl. apply wp_ret. by rewrite Hc2, Hp1, Hc1.
Qed.

(** The disk keeps what is written to it: after [n] sectors are written from
    [lba] on, reading sectors [lba'] and on yields the data where the ranges are
    the same, and what was there before where they are disjoint. *)
Theorem atad_write_read buf data lba lba' n n' s e :
  at_handle s <> -1 ->
  on_disk lba n (content e (at_handle s)) -> on_disk lba' n' (content e (at_handle s)) ->
  Z.of_nat (length data) = n * 512 -> Z.of_nat (length buf) = n' * 512 ->
  (lba' = lba /\ n' = n) \/ lba' + n' <= lba \/ lba + n <= lba' ->
  wp ('(_, _) ← ata_device_sector_io 0 data lba n ATA_DIR_WRITE;
      ata_device_sector_io 0 buf lba' n' ATA_DIR_READ)
     (fun r _ _ _ => r = Ret (0, if bool_decide (lba' = lba /\ n' = n) then data
                                 else sectors lba' n' (content e (at_handle s)))) s e.
Proof.
  intros Hh Hd Hd' Hdata Hbuf Hcase.
  apply wp_bind. eapply wp_mono; [by apply sector_write|].
  intros ? ? e1 t1 (-> & -> & Hc1). unfold bind_post.
  assert (Hfit : (Z.to_nat (lba * 512) + length data <= length (content e (at_handle s)))%nat)
    by (destruct Hd as (? & ? & ? & ?); lia).
  assert (Hd1 : on_disk lba' n' (content e1 (at_handle s)))
    by (unfold on_disk; by rewrite Hc1, length_overlay).
  eapply wp_mono; [apply sector_read; [done..|lia]|]. intros ? ? e2 t2 (-> & _).
  do 2 f_equal. pose proof (length_disk_sectors _ _ _ Hd1) as Hls.
  unfold overlay. rewrite take_0, drop_ge, app_nil_r by lia. cbn [app].
  rewrite Hc1. unfold sectors. destruct Hd as (? & ? & ? & ?), Hd' as (? & ? & ? & ?).
  destruct (bool_decide_reflect (lba' = lba /\ n' = n)) as [[-> ->]|Hne].
  - replace (Z.to_nat (n * 512)) with (length data) by lia. by apply overlay_inside.
  - destruct Hcase as [?|[Hlt|Hgt]]; [done| |].
    + apply overlay_before; [done | lia].
    + rewrite overlay_after by (done || lia). done.
Qed.

(** How many sectors the device reports for an image of at least one sector: all
    within the image, but the last whole sector of the image is left out unless the
    image ends one byte short of a sector; an image of [k] sectors reports [k - 1]. *)
Theorem atad_reported_size fd s e :
  let size := Z.of_nat (length (content e fd)) in
  fd <> -1 -> 512 <= size < 2 ^ 40 ->
  wp (set_atad_device_handle fd;; ata_get_devinfo 0)
     (fun r _ _ _ => exists n : Z, r = Ret (mk_ata_devinfo 1 0 n 0) /\
        n * 512 <= size /\ size + 1 < (n + 2) * 512 /\
        (size mod 512 <> 511 -> n = size / 512 - 1)) s e.
Proof.
  intros size Hfd Hsz. destruct (host_seek_end e fd) as (e1 & Hs & _).
  apply wp_bind. unfold set_atad_device_handle. apply wp_bind, wp_call.
  rewrite Hs. intros r e' [= <- <-]. unfold bind_post. fold size.
  rewrite (proj2 (Z.eqb_neq size (-1))) by lia. cbn [negb].
  apply wp_bind, wp_modify, wp_bind, wp_modify, wp_ret. apply wp_bind, wp_get, wp_ret.
  cbn [at_handle hdd_length]. rewrite (proj2 (Z.eqb_neq fd (-1))) by done. cbn [andb negb Z.eqb].
  exists (sectors_of_size size). split; [done|]. unfold sectors_of_size.
  rewrite Z.quot_div_nonneg by lia. clearbody size. rewrite uwrap_small; dlia.
Qed.
End AtadProps.

(** ** A host with one file, to run the driver on *)

Module OneFile.
Definition state : Type := list Z * Z.

#[export] Instance host : Handler state := fun A c e =>
  let '(bytes, at_) := e in
  match c in ioE A return A * state with
  | Host_lseek _ o w =>
      let o' := if w =? host_SEEK_END then Z.of_nat (length bytes) + o else o in (o', (bytes, o'))
  | Host_read _ n =>
      let d := take (Z.to_nat n) (drop (Z.to_nat at_) bytes) in
      ((Z.of_nat (length d), d), (bytes, at_ + Z.of_nat (length d)))
  | Host_write _ d =>
      (Z.of_nat (length d), (overlay (Z.to_nat at_) d bytes, at_ + Z.of_nat (length d)))
  | c => (default_answer c, e)
  end.

#[export] Instance host_file : HostFile state.
Proof.
  refine {| content := fun e _ => fst e; position := fun e _ => snd e |}.
  - intros [b p] fd o Ho. eexists. split_and!; reflexivity.
  - intros [b p] fd. exists (b, Z.of_nat (length b)). split; [|done].
    unfold handle, host. cbn -[Z.of_nat]. by rewrite Z.add_0_r.
  - intros [b p] fd n Hn Hp. eexists. split; reflexivity.
  - intros [b p] fd d Hp Hfit. eexists. split; reflexivity.
Defined.
End OneFile.

Import OneFile.

Lemma atad_write_read_witness :
  let disk := replicate 2048 7 in
  wp ('(_, _) ← ata_device_sector_io 0 (replicate 512 9) 1 1 ATA_DIR_WRITE;
      ata_device_sector_io 0 (replicate 1024 0) 2 2 ATA_DIR_READ)
     (fun r _ _ _ => r = Ret (0, replicate 1024 7)) (mk_atad 3 3) (disk, 0).
Proof.
  eapply wp_mono; [apply (atad_write_read (E := OneFile.state) (replicate 1024 0)
    (replicate 512 9) 1 2 1 2 (mk_atad 3 3) (replicate 2048 7, 0)); try done;
    try (right; right; done); repeat split; vm_compute; congruence|].
  cbv beta. intros r _ _ _ ->. vm_compute. reflexivity.
Defined.

Lemma atad_reported_size_witness :
  wp (set_atad_device_handle 3;; ata_get_devinfo 0)
     (fun r _ _ _ => exists n : Z, (r = Ret (mk_ata_devinfo 1 0 n 0)) /\ n = 3) atad_initial
     (replicate 2048 7, 0).
Proof.
  eapply wp_mono; [apply (atad_reported_size (E := OneFile.state) 3 atad_initial
                            (replicate 2048 7, 0)); [done | vm_compute; split; congruence]|].
  cbv beta. intros r _ _ _ (n & -> & _ & _ & Hn). exists n. split; [done|].
  apply Hn. vm_compute. congruence.
Defined.
