(* ===== verification/Hdlfs.v ===== *)
(** * The HDLoader filesystem (src/subprojects/hdlfs/main.c, hdlfs.h)

    A game on an APA partition: a 1024-byte header, and the disc image cut over the
    main partition and its sub-partitions.  Each of the two units has a mount
    descriptor with a semaphore of its own. *)

From S2P Require Import Prelude IoWorld Shm Sema.

Definition HDL_FS_MAGIC : Z := 0x1337.
Definition HDL_INFO_MAGIC : Z := 0xDEADFEED.
Definition HDL_GAME_DATA_OFFSET : Z := 0x100000.
Definition HDLFS_GAME_TITLE_LEN : nat := 160.
Definition HDLFS_STARTUP_PTH_LEN : nat := 60.
Definition HDLFS_DEVCTL_GET_STARTUP_PATH : Z := 0x1000.
Definition HDLFS_DEVCTL_GET_TITLE : Z := 0x1001.
Definition HDLFS_DEVCTL_SET_TITLE : Z := 0x1002.

Definition HIOCFLUSH : Z := 0x6804.
Definition HIOCGETPARTSTART : Z := 0x6836.
Definition HDIOC_MAXSECTOR : Z := 0x4801.
Definition ATA_DIR_READ : Z := 0.
Definition ATA_DIR_WRITE : Z := 1.

Definition EIO : Z := 5.
Definition ENOMEM : Z := 12.
Definition ENODEV : Z := 19.
Definition EINVAL : Z := 22.
Definition EMFILE : Z := 24.
Definition EROFS : Z := 30.

(** ** The header on the disk *)

Record part_specs_t := mk_part {
  part_offset : Z;
  data_start : Z;
  part_size : Z
}.

Record hdl_game_info := mk_info {
  hi_magic : Z;
  hi_reserved : Z;
  hi_version : Z;
  gamename : list Z;
  hdl_compat_flags : Z;
  ops2l_compat_flags : Z;
  dma_type : Z;
  dma_mode : Z;
  startup : list Z;
  layer1_start : Z;
  discType : Z;
  num_partitions : Z;
  part_specs : list part_specs_t
}.

Definition NUM_SPECS : nat := 65.

Definition le16 (z : Z) : list Z := [u8 z; u8 (Z.shiftr z 8)].
Definition of_le16 (b : list Z) : Z :=
  match b with [b0; b1] => b0 + 256 * b1 | _ => 0 end.

Definition part_bytes (p : part_specs_t) : list Z :=
  le32 (part_offset p) ++ le32 (data_start p) ++ le32 (part_size p).

Definition part_of_bytes (b : list Z) : part_specs_t :=
  mk_part (of_le32 (slice_of 0 4 b)) (of_le32 (slice_of 4 4 b)) (of_le32 (slice_of 8 4 b)).

(** [hdl_game_info], 1024 bytes, fields in declaration order. *)
Definition info_bytes (h : hdl_game_info) : list Z :=
  (le32 (hi_magic h) ++ le16 (hi_reserved h) ++ le16 (hi_version h)) ++
  gamename h ++
  [u8 (hdl_compat_flags h); u8 (ops2l_compat_flags h); u8 (dma_type h); u8 (dma_mode h)] ++
  startup h ++
  (le32 (layer1_start h) ++ le32 (discType h) ++ le32 (num_partitions h)) ++
  concat (part_bytes <$> part_specs h).

Fixpoint parts_of_bytes (n : nat) (b : list Z) : list part_specs_t :=
  match n with
  | O => []
  | S n' => part_of_bytes (take 12 b) :: parts_of_bytes n' (drop 12 b)
  end.

Definition info_of_bytes (b : list Z) : hdl_game_info :=
  mk_info (of_le32 (slice_of 0 4 b)) (of_le16 (slice_of 4 2 b)) (of_le16 (slice_of 6 2 b))
    (slice_of 8 160 b)
    (nth 168 b 0) (nth 169 b 0) (nth 170 b 0) (nth 171 b 0)
    (slice_of 172 60 b)
    (of_le32 (slice_of 232 4 b)) (of_le32 (slice_of 236 4 b)) (s32 (of_le32 (slice_of 240 4 b)))
    (parts_of_bytes NUM_SPECS (drop 244 b)).

Definition set_gamename (name : list Z) (h : hdl_game_info) : hdl_game_info :=
  mk_info (hi_magic h) (hi_reserved h) (hi_version h) name (hdl_compat_flags h)
    (ops2l_compat_flags h) (dma_type h) (dma_mode h) (startup h) (layer1_start h) (discType h)
    (num_partitions h) (part_specs h).

(** ** Mount descriptors *)

Record HDLFS_FileDescriptor := mk_desc {
  MountFD : Z;
  SemaID : Z;
  NumPartitions : Z;
  CurrentPartNum : Z;
  RelativeSectorNumber : Z;
  d_offset : Z;
  d_size : Z;
  d_part_specs : list part_specs_t
}.

Definition MAX_AVAILABLE_FDs : Z := 2.

(** [FD_List], and the semaphore table of the process. *)
Record hdlfs := mk_hdlfs {
  FD_List : list HDLFS_FileDescriptor;
  hdl_sem : sem_table
}.

#[export] Instance hdlfs_has_sema : HasSema hdlfs.
Proof.
  refine {| sem := hdl_sem; set_sem := fun t s => mk_hdlfs (FD_List s) t |}; by destruct s || done.
Defined.

Definition set_MountFD (fd : Z) (d : HDLFS_FileDescriptor) : HDLFS_FileDescriptor :=
  mk_desc fd (SemaID d) (NumPartitions d) (CurrentPartNum d) (RelativeSectorNumber d)
    (d_offset d) (d_size d) (d_part_specs d).
Definition set_SemaID (id : Z) (d : HDLFS_FileDescriptor) : HDLFS_FileDescriptor :=
  mk_desc (MountFD d) id (NumPartitions d) (CurrentPartNum d) (RelativeSectorNumber d)
    (d_offset d) (d_size d) (d_part_specs d).
Definition set_position (part rel off : Z) (d : HDLFS_FileDescriptor) : HDLFS_FileDescriptor :=
  mk_desc (MountFD d) (SemaID d) (NumPartitions d) part rel off (d_size d) (d_part_specs d).
Definition set_extent (parts size : Z) (d : HDLFS_FileDescriptor) : HDLFS_FileDescriptor :=
  mk_desc (MountFD d) (SemaID d) parts (CurrentPartNum d) (RelativeSectorNumber d)
    (d_offset d) size (d_part_specs d).
Definition set_specs (specs : list part_specs_t) (d : HDLFS_FileDescriptor) : HDLFS_FileDescriptor :=
  mk_desc (MountFD d) (SemaID d) (NumPartitions d) (CurrentPartNum d) (RelativeSectorNumber d)
    (d_offset d) (d_size d) specs.

Definition set_desc (i : Z) (f : HDLFS_FileDescriptor -> HDLFS_FileDescriptor) (s : hdlfs) : hdlfs :=
  mk_hdlfs (alter f (Z.to_nat i) (FD_List s)) (hdl_sem s).

(** What the driver gets of [iomanX_iop_file_t]: [privdata] points into [FD_List]. *)
Record iop_file := mk_iop_file {
  f_unit : Z;
  f_mode : Z;
  f_privdata : option Z
}.

(** [struct HDLFS_FormatArgs] *)
Record HDLFS_FormatArgs := mk_format_args {
  CompatFlags : Z;
  fa_DiscType : Z;
  TRType : Z;
  TRMode : Z;
  NumSectors : Z;
  Layer1Start : Z;
  GameTitle : list Z;
  StartupPath : list Z
}.

Section Hdlfs.
Context {E : Type} `{Handler E}.
Local Abbreviation P := (M hdlfs E).

(** [FD_List[unit]] *)
Definition desc (unit : Z) : P HDLFS_FileDescriptor :=
  s ← get; assert_ (0 <=? unit);; deref (FD_List s !! Z.to_nat unit).

(** [unit < MAX_AVAILABLE_FDs && FD_List[unit].MountFD >= 0] *)
Definition mounted (unit : Z) : P bool :=
  if unit <? MAX_AVAILABLE_FDs then d ← desc unit; mret (0 <=? MountFD d) else mret false.

Definition empty_desc : HDLFS_FileDescriptor := mk_desc 0 0 0 0 0 0 0 (replicate NUM_SPECS (mk_part 0 0 0)).

Definition hdlfs_init : P Z :=
  modify (fun s => mk_hdlfs (replicate (Z.to_nat MAX_AVAILABLE_FDs) empty_desc) (hdl_sem s));;
  for_ [0; 1] (fun i =>
    modify (set_desc i (set_MountFD (-1)));;
    id ← CreateSema (mk_iop_sema 0 0 1 1);
    modify (set_desc i (set_SemaID id)));;
  mret 0.

Definition unmount (unit : Z) : P Z :=
  m ← mounted (u32 unit);
  if (m : bool) then
    d ← desc unit;
    _ ← WaitSema (SemaID d);
    _ ← call (IomanX_ioctl2 (MountFD d) HIOCFLUSH ArgNull 0 0);
    _ ← call (IomanX_close (MountFD d));
    modify (set_desc unit (set_MountFD (-1)));;
    _ ← SignalSema (SemaID d);
    mret 0
  else mret (- ENODEV).

Definition hdlfs_deinit : P Z :=
  for_ [0; 1] (fun i =>
    d ← desc i;
    when (0 <=? MountFD d) (_ ← unmount i; mret tt);;
    _ ← DeleteSema (SemaID d);
    mret tt);;
  mret 0.

(** ** Formatting *)

(** 4 MB in the main partition; 2 sectors rounded up to 4 in a sub-partition. *)
Definition reserved_sectors (i : Z) : Z := if i =? 0 then 0x2000 else 4.

Definition init_info (args : HDLFS_FormatArgs) : hdl_game_info :=
  mk_info HDL_INFO_MAGIC 0 1 (GameTitle args) 0 (CompatFlags args) (TRType args) (TRMode args)
    (strncpy_bytes HDLFS_STARTUP_PTH_LEN (StartupPath args)) (Layer1Start args) (fa_DiscType args)
    0 (replicate NUM_SPECS (mk_part 0 0 0)).

Definition set_parts (n : Z) (specs : list part_specs_t) (h : hdl_game_info) : hdl_game_info :=
  mk_info (hi_magic h) (hi_reserved h) (hi_version h) (gamename h) (hdl_compat_flags h)
    (ops2l_compat_flags h) (dma_type h) (dma_mode h) (startup h) (layer1_start h) (discType h)
    n specs.

(** The loop over the partitions: [i], [SectorNumber], [part_specs] and [result]. *)
Definition format_turn (PartitionFD num NumberOfSectors : Z)
    (x : Z * Z * list part_specs_t * Z)
    : P ((Z * Z * list part_specs_t * Z) + (Z * list part_specs_t * Z)) :=
  let '(i, SectorNumber, specs, result) := x in
  if negb ((i <? u32 num) && (0 <=? result)) then mret (inr (SectorNumber, specs, result))
  else
    '(result, _) ← call (IomanX_ioctl2 PartitionFD HIOCGETPARTSTART (ArgInt i) 4 0);
    if 0 <=? result then
      let NumReservedSectors := reserved_sectors i in
      assert_ (i <? Z.of_nat NUM_SPECS);;
      let specs := alter (fun p => mk_part SectorNumber (u32 (result + NumReservedSectors)) (part_size p))
                         (Z.to_nat i) specs in
      '(size, _) ← call (IomanX_ioctl2 PartitionFD HIOCGETSIZE (ArgInt i) 4 0);
      let SectorsInPart := u32 (size - NumReservedSectors) / 4 in
      let SectorsRemaining := u32 (NumberOfSectors - SectorNumber) in
      let SectorsInPart := if SectorsRemaining <? SectorsInPart then SectorsRemaining
                           else SectorsInPart in
      if 0x200000 <=? SectorsInPart then mret (inr (SectorNumber, specs, - EINVAL))
      else
        let specs := alter (fun p => mk_part (part_offset p) (data_start p) (u32 (SectorsInPart * 2048)))
                           (Z.to_nat i) specs in
        mret (inl (i + 1, u32 (SectorNumber + SectorsInPart), specs, result))
    else mret (inl (i + 1, SectorNumber, specs, result)).

Definition hdlfs_format (blockdev : string) (args : HDLFS_FormatArgs) : P Z :=
  _ ← call (IomanX_devctl blockdev HDIOC_MAXSECTOR ArgNull 0 0);
  PartitionFD ← call (IomanX_open blockdev FIO_O_WRONLY 0x1A4 (* 0644 *));
  if 0 <=? PartitionFD then
    _ ← call (IomanX_lseek PartitionFD HDL_GAME_DATA_OFFSET FIO_SEEK_SET);
    let h := init_info args in
    let NumberOfSectors := NumSectors args in
    '(nsub, _) ← call (IomanX_ioctl2 PartitionFD HIOCNSUB ArgNull 0 0);
    let num := nsub + 1 in
    '(SectorNumber, specs, result) ←
      loop (NUM_SPECS + 2) (format_turn PartitionFD num NumberOfSectors) (0, 0, part_specs h, 0);
    result ← (if 0 <=? result then
                if SectorNumber <? NumberOfSectors then mret (- ENOMEM)
                else
                  w ← call (IomanX_write PartitionFD (info_bytes (set_parts num specs h)) 1024);
                  mret (if negb (w =? 1024) then - EIO else 0)
              else mret result);
    _ ← call (IomanX_close PartitionFD);
    mret result
  else mret PartitionFD.

(** ** Files: the one game of the unit *)

Definition hdlfs_open (fd : iop_file) : P (Z * iop_file) :=
  m ← mounted (f_unit fd);
  if (m : bool) then mret (f_unit fd, mk_iop_file (f_unit fd) (f_mode fd) (Some (f_unit fd)))
  else mret (- ENODEV, fd).

Definition hdlfs_close : P Z := mret 0.

(** The sectors left in the current partition; when there are none, those of the
    next one, which becomes the current one. *)
Definition sectors_left (p : Z) : P Z :=
  d ← desc p;
  part ← deref (d_part_specs d !! Z.to_nat (CurrentPartNum d));
  let left := u32 (part_size part / 512 - RelativeSectorNumber d) in
  if left <? 1 then
    modify (set_desc p (set_position (u16 (CurrentPartNum d + 1)) 0 (d_offset d)));;
    part ← deref (d_part_specs d !! Z.to_nat (u16 (CurrentPartNum d + 1)));
    mret (part_size part / 512)
  else mret left.

(** One turn of the transfer loop: [SectorsRemaining], how far [buffer] has moved,
    and the memory it points into. *)
Definition io_turn (p mode : Z) (x : Z * Z * list Z) : P ((Z * Z * list Z) + (Z * list Z)) :=
  let '(SectorsRemaining, at_, buf) := x in
  if negb (0 <? SectorsRemaining) then mret (inr (0, buf))
  else
    SectorsRemainingInPartition ← sectors_left p;
    d ← desc p;
    let ReservedSectors := reserved_sectors (CurrentPartNum d) in
    let SectorsToRead := if SectorsRemainingInPartition <? SectorsRemaining
                         then SectorsRemainingInPartition else SectorsRemaining in
    '(result, data) ←
      call (IomanX_ioctl2 (MountFD d) HIOCTRANSFER
              (ArgTransfer (CurrentPartNum d) (u32 (ReservedSectors + RelativeSectorNumber d))
                 SectorsToRead mode (drop (Z.to_nat at_) buf)) 0 0);
    let buf := overlay (Z.to_nat at_) data buf in
    if result <? 0 then mret (inr (result, buf))
    else
      modify (set_desc p (set_position (CurrentPartNum d)
                (u32 (RelativeSectorNumber d + SectorsToRead)) (u32 (d_offset d + SectorsToRead))));;
      mret (inl (SectorsRemaining - SectorsToRead, at_ + u32 (SectorsToRead * 512), buf)).

(** Each turn transfers a sector or moves on to one of the 65 partitions. *)
Definition io_fuel (sectors : Z) : nat := Z.to_nat sectors + 2 * NUM_SPECS.

Definition hdlfs_io_internal (fd : iop_file) (buffer : option (list Z)) (size mode : Z)
    : P (Z * option (list Z)) :=
  match buffer with
  | Some buf =>
      if negb (Z.rem size 512 =? 0) then mret (- EINVAL, buffer)
      else
        p ← deref (f_privdata fd);
        d ← desc p;
        _ ← WaitSema (SemaID d);
        let sectors := u32 (Z.quot size 512) in
        '(result, buf) ← loop (io_fuel sectors) (io_turn p mode) (sectors, 0, buf);
        _ ← SignalSema (SemaID d);
        mret (if result <? 0 then result else size, Some buf)
  | None => mret (- EINVAL, None)
  end.

Definition hdlfs_read (fd : iop_file) (buffer : option (list Z)) (size : Z) : P (Z * option (list Z)) :=
  if flag (f_mode fd) FIO_O_RDONLY then hdlfs_io_internal fd buffer size ATA_DIR_READ
  else mret (- EINVAL, buffer).

Definition hdlfs_write (fd : iop_file) (buffer : option (list Z)) (size : Z) : P (Z * option (list Z)) :=
  if flag (f_mode fd) FIO_O_WRONLY then hdlfs_io_internal fd buffer size ATA_DIR_WRITE
  else mret (- EROFS, buffer).

(** The partition an image sector is in, as the condition of the loop tests it. *)
Definition in_part (offset : Z) (p : part_specs_t) : bool :=
  (part_offset p <=? u32 offset) && (u32 offset <? u32 (part_offset p + part_size p / 2048)).

(** [for (i = 0; i < NumPartitions; i++)], up to the partition of [offset]. *)
Fixpoint seek_part (n : nat) (offset : Z) (i : nat) (specs : list part_specs_t) : option (option nat) :=
  match n with
  | O => Some None
  | S n' => match specs with
            | [] => None
            | p :: specs' => if in_part offset p then Some (Some i)
                             else seek_part n' offset (S i) specs'
            end
  end.


(** The new offset, in sectors; an unknown [whence] leaves the old one. *)
Definition seek_offset (d : HDLFS_FileDescriptor) (offset whence : Z) : Z :=
  if whence =? FIO_SEEK_SET then u32 (offset * 4)
  else if whence =? FIO_SEEK_CUR then u32 (d_offset d + offset * 4)
  else if whence =? FIO_SEEK_END then u32 (d_size d - offset * 4)
  else d_offset d.

Definition hdlfs_lseek (fd : iop_file) (offset whence : Z) : P Z :=
  m ← mounted (f_unit fd);
  if (m : bool) then
    p ← deref (f_privdata fd);
    d ← desc p;
    _ ← WaitSema (SemaID d);
    found ← deref (seek_part (Z.to_nat (NumPartitions d)) offset 0 (d_part_specs d));
    result ← match found with
             | None => mret (- EINVAL)
             | Some i =>
                 part ← deref (d_part_specs d !! i);
                 assert_ ((whence <? FIO_SEEK_SET) || (FIO_SEEK_END <? whence) || fits_int (offset * 4));;
                 let off := seek_offset d offset whence in
                 modify (set_desc p (set_position (Z.of_nat i)
                           (u32 (off - u32 (part_offset part * 4))) off));;
                 mret (off / 4)
             end;
    _ ← SignalSema (SemaID d);
    mret result
  else mret (- ENODEV).

(** ** Status *)

(** [GameSize += part_specs[i].part_size / 2048] for [i < num_partitions]. *)
Definition game_size (h : hdl_game_info) : option Z :=
  let n := Z.to_nat (u32 (num_partitions h)) in
  if (n <=? length (part_specs h))%nat
  then Some (foldl (fun acc p => u32 (acc + part_size p / 2048)) 0 (take n (part_specs h)))
  else None.

Definition info_stat (h : hdl_game_info) (size : Z) : iox_stat_t :=
  mk_iox_stat 0
    (Z.lor (Z.lor (Z.lor (Z.shiftl (dma_mode h) 24) (Z.shiftl (dma_type h) 16))
                  (Z.shiftl (ops2l_compat_flags h) 8)) (hdl_compat_flags h))
    size (replicate 8 0) (replicate 8 0) (replicate 8 0) 0
    (u32 (Z.lor (Z.shiftl (discType h) 16) (num_partitions h)))
    (layer1_start h) 0 0 0 0x2000.

(** The title copied to a buffer of [MaxTitleLen] bytes, one byte kept for the NUL. *)
Definition put_title (h : hdl_game_info) (MaxTitleLen : Z) (out : list Z) : option (list Z) :=
  if (1 <=? MaxTitleLen) && (MaxTitleLen <=? Z.of_nat (length out)) then
    let n := Z.to_nat (Z.min MaxTitleLen 160 - 1) in
    Some (overlay (Z.to_nat (MaxTitleLen - 1)) [0] (overlay 0 (take n (gamename h)) out))
  else None.

(** The same for the startup path, with [strncpy]: undefined when it would read past
    the 60 bytes of the field. *)
Definition put_startup (h : hdl_game_info) (MaxStartupPathLen : Z) (out : list Z) : option (list Z) :=
  if (1 <=? MaxStartupPathLen) && (MaxStartupPathLen <=? Z.of_nat (length out)) &&
     (existsb (Z.eqb 0) (startup h) || (MaxStartupPathLen - 1 <=? Z.of_nat HDLFS_STARTUP_PTH_LEN)) then
    let n := Z.to_nat (MaxStartupPathLen - 1) in
    Some (overlay (Z.to_nat (MaxStartupPathLen - 1)) [0] (overlay 0 (strncpy_bytes n (startup h)) out))
  else None.

Definition read_info (PartFD : Z) : P (Z * hdl_game_info) :=
  _ ← call (IomanX_lseek PartFD HDL_GAME_DATA_OFFSET FIO_SEEK_SET);
  '(result, bytes) ← call (IomanX_read PartFD 1024);
  mret (result, info_of_bytes bytes).

(** [if (p != NULL) f(p)] for an out-parameter. *)
Definition fill {A} (f : A -> option A) (out : option A) : P (option A) :=
  match out with
  | Some o => o' ← deref (f o); mret (Some o')
  | None => mret None
  end.

(** The result, and the three out-parameters. *)
Definition hdlfs_getstat_filler (unit : Z) (stat : option iox_stat_t)
    (GameTitleOut : option (list Z)) (MaxTitleLen : Z)
    (StartupPathOut : option (list Z)) (MaxStartupPathLen : Z)
    : P (Z * option iox_stat_t * option (list Z) * option (list Z)) :=
  m ← mounted unit;
  if (m : bool) then
    d ← desc unit;
    _ ← WaitSema (SemaID d);
    '(result, h) ← read_info (MountFD d);
    r ← (if result =? 1024 then
           stat ← fill (fun _ => info_stat h <$> game_size h) stat;
           title ← fill (put_title h MaxTitleLen) GameTitleOut;
           path ← fill (put_startup h MaxStartupPathLen) StartupPathOut;
           mret (0, stat, title, path)
         else mret (- EIO, stat, GameTitleOut, StartupPathOut));
    _ ← SignalSema (SemaID d);
    mret r
  else mret (- ENODEV, stat, GameTitleOut, StartupPathOut).

Definition hdlfs_getstat (fd : iop_file) (stat : iox_stat_t) : P (Z * iox_stat_t) :=
  '(result, st, _, _) ← hdlfs_getstat_filler (f_unit fd) (Some stat) None 0 None 0;
  mret (result, default stat st).

Definition set_attr (attr : Z) (h : hdl_game_info) : hdl_game_info :=
  mk_info (hi_magic h) (hi_reserved h) (hi_version h) (gamename h)
    (u8 attr) (u8 (Z.shiftr attr 8)) (u8 (Z.shiftr attr 16)) (u8 (Z.shiftr attr 24))
    (startup h) (layer1_start h) (discType h) (num_partitions h) (part_specs h).

Definition set_disc (layer1 disc : Z) (h : hdl_game_info) : hdl_game_info :=
  mk_info (hi_magic h) (hi_reserved h) (hi_version h) (gamename h) (hdl_compat_flags h)
    (ops2l_compat_flags h) (dma_type h) (dma_mode h) (startup h) layer1 disc
    (num_partitions h) (part_specs h).

(** What a change of status does to the header. *)
Definition chstat_info (stat : iox_stat_t) (flags : Z) (h : hdl_game_info) : hdl_game_info :=
  let h := if flag flags FIO_CST_ATTR then set_attr (st_attr stat) h else h in
  if flag flags FIO_CST_PRVT
  then set_disc (st_private_1 stat) (Z.shiftr (st_private_0 stat) 16) h else h.

(** The mode, the size and the times cannot be changed. *)
Definition CST_FIXED : Z :=
  Z.lor (Z.lor (Z.lor (Z.lor FIO_CST_MODE FIO_CST_SIZE) FIO_CST_CT) FIO_CST_AT) FIO_CST_MT.

Definition hdlfs_chstat (fd : iop_file) (stat : iox_stat_t) (flags : Z) : P Z :=
  m ← mounted (f_unit fd);
  if (m : bool) then
    d ← desc (f_unit fd);
    _ ← WaitSema (SemaID d);
    '(result, h) ← read_info (MountFD d);
    result ←
      (if result =? 1024 then
         if negb (flag flags CST_FIXED) then
           _ ← call (IomanX_lseek (MountFD d) HDL_GAME_DATA_OFFSET FIO_SEEK_SET);
           result ← call (IomanX_write (MountFD d) (info_bytes (chstat_info stat flags h)) 1024);
           mret (if negb (result =? 1024) then - EIO else result)
         else mret (- EINVAL)
       else mret (- EIO));
    _ ← SignalSema (SemaID d);
    mret result
  else mret (- ENODEV).

(** ** Mounting *)

Definition hdlfs_mount (fd : iop_file) (blockdev : string) (flags : Z) : P Z :=
  if f_unit fd <? MAX_AVAILABLE_FDs then
    '(result, stat) ← call (IomanX_getstat blockdev);
    if 0 <=? result then
      if st_mode stat =? HDL_FS_MAGIC then
        d ← desc (f_unit fd);
        _ ← WaitSema (SemaID d);
        mfd ← call (IomanX_open blockdev
                      (if flags =? FIO_MT_RDWR then FIO_O_RDWR else FIO_O_RDONLY) 0x1A4 (* 0644 *));
        modify (set_desc (f_unit fd) (set_MountFD mfd));;
        result ←
          (if 0 <=? mfd then
             '(result, h) ← read_info mfd;
             (if result =? 1024 then
                modify (set_desc (f_unit fd) (fun d => set_extent (NumPartitions d) 0 d));;
                '(nsub, _) ← call (IomanX_ioctl2 mfd HIOCNSUB ArgNull 0 0);
                let parts := u16 (nsub + 1) in
                modify (set_desc (f_unit fd) (fun d => set_extent parts (d_size d) d));;
                for_ (seqZ 0 parts) (fun part =>
                  '(size, _) ← call (IomanX_ioctl2 mfd HIOCGETSIZE (ArgInt part) 4 0);
                  modify (set_desc (f_unit fd)
                            (fun d => set_extent (NumPartitions d) (u32 (d_size d + size)) d)));;
                modify (set_desc (f_unit fd) (set_position 0 0 0));;
                modify (set_desc (f_unit fd) (set_specs (part_specs h)));;
                mret (f_unit fd)
              else mret result)
           else mret mfd);
        _ ← SignalSema (SemaID d);
        mret result
      else mret (- EMFILE)
    else mret result
  else mret (- ENODEV).

Definition hdlfs_umount (fd : iop_file) : P Z := unmount (f_unit fd).

(** [len < sizeof(gamename)]; the semaphore is not taken. *)
Definition hdlfs_UpdateGameTitle (unit : Z) (NewName : list Z) (len : Z) : P Z :=
  if len <? Z.of_nat HDLFS_GAME_TITLE_LEN then
    d ← desc unit;
    '(result, h) ← read_info (MountFD d);
    if result =? 1024 then
      assert_ (len <=? Z.of_nat (length NewName));;
      let h := set_gamename (take (Z.to_nat len) NewName ++
                             replicate (HDLFS_GAME_TITLE_LEN - Z.to_nat len) 0) h in
      _ ← call (IomanX_lseek (MountFD d) HDL_GAME_DATA_OFFSET FIO_SEEK_SET);
      w ← call (IomanX_write (MountFD d) (info_bytes h) 1024);
      mret (if negb (w =? 1024) then - EIO else 0)
    else mret (- EIO)
  else mret (- EINVAL).

(** The result, and the bytes of [buf]. *)
Definition hdlfs_devctl (fd : iop_file) (cmd : Z) (arg : list Z) (arglen : Z)
    (buf : option (list Z)) (buflen : Z) : P (Z * option (list Z)) :=
  m ← mounted (f_unit fd);
  if (m : bool) then
    if cmd =? HDLFS_DEVCTL_GET_STARTUP_PATH then
      '(result, _, _, path) ← hdlfs_getstat_filler (f_unit fd) None None 0 buf buflen;
      mret (result, path)
    else if cmd =? HDLFS_DEVCTL_GET_TITLE then
      '(result, _, title, _) ← hdlfs_getstat_filler (f_unit fd) None buf buflen None 0;
      mret (result, title)
    else if cmd =? HDLFS_DEVCTL_SET_TITLE then
      result ← hdlfs_UpdateGameTitle (f_unit fd) arg arglen; mret (result, buf)
    else mret (- EINVAL, buf)
  else mret (- ENODEV, buf).

Definition hdlfs_dopen : P Z := mret 0.
Definition hdlfs_dclose : P Z := mret 0.
Definition hdlfs_dread : P Z := mret 0.
Definition hdlfs_NulldevFunction : P Z := mret (- EIO).

(** [hdlfs_functarray]: the requests iomanX passes on; those that share
    [hdlfs_NulldevFunction] are one case. *)
Inductive hdl_request :=
  | HDL_FORMAT (blockdev : string) (args : HDLFS_FormatArgs)
  | HDL_OPEN (fd : iop_file)
  | HDL_CLOSE
  | HDL_READ (fd : iop_file) (buffer : option (list Z)) (size : Z)
  | HDL_WRITE (fd : iop_file) (buffer : option (list Z)) (size : Z)
  | HDL_LSEEK (fd : iop_file) (offset whence : Z)
  | HDL_DOPEN
  | HDL_DCLOSE
  | HDL_DREAD
  | HDL_GETSTAT (fd : iop_file) (stat : iox_stat_t)
  | HDL_CHSTAT (fd : iop_file) (stat : iox_stat_t) (flags : Z)
  | HDL_MOUNT (fd : iop_file) (blockdev : string) (flags : Z)
  | HDL_UMOUNT (fd : iop_file)
  | HDL_DEVCTL (fd : iop_file) (cmd : Z) (arg : list Z) (arglen : Z) (buf : option (list Z)) (buflen : Z)
  | HDL_OTHER.

Definition hdlfs_functarray (r : hdl_request) : P Z :=
  match r with
  | HDL_FORMAT blockdev args => hdlfs_format blockdev args
  | HDL_OPEN fd => '(r, _) ← hdlfs_open fd; mret r
  | HDL_CLOSE => hdlfs_close
  | HDL_READ fd buffer size => '(r, _) ← hdlfs_read fd buffer size; mret r
  | HDL_WRITE fd buffer size => '(r, _) ← hdlfs_write fd buffer size; mret r
  | HDL_LSEEK fd offset whence => hdlfs_lseek fd offset whence
  | HDL_DOPEN => hdlfs_dopen
  | HDL_DCLOSE => hdlfs_dclose
  | HDL_DREAD => hdlfs_dread
  | HDL_GETSTAT fd stat => '(r, _) ← hdlfs_getstat fd stat; mret r
  | HDL_CHSTAT fd stat flags => hdlfs_chstat fd stat flags
  | HDL_MOUNT fd blockdev flags => hdlfs_mount fd blockdev flags
  | HDL_UMOUNT fd => hdlfs_umount fd
  | HDL_DEVCTL fd cmd arg arglen buf buflen =>
      '(r, _) ← hdlfs_devctl fd cmd arg arglen buf buflen; mret r
  | HDL_OTHER => hdlfs_NulldevFunction
  end.
End Hdlfs.
