(* ===== verification/HdlfsProps.v ===== *)
(** * The HDLoader filesystem: correctness

    The header crosses the disk unchanged; no sequence of requests blocks on a
    semaphore or leaves one taken; the image is the partitions' data areas end to
    end, and reads, writes and seeks work on it as on one array of sectors; a
    formatted partition has the layout this needs. *)

From S2P Require Import Prelude IoWorld Shm Sema Hdlfs.

(** ** The header *)

Definition is_half (z : Z) : Prop := 0 <= z < 2 ^ 16.
Definition part_ok (p : part_specs_t) : Prop :=
  word (part_offset p) /\ word (data_start p) /\ word (part_size p).

(** What fits the fields of the C structure. *)
Record info_ok (h : hdl_game_info) : Prop := {
  ok_magic : word (hi_magic h);
  ok_reserved : is_half (hi_reserved h);
  ok_version : is_half (hi_version h);
  ok_gamename : length (gamename h) = HDLFS_GAME_TITLE_LEN;
  ok_flags : Forall is_byte [hdl_compat_flags h; ops2l_compat_flags h; dma_type h; dma_mode h];
  ok_startup : length (startup h) = HDLFS_STARTUP_PTH_LEN;
  ok_layer1 : word (layer1_start h);
  ok_disc : word (discType h);
  ok_num : - 2 ^ 31 <= num_partitions h < 2 ^ 31;
  ok_specs : Forall part_ok (part_specs h);
  ok_count : length (part_specs h) = NUM_SPECS
}.

Lemma of_le16_le16 z : is_half z -> of_le16 (le16 z) = z.
Proof.
  unfold is_half, of_le16, le16, uwrap. intros Hz. rewrite !Z.shiftr_div_pow2 by lia.
  change (2 ^ 8) with 256. dlia.
Qed.

Lemma le32_u32 z : le32 (u32 z) = le32 z.
Proof.
  unfold le32, uwrap. rewrite !Z.shiftr_div_pow2 by lia.
  change (2 ^ 8) with 256. change (2 ^ 16) with 65536. change (2 ^ 24) with 16777216.
  change (2 ^ 32) with 4294967296.
  assert (H0 : (z mod 4294967296) mod 256 = z mod 256) by dlia.
  assert (H1 : (z mod 4294967296 / 256) mod 256 = (z / 256) mod 256) by dlia.
  assert (H2 : (z mod 4294967296 / 65536) mod 256 = (z / 65536) mod 256) by dlia.
  assert (H3 : (z mod 4294967296 / 16777216) mod 256 = (z / 16777216) mod 256) by dlia.
  by rewrite H0, H1, H2, H3.
Qed.

Lemma s32_le32 z : - 2 ^ 31 <= z < 2 ^ 31 -> s32 (of_le32 (le32 z)) = z.
Proof.
  intros Hz. rewrite <- le32_u32, of_le32_le32 by (by apply (uwrap_range 32)).
  rewrite swrap_uwrap. apply swrap_small; lia.
Qed.

(** A slice that starts where a known prefix ends. *)
Lemma slice_after (pre l rest : list Z) off n :
  length pre = off -> length l = n -> slice_of off n (pre ++ l ++ rest) = l.
Proof.
  intros Hp Hl. unfold slice_of. rewrite (drop_app_length' _ _ off) by done.
  by apply take_app_length'.
Qed.

Lemma part_roundtrip p : part_ok p -> part_of_bytes (part_bytes p) = p.
Proof.
  destruct p as [o d z]. intros (Ho & Hd & Hz). simpl in *.
  unfold part_of_bytes, part_bytes; cbn [part_offset data_start part_size].
  rewrite (slice_after [] (le32 o) (le32 d ++ le32 z)), (slice_after (le32 o) (le32 d) (le32 z)) by done.
  replace (slice_of 8 4 (le32 o ++ le32 d ++ le32 z)) with (le32 z) by done.
  by rewrite !of_le32_le32.
Qed.

Lemma parts_roundtrip ps rest :
  Forall part_ok ps -> parts_of_bytes (length ps) (concat (part_bytes <$> ps) ++ rest) = ps.
Proof.
  induction 1 as [|p ps Hp _ IH]; [done|].
  rewrite fmap_cons. cbn [concat length parts_of_bytes]. rewrite <- app_assoc.
  rewrite (take_app_length' (part_bytes p) _ 12), (drop_app_length' (part_bytes p) _ 12) by done.
  by rewrite part_roundtrip, IH.
Qed.

Lemma length_parts ps : length (concat (part_bytes <$> ps)) = (12 * length ps)%nat.
Proof.
  induction ps as [|p ps IH]; [done|]. rewrite fmap_cons. cbn [concat]. rewrite length_app, IH.
  change (length (part_bytes p)) with 12%nat. simpl length. lia.
Qed.

Lemma nth_after (pre l : list Z) off k :
  length pre = off -> nth (off + k) (pre ++ l) 0 = nth k l 0.
Proof. intros <-. rewrite app_nth2 by lia. f_equal. lia. Qed.

Lemma slice_at (pre l rest bs : list Z) off n :
  bs = pre ++ l ++ rest -> length pre = off -> length l = n -> slice_of off n bs = l.
Proof. intros -> Hp Hl. by apply slice_after. Qed.

Lemma nth_at (pre l rest bs : list Z) off k z :
  bs = pre ++ l ++ rest -> length pre = off -> l !! k = Some (u8 z) -> is_byte z -> nth (off + k) bs 0 = z.
Proof.
  intros -> Hp Hk Hz. rewrite nth_after by done. rewrite app_nth1 by (by eapply lookup_lt_Some).
  rewrite nth_lookup, Hk. by apply (uwrap_small 8).
Qed.

Lemma length_info_bytes h : info_ok h -> length (info_bytes h) = 1024%nat.
Proof.
  intros [_ _ _ Hnm _ Hst _ _ _ _ Hct]. unfold info_bytes. rewrite !length_app, length_parts, Hnm, Hst, Hct.
  reflexivity.
Qed.

(** The bytes taken apart before and after a field, and the lengths that come to. *)
Ltac at_field Hb := first [rewrite Hb; by rewrite <- ?app_assoc | rewrite ?length_app; simpl length; lia].

Lemma info_bytes_inv h : info_ok h -> info_of_bytes (info_bytes h) = h.
Proof.
  destruct h as [mg rs vs nm c1 c2 ty md st l1 dt np ps].
  intros [Hmg Hrs Hvs Hnm Hfl Hst Hl1 Hdt Hnp Hps Hct]. cbn in Hmg, Hrs, Hvs, Hnm, Hfl, Hst, Hl1, Hdt, Hnp, Hps, Hct.
  repeat (apply Forall_cons in Hfl as [? Hfl]).
  unfold HDLFS_GAME_TITLE_LEN, HDLFS_STARTUP_PTH_LEN in *.
  set (head := le32 mg ++ le16 rs ++ le16 vs). set (flags := [u8 c1; u8 c2; u8 ty; u8 md]).
  set (all := concat (part_bytes <$> ps)). set (tail := le32 l1 ++ le32 dt ++ le32 np ++ all).
  set (b := info_bytes _).
  assert (Hb : b = head ++ nm ++ flags ++ st ++ tail) by done.
  assert (Hh : length head = 8%nat) by done. assert (Hf : length flags = 4%nat) by done.
  clearbody b. unfold info_of_bytes. f_equal.
  - rewrite (slice_at [] (le32 mg) (le16 rs ++ le16 vs ++ nm ++ flags ++ st ++ tail)) by at_field Hb. by apply of_le32_le32.
  - rewrite (slice_at (le32 mg) (le16 rs) (le16 vs ++ nm ++ flags ++ st ++ tail)) by at_field Hb. by apply of_le16_le16.
  - rewrite (slice_at (le32 mg ++ le16 rs) (le16 vs) (nm ++ flags ++ st ++ tail)) by at_field Hb. by apply of_le16_le16.
  - apply (slice_at head nm (flags ++ st ++ tail)); at_field Hb.
  - apply (nth_at (head ++ nm) flags (st ++ tail) b 168 0); [at_field Hb..|done|done].
  - apply (nth_at (head ++ nm) flags (st ++ tail) b 168 1); [at_field Hb..|done|done].
  - apply (nth_at (head ++ nm) flags (st ++ tail) b 168 2); [at_field Hb..|done|done].
  - apply (nth_at (head ++ nm) flags (st ++ tail) b 168 3); [at_field Hb..|done|done].
  - apply (slice_at (head ++ nm ++ flags) st tail); at_field Hb.
  - rewrite (slice_at (head ++ nm ++ flags ++ st) (le32 l1) (le32 dt ++ le32 np ++ all)) by at_field Hb. by apply of_le32_le32.
  - rewrite (slice_at (head ++ nm ++ flags ++ st ++ le32 l1) (le32 dt) (le32 np ++ all)) by at_field Hb. by apply of_le32_le32.
  - rewrite (slice_at (head ++ nm ++ flags ++ st ++ le32 l1 ++ le32 dt) (le32 np) all) by at_field Hb. by apply s32_le32.
  - replace b with ((head ++ nm ++ flags ++ st ++ le32 l1 ++ le32 dt ++ le32 np) ++ all) by at_field Hb.
    rewrite drop_app_length' by at_field Hb. rewrite <- (app_nil_r all), <- Hct. by apply parts_roundtrip.
Qed.

(** The header written to a game partition takes exactly 1024 bytes, and reading
    it back yields the fields that were written: numbers little-endian at their C
    width, the title and startup path byte for byte, all 65 partition records. *)
Theorem info_roundtrip h :
  info_ok h -> info_of_bytes (info_bytes h) = h /\ length (info_bytes h) = 1024%nat.
Proof. intros Hok. split; [by apply info_bytes_inv | by apply length_info_bytes]. Qed.

(** ** Semaphores

    [ok pre m post]: from a state in [pre], [m] never blocks, and where it returns
    the state is in [post]. *)

Section Locks.
Context {E : Type} `{Handler E}.
Implicit Types (s : hdlfs) (e : E) (P Q R : hdlfs -> Prop).

Definition ok {A} P (m : M hdlfs E A) Q : Prop := forall s e, P s ->
  wp m (fun r s' _ _ => match r with Ret _ => Q s' | Blocked => False | _ => True end) s e.

Lemma ok_bind {A B} P Q R (m : M hdlfs E A) (k : A -> M hdlfs E B) :
  ok P m Q -> (forall a, ok Q (k a) R) -> ok P (m ≫= k) R.
Proof.
  intros Hm Hk s e HP. apply wp_bind. eapply wp_mono; [by apply Hm|].
  intros [] s' e' t; try done. intros HQ. by apply Hk.
Qed.

Lemma ok_ret {A} P (a : A) : ok P (mret a) P.
Proof. intros s e HP. by apply wp_ret. Qed.

Lemma ok_call {A} P (c : ioE A) : ok P (call c) P.
Proof. intros s e HP. by apply wp_call. Qed.

Lemma ok_deref {A} P (o : option A) : ok P (deref o) P.
Proof. intros s e HP. apply wp_deref. by destruct o. Qed.

Lemma ok_assert P c : ok P (assert_ c) P.
Proof. intros s e HP. by apply wp_assert. Qed.

Lemma ok_stop {A} P Q (r : res A) :
  match r with Ret _ | Blocked => False | _ => True end -> ok P (stop r) Q.
Proof. intros Hr s e HP. apply wp_stop. by destruct r. Qed.

Lemma ok_modify P Q f : (forall s, P s -> Q (f s)) -> ok P (modify f) Q.
Proof. intros Hf s e HP. apply wp_modify. by apply Hf. Qed.

Lemma ok_if {A} P Q (c : bool) (m1 m2 : M hdlfs E A) :
  ok P m1 Q -> ok P m2 Q -> ok P (if c then m1 else m2) Q.
Proof. by destruct c. Qed.

Lemma ok_for {X} P (l : list X) (body : X -> M hdlfs E unit) :
  (forall x, ok P (body x) P) -> ok P (for_ l body) P.
Proof.
  intros Hb. induction l as [|x l IH]; [apply ok_ret|]. eapply ok_bind; [apply Hb|]. intros _. apply IH.
Qed.

Lemma ok_loop {X Y} P fuel (body : X -> M hdlfs E (X + Y)) x :
  (forall x, ok P (body x) P) -> ok P (loop fuel body x) P.
Proof.
  intros Hb. revert x. induction fuel as [|n IH]; intros x; [by apply ok_stop|].
  eapply ok_bind; [apply Hb|]. intros [x'|y]; [apply IH | apply ok_ret].
Qed.

(** The semaphore table is [t] and the descriptors' semaphores are [ids]. *)
Definition at_ (t : sem_table) (ids : list Z) (s : hdlfs) : Prop :=
  hdl_sem s = t /\ SemaID <$> FD_List s = ids.

(** Every descriptor's semaphore is valid and free. *)
Definition all_free (t : sem_table) (ids : list Z) : Prop :=
  Forall (fun id => valid_semid id = true /\ t !! Z.to_nat id = Some (Some 1)) ids.

Definition taken (id : Z) (t : sem_table) : sem_table := <[Z.to_nat id := Some 0]> t.

Lemma ok_desc {B} t ids t' unit (k : HDLFS_FileDescriptor -> M hdlfs E B) Q :
  (forall d, SemaID d ∈ ids -> ok (at_ t' ids) (k d) Q) ->
  t = t' -> ok (at_ t ids) (desc unit ≫= k) Q.
Proof.
  intros Hk <- s e [Ht Hids]. apply wp_bind, wp_bind, wp_get, wp_bind, wp_assert; [|done].
  intros _. apply wp_deref. destruct (FD_List s !! Z.to_nat unit) as [d|] eqn:Hd; [|done].
  apply Hk; [|done]. rewrite <- Hids. apply list_elem_of_lookup. exists (Z.to_nat unit).
  by rewrite list_lookup_fmap, Hd.
Qed.

Lemma ok_mounted {B} t ids unit (k : bool -> M hdlfs E B) Q :
  (forall m, ok (at_ t ids) (k m) Q) -> ok (at_ t ids) (mounted unit ≫= k) Q.
Proof.
  intros Hk. eapply ok_bind; [|apply Hk]. unfold mounted. apply ok_if; [|apply ok_ret].
  eapply ok_desc; [|done]. intros d _. apply ok_ret.
Qed.

Lemma ok_wait t ids id :
  all_free t ids -> id ∈ ids -> ok (at_ t ids) (WaitSema id) (at_ (taken id t) ids).
Proof.
  intros Hf Hid s e [Ht Hids]. unfold all_free in Hf. rewrite Forall_forall in Hf. destruct (Hf _ Hid) as [Hv Hl].
  unfold wp. rewrite (WaitSema_free _ 1); [|split; [done|]; simpl; by rewrite Ht|lia].
  simpl. split; simpl; [by rewrite Ht|done].
Qed.

Lemma ok_signal t ids id :
  all_free t ids -> id ∈ ids -> ok (at_ (taken id t) ids) (SignalSema id) (at_ t ids).
Proof.
  intros Hf Hid s e [Ht Hids]. unfold all_free in Hf. rewrite Forall_forall in Hf. destruct (Hf _ Hid) as [Hv Hl].
  assert (Hlt : (Z.to_nat id < length t)%nat) by (by eapply lookup_lt_Some).
  unfold wp. rewrite (SignalSema_step _ 0); [|split; [done|]; simpl; rewrite Ht|done].
  - simpl. split; simpl; [|done]. rewrite Ht. unfold taken.
    by rewrite list_insert_insert_eq, list_insert_id.
  - by apply list_lookup_insert_eq.
Qed.

Lemma at_set_desc t ids i f s :
  (forall d, SemaID (f d) = SemaID d) -> at_ t ids s -> at_ t ids (set_desc i f s).
Proof.
  intros Hf [Ht Hids]. split; [done|]. unfold set_desc; simpl. rewrite <- Hids.
  apply list_eq. intros j. rewrite !list_lookup_fmap.
  destruct (decide (j = Z.to_nat i)) as [->|Hne].
  - rewrite list_lookup_alter_eq, <- option_fmap_compose. apply option_fmap_ext. apply Hf.
  - by rewrite list_lookup_alter_ne.
Qed.

(** One construct of the code; what is left are the questions about semaphores. *)
Ltac ok_step :=
  lazymatch goal with
  | |- ok _ (desc _ ≫= _) _ => eapply ok_desc; [intros ? ?|reflexivity]
  | |- ok _ (mounted _ ≫= _) _ => apply ok_mounted; intros ?
  | |- ok (at_ ?t _) (WaitSema _ ≫= _) _ => eapply ok_bind; [by apply ok_wait|intros _]
  | |- ok (at_ (taken ?id ?t) ?ids) (SignalSema _ ≫= _) _ =>
      apply ok_bind with (Q := at_ t ids); [by apply ok_signal|intros _]
  | |- ok ?P (_ ≫= _) _ => apply ok_bind with (Q := P); [|intros ?]
  | |- ok _ (mret _) _ => apply ok_ret
  | |- ok _ (call _) _ => apply ok_call
  | |- ok _ (deref _) _ => apply ok_deref
  | |- ok _ (assert_ _) _ => apply ok_assert
  | |- ok _ (modify (set_desc _ _)) _ => apply ok_modify; intros ?; by apply at_set_desc
  | |- ok _ (if _ then _ else _) _ => apply ok_if
  | |- ok _ (for_ _ _) _ => apply ok_for; intros ?
  | |- ok _ (loop _ _ _) _ => apply ok_loop; intros ?
  | |- ok _ (match ?x with _ => _ end) _ => destruct x
  | |- ok _ (let _ := _ in _) _ => cbv zeta
  end.

Ltac ok_go := repeat ok_step.

Lemma read_info_ok t ids fd : ok (at_ t ids) (read_info fd) (at_ t ids).
Proof. unfold read_info. ok_go. Qed.

Lemma fill_ok {A} t ids (f : A -> option A) out : ok (at_ t ids) (fill f out) (at_ t ids).
Proof. unfold fill. ok_go. Qed.

Context (t : sem_table) (ids : list Z) (Hfree : all_free t ids).

Lemma io_internal_ok fd buffer size mode :
  ok (at_ t ids) (hdlfs_io_internal fd buffer size mode) (at_ t ids).
Proof using Hfree. unfold hdlfs_io_internal, io_turn, sectors_left. ok_go. Qed.

Lemma getstat_filler_ok unit st title n path m :
  ok (at_ t ids) (hdlfs_getstat_filler unit st title n path m) (at_ t ids).
Proof using Hfree.
  unfold hdlfs_getstat_filler. ok_go; first [apply read_info_ok | apply fill_ok].
Qed.

Lemma functarray_ok r : ok (at_ t ids) (hdlfs_functarray r) (at_ t ids).
Proof using Hfree.
  destruct r; cbn [hdlfs_functarray].
  - unfold hdlfs_format, format_turn. ok_go.
  - unfold hdlfs_open. ok_go.
  - unfold hdlfs_close. ok_go.
  - unfold hdlfs_read. ok_go. apply io_internal_ok.
  - unfold hdlfs_write. ok_go. apply io_internal_ok.
  - unfold hdlfs_lseek. ok_go.
  - unfold hdlfs_dopen. ok_go.
  - unfold hdlfs_dclose. ok_go.
  - unfold hdlfs_dread. ok_go.
  - unfold hdlfs_getstat. ok_go. apply getstat_filler_ok.
  - unfold hdlfs_chstat. ok_go. apply read_info_ok.
  - unfold hdlfs_mount. ok_go. apply read_info_ok.
  - unfold hdlfs_umount, unmount. ok_go.
  - unfold hdlfs_devctl. ok_go; try apply getstat_filler_ok.
    unfold hdlfs_UpdateGameTitle. ok_go. apply read_info_ok.
  - unfold hdlfs_NulldevFunction. ok_go.
Qed.
End Locks.

(** C32: the HDLoader driver never waits for ever: from a state where each unit's
    semaphore is a valid one that is free, no sequence of requests, whatever the
    driver below answers, blocks; and where it returns, the semaphores are as they
    were, so none is left taken on an error path. *)
Theorem hdlfs_no_deadlock {E} `{Handler E} (reqs : list hdl_request) t ids s e :
  all_free t ids -> at_ t ids s ->
  wp (for_ reqs (fun r => _ ← hdlfs_functarray r; mret tt) : M hdlfs E unit)
     (fun r s' _ _ => r <> Blocked /\ (r = Ret tt -> at_ t ids s')) s e.
Proof.
  intros Hfree Hs. eapply wp_mono; [apply (ok_for (at_ t ids)); [|done]|].
  - intros r. eapply ok_bind; [by apply functarray_ok|]. intros _. apply ok_ret.
  - intros [] s' e' tr Hr; split; done.
Qed.

(** ** The image as one array of sectors *)

(** Sectors of 512 bytes a partition record gives the image. *)
Definition psz (p : part_specs_t) : Z := part_size p / 512.
Definition zsum (l : list Z) : Z := foldr Z.add 0 l.
Definition total (ps : list part_specs_t) : Z := zsum (psz <$> ps).

(** Where sector [o] of the image is: the data areas of the partitions end to end. *)
Fixpoint locate (i : nat) (ps : list part_specs_t) (o : Z) : option (Z * Z) :=
  match ps with
  | [] => None
  | p :: ps' => if o <? psz p then Some (Z.of_nat i, reserved_sectors (Z.of_nat i) + o)
                else locate (S i) ps' (o - psz p)
  end.

(** The APA driver's HIOCTRANSFER: sectors of a partition, read and written. *)
Class HdlDisk (E : Type) `{Handler E} := {
  sector : E -> Z -> Z -> Z -> list Z;
  sector_count : Z -> Z;
  sector_len : forall e fd sub t, length (sector e fd sub t) = 512%nat;
  transfer_read : forall e fd sub t n buf,
    0 <= t -> 0 < n -> t + n <= sector_count sub ->
    exists r e', 0 <= r /\
      handle (IomanX_ioctl2 fd HIOCTRANSFER (ArgTransfer sub t n ATA_DIR_READ buf) 0 0) e =
        ((r, concat (sector e fd sub <$> seqZ t n)), e') /\
      forall sub' t', sector e' fd sub' t' = sector e fd sub' t';
  transfer_write : forall e fd sub t n buf,
    0 <= t -> 0 < n -> t + n <= sector_count sub -> n * 512 <= Z.of_nat (length buf) ->
    exists r e', 0 <= r /\
      handle (IomanX_ioctl2 fd HIOCTRANSFER (ArgTransfer sub t n ATA_DIR_WRITE buf) 0 0) e =
        ((r, []), e') /\
      forall sub' t', sector e' fd sub' t' =
        if (sub' =? sub) && (t <=? t') && (t' <? t + n)
        then take 512 (drop (Z.to_nat ((t' - t) * 512)) buf) else sector e fd sub' t'
}.

Lemma zsum_app l1 l2 : zsum (l1 ++ l2) = zsum l1 + zsum l2.
Proof. unfold zsum. induction l1 as [|x l IH]; simpl; lia. Qed.

Lemma total_cons p ps : total (p :: ps) = psz p + total ps.
Proof. done. Qed.

Definition start (ps : list part_specs_t) (i : nat) : Z := total (take i ps).

Lemma start_S ps i p : ps !! i = Some p -> start ps (S i) = start ps i + psz p.
Proof.
  intros Hi. unfold start, total. erewrite take_S_r by done. rewrite fmap_app, zsum_app.
  simpl. lia.
Qed.

Lemma total_nonneg ps : Forall (fun p => 0 <= psz p) ps -> 0 <= total ps.
Proof. induction 1; rewrite ?total_cons; [done|lia]. Qed.

Lemma start_le ps i : Forall (fun p => 0 <= psz p) ps -> start ps i <= total ps.
Proof.
  intros Hps. unfold start. rewrite <- (take_drop i ps) at 2. unfold total.
  rewrite fmap_app, zsum_app. pose proof (total_nonneg (drop i ps) (Forall_drop _ _ _ Hps)).
  unfold total in *. lia.
Qed.

Lemma locate_at ps p o : forall i j,
  Forall (fun p => 0 <= psz p) ps -> ps !! j = Some p ->
  start ps j <= o < start ps j + psz p ->
  locate i ps o = Some (Z.of_nat (i + j), reserved_sectors (Z.of_nat (i + j)) + (o - start ps j)).
Proof.
  revert o. induction ps as [|q ps IH]; intros o i j Hall Hj Ho; [done|].
  apply Forall_cons in Hall as [Hq Hall]. destruct j as [|j]; cbn [locate].
  - injection Hj as ->. unfold start in *. cbn [take] in *. change (total []) with 0 in *.
    destruct (Z.ltb_spec o (psz p)); [|lia]. rewrite Nat.add_0_r. do 2 f_equal. lia.
  - simpl in Hj. assert (Hst : start (q :: ps) (S j) = psz q + start ps j) by done.
    rewrite Hst in *.
    assert (0 <= start ps j) by (apply total_nonneg; by apply Forall_take).
    destruct (Z.ltb_spec o (psz q)); [lia|].
    rewrite (IH (o - psz q) (S i) j) by (done || lia).
    replace (S i + j)%nat with (i + S j)%nat by lia. do 2 f_equal. lia.
Qed.

(** [ps] are the partitions in use. *)
Record parts_in_use (ps : list part_specs_t) : Prop := {
  use_sizes : Forall (fun p => 512 <= part_size p < 2 ^ 32) ps;
  use_count : (length ps <= NUM_SPECS)%nat;
  use_total : total ps < 2 ^ 32
}.

(** The descriptor is at sector [o] of the image. *)
Record placed (ps : list part_specs_t) (d : HDLFS_FileDescriptor) (o : Z) : Prop := {
  pl_specs : exists rest, d_part_specs d = ps ++ rest;
  pl_part : exists p, 0 <= CurrentPartNum d /\ ps !! Z.to_nat (CurrentPartNum d) = Some p /\
            0 <= RelativeSectorNumber d <= psz p;
  pl_offset : d_offset d = o;
  pl_sum : start ps (Z.to_nat (CurrentPartNum d)) + RelativeSectorNumber d = o
}.

Lemma use_psz ps : parts_in_use ps -> Forall (fun p => 1 <= psz p < 2 ^ 23) ps.
Proof.
  intros [Hs _ _]. eapply Forall_impl; [exact Hs|]. intros p Hp. unfold psz. cbv beta in Hp. dlia.
Qed.

Lemma use_psz_nonneg ps : parts_in_use ps -> Forall (fun p => 0 <= psz p) ps.
Proof.
  intros Hu. eapply Forall_impl; [by apply use_psz|]. cbv beta. lia.
Qed.

Lemma lookup_psz ps i p : parts_in_use ps -> ps !! i = Some p ->
  1 <= psz p < 2 ^ 23 /\ (i < 65)%nat /\ 0 <= start ps i /\ start ps i + psz p <= total ps.
Proof.
  intros Hu Hi. pose proof (use_psz _ Hu) as Hp. pose proof (use_psz_nonneg _ Hu) as Hn.
  rewrite Forall_forall in Hp. split_and!.
  - apply Hp. by eapply list_elem_of_lookup_2.
  - apply Hp. by eapply list_elem_of_lookup_2.
  - apply lookup_lt_Some in Hi. destruct Hu as [_ Hc _]. unfold NUM_SPECS in Hc. lia.
  - apply total_nonneg. by apply Forall_take.
  - rewrite <- (start_S _ _ _ Hi). by apply start_le.
Qed.

(** Before the end of the image there is a partition to go on in: the one the
    descriptor is in, or, at its end, the next. *)
Lemma placed_next ps d o :
  parts_in_use ps -> placed ps d o -> o < total ps ->
  exists j p rel, ps !! j = Some p /\ 0 <= rel < psz p /\ start ps j + rel = o /\
    ((j = Z.to_nat (CurrentPartNum d) /\ rel = RelativeSectorNumber d) \/
     (j = S (Z.to_nat (CurrentPartNum d)) /\ rel = 0 /\
      exists q, ps !! Z.to_nat (CurrentPartNum d) = Some q /\ RelativeSectorNumber d = psz q)).
Proof.
  intros Hu [_ (p & Hc & Hp & Hr) _ Hsum] Ho.
  destruct (Z.eq_dec (RelativeSectorNumber d) (psz p)) as [Heq|Hne].
  - destruct (ps !! S (Z.to_nat (CurrentPartNum d))) as [q|] eqn:Hq.
    + exists (S (Z.to_nat (CurrentPartNum d))), q, 0. pose proof (lookup_psz _ _ _ Hu Hq).
      rewrite (start_S _ _ _ Hp). split_and!; try done; try lia. right. split_and!; [done..|]. by exists p.
    + exfalso. apply lookup_ge_None in Hq.
      assert (Hall : start ps (S (Z.to_nat (CurrentPartNum d))) = total ps)
        by (unfold start; by rewrite take_ge).
      rewrite (start_S _ _ _ Hp) in Hall. lia.
  - exists (Z.to_nat (CurrentPartNum d)), p, (RelativeSectorNumber d).
    split_and!; try done; lia.
Qed.

Section Transfer.
Context {E : Type} `{Handler E}.
Implicit Types (s : hdlfs) (e : E).

Lemma set_desc_twice p f g s : set_desc p f (set_desc p g s) = set_desc p (fun d => f (g d)) s.
Proof.
  unfold set_desc; simpl. f_equal. apply list_eq. intros j.
  destruct (decide (j = Z.to_nat p)) as [->|Hne].
  - by rewrite !list_lookup_alter_eq, <- option_fmap_compose.
  - by rewrite !list_lookup_alter_ne.
Qed.

Lemma set_desc_ext p f g s :
  (forall d, FD_List s !! Z.to_nat p = Some d -> f d = g d) -> set_desc p f s = set_desc p g s.
Proof.
  intros Hfg. unfold set_desc. f_equal. apply list_eq. intros j.
  destruct (decide (j = Z.to_nat p)) as [->|Hne].
  - rewrite !list_lookup_alter_eq. destruct (FD_List s !! _) as [d|] eqn:Hd; [|done].
    cbn. f_equal. by apply Hfg.
  - by rewrite !list_lookup_alter_ne.
Qed.

Lemma lookup_set_desc p f s d :
  FD_List s !! Z.to_nat p = Some d -> FD_List (set_desc p f s) !! Z.to_nat p = Some (f d).
Proof. intros Hd. unfold set_desc; simpl. by rewrite list_lookup_alter_eq, Hd. Qed.

Lemma set_desc_id p s d : FD_List s !! Z.to_nat p = Some d -> set_desc p (fun _ => d) s = s.
Proof.
  intros Hd. destruct s as [fds sm]. unfold set_desc; simpl in *. f_equal.
  apply list_eq. intros j. destruct (decide (j = Z.to_nat p)) as [->|Hne].
  - by rewrite list_lookup_alter_eq, Hd.
  - by rewrite list_lookup_alter_ne.
Qed.

Lemma wp_desc p Q s e d : 0 <= p -> FD_List s !! Z.to_nat p = Some d ->
  Q (Ret d) s e [] -> wp (desc p : M hdlfs E _) Q s e.
Proof.
  intros Hp Hd HQ. apply wp_bind, wp_get, wp_bind, wp_assert; [|lia]. intros _.
  apply wp_deref. cbn. by rewrite Hd.
Qed.

(** The partition to go on in becomes the current one, at sector [rel]. *)
Lemma sectors_left_run p s e d ps o :
  0 <= p -> FD_List s !! Z.to_nat p = Some d -> parts_in_use ps -> placed ps d o -> o < total ps ->
  exists j q rel, ps !! j = Some q /\ 0 <= rel < psz q /\ start ps j + rel = o /\
    wp (sectors_left p : M hdlfs E Z) (fun r s' e' _ =>
      r = Ret (psz q - rel) /\ s' = set_desc p (set_position (Z.of_nat j) rel o) s /\ e' = e) s e.
Proof.
  intros Hp Hd Hu Hpl Ho.
  destruct (placed_next _ _ _ Hu Hpl Ho) as (j & q & rel & Hj & Hrel & Hst & Hcase).
  destruct (lookup_psz _ _ _ Hu Hj) as (Hq & Hj65 & Hs0 & Hse).
  destruct Hpl as [[rest Hrest] (q0 & Hc & Hq0 & Hr0) Hoff _].
  exists j, q, rel. split_and!; [done | lia | lia | done |].
  unfold sectors_left. apply wp_bind. eapply wp_desc; [done..|]. apply wp_bind, wp_deref.
  rewrite Hrest, (lookup_app_l_Some _ _ _ _ Hq0). unfold bind_post. cbv zeta.
  change (part_size q0 / 512) with (psz q0). destruct (lookup_psz _ _ _ Hu Hq0) as (Hq0z & _).
  rewrite (uwrap_small 32) by lia.
  destruct Hcase as [[-> ->]|(-> & -> & q' & Hq' & Hq'r)].
  - simplify_eq. rewrite (proj2 (Z.ltb_ge _ 1)) by lia. apply wp_ret. split_and!; try done.
    rewrite Z2Nat.id by done. symmetry. rewrite (set_desc_ext _ _ (fun _ => d)).
    + by apply set_desc_id.
    + intros d' Hd'. rewrite Hd in Hd'. injection Hd' as <-. by destruct d.
  - simplify_eq. rewrite (proj2 (Z.ltb_lt _ 1)) by lia.
    assert (Hu16 : u16 (CurrentPartNum d + 1) = Z.of_nat (S (Z.to_nat (CurrentPartNum d))))
      by (rewrite (uwrap_small 16); lia).
    apply wp_bind, wp_modify, wp_bind, wp_deref. rewrite Hu16, Nat2Z.id.
    rewrite (lookup_app_l_Some _ _ _ _ Hj). apply wp_ret.
    split_and!; [by rewrite Z.sub_0_r | done | done].
Qed.

(** One turn of the transfer loop, with its answer from the driver: it moves [n]
    sectors between the buffer and consecutive sectors of the image. *)
Lemma io_turn_step p mode r at_ buf s e d ps o :
  0 <= p -> FD_List s !! Z.to_nat p = Some d -> parts_in_use ps -> placed ps d o ->
  0 < r < 2 ^ 23 -> o + r <= total ps ->
  exists cur rel n, 0 < n <= r /\ 0 <= rel /\
    (exists q, 0 <= cur /\ ps !! Z.to_nat cur = Some q /\ rel + n <= psz q) /\
    (forall k, 0 <= k < n -> locate 0 ps (o + k) = Some (cur, reserved_sectors cur + rel + k)) /\
    placed ps (set_position cur (rel + n) (o + n) d) (o + n) /\
    forall res data e1,
      handle (IomanX_ioctl2 (MountFD d) HIOCTRANSFER
        (ArgTransfer cur (reserved_sectors cur + rel) n mode (drop (Z.to_nat at_) buf)) 0 0) e =
        ((res, data), e1) -> 0 <= res ->
      wp (io_turn p mode (r, at_, buf)) (fun res' s' e' _ =>
        res' = Ret (inl (r - n, at_ + n * 512, overlay (Z.to_nat at_) data buf)) /\
        s' = set_desc p (set_position cur (rel + n) (o + n)) s /\ e' = e1) s e.
Proof.
  intros Hp Hd Hu Hpl Hr Hend.
  destruct (sectors_left_run p s e d ps o) as (j & q & rel & Hj & Hrel & Hst & Hleft); [done..|lia|].
  destruct (lookup_psz _ _ _ Hu Hj) as (Hq & Hj65 & Hs0 & Hse).
  assert (Htot : total ps < 2 ^ 32) by apply Hu.
  set (n := if psz q - rel <? r then psz q - rel else r).
  assert (Hn : 0 < n <= r /\ n <= psz q - rel)
    by (unfold n; destruct (Z.ltb_spec (psz q - rel) r); lia).
  exists (Z.of_nat j), rel, n. split_and!; try lia.
  { exists q. rewrite Nat2Z.id. split_and!; [lia|done|lia]. }
  { intros k Hk. rewrite (locate_at ps q (o + k) 0 j); [|by apply use_psz_nonneg|done|lia].
    do 2 f_equal. rewrite Nat.add_0_l. lia. }
  { destruct Hpl as [[rest Hrest] _ _ _].
    split; cbn [set_position CurrentPartNum RelativeSectorNumber d_offset d_part_specs];
      [by exists rest | | done | rewrite Nat2Z.id; lia].
    exists q. rewrite Nat2Z.id. split_and!; done || lia. }
  intros res data e1 He1 Hres. unfold io_turn.
  rewrite (proj2 (Z.ltb_lt 0 r)) by lia. cbn [negb].
  apply wp_bind. eapply wp_mono; [exact Hleft|].
  intros ? ? ? tr (-> & -> & ->). unfold bind_post. apply wp_bind.
  eapply wp_desc; [done | by apply lookup_set_desc |]. cbv zeta. fold n.
  assert (Hres0 : 0 <= reserved_sectors (Z.of_nat j) <= 0x2000)
    by (unfold reserved_sectors; destruct (Z.of_nat j =? 0); lia).
  apply wp_bind, wp_call. unfold bind_post.
  cbn [set_position MountFD CurrentPartNum RelativeSectorNumber d_offset].
  rewrite !(uwrap_small 32) by lia. rewrite He1. intros ? ? [= <- <-].
  rewrite (proj2 (Z.ltb_ge res 0)) by lia. apply wp_bind, wp_modify, wp_ret.
  split_and!; try done. by rewrite set_desc_twice.
Qed.

Context `{!HdlDisk E}.

(** Sector [o] of the image, and the bytes of [n] sectors from there. *)
Definition image (e : E) (fd : Z) (ps : list part_specs_t) (o : Z) : list Z :=
  match locate 0 ps o with Some (sub, t) => sector e fd sub t | None => [] end.
Definition range (e : E) (fd : Z) (ps : list part_specs_t) (o n : Z) : list Z :=
  concat (image e fd ps <$> seqZ o n).

(** The data areas are within the partitions of the disk. *)
Definition fits (ps : list part_specs_t) : Prop := forall j q, ps !! j = Some q ->
  reserved_sectors (Z.of_nat j) + psz q <= sector_count (Z.of_nat j).

Lemma locate_index ps : forall i o sub t, locate i ps o = Some (sub, t) -> Z.of_nat i <= sub.
Proof.
  induction ps as [|p ps IH]; intros i o sub t; cbn [locate]; [done|].
  destruct (o <? psz p); [intros [= <- _]; lia|]. intros Hl%IH. lia.
Qed.

Lemma locate_inj ps : forall i x y a, locate i ps x = Some a -> locate i ps y = Some a -> x = y.
Proof.
  induction ps as [|p ps IH]; intros i x y [sub t]; cbn [locate]; [done|].
  destruct (x <? psz p), (y <? psz p); intros Hx Hy.
  - simplify_eq. lia.
  - apply locate_index in Hy. simplify_eq. lia.
  - apply locate_index in Hx. simplify_eq. lia.
  - pose proof (IH _ _ _ _ Hx Hy). lia.
Qed.

Lemma range_split e fd ps o n r :
  0 <= n <= r -> range e fd ps o r = range e fd ps o n ++ range e fd ps (o + n) (r - n).
Proof.
  intros Hn. unfold range. rewrite <- concat_app, <- fmap_app. do 2 f_equal.
  rewrite <- seqZ_app by lia. f_equal. lia.
Qed.

Lemma range_located e fd ps o n cur base :
  (forall k, 0 <= k < n -> locate 0 ps (o + k) = Some (cur, base + k)) ->
  concat (sector e fd cur <$> seqZ base n) = range e fd ps o n.
Proof.
  intros Hloc. unfold range. f_equal.
  rewrite <- (Z.add_0_r base), <- (Z.add_0_r o), <- !fmap_add_seqZ, <- !list_fmap_compose.
  apply list_fmap_ext. intros i x Hi. apply list_elem_of_lookup_2, elem_of_seqZ in Hi.
  unfold image, compose. by rewrite Hloc by lia.
Qed.

Lemma range_same e e' fd ps o n :
  (forall sub t, sector e' fd sub t = sector e fd sub t) -> range e' fd ps o n = range e fd ps o n.
Proof.
  intros Hs. unfold range. f_equal. apply list_fmap_ext. intros i x _.
  unfold image. by destruct (locate 0 ps x) as [[sub t]|].
Qed.

Lemma length_concat_512 (l : list (list Z)) :
  Forall (fun x => length x = 512%nat) l -> length (concat l) = (512 * length l)%nat.
Proof. induction 1; cbn [concat length]; [done|]. rewrite length_app. lia. Qed.

Lemma length_sectors e fd sub t n :
  0 <= n -> Z.of_nat (length (concat (sector e fd sub <$> seqZ t n))) = n * 512.
Proof.
  intros Hn. rewrite length_concat_512.
  - rewrite length_fmap, length_seqZ. lia.
  - apply Forall_fmap, Forall_forall. intros x _. apply sector_len.
Qed.

Lemma overlay_overlay at_ a b buf :
  (at_ + length a + length b <= length buf)%nat ->
  overlay (at_ + length a) b (overlay at_ a buf) = overlay at_ (a ++ b) buf.
Proof.
  intros Hlen. unfold overlay. rewrite length_app.
  assert (Ht : length (take at_ buf) = at_) by (rewrite length_take; lia).
  rewrite (app_assoc (take at_ buf)). rewrite take_app_length' by (rewrite length_app; lia).
  rewrite <- !app_assoc. do 3 f_equal.
  rewrite (app_assoc (take at_ buf)), drop_app_ge by (rewrite length_app; lia).
  rewrite length_app, Ht, drop_drop. f_equal. lia.
Qed.

Context (p : Z) (ps : list part_specs_t) (Hp : 0 <= p) (Hu : parts_in_use ps) (Hfits : fits ps).

Lemma fits_part cur rel n : 0 <= rel ->
  (exists q, 0 <= cur /\ ps !! Z.to_nat cur = Some q /\ rel + n <= psz q) ->
  0 <= reserved_sectors cur + rel /\ reserved_sectors cur + rel + n <= sector_count cur.
Proof using Hfits.
  intros Hrel (q & Hc & Hq & Hn). pose proof (Hfits _ _ Hq) as Hf. rewrite Z2Nat.id in Hf by done.
  assert (0 <= reserved_sectors cur) by (unfold reserved_sectors; destruct (cur =? 0); lia). lia.
Qed.

Lemma locate_total l : forall i x, 0 <= x < total l -> is_Some (locate i l x).
Proof.
  induction l as [|q l IH]; intros i x Hx; [unfold total in Hx; simpl in Hx; lia|].
  rewrite total_cons in Hx. cbn [locate]. destruct (Z.ltb_spec x (psz q)); [done|].
  apply IH. lia.
Qed.

Lemma length_range e fd o n : 0 <= o -> 0 <= n -> o + n <= total ps ->
  Z.of_nat (length (range e fd ps o n)) = n * 512.
Proof.
  intros Ho Hn Hend. unfold range. rewrite length_concat_512.
  - rewrite length_fmap, length_seqZ. lia.
  - apply Forall_fmap, Forall_forall. intros x Hx%elem_of_seqZ. unfold compose, image.
    destruct (locate_total ps 0 x) as [[sub t] ->]; [lia|]. apply sector_len.
Qed.

Lemma placed_nonneg d o : placed ps d o -> 0 <= o.
Proof using Hu.
  intros [_ (q & Hc & Hq & Hr) _ <-]. destruct (lookup_psz _ _ _ Hu Hq) as (_ & _ & ? & _). lia.
Qed.

Lemma unmoved s d o : FD_List s !! Z.to_nat p = Some d -> placed ps d o ->
  exists cur rel, s = set_desc p (set_position cur rel (o + 0)) s /\
    placed ps (set_position cur rel (o + 0) d) (o + 0).
Proof.
  intros Hd Hpl. exists (CurrentPartNum d), (RelativeSectorNumber d). rewrite Z.add_0_r.
  assert (Hid : set_position (CurrentPartNum d) (RelativeSectorNumber d) o d = d)
    by (destruct Hpl as [_ _ <- _]; by destruct d).
  rewrite Hid. split; [|done]. symmetry. rewrite (set_desc_ext _ _ (fun _ => d)).
  - by apply set_desc_id.
  - intros d' Hd'. rewrite Hd in Hd'. by injection Hd' as <-.
Qed.

(** Reading [r] sectors from sector [o] on fills the buffer with the image. *)
Lemma read_loop fuel : forall r at_ buf s e d o,
  FD_List s !! Z.to_nat p = Some d -> placed ps d o ->
  0 <= r < 2 ^ 23 -> o + r <= total ps -> (Z.to_nat r < fuel)%nat ->
  0 <= at_ -> at_ + r * 512 <= Z.of_nat (length buf) ->
  wp (loop fuel (io_turn p ATA_DIR_READ) (r, at_, buf)) (fun res s' e' _ =>
    res = Ret (0, overlay (Z.to_nat at_) (range e (MountFD d) ps o r) buf) /\
    (exists cur rel, s' = set_desc p (set_position cur rel (o + r)) s /\
       placed ps (set_position cur rel (o + r) d) (o + r)) /\
    forall sub t, sector e' (MountFD d) sub t = sector e (MountFD d) sub t) s e.
Proof using Hp Hu Hfits.
  induction fuel as [|fuel IH]; intros r at_ buf s e d o Hd Hpl Hr Hend Hfuel Hat Hbuf; [lia|].
  apply wp_loop_S. destruct (Z.eq_dec r 0) as [->|Hr0].
  - apply wp_ret, wp_ret. split_and!.
    + change (range e (MountFD d) ps o 0) with ([] : list Z). by rewrite overlay_nil.
    + by apply unmoved.
    + done.
  - destruct (io_turn_step p ATA_DIR_READ r at_ buf s e d ps o)
      as (cur & rel & n & Hn & Hrel & Hpart & Hloc & Hpl' & Hturn); [done..|lia|lia|].
    destruct (fits_part _ _ _ Hrel Hpart) as [Hb0 Hb1].
    destruct (transfer_read e (MountFD d) cur (reserved_sectors cur + rel) n
                (drop (Z.to_nat at_) buf)) as (res & e1 & Hres & He1 & Hsame); [lia..|].
    pose proof (length_sectors e (MountFD d) cur (reserved_sectors cur + rel) n) as Hlen.
    rewrite (range_located e (MountFD d) ps o n) in He1, Hlen by done.
    specialize (Hlen ltac:(lia)).
    eapply wp_mono; [by eapply Hturn|]. intros ? ? ? tr (-> & -> & ->). unfold bind_post.
    eapply wp_mono; [eapply IH with (o := o + n); [by apply lookup_set_desc | done | lia..|]|].
    { rewrite length_overlay; lia. }
    intros ? s' e' tr' (-> & (cur' & rel' & -> & Hpl2) & Hs2).
    cbn [set_position MountFD] in *. split_and!.
    + rewrite (range_same e e1) by done. rewrite (range_split _ _ _ o n r) by lia.
      replace (Z.to_nat (at_ + n * 512)) with (Z.to_nat at_ + length (range e (MountFD d) ps o n))%nat
        by lia.
      rewrite overlay_overlay; [done|].
      pose proof (length_range e (MountFD d) (o + n) (r - n)) as Hl2.
      pose proof (placed_nonneg _ _ Hpl). lia.
    + exists cur', rel'. replace (o + n + (r - n)) with (o + r) in * by lia.
      by rewrite set_desc_twice.
    + intros sub t. by rewrite Hs2, Hsame.
Qed.

(** What a transfer to consecutive sectors does to the image. *)
Lemma image_written e e1 fd cur base o n buf :
  0 <= o -> 0 < n ->
  (forall k, 0 <= k < n -> locate 0 ps (o + k) = Some (cur, base + k)) ->
  (forall sub' t', sector e1 fd sub' t' =
     if (sub' =? cur) && (base <=? t') && (t' <? base + n)
     then take 512 (drop (Z.to_nat ((t' - base) * 512)) buf) else sector e fd sub' t') ->
  forall x, image e1 fd ps x =
    if (o <=? x) && (x <? o + n) then take 512 (drop (Z.to_nat ((x - o) * 512)) buf)
    else image e fd ps x.
Proof using Type*.
  intros Ho Hn Hloc Hsec x. unfold image.
  destruct ((o <=? x) && (x <? o + n)) eqn:Hx.
  - boolP. replace x with (o + (x - o)) at 1 by lia. rewrite Hloc, Hsec by lia.
    rewrite Z.eqb_refl, (proj2 (Z.leb_le base _)), (proj2 (Z.ltb_lt _ (base + n))) by lia.
    cbn [andb]. by replace (base + (x - o) - base) with (x - o) by lia.
  - destruct (locate 0 ps x) as [[sub t]|] eqn:Hl; [|done]. rewrite Hsec.
    destruct ((sub =? cur) && (base <=? t) && (t <? base + n)) eqn:Hc; [|done]. boolP. subst.
    pose proof (Hloc (t - base) ltac:(lia)) as Hk.
    replace (base + (t - base)) with t in Hk by lia.
    pose proof (locate_inj _ _ _ _ _ Hl Hk). subst x.
    rewrite (proj2 (Z.leb_le _ _)), (proj2 (Z.ltb_lt _ _)) in Hx by lia. done.
Qed.

(** Writing [r] sectors from sector [o] on replaces them in the image, and no other. *)
Lemma write_loop fuel : forall r at_ buf s e d o,
  FD_List s !! Z.to_nat p = Some d -> placed ps d o ->
  0 <= r < 2 ^ 23 -> o + r <= total ps -> (Z.to_nat r < fuel)%nat ->
  0 <= at_ -> at_ + r * 512 <= Z.of_nat (length buf) ->
  wp (loop fuel (io_turn p ATA_DIR_WRITE) (r, at_, buf)) (fun res s' e' _ =>
    res = Ret (0, buf) /\
    (exists cur rel, s' = set_desc p (set_position cur rel (o + r)) s /\
       placed ps (set_position cur rel (o + r) d) (o + r)) /\
    forall x, image e' (MountFD d) ps x =
      if (o <=? x) && (x <? o + r) then take 512 (drop (Z.to_nat (at_ + (x - o) * 512)) buf)
      else image e (MountFD d) ps x) s e.
Proof using Hp Hu Hfits.
  induction fuel as [|fuel IH]; intros r at_ buf s e d o Hd Hpl Hr Hend Hfuel Hat Hbuf; [lia|].
  apply wp_loop_S. destruct (Z.eq_dec r 0) as [->|Hr0].
  - apply wp_ret, wp_ret. split_and!; [done | by apply unmoved|].
    intros x. by destruct (Z.leb_spec o x), (Z.ltb_spec x (o + 0)); try lia.
  - destruct (io_turn_step p ATA_DIR_WRITE r at_ buf s e d ps o)
      as (cur & rel & n & Hn & Hrel & Hpart & Hloc & Hpl' & Hturn); [done..|lia|lia|].
    destruct (fits_part _ _ _ Hrel Hpart) as [Hb0 Hb1].
    destruct (transfer_write e (MountFD d) cur (reserved_sectors cur + rel) n
                (drop (Z.to_nat at_) buf)) as (res & e1 & Hres & He1 & Hsec);
      [lia..|rewrite length_drop; lia|].
    assert (Ho : 0 <= o) by by eapply placed_nonneg.
    pose proof (image_written e e1 (MountFD d) cur _ o n _ Ho ltac:(lia) Hloc Hsec) as Himg.
    eapply wp_mono; [by eapply Hturn|]. intros ? ? ? tr (-> & -> & ->). unfold bind_post.
    rewrite overlay_nil.
    eapply wp_mono; [eapply IH with (o := o + n); [by apply lookup_set_desc | done | lia..]|].
    intros ? s' e' tr' (-> & (cur' & rel' & -> & Hpl2) & Hs2).
    cbn [set_position MountFD] in *. split_and!; [done| |].
    + exists cur', rel'. replace (o + n + (r - n)) with (o + r) in * by lia.
      by rewrite set_desc_twice.
    + intros x. rewrite Hs2, Himg, drop_drop.
      destruct (Z.leb_spec (o + n) x), (Z.ltb_spec x (o + n + (r - n))), (Z.leb_spec o x),
        (Z.ltb_spec x (o + n)), (Z.ltb_spec x (o + r)); try lia; cbn [andb]; try done;
        do 2 f_equal; lia.
Qed.

(** ** The calls, between [WaitSema] and [SignalSema] *)

(** The unit is mounted on partitions [ps] and stands at sector [o]. *)
Record ready (s : hdlfs) (d : HDLFS_FileDescriptor) (o : Z) : Prop := {
  rd_desc : FD_List s !! Z.to_nat p = Some d;
  rd_free : counts s (SemaID d) 1;
  rd_placed : placed ps d o
}.

Lemma sema_around s d f :
  counts s (SemaID d) 1 ->
  set_entry (Z.to_nat (SemaID d)) (Some 1)
    (set_desc p f (set_entry (Z.to_nat (SemaID d)) (Some 0) s)) = set_desc p f s.
Proof using Type.
  intros [_ Hl]. unfold set_entry, set_desc; simpl. f_equal.
  by rewrite list_insert_insert_eq, list_insert_id.
Qed.

Lemma ready_moved s d o o' cur rel :
  ready s d o -> placed ps (set_position cur rel o' d) o' ->
  ready (set_desc p (set_position cur rel o') s) (set_position cur rel o' d) o'.
Proof using Type.
  intros [Hd Hc Hpl] Hpl'. split; [by apply lookup_set_desc | | done].
  by destruct Hc as [Hv Hl].
Qed.

(** The loop of a transfer, from the state with the semaphore taken. *)
Definition transfers (mode : Z) (s : hdlfs) (d : HDLFS_FileDescriptor) (o r : Z)
    (buf : list Z) (Q : list Z -> E -> Prop) (e : E) : Prop :=
  forall s1, FD_List s1 = FD_List s ->
  wp (loop (io_fuel r) (io_turn p mode) (r, 0, buf)) (fun res s' e' _ =>
    exists buf', res = Ret (0, buf') /\
    (exists cur rel, s' = set_desc p (set_position cur rel (o + r)) s1 /\
       placed ps (set_position cur rel (o + r) d) (o + r)) /\ Q buf' e') s1 e.

Lemma io_internal_run mode s d o r buf fd (Q : list Z -> E -> Prop) e :
  ready s d o -> f_privdata fd = Some p -> 0 <= r < 2 ^ 22 ->
  transfers mode s d o r buf Q e ->
  wp (hdlfs_io_internal fd (Some buf) (r * 512) mode) (fun res s' e' _ =>
    exists buf' d', res = Ret (r * 512, Some buf') /\ ready s' d' (o + r) /\
      (exists cur rel, d' = set_position cur rel (o + r) d /\
                       s' = set_desc p (set_position cur rel (o + r)) s) /\ Q buf' e') s e.
Proof using Hp.
  intros Hrd Hpd Hr Hloop. pose proof Hrd as [Hd Hc Hpl]. unfold hdlfs_io_internal.
  rewrite Z.rem_mul by lia. cbn [negb Z.eqb]. rewrite Hpd.
  apply wp_bind, wp_deref, wp_bind. eapply wp_desc; [done..|].
  apply wp_bind, wp_wait; [done|]. unfold bind_post at 1.
  assert (Hu32 : u32 (Z.quot (r * 512) 512) = r)
    by (rewrite Z.quot_mul by lia; apply (uwrap_small 32); lia).
  rewrite Hu32. apply wp_bind.
  eapply wp_mono; [by apply Hloop|].
  intros ? s' e' tr (buf' & -> & (cur & rel & -> & Hpl') & HQ). unfold bind_post at 1.
  apply wp_bind, wp_signal.
  2: { unfold bind_post. apply wp_ret. cbn [Z.ltb Z.compare].
    rewrite sema_around by done. exists buf', (set_position cur rel (o + r) d).
    split_and!; [done | by apply ready_moved with o | by exists cur, rel | done]. }
  pose proof (counts_set _ _ 0 _ Hc) as [? ?]. by split.
Qed.

Lemma io_fuel_enough r : 0 <= r -> (Z.to_nat r < io_fuel r)%nat.
Proof using Type. intros. unfold io_fuel, NUM_SPECS. lia. Qed.

Lemma read_transfers s d o r buf e :
  ready s d o -> 0 <= r < 2 ^ 22 -> o + r <= total ps -> r * 512 <= Z.of_nat (length buf) ->
  transfers ATA_DIR_READ s d o r buf (fun buf' e' =>
    buf' = overlay 0 (range e (MountFD d) ps o r) buf /\
    forall x, image e' (MountFD d) ps x = image e (MountFD d) ps x) e.
Proof using Hp Hu Hfits.
  intros [Hd Hc Hpl] Hr Hend Hbuf s1 Hs1. rewrite <- Hs1 in Hd.
  eapply wp_mono; [eapply read_loop; [done..|lia|done|by apply io_fuel_enough; lia|lia|lia]|].
  intros ? s' e' tr (-> & Hs' & Hsame). eexists. split_and!; [done | done | done |].
  intros x. unfold image. by destruct (locate 0 ps x) as [[sub t]|].
Qed.

Lemma write_transfers s d o r buf e :
  ready s d o -> 0 <= r < 2 ^ 22 -> o + r <= total ps -> r * 512 <= Z.of_nat (length buf) ->
  transfers ATA_DIR_WRITE s d o r buf (fun buf' e' => buf' = buf /\
    forall x, image e' (MountFD d) ps x =
      if (o <=? x) && (x <? o + r) then take 512 (drop (Z.to_nat ((x - o) * 512)) buf)
      else image e (MountFD d) ps x) e.
Proof using Hp Hu Hfits.
  intros [Hd Hc Hpl] Hr Hend Hbuf s1 Hs1. rewrite <- Hs1 in Hd.
  eapply wp_mono; [eapply write_loop; [done..|lia|done|by apply io_fuel_enough; lia|lia|lia]|].
  intros ? s' e' tr (-> & Hs' & Himg). by exists buf.
Qed.

(** ** Seeking *)

(** The offsets of the records are where their partitions start in the image, in
    sectors of 2048 bytes. *)
Definition layout_ok : Prop := forall j q, ps !! j = Some q ->
  part_offset q * 4 = start ps j /\ part_size q mod 2048 = 0.

Lemma psz_2048 q : part_size q mod 2048 = 0 -> psz q = part_size q / 2048 * 4.
Proof using Type. unfold psz. intros. dlia. Qed.

Lemma seek_part_finds x rest l : forall i base,
  (forall j q, l !! j = Some q ->
     in_part x q = (base + start l j <=? 4 * x) && (4 * x <? base + start l j + psz q)) ->
  base <= 4 * x < base + total l ->
  exists j q, l !! j = Some q /\ base + start l j <= 4 * x < base + start l j + psz q /\
    forall n, (length l <= n)%nat -> seek_part n x i (l ++ rest) = Some (Some (i + j)%nat).
Proof using Type.
  induction l as [|q l IH]; intros i base Hin Hx; [unfold total in Hx; simpl in Hx; lia|].
  rewrite total_cons in Hx. cbn [length app].
  pose proof (Hin 0%nat q eq_refl) as H0. change (start (q :: l) 0) with 0 in H0.
  destruct (Z.ltb_spec (4 * x) (base + psz q)) as [Hlt|Hge].
  - exists 0%nat, q. change (start (q :: l) 0) with 0. split_and!; [done | lia | lia |].
    intros [|n] Hn; [lia|]. cbn [seek_part]. rewrite H0.
    rewrite (proj2 (Z.leb_le _ _)), (proj2 (Z.ltb_lt _ _)) by lia. by rewrite Nat.add_0_r.
  - destruct (IH (S i) (base + psz q)) as (j & q' & Hj & Hb & Hs); [| lia |].
    + intros j q' Hj. rewrite (Hin (S j) q' Hj).
      change (start (q :: l) (S j)) with (psz q + start l j). by rewrite !Z.add_assoc.
    + exists (S j), q'. change (start (q :: l) (S j)) with (psz q + start l j).
      split_and!; [done | lia | lia |]. intros [|n] Hn; [lia|]. cbn [seek_part]. rewrite H0.
      rewrite (proj2 (Z.ltb_ge (4 * x) _)), andb_false_r by lia. rewrite Hs by lia.
      do 2 f_equal. lia.
Qed.

Lemma in_part_layout x j q :
  layout_ok -> ps !! j = Some q -> 0 <= x < 2 ^ 29 ->
  in_part x q = (start ps j <=? 4 * x) && (4 * x <? start ps j + psz q).
Proof using Hu.
  intros Hl Hj Hx. destruct (Hl _ _ Hj) as [Ho Hsz]. pose proof (psz_2048 _ Hsz) as Hp4.
  destruct (lookup_psz _ _ _ Hu Hj) as (? & _ & ? & ?). pose proof (use_total _ Hu).
  unfold in_part. rewrite !(uwrap_small 32) by lia.
  destruct (Z.leb_spec (part_offset q) x), (Z.leb_spec (start ps j) (4 * x)),
    (Z.ltb_spec x (part_offset q + part_size q / 2048)), (Z.ltb_spec (4 * x) (start ps j + psz q));
    done || lia.
Qed.

Lemma mounted_run {A} (k : bool -> M hdlfs E A) unit s d
    (Q : res A -> hdlfs -> E -> trace -> Prop) e :
  FD_List s !! Z.to_nat unit = Some d -> 0 <= unit < MAX_AVAILABLE_FDs -> 0 <= MountFD d ->
  wp (k true) Q s e -> wp (mounted unit ≫= k) Q s e.
Proof using Type.
  intros Hd Hunit Hm Hk. apply wp_bind. unfold mounted.
  rewrite (proj2 (Z.ltb_lt _ _)) by lia. apply wp_bind. eapply wp_desc; [lia|done|].
  apply wp_ret. by rewrite (proj2 (Z.leb_le _ _)).
Qed.

(** A seek goes by the partition that holds its argument, whatever [whence] is. *)
Lemma lseek_run fd x whence s d o e :
  ready s d o -> layout_ok -> f_unit fd = p -> f_privdata fd = Some p -> p < MAX_AVAILABLE_FDs ->
  0 <= MountFD d -> Z.of_nat (length ps) <= NumPartitions d -> 0 <= x -> 4 * x < total ps ->
  x < 2 ^ 29 ->
  wp (hdlfs_lseek fd x whence) (fun res s' e' _ =>
    exists j q, ps !! j = Some q /\ start ps j <= 4 * x < start ps j + psz q /\
      res = Ret (seek_offset d x whence / 4) /\ e' = e /\
      s' = set_desc p (set_position (Z.of_nat j) (u32 (seek_offset d x whence - start ps j))
                         (seek_offset d x whence)) s) s e.
Proof using Hp Hu.
  intros Hrd Hlay Hunit Hpd Hmax Hm Hnum Hx0 Hx Hx29. pose proof Hrd as [Hd Hc Hpl].
  unfold hdlfs_lseek. rewrite Hunit. eapply mounted_run; [done|lia|done|].
  rewrite Hpd. apply wp_bind, wp_deref, wp_bind. eapply wp_desc; [done..|].
  apply wp_bind, wp_wait; [done|]. unfold bind_post at 1.
  destruct Hpl as [[rest Hrest] _ _ _].
  destruct (seek_part_finds x rest ps 0 0) as (j & q & Hj & Hjx & Hseek); [|lia|].
  { intros j q Hj. by apply in_part_layout. }
  destruct (lookup_psz _ _ _ Hu Hj) as (? & Hj65 & ? & ?). pose proof (use_total _ Hu).
  destruct (Hlay _ _ Hj) as [Ho4 _].
  apply wp_bind, wp_deref. rewrite Hrest, Hseek by lia.
  apply wp_bind, wp_bind, wp_deref. rewrite Nat.add_0_l, (lookup_app_l_Some _ _ _ _ Hj).
  apply wp_bind, wp_assert.
  2: { unfold fits_int. rewrite (proj2 (Z.leb_le _ (x * 4))), (proj2 (Z.ltb_lt (x * 4) _)) by lia.
       by rewrite orb_true_r. }
  intros _. apply wp_bind, wp_modify.
  rewrite (uwrap_small 32 (part_offset q * 4)), Ho4 by lia. apply wp_ret, wp_bind, wp_signal.
  2: { unfold bind_post. apply wp_ret. rewrite sema_around by done. by exists j, q. }
  pose proof (counts_set _ _ 0 _ Hc) as [? ?]. by split.
Qed.

Lemma lseek_set_run fd x s d o e :
  ready s d o -> layout_ok -> f_unit fd = p -> f_privdata fd = Some p -> p < MAX_AVAILABLE_FDs ->
  0 <= MountFD d -> Z.of_nat (length ps) <= NumPartitions d -> 0 <= x -> 4 * x < total ps ->
  x < 2 ^ 29 ->
  wp (hdlfs_lseek fd x FIO_SEEK_SET) (fun res s' e' _ =>
    exists d', res = Ret x /\ ready s' d' (4 * x) /\ e' = e /\
      exists cur rel, d' = set_position cur rel (4 * x) d /\
                      s' = set_desc p (set_position cur rel (4 * x)) s) s e.
Proof using Hp Hu.
  intros Hrd Hlay Hunit Hpd Hmax Hm Hnum Hx0 Hx Hx29.
  eapply wp_mono; [by eapply lseek_run|].
  intros res s' e' t (j & q & Hj & Hjx & -> & -> & ->). pose proof (use_total _ Hu).
  destruct (lookup_psz _ _ _ Hu Hj) as (? & Hj65 & ? & ?).
  assert (Hoff : seek_offset d x FIO_SEEK_SET = 4 * x).
  { unfold seek_offset. cbn [Z.eqb FIO_SEEK_SET]. rewrite (uwrap_small 32); lia. }
  rewrite Hoff, (uwrap_small 32) by lia.
  exists (set_position (Z.of_nat j) (4 * x - start ps j) (4 * x) d).
  split_and!; [f_equal; dlia | | done | by do 2 eexists].
  pose proof Hrd as [_ _ [[rest Hrest] _ _ _]].
  apply ready_moved with o; [done|]. split; cbn [set_position d_part_specs CurrentPartNum
    RelativeSectorNumber d_offset]; [by exists rest | | done | rewrite Nat2Z.id; lia].
  exists q. rewrite Nat2Z.id. split_and!; done || lia.
Qed.
End Transfer.

Section TransferProps.
Context {E : Type} `{HdlDisk E}.

(** [fd] is the open game of its unit: mounted on the partitions [ps], laid out end to
    end and within the disk, its semaphore free, at sector [o]. *)
Record open_game (fd : iop_file) (ps : list part_specs_t) (s : hdlfs) (d : HDLFS_FileDescriptor)
    (o : Z) : Prop := {
  og_unit : 0 <= f_unit fd < MAX_AVAILABLE_FDs;
  og_privdata : f_privdata fd = Some (f_unit fd);
  og_use : parts_in_use ps;
  og_fits : fits (E := E) ps;
  og_layout : layout_ok ps;
  og_mounted : 0 <= MountFD d;
  og_parts : Z.of_nat (length ps) <= NumPartitions d;
  og_ready : ready (f_unit fd) ps s d o
}.

Lemma open_game_moved fd ps s d o s' o' cur rel :
  open_game fd ps s d o -> ready (f_unit fd) ps s' (set_position cur rel o' d) o' ->
  open_game fd ps s' (set_position cur rel o' d) o'.
Proof. intros [] Hrd. by split. Qed.

Lemma read_run fd ps s d o r buf e :
  open_game fd ps s d o -> flag (f_mode fd) FIO_O_RDONLY = true ->
  0 <= r < 2 ^ 22 -> o + r <= total ps -> r * 512 <= Z.of_nat (length buf) ->
  wp (hdlfs_read fd (Some buf) (r * 512)) (fun res s' e' _ =>
    res = Ret (r * 512, Some (overlay 0 (range e (MountFD d) ps o r) buf)) /\
    (exists d', MountFD d' = MountFD d /\ open_game fd ps s' d' (o + r)) /\
    forall x, image e' (MountFD d) ps x = image e (MountFD d) ps x) s e.
Proof.
  intros Hog Hmode Hr Hend Hbuf. pose proof Hog as [? Hpd ? Hf ? ? ? Hrd]. unfold hdlfs_read.
  rewrite Hmode.
  eapply wp_mono; [eapply (io_internal_run (f_unit fd) ps); [lia|done..|]|].
  { apply (read_transfers (f_unit fd) ps); done || lia. }
  intros ? s' e' tr (buf' & d' & -> & Hrd' & (cur & rel & -> & ->) & -> & Himg).
  split_and!; [done | | done]. eexists; split; [|by eapply open_game_moved]. done.
Qed.

Lemma write_run fd ps s d o r buf e :
  open_game fd ps s d o -> flag (f_mode fd) FIO_O_WRONLY = true ->
  0 <= r < 2 ^ 22 -> o + r <= total ps -> r * 512 <= Z.of_nat (length buf) ->
  wp (hdlfs_write fd (Some buf) (r * 512)) (fun res s' e' _ =>
    res = Ret (r * 512, Some buf) /\
    (exists d', MountFD d' = MountFD d /\ open_game fd ps s' d' (o + r)) /\
    forall x, image e' (MountFD d) ps x =
      if (o <=? x) && (x <? o + r) then take 512 (drop (Z.to_nat ((x - o) * 512)) buf)
      else image e (MountFD d) ps x) s e.
Proof.
  intros Hog Hmode Hr Hend Hbuf. pose proof Hog as [? Hpd ? Hf ? ? ? Hrd]. unfold hdlfs_write.
  rewrite Hmode.
  eapply wp_mono; [eapply (io_internal_run (f_unit fd) ps); [lia|done..|]|].
  { apply (write_transfers (f_unit fd) ps); done || lia. }
  intros ? s' e' tr (buf' & d' & -> & Hrd' & (cur & rel & -> & ->) & -> & Himg).
  split_and!; [done | | done]. eexists; split; [|by eapply open_game_moved]. done.
Qed.

Lemma seek_run fd ps s d o x e :
  open_game fd ps s d o -> 0 <= x < 2 ^ 29 -> 4 * x < total ps ->
  wp (hdlfs_lseek fd x FIO_SEEK_SET) (fun res s' e' _ =>
    res = Ret x /\ e' = e /\
    exists d', MountFD d' = MountFD d /\ open_game fd ps s' d' (4 * x)) s e.
Proof.
  intros Hog Hx Hend. pose proof Hog as [Hun Hpd Hus Hf Hlay Hm Hnum Hrd].
  eapply wp_mono; [apply (lseek_set_run (f_unit fd) ps) with (d := d) (o := o); done || lia|].
  intros ? s' e' tr (d' & -> & Hrd' & -> & cur & rel & -> & ->).
  split_and!; [done..|]. eexists; split; [|by eapply open_game_moved]. done.
Qed.

(** The sectors of a buffer, one after the other. *)
Lemma sectors_of_buffer n : forall o (f : Z -> list Z) buf,
  Z.of_nat (length buf) = Z.of_nat n * 512 ->
  (forall x, o <= x < o + Z.of_nat n -> f x = take 512 (drop (Z.to_nat ((x - o) * 512)) buf)) ->
  concat (f <$> seqZ o (Z.of_nat n)) = buf.
Proof.
  induction n as [|n IH]; intros o f buf Hlen Hf; [by destruct buf|].
  rewrite seqZ_cons by lia. rewrite fmap_cons. cbn [concat].
  rewrite Hf, Z.sub_diag by lia. change (Z.to_nat (0 * 512)) with 0%nat. rewrite drop_0.
  replace (Z.pred (Z.of_nat (S n))) with (Z.of_nat n) by lia. rewrite <- Z.add_1_r.
  rewrite (IH (o + 1) f (drop 512 buf)), take_drop; [done | rewrite length_drop; lia |].
  intros x Hx. rewrite Hf by lia. rewrite drop_drop. do 2 f_equal. lia.
Qed.

Lemma range_of_buffer e' fd ps o r buf f :
  0 <= r -> Z.of_nat (length buf) = r * 512 ->
  (forall x, image e' fd ps x =
     if (o <=? x) && (x <? o + r) then take 512 (drop (Z.to_nat ((x - o) * 512)) buf) else f x) ->
  range e' fd ps o r = buf.
Proof.
  intros Hr Hbuf Himg. unfold range. rewrite <- (Z2Nat.id r) by lia. apply sectors_of_buffer; [lia|].
  intros x Hx. rewrite Himg.
  by rewrite (proj2 (Z.leb_le o x)), (proj2 (Z.ltb_lt x (o + r))) by lia.
Qed.

(** C3: an open game is one array of sectors: a read of [r] sectors at sector [o]
    returns them from the image, across partition boundaries, and leaves the image
    alone; a write replaces exactly those sectors; both return the byte count asked
    for, move on to sector [o + r], and leave the file ready for the next call. *)
Theorem hdlfs_transfer_flat fd ps s d o r buf e :
  open_game fd ps s d o -> f_mode fd = FIO_O_RDWR ->
  0 <= r < 2 ^ 22 -> o + r <= total ps -> Z.of_nat (length buf) = r * 512 ->
  wp (hdlfs_read fd (Some buf) (r * 512)) (fun res s' e' _ =>
    res = Ret (r * 512, Some (range e (MountFD d) ps o r)) /\
    (exists d', open_game fd ps s' d' (o + r)) /\
    forall x, image e' (MountFD d) ps x = image e (MountFD d) ps x) s e /\
  wp (hdlfs_write fd (Some buf) (r * 512)) (fun res s' e' _ =>
    res = Ret (r * 512, Some buf) /\
    (exists d', open_game fd ps s' d' (o + r)) /\
    range e' (MountFD d) ps o r = buf /\
    forall x, ~ o <= x < o + r -> image e' (MountFD d) ps x = image e (MountFD d) ps x) s e.
Proof.
  intros Hog Hmode Hr Hend Hbuf. split.
  - eapply wp_mono; [eapply read_run; [done | by rewrite Hmode | done | done | lia]|].
    intros ? s' e' tr (-> & (d' & _ & Hog') & Himg). split_and!; [|by exists d'|done].
    do 2 f_equal. unfold overlay. rewrite take_0. simpl.
    pose proof (placed_nonneg ps (og_use _ _ _ _ _ Hog) d o (rd_placed _ _ _ _ _ (og_ready _ _ _ _ _ Hog))).
    pose proof (length_range ps e (MountFD d) o r).
    by rewrite drop_ge, app_nil_r by lia.
  - eapply wp_mono; [eapply write_run; [done | by rewrite Hmode | done | done | lia]|].
    intros ? s' e' tr (-> & (d' & _ & Hog') & Himg). split_and!; [done|by exists d'| |].
    + eapply range_of_buffer; [lia | done | exact Himg].
    + intros x Hx. rewrite Himg.
      destruct (Z.leb_spec o x), (Z.ltb_spec x (o + r)); cbn [andb]; done || lia.
Qed.

(** C22: what is written at a place of the image is read back from there: seek to
    sector [x] (of 2048 bytes), write, seek back and read give the data written, for
    any length that ends within the image, and each call its full result. *)
Theorem hdlfs_write_read fd ps s d o x r data buf e :
  open_game fd ps s d o -> f_mode fd = FIO_O_RDWR ->
  0 <= x < 2 ^ 29 -> 4 * x < total ps -> 0 <= r < 2 ^ 22 -> 4 * x + r <= total ps ->
  Z.of_nat (length data) = r * 512 -> Z.of_nat (length buf) = r * 512 ->
  wp (x1 ← hdlfs_lseek fd x FIO_SEEK_SET;
      '(w, _) ← hdlfs_write fd (Some data) (r * 512);
      x2 ← hdlfs_lseek fd x FIO_SEEK_SET;
      '(n, out) ← hdlfs_read fd (Some buf) (r * 512);
      mret (x1, w, x2, n, out))
     (fun res _ _ _ => res = Ret (x, r * 512, x, r * 512, Some data)) s e.
Proof.
  intros Hog Hmode Hx Hx4 Hr Hend Hdata Hbuf.
  apply wp_bind. eapply wp_mono; [by eapply seek_run|].
  intros ? s1 e1 t1 (-> & -> & d1 & Hm1 & Hog1). unfold bind_post. apply wp_bind.
  eapply wp_mono; [apply (write_run fd ps s1 d1 (4 * x) r data e); rewrite ?Hmode; done || lia|].
  intros ? s2 e2 t2 (-> & (d2 & Hm2 & Hog2) & Himg). unfold bind_post. apply wp_bind.
  eapply wp_mono; [by apply (seek_run fd ps s2 d2 (4 * x + r) x e2)|].
  intros ? s3 e3 t3 (-> & -> & d3 & Hm3 & Hog3). unfold bind_post. apply wp_bind.
  eapply wp_mono; [apply (read_run fd ps s3 d3 (4 * x) r buf e2); rewrite ?Hmode; done || lia|].
  intros ? s4 e4 t4 (-> & _). unfold bind_post. apply wp_ret. do 3 f_equal.
  rewrite Hm3, Hm2, (range_of_buffer e2 _ _ _ r _ _ (proj1 Hr) Hdata Himg).
  unfold overlay. rewrite take_0, drop_ge, app_nil_r by lia. done.
Qed.

(** Asking where the file is, by a seek of 0 from the current place, answers
    right but misplaces it: the driver takes the first partition, where offset 0 is,
    for the current one, so from any place past that partition the descriptor is
    left beyond the partition's end, at no sector of the image. *)
Theorem hdlfs_tell_misplaces fd ps s d o p0 e :
  open_game fd ps s d o -> ps !! 0%nat = Some p0 -> psz p0 < o ->
  wp (hdlfs_lseek fd 0 FIO_SEEK_CUR) (fun res s' _ _ =>
    res = Ret (o / 4) /\
    exists d', FD_List s' !! Z.to_nat (f_unit fd) = Some d' /\
      CurrentPartNum d' = 0 /\ RelativeSectorNumber d' = o /\ forall o', ~ placed ps d' o') s e.
Proof.
  intros [Hun Hpd Hus Hf Hlay Hm Hnum Hrd] Hp0 Ho. pose proof Hrd as [Hd _ Hpl].
  destruct (lookup_psz _ _ _ Hus Hp0) as (? & _ & ? & ?). pose proof (use_total _ Hus).
  eapply wp_mono; [apply (lseek_run (f_unit fd) ps) with (d := d) (o := o); done || lia|].
  intros res s' e' t (j & q & Hj & Hjx & -> & -> & ->).
  assert (Hoff : seek_offset d 0 FIO_SEEK_CUR = o).
  { unfold seek_offset. cbn [Z.eqb Pos.eqb FIO_SEEK_SET FIO_SEEK_CUR].
    pose proof Hpl as [_ (q' & _ & Hq' & _) Heq Hsum]. rewrite Heq, Z.add_0_r.
    destruct (lookup_psz _ _ _ Hus Hq') as (_ & _ & _ & ?). apply (uwrap_small 32).
    pose proof (placed_nonneg ps Hus _ _ Hpl). destruct Hpl as [_ (? & _ & ? & ?) _ _]. simplify_eq. lia. }
  destruct j as [|j].
  2: { destruct (lookup_psz _ _ _ Hus Hj) as (_ & _ & Hs & _).
       assert (start ps 1 <= start ps (S j)); [|rewrite (start_S _ _ _ Hp0) in *; lia].
       unfold start. rewrite <- (take_drop 1 (take (S j) ps)), take_take, Nat.min_l by lia.
       unfold total. rewrite fmap_app, zsum_app.
       pose proof (total_nonneg (drop 1 (take (S j) ps))) as Hnn. unfold total in Hnn.
       specialize (Hnn ltac:(apply Forall_drop, Forall_take; by apply use_psz_nonneg)). lia. }
  rewrite Hp0 in Hj; injection Hj as <-. rewrite Hoff. change (start ps 0) with 0. split; [done|].
  exists (set_position 0 o o d). rewrite Z.sub_0_r, (uwrap_small 32).
  - split_and!; [by apply lookup_set_desc | done | done |].
    intros o' [_ (q' & _ & Hq' & Hr) _ _]. change (ps !! 0%nat = Some q') in Hq'.
    cbn [set_position RelativeSectorNumber] in Hr. rewrite Hp0 in Hq'. injection Hq' as <-. lia.
  - pose proof Hpl as [_ (q' & _ & Hq' & Hr) _ Hsum].
    destruct (lookup_psz _ _ _ Hus Hq') as (_ & _ & _ & ?). lia.
Qed.
End TransferProps.

(** ** A sample disk: a partition and one sub-partition, with 8 sectors of data each *)

Module HdlSample.
Record disk := mk_disk { img : Z -> Z -> list Z; hdr : list Z }.

Definition sample_sector (e : disk) (sub t : Z) : list Z := take 512 (img e sub t ++ replicate 512 0).
Definition sample_count (i : Z) : Z := reserved_sectors i + 8.
Definition sample_start (i : Z) : Z := 0x40000 + i * 0x10000.

#[export] Instance disk_handler : Handler disk := fun A c e =>
  match c in ioE A return A * disk with
  | IomanX_ioctl2 _ cmd arg _ _ =>
      match arg with
      | ArgTransfer sub t n mode buf =>
          if mode =? ATA_DIR_READ then ((0, concat (sample_sector e sub <$> seqZ t n)), e)
          else ((0, []), mk_disk (fun sub' t' =>
                 if (sub' =? sub) && (t <=? t') && (t' <? t + n)
                 then take 512 (drop (Z.to_nat ((t' - t) * 512)) buf) else img e sub' t') (hdr e))
      | ArgInt i => if cmd =? HIOCGETPARTSTART then ((sample_start i, []), e)
                    else ((sample_count i, []), e)
      | _ => if cmd =? HIOCNSUB then ((1, []), e) else ((0, []), e)
      end
  | IomanX_read _ n => ((n, hdr e), e)
  | IomanX_write _ data n => (n, mk_disk (img e) data)
  | IomanX_open _ _ _ => (3, e)
  | IomanX_getstat _ =>
      ((0, mk_iox_stat HDL_FS_MAGIC 0 0 (replicate 8 0) (replicate 8 0) (replicate 8 0) 0 0 0 0 0 0 0), e)
  | c => (default_answer c, e)
  end.

Lemma length_sample_sector e sub t : length (sample_sector e sub t) = 512%nat.
Proof. unfold sample_sector. rewrite length_take, length_app, length_replicate. lia. Qed.

#[export] Instance disk_sectors : HdlDisk disk.
Proof.
  refine {| sector := fun e _ => sample_sector e; sector_count := sample_count |}.
  - intros e _ sub t. apply length_sample_sector.
  - intros e fd sub t n buf _ _ _. exists 0, e. split_and!; done.
  - intros e fd sub t n buf Ht Hn _ Hb. eexists 0, _. split_and!; [done | reflexivity |].
    intros sub' t'. unfold sample_sector at 1. cbn [img].
    destruct ((sub' =? sub) && (t <=? t') && (t' <? t + n)) eqn:Hc; [|done]. boolP.
    apply take_app_length'. rewrite length_take, length_drop. lia.
Defined.

Definition sample_ps : list part_specs_t := [mk_part 0 0x42000 4096; mk_part 2 0x50004 4096].
Definition sample_specs : list part_specs_t := sample_ps ++ replicate 63 (mk_part 0 0 0).
Definition sample_desc : HDLFS_FileDescriptor := mk_desc 3 0 2 0 0 0 16 sample_specs.
Definition sample_state (o : Z) : hdlfs :=
  mk_hdlfs [set_position (o / 8) (o mod 8) o sample_desc; mk_desc (-1) 1 0 0 0 0 0 sample_specs]
           (<[0%nat := Some 1]> (<[1%nat := Some 1]> initial_sem)).
Definition sample_file : iop_file := mk_iop_file 0 FIO_O_RDWR (Some 0).
Definition sample_disk : disk := mk_disk (fun _ _ => []) [].

Lemma sample_use : parts_in_use sample_ps.
Proof. split; [repeat constructor; vm_compute; congruence | unfold NUM_SPECS; cbn; lia | done]. Qed.

Lemma sample_open o : (o = 0 \/ o = 12) ->
  open_game (E := disk) sample_file sample_ps (sample_state o)
    (set_position (o / 8) (o mod 8) o sample_desc) o.
Proof.
  intros Ho. split; try done.
  - apply sample_use.
  - intros [|[|j]] q Hq; simplify_eq/=; done.
  - intros [|[|j]] q Hq; simplify_eq/=; done.
  - split; [done | done |]. destruct Ho as [-> | ->];
      (split; [by eexists | | done | done]); eexists; split_and!; (done || reflexivity || lia).
Qed.
End HdlSample.

Import HdlSample.

Lemma hdlfs_transfer_flat_witness :
  wp (hdlfs_read sample_file (Some (replicate 2048 7)) (4 * 512)) (fun res _ _ _ =>
    res = Ret (4 * 512, Some (range sample_disk 3 sample_ps 12 4))) (sample_state 12) sample_disk.
Proof.
  pose proof (hdlfs_transfer_flat sample_file sample_ps (sample_state 12)
    (set_position (12 / 8) (12 mod 8) 12 sample_desc) 12 4 (replicate 2048 7) sample_disk
    (sample_open 12 (or_intror eq_refl)) eq_refl ltac:(lia) ltac:(vm_compute; congruence)
    ltac:(vm_compute; reflexivity)) as [Hr _].
  eapply wp_mono; [exact Hr|]. cbv beta. by intros res s e t (-> & _).
Defined.

Lemma hdlfs_write_read_witness :
  wp (x1 ← hdlfs_lseek sample_file 1 FIO_SEEK_SET;
      '(w, _) ← hdlfs_write sample_file (Some (replicate 4096 9)) (8 * 512);
      x2 ← hdlfs_lseek sample_file 1 FIO_SEEK_SET;
      '(n, out) ← hdlfs_read sample_file (Some (replicate 4096 0)) (8 * 512);
      mret (x1, w, x2, n, out))
     (fun res _ _ _ => res = Ret (1, 8 * 512, 1, 8 * 512, Some (replicate 4096 9)))
     (sample_state 0) sample_disk.
Proof.
  apply (hdlfs_write_read sample_file sample_ps (sample_state 0) (set_position (0 / 8) (0 mod 8) 0 sample_desc) 0
           1 8 (replicate 4096 9) (replicate 4096 0) sample_disk);
    [apply (sample_open 0); by left | done | lia | vm_compute; reflexivity | lia |
     vm_compute; congruence | vm_compute; reflexivity | vm_compute; reflexivity].
Defined.

Lemma hdlfs_tell_misplaces_witness :
  wp (hdlfs_lseek sample_file 0 FIO_SEEK_CUR) (fun res _ _ _ => res = Ret (12 / 4)) (sample_state 12) sample_disk.
Proof.
  eapply wp_mono; [apply (hdlfs_tell_misplaces sample_file sample_ps (sample_state 12)
    (set_position (12 / 8) (12 mod 8) 12 sample_desc) 12 (mk_part 0 0x42000 4096) sample_disk);
    [apply (sample_open 12); by right | done | vm_compute; reflexivity]|].
  cbv beta. by intros res s e t (-> & _).
Defined.

Lemma hdlfs_no_deadlock_witness :
  wp (for_ [HDL_READ sample_file (Some (replicate 512 0)) 512; HDL_UMOUNT sample_file;
            HDL_READ sample_file None 512] (fun r => _ ← hdlfs_functarray r; mret tt))
     (fun r _ _ _ => r <> Blocked) (sample_state 12) sample_disk.
Proof.
  eapply wp_mono; [apply (hdlfs_no_deadlock _ (<[0%nat := Some 1]> (<[1%nat := Some 1]> initial_sem)) [0; 1]);
                   [repeat constructor; done | done]|].
  cbv beta. by intros r s e t [Hr _].
Defined.

Lemma info_roundtrip_witness :
  let h := mk_info HDL_INFO_MAGIC 0 1 (replicate 160 65) 1 2 3 4 (replicate 60 66) 0 0x14 2 sample_specs in
  info_of_bytes (info_bytes h) = h.
Proof.
  apply (info_roundtrip (mk_info HDL_INFO_MAGIC 0 1 (replicate 160 65) 1 2 3 4 (replicate 60 66)
           0 0x14 2 sample_specs)).
  split; cbn [hi_magic hi_reserved hi_version gamename hdl_compat_flags ops2l_compat_flags dma_type
    dma_mode startup layer1_start discType num_partitions part_specs];
    try (unfold word, is_half, HDL_INFO_MAGIC; lia); try done.
  - repeat constructor; unfold is_byte; lia.
  - apply Forall_app. split; [repeat constructor; unfold word; cbn; lia |
      apply Forall_replicate; repeat split; unfold word; cbn; lia].
Defined.
