(* ===== verification/HdlfsFormat.v ===== *)
(** * The HDLoader filesystem: formatting, mounting and the header

    What [hdlfs_format] writes and why it is usable, what a mount does to the
    descriptor, and the operations that read and rewrite the header. *)

From S2P Require Import Prelude IoWorld Shm Sema Hdlfs HdlfsProps.

(** ** Formatting *)

(** The answers of the APA driver about a partition with [nsub] sub-partitions. *)
Class ApaParts (E : Type) `{Handler E} := {
  nsub : Z;
  pstart : Z -> Z;
  pcount : Z -> Z;
  nsub_range : 0 <= nsub <= 64;
  pstart_range : forall i, 0 <= pstart i < 2 ^ 31;
  pcount_range : forall i, reserved_sectors i <= pcount i < 2 ^ 31;
  ask_nsub : forall e fd, (handle (IomanX_ioctl2 fd HIOCNSUB ArgNull 0 0) e).1.1 = nsub;
  ask_start : forall e fd i, 0 <= i <= nsub ->
    (handle (IomanX_ioctl2 fd HIOCGETPARTSTART (ArgInt i) 4 0) e).1.1 = pstart i;
  ask_count : forall e fd i, 0 <= i <= nsub ->
    (handle (IomanX_ioctl2 fd HIOCGETSIZE (ArgInt i) 4 0) e).1.1 = pcount i
}.

Definition is_header_write {A} (c : ioE A) : bool :=
  match c with IomanX_write _ _ _ => true | _ => false end.
Abbreviation writes_of t := (calls_of (@is_header_write) t).

(** The calls on a partition that are not questions about it. *)
Definition is_file_call {A} (c : ioE A) : bool :=
  match c with
  | IomanX_open _ _ _ | IomanX_lseek _ _ _ | IomanX_write _ _ _ | IomanX_close _ => true
  | _ => false
  end.
Abbreviation file_calls t := (calls_of (@is_file_call) t).

Lemma writes_of_file_calls t : writes_of t = writes_of (file_calls t).
Proof.
  unfold calls_of. induction t as [|[A c r] t IH]; [done|]. cbn [List.filter ev_test].
  destruct (is_file_call c) eqn:Hc; cbn [List.filter ev_test]; [by rewrite IH|].
  destruct (is_header_write c) eqn:Hw; [|exact IH]. by destruct c.
Qed.

Section Format.
Context {E : Type} `{ApaParts E}.

(** How the image is cut: each partition takes what its data area holds, or what is
    left of the image; a piece of 4 GB or more is refused, and so is an image that
    does not fit. *)
Fixpoint cut (n : nat) (i off left : Z) : option (list part_specs_t) :=
  match n with
  | O => Some []
  | S n' =>
      let c := Z.min ((pcount i - reserved_sectors i) / 4) left in
      if 0x200000 <=? c then None
      else l ← cut n' (i + 1) (off + c) (left - c);
           Some (mk_part off (pstart i + reserved_sectors i) (c * 2048) :: l)
  end.

Definition pieces (l : list part_specs_t) : Z := zsum ((fun p => part_size p / 2048) <$> l).

Lemma pieces_cons o d z l : pieces (mk_part o d z :: l) = z / 2048 + pieces l.
Proof. done. Qed.

Definition cut_image (n : Z) : Z + list part_specs_t :=
  match cut (Z.to_nat (nsub + 1)) 0 0 n with
  | None => inl (- EINVAL)
  | Some l => if pieces l <? n then inl (- ENOMEM) else inr l
  end.

Lemma length_cut n : forall i off left l, cut n i off left = Some l -> length l = n.
Proof.
  induction n as [|n IH]; intros i off left l; cbn [cut]; [by intros [= <-]|].
  destruct (0x200000 <=? _); [done|].
  destruct (cut n _ _ _) as [l'|] eqn:Hl; [|done]. intros [= <-]. simpl. f_equal. by eapply IH.
Qed.

Definition blank (n : nat) : list part_specs_t := replicate n (mk_part 0 0 0).

Lemma alter_middle (f : part_specs_t -> part_specs_t) l x l' n :
  length l = n -> alter f n (l ++ x :: l') = l ++ f x :: l'.
Proof.
  intros <-. induction l as [|y l IH]; [done|]. cbn. f_equal. apply IH.
Qed.

Lemma wp_ask {A} (c : ioE (Z * list Z)) (k : Z * list Z -> M hdlfs E A) v
    (Q : res A -> hdlfs -> E -> trace -> Prop) s e :
  (forall e, (handle c e).1.1 = v) -> is_file_call c = false ->
  (forall b e', wp (k (v, b)) (fun r s e t => Q r s e (Ev c (v, b) :: t)) s e') ->
  wp (call c ≫= k) Q s e.
Proof.
  intros Hv _ Hk. apply wp_bind, wp_call. intros [r b] e' He. specialize (Hv e). rewrite He in Hv.
  cbn in Hv. subst. apply Hk.
Qed.

(** The loop of the code computes [cut], and writes nothing. *)
Lemma reserved_range i : 0 <= reserved_sectors i <= 0x2000.
Proof. unfold reserved_sectors. destruct (i =? 0); lia. Qed.

(** The piece of the image a turn places: what the partition has room for, or what is left. *)
Lemma piece_of_turn i N left :
  0 <= i <= nsub -> 0 <= left <= N -> N < 2 ^ 32 ->
  (if u32 (N - (N - left)) <? u32 (pcount i - reserved_sectors i) / 4 then u32 (N - (N - left))
   else u32 (pcount i - reserved_sectors i) / 4) = Z.min ((pcount i - reserved_sectors i) / 4) left.
Proof.
  intros Hi Hleft HN. pose proof (pcount_range i) as Hpc. pose proof (reserved_range i) as Hrv.
  replace (N - (N - left)) with left by lia. rewrite !(uwrap_small 32) by lia.
  destruct (Z.ltb_spec left ((pcount i - reserved_sectors i) / 4)); lia.
Qed.

Lemma format_loop PartFD N n : forall fuel i left done result s e,
  Z.of_nat n = nsub + 1 - i -> 0 <= i -> 0 <= left <= N -> N < 2 ^ 32 -> 0 <= result ->
  length done = Z.to_nat i -> (n < fuel)%nat ->
  wp (loop fuel (format_turn PartFD (nsub + 1) N)
        (i, N - left, done ++ blank (NUM_SPECS - Z.to_nat i), result) : M hdlfs E _)
     (fun r s' e' t => s' = s /\ file_calls t = [] /\
        match cut n i (N - left) left with
        | None => exists off specs, r = Ret (off, specs, - EINVAL)
        | Some l => exists result', 0 <= result' /\
            r = Ret (N - left + pieces l, done ++ l ++ blank (NUM_SPECS - Z.to_nat (nsub + 1)), result')
        end) s e.
Proof.
  pose proof nsub_range as Hns. unfold NUM_SPECS.
  induction n as [|n IH]; intros fuel i left done result s e Hn Hi Hleft HN Hres Hlen Hfuel;
    (destruct fuel as [|fuel]; [lia|]); apply wp_loop_S; unfold format_turn at 1.
  - rewrite (uwrap_small 32), (proj2 (Z.ltb_ge i _)) by lia. cbn [andb negb].
    apply wp_ret, wp_ret. cbn [cut]. split_and!; [done..|]. exists result. split; [done|].
    replace (Z.to_nat (nsub + 1)) with (Z.to_nat i) by lia. do 2 f_equal. simpl. unfold pieces. cbn. f_equal. lia.
  - rewrite (uwrap_small 32), (proj2 (Z.ltb_lt i _)), (proj2 (Z.leb_le 0 result)) by lia.
    cbn [andb negb]. eapply wp_ask; [intros; apply ask_start; lia | done |].
    intros b1 e1. pose proof (pstart_range i) as Hps. pose proof (pcount_range i) as Hpc.
    pose proof (reserved_range i) as Hrv.
    rewrite (proj2 (Z.leb_le 0 (pstart i))) by lia. apply wp_bind, wp_assert.
    2: { unfold NUM_SPECS. intros Hf%Z.ltb_ge. lia. }
    intros _. eapply wp_ask; [intros; apply ask_count; lia | done |]. intros b2 e2. cbv zeta.
    set (c := Z.min ((pcount i - reserved_sectors i) / 4) left).
    rewrite piece_of_turn by lia. fold c. cbn [cut]. fold c.
    assert (Hc0 : 0 <= c <= left) by (unfold c; dlia).
    destruct (Z.leb_spec 0x200000 c) as [Hbig|Hsmall].
    { apply wp_ret, wp_ret. split_and!; [done..|]. by do 2 eexists. }
    replace (65 - Z.to_nat i)%nat with (S (65 - Z.to_nat (i + 1)))%nat by lia.
    change (blank (S (65 - Z.to_nat (i + 1)))) with (mk_part 0 0 0 :: blank (65 - Z.to_nat (i + 1))).
    rewrite !alter_middle by done. cbn [part_offset data_start part_size].
    rewrite !(uwrap_small 32) by lia. apply wp_ret.
    replace (N - left + c) with (N - (left - c)) by lia.
    rewrite (cons_middle _ done), app_assoc.
    eapply wp_mono; [eapply (IH fuel (i + 1) (left - c)); try lia|].
    { rewrite length_app. simpl. lia. }
    intros r s' e' t (-> & Ht & Hcase). split; [done|]. split; [done|].
    replace (N - left + c) with (N - (left - c)) by lia.
    destruct (cut n (i + 1) (N - (left - c)) (left - c)) as [l|]; [|done].
    unfold mbind, option_bind.
    destruct Hcase as (result' & Hres' & ->). exists result'. split; [done|].
    rewrite <- app_assoc, pieces_cons, Z.div_mul by lia. cbn [app].
    by replace (N - left + (c + pieces l)) with (N - (left - c) + pieces l) by lia.
Qed.

(** A partition record that describes a piece of partition [i]. *)
Record piece_ok (i : Z) (q : part_specs_t) : Prop := {
  pc_whole : part_size q mod 2048 = 0;
  pc_size : 2048 <= part_size q < 2 ^ 32;
  pc_start : data_start q = pstart i + reserved_sectors i;
  pc_inside : reserved_sectors i + psz q <= pcount i
}.

Lemma cut_layout (Hroom : forall i, reserved_sectors i + 4 <= pcount i) n :
  forall i off left l, cut n i off left = Some l -> 0 <= left ->
  exists ps rest, l = ps ++ rest /\ Forall (fun q => part_size q = 0) rest /\
    total ps = 4 * pieces l /\ pieces l <= left /\
    forall j q, ps !! j = Some q ->
      part_offset q * 4 = 4 * off + start ps j /\ piece_ok (i + Z.of_nat j) q.
Proof.
  induction n as [|n IH]; intros i off left l; cbn [cut].
  { intros [= <-] Hleft. exists [], []. split_and!; [done..|]. intros j q Hj. done. }
  set (c := Z.min ((pcount i - reserved_sectors i) / 4) left).
  destruct (Z.leb_spec 0x200000 c) as [|Hc]; [done|].
  destruct (cut n (i + 1) (off + c) (left - c)) as [l'|] eqn:Hl; [|done].
  intros [= <-] Hleft. pose proof (pcount_range i) as Hpc. specialize (Hroom i) as Hr.
  assert (Hc0 : 0 <= c <= left /\ 4 * c <= pcount i - reserved_sectors i /\ (0 < left -> 0 < c))
    by (unfold c; dlia).
  destruct (IH _ _ _ _ Hl) as (ps & rest & -> & Hrest & Htot & Hle & Hps); [lia|].
  rewrite pieces_cons, Z.div_mul by lia. destruct (Z.eq_dec c 0) as [Hcz|Hcz].
  - (* nothing is left of the image *)
    destruct ps as [|q ps].
    + exists [], (mk_part off (pstart i + reserved_sectors i) (c * 2048) :: rest).
      split_and!; [done | constructor; [cbn; lia|done] | lia | lia |]. intros j q Hj. done.
    + destruct (Hps 0%nat q eq_refl) as [_ [_ Hsz _ _]]. rewrite total_cons in Htot.
      assert (0 < psz q) by (unfold psz; dlia).
      assert (0 <= total ps); [|lia]. apply total_nonneg, Forall_lookup. intros j q' Hj.
      destruct (Hps (S j) q' Hj) as [_ [_ Hsz' _ _]]. unfold psz. dlia.
  - set (q0 := mk_part off (pstart i + reserved_sectors i) (c * 2048)).
    assert (Hq0 : psz q0 = 4 * c) by (unfold psz; cbn; dlia).
    exists (q0 :: ps), rest. rewrite total_cons, Hq0.
    split_and!; [done | done | lia | lia |]. intros [|j] q Hj.
    + injection Hj as <-. change (start (q0 :: ps) 0) with 0. split; [cbn; lia|].
      rewrite Z.add_0_r. split; [cbn; dlia | cbn; lia | done | rewrite Hq0; lia].
    + destruct (Hps j q Hj) as [Ho Hok].
      change (start (q0 :: ps) (S j)) with (psz q0 + start ps j). rewrite Hq0.
      replace (i + Z.of_nat (S j)) with (i + 1 + Z.of_nat j) by lia. split; [lia|done].
Qed.
End Format.

Section FormatProps.
Context {E : Type} `{ApaParts E}.

Lemma cut_image_error n err : cut_image n = inl err -> err = - EINVAL \/ err = - ENOMEM.
Proof.
  unfold cut_image. destruct (cut _ _ _ _); [|by intros [= <-]; left].
  destruct (pieces _ <? n); [|done]. intros [= <-]. by right.
Qed.

Lemma length_cut_image n l : cut_image n = inr l -> length l = Z.to_nat (nsub + 1).
Proof.
  unfold cut_image. destruct (cut _ _ _ _) eqn:Hl; [|done].
  destruct (pieces _ <? n); [done|]. intros [= <-]. by eapply length_cut.
Qed.

(** The run of [hdlfs_format], in the answers of the driver. *)
Lemma format_run blockdev args s e :
  0 <= NumSectors args < 2 ^ 32 ->
  wp (hdlfs_format blockdev args) (fun r s' e' t => s' = s /\
    exists fd, let opened := Ev (IomanX_open blockdev FIO_O_WRONLY 0x1A4) fd in
      if fd <? 0 then r = Ret fd /\ file_calls t = [opened]
      else exists sk cl,
        let sought := Ev (IomanX_lseek fd HDL_GAME_DATA_OFFSET FIO_SEEK_SET) sk in
        let closed := Ev (IomanX_close fd) cl in
        match cut_image (NumSectors args) with
        | inl err => r = Ret err /\ file_calls t = [opened; sought; closed]
        | inr l => exists w,
            file_calls t = [opened; sought;
              Ev (IomanX_write fd (info_bytes (set_parts (nsub + 1)
                    (l ++ blank (NUM_SPECS - Z.to_nat (nsub + 1))) (init_info args))) 1024) w; closed] /\
            r = Ret (if w =? 1024 then 0 else - EIO)
        end) s e.
Proof.
  intros HN. pose proof nsub_range as Hns. unfold hdlfs_format.
  apply wp_bind, wp_call. intros ? e1 _. apply wp_bind, wp_call. intros PartFD e2 _.
  unfold bind_post.
  apply wp_if; intros Hfd; boolP.
  2: { apply wp_ret. split; [done|]. exists PartFD. by rewrite (proj2 (Z.ltb_lt _ _)). }
  apply wp_bind, wp_call. intros sk e3 _. cbv zeta.
  unfold bind_post at 1. eapply wp_ask; [intros; apply ask_nsub | done |]. intros b e4.
  apply wp_bind.
  pose proof (format_loop PartFD (NumSectors args) (Z.to_nat (nsub + 1)) (NUM_SPECS + 2) 0
    (NumSectors args) [] 0 s e4) as Hloop. rewrite Z.sub_diag in Hloop.
  eapply wp_mono; [apply Hloop; unfold NUM_SPECS in *; try done; lia|].
  intros res s' e' t (-> & Ht & Hcase). unfold cut_image.
  destruct (cut (Z.to_nat (nsub + 1)) 0 0 (NumSectors args)) as [l|].
  - destruct Hcase as (result' & Hres & ->). rewrite Z.add_0_l. unfold bind_post at 1.
    rewrite (proj2 (Z.leb_le 0 result')) by done. apply wp_bind.
    destruct (pieces l <? NumSectors args).
    + apply wp_ret, wp_bind, wp_call. intros cl e5 _. apply wp_ret. split; [done|].
      exists PartFD. rewrite (proj2 (Z.ltb_ge _ _)) by lia. exists sk, cl.
      split; [done|]. unfold calls_of in *. cbn. by rewrite !List.filter_app, Ht.
    + apply wp_bind, wp_call. intros w e5 _. apply wp_ret, wp_bind, wp_call. intros cl e6 _.
      apply wp_ret. split; [done|]. exists PartFD. rewrite (proj2 (Z.ltb_ge _ _)) by lia.
      exists sk, cl, w. split; [|by destruct (w =? 1024)].
      unfold calls_of in *. cbn. by rewrite !List.filter_app, Ht.
  - destruct Hcase as (off & specs & ->). unfold bind_post at 1. cbn [Z.leb Z.compare Z.opp EINVAL].
    apply wp_bind, wp_ret, wp_bind, wp_call. intros cl e5 _. apply wp_ret. split; [done|].
    exists PartFD. rewrite (proj2 (Z.ltb_ge _ _)) by lia. exists sk, cl.
    split; [done|]. unfold calls_of in *. cbn. by rewrite !List.filter_app, Ht.
Qed.

Lemma cut_image_layout n l :
  (forall i, reserved_sectors i + 4 <= pcount i) -> 0 <= n < 2 ^ 30 -> cut_image n = inr l ->
  exists ps rest, l = ps ++ rest /\ Forall (fun q => part_size q = 0) rest /\
    total ps = 4 * n /\ layout_ok ps /\ parts_in_use ps /\
    forall j q, ps !! j = Some q -> piece_ok (Z.of_nat j) q.
Proof.
  intros Hroom Hn. pose proof nsub_range as Hns. unfold cut_image.
  destruct (cut (Z.to_nat (nsub + 1)) 0 0 n) as [l'|] eqn:Hcut; [|done].
  destruct (Z.ltb_spec (pieces l') n); [done|]. intros [= ->].
  destruct (cut_layout Hroom _ _ _ _ _ Hcut) as (ps & rest & -> & Hrest & Htot & Hle & Hps); [lia|].
  exists ps, rest. apply length_cut in Hcut. rewrite length_app in Hcut.
  split_and!; [done | done | lia | | | by intros j q Hj; destruct (Hps j q Hj)].
  - intros j q Hj. destruct (Hps j q Hj) as [Ho [Hw _ _ _]]. by rewrite Ho.
  - split; [|unfold NUM_SPECS; lia | lia]. apply Forall_lookup. intros j q Hj.
    destruct (Hps j q Hj) as [_ [_ Hsz _ _]]. lia.
Qed.

(** C23: what formatting does.  The partition is opened; if that fails, its error is the
    result and nothing else is done to the partition.  Otherwise the image is cut over the
    partition and its sub-partitions.  An image with a piece of 4 GB or more is refused
    with EINVAL, one that does not fit with ENOMEM, and nothing is written; else the one
    thing written, at the header's place and to the descriptor of the open, is the header
    with the arguments' data and the pieces, and the result says whether all 1024 bytes
    went out.  The descriptor is closed, once and last, in all these cases. *)
Theorem hdlfs_format_spec blockdev args s e :
  0 <= NumSectors args < 2 ^ 32 ->
  wp (hdlfs_format blockdev args) (fun r s' e' t => s' = s /\
    exists fd, let opened := Ev (IomanX_open blockdev FIO_O_WRONLY 0x1A4) fd in
      if fd <? 0 then r = Ret fd /\ file_calls t = [opened]
      else exists sk cl,
        let sought := Ev (IomanX_lseek fd HDL_GAME_DATA_OFFSET FIO_SEEK_SET) sk in
        let closed := Ev (IomanX_close fd) cl in
        match cut_image (NumSectors args) with
        | inl err => r = Ret err /\ file_calls t = [opened; sought; closed]
        | inr l => exists w,
            file_calls t = [opened; sought;
              Ev (IomanX_write fd (info_bytes (set_parts (nsub + 1)
                    (l ++ blank (NUM_SPECS - Z.to_nat (nsub + 1))) (init_info args))) 1024) w; closed] /\
            r = Ret (if w =? 1024 then 0 else - EIO)
        end) s e.
Proof. apply format_run. Qed.

(** C35: a formatted image is usable: when every partition has room for a sector and
    formatting reports success, the header it wrote whole has the pieces in use first
    and the other records empty; the pieces lie end to end from offset 0, each within
    its own partition behind the reserved area, and add up to exactly the image:
    what seeks and transfers need. *)
Theorem hdlfs_format_layout blockdev args s e :
  (forall i, reserved_sectors i + 4 <= pcount i) -> 0 <= NumSectors args < 2 ^ 30 ->
  wp (hdlfs_format blockdev args) (fun r s' e' t => r = Ret 0 ->
    exists fd ps rest,
      writes_of t = [Ev (IomanX_write fd (info_bytes (set_parts (nsub + 1)
                           (ps ++ rest) (init_info args))) 1024) 1024] /\
      Forall (fun q => part_size q = 0) rest /\ length (ps ++ rest) = NUM_SPECS /\
      total ps = 4 * NumSectors args /\ layout_ok ps /\ parts_in_use ps /\
      forall j q, ps !! j = Some q -> piece_ok (Z.of_nat j) q) s e.
Proof.
  intros Hroom Hn. eapply wp_mono; [apply format_run; lia|]. cbv beta.
  intros r s' e' t (-> & fd & Hcase) Hr.
  destruct (Z.ltb_spec fd 0) as [Hfd|_]; [destruct Hcase as [-> _]; injection Hr; lia|].
  destruct Hcase as (sk & cl & Hcase).
  destruct (cut_image (NumSectors args)) as [err|l] eqn:Hcut.
  { destruct Hcase as [-> _]. by apply cut_image_error in Hcut as [->| ->]. }
  destruct Hcase as (w & Hw & ->). rewrite writes_of_file_calls, Hw. destruct (Z.eqb_spec w 1024) as [->|]; [|done].
  pose proof (length_cut_image _ _ Hcut) as Hlen.
  destruct (cut_image_layout _ _ Hroom Hn Hcut) as (ps & rest & -> & Hrest & Htot & Hlay & Huse & Hps).
  exists fd, ps, (rest ++ blank (NUM_SPECS - Z.to_nat (nsub + 1))). rewrite app_assoc.
  split_and!; try done.
  - apply Forall_app; split; [done|]. by apply Forall_replicate.
  - unfold blank. rewrite length_app, Hlen, length_replicate. pose proof nsub_range. unfold NUM_SPECS. lia.
Qed.
End FormatProps.

(** ** The header of an open partition *)

(** What reading and writing the 1024 bytes at the header's place does; opening a
    partition, asking for its status or its layout leaves the header alone. *)
Class HdlHeader (E : Type) `{Handler E} := {
  header : E -> Z -> list Z;
  header_read : forall e fd, exists e1 r e2,
    handle (IomanX_lseek fd HDL_GAME_DATA_OFFSET FIO_SEEK_SET) e = (r, e1) /\
    handle (IomanX_read fd 1024) e1 = ((1024, header e fd), e2) /\ header e2 fd = header e fd;
  header_write : forall e fd data, length data = 1024%nat -> exists e1 r e2,
    handle (IomanX_lseek fd HDL_GAME_DATA_OFFSET FIO_SEEK_SET) e = (r, e1) /\
    handle (IomanX_write fd data 1024) e1 = (1024, e2) /\ header e2 fd = data;
  header_open : forall e fd name flags mode,
    header (handle (IomanX_open name flags mode) e).2 fd = header e fd;
  header_getstat : forall e fd name,
    header (handle (IomanX_getstat name) e).2 fd = header e fd
}.

Section Header.
Context {E : Type} `{HdlHeader E}.

Lemma info_of_header h : info_ok h -> info_of_bytes (info_bytes h) = h.
Proof.
  intros Hok. apply info_bytes_inv. done.
Qed.

Lemma wp_read_info fd h (Q : res (Z * hdl_game_info) -> hdlfs -> E -> trace -> Prop) s e :
  info_ok h -> header e fd = info_bytes h ->
  (forall e' t, header e' fd = info_bytes h -> Q (Ret (1024, h)) s e' t) ->
  wp (read_info fd) Q s e.
Proof.
  intros Hok Hh HQ. destruct (header_read e fd) as (e1 & r & e2 & Hs & Hr & Hk).
  unfold read_info. apply wp_bind, wp_call. rewrite Hs. intros ? ? [= <- <-]. unfold bind_post.
  apply wp_bind, wp_call. rewrite Hr. intros ? ? [= <- <-]. unfold bind_post.
  apply wp_ret. rewrite Hh, info_of_header by done. apply HQ. by rewrite Hk.
Qed.

Lemma wp_write_info {A} fd h (k : Z -> M hdlfs E A) (Q : res A -> hdlfs -> E -> trace -> Prop) s e :
  info_ok h ->
  (forall e' t0, header e' fd = info_bytes h ->
     wp (k 1024) (fun r s e t => Q r s e (t0 ++ t)) s e') ->
  wp (_ ← call (IomanX_lseek fd HDL_GAME_DATA_OFFSET FIO_SEEK_SET);
      w ← call (IomanX_write fd (info_bytes h) 1024); k w) Q s e.
Proof.
  intros Hok Hk.
  destruct (header_write e fd (info_bytes h)) as (e1 & r & e2 & Hs & Hw & Hh);
    [by apply length_info_bytes|].
  apply wp_bind, wp_call. rewrite Hs. intros ? ? [= <- <-]. unfold bind_post.
  apply wp_bind, wp_call. rewrite Hw. intros ? ? [= <- <-]. unfold bind_post.
  eapply wp_mono; [by apply (Hk e2 [Ev (IomanX_lseek fd HDL_GAME_DATA_OFFSET FIO_SEEK_SET) r;
                                   Ev (IomanX_write fd (info_bytes h) 1024) 1024])|].
  done.
Qed.

Lemma gamename_ok name h :
  info_ok h -> length name = HDLFS_GAME_TITLE_LEN -> info_ok (set_gamename name h).
Proof. intros [] Hl. by split. Qed.

(** Unit [u] is mounted, its semaphore is free, and its header says [h]. *)
Record has_header (u : Z) (s : hdlfs) (e : E) (d : HDLFS_FileDescriptor) (h : hdl_game_info) : Prop := {
  hh_unit : 0 <= u < MAX_AVAILABLE_FDs;
  hh_desc : FD_List s !! Z.to_nat u = Some d;
  hh_mounted : 0 <= MountFD d;
  hh_free : counts s (SemaID d) 1;
  hh_ok : info_ok h;
  hh_header : header e (MountFD d) = info_bytes h
}.

Lemma wp_mounted {A} u s e d h (k : bool -> M hdlfs E A) (Q : res A -> hdlfs -> E -> trace -> Prop) :
  has_header u s e d h -> wp (k true) Q s e -> wp (mounted u ≫= k) Q s e.
Proof.
  intros [Hu Hd Hm _ _ _] Hk. apply wp_bind. unfold mounted.
  rewrite (proj2 (Z.ltb_lt _ _)) by lia. apply wp_bind. eapply wp_desc; [lia|done|].
  apply wp_ret. by rewrite (proj2 (Z.leb_le _ _)).
Qed.

(** An out-parameter filled by [f]: [None] when that is undefined. *)
Definition filled {A} (f : A -> option A) (out : option A) : option (option A) :=
  match out with Some o => Some <$> f o | None => Some None end.

Lemma wp_fill {A} (f : A -> option A) out v (Q : res (option A) -> hdlfs -> E -> trace -> Prop) s e :
  filled f out = Some v -> Q (Ret v) s e [] -> wp (fill f out) Q s e.
Proof.
  intros Hv HQ. unfold fill, filled in *. destruct out as [o|].
  - destruct (f o) as [o'|]; [|done]. injection Hv as <-. apply wp_bind, wp_deref, wp_ret. done.
  - injection Hv as <-. by apply wp_ret.
Qed.

Lemma wp_getstat_filler u s e d h st title n path m st' title' path'
    (Q : res (Z * option iox_stat_t * option (list Z) * option (list Z)) ->
         hdlfs -> E -> trace -> Prop) :
  has_header u s e d h ->
  filled (fun _ => info_stat h <$> game_size h) st = Some st' ->
  filled (put_title h n) title = Some title' ->
  filled (put_startup h m) path = Some path' ->
  (forall e' t, has_header u s e' d h -> Q (Ret (0, st', title', path')) s e' t) ->
  wp (hdlfs_getstat_filler u st title n path m) Q s e.
Proof.
  intros Hh Hst Hti Hpa HQ. unfold hdlfs_getstat_filler. eapply wp_mounted; [done|].
  pose proof Hh as [Hu Hd Hm Hc Hok Hhd].
  apply wp_bind. eapply wp_desc; [lia|done|]. apply wp_bind, wp_wait; [done|].
  apply wp_bind. apply wp_read_info with h; [done..|]. intros e' t Hhd'. unfold bind_post at 1.
  apply wp_bind. cbn [Z.eqb Pos.eqb]. apply wp_bind. eapply wp_fill; [done|].
  apply wp_bind. eapply wp_fill; [done|]. apply wp_bind. eapply wp_fill; [done|]. apply wp_ret.
  apply wp_bind, wp_signal; [by eapply counts_set in Hc|]. apply wp_ret.
  rewrite set_entry_back by done. apply HQ. by split.
Qed.

Lemma wp_update_title u s e d h name
    (Q : res Z -> hdlfs -> E -> trace -> Prop) :
  has_header u s e d h -> (length name < HDLFS_GAME_TITLE_LEN)%nat ->
  (forall e' t,
     has_header u s e' d (set_gamename (name ++ replicate (HDLFS_GAME_TITLE_LEN - length name) 0) h) ->
     Q (Ret 0) s e' t) ->
  wp (hdlfs_UpdateGameTitle u name (Z.of_nat (length name))) Q s e.
Proof.
  intros [Hu Hd Hm Hc Hok Hhd] Hlen HQ. unfold hdlfs_UpdateGameTitle.
  rewrite (proj2 (Z.ltb_lt _ _)) by lia. apply wp_bind. eapply wp_desc; [lia|done|].
  apply wp_bind. apply wp_read_info with h; [done..|]. intros e1 t1 Hhd1. unfold bind_post.
  cbn [Z.eqb Pos.eqb]. apply wp_bind, wp_assert; [|lia]. intros _. unfold bind_post. cbv zeta.
  rewrite Nat2Z.id, firstn_all.
  assert (Hok' : info_ok (set_gamename (name ++ replicate (HDLFS_GAME_TITLE_LEN - length name) 0) h))
    by (apply gamename_ok; [done | rewrite length_app, length_replicate; lia]).
  apply wp_write_info; [done|]. intros e' t0 Hhd'. apply wp_ret. cbn. apply HQ. by split.
Qed.
End Header.

(** A title that ends in a NUL, to a buffer of its size. *)
Lemma put_title_whole h t0 buf :
  gamename h = t0 ++ [0] -> length t0 = 159%nat -> length buf = 160%nat ->
  put_title h 160 buf = Some (t0 ++ [0]).
Proof.
  intros Hg Ht Hb. unfold put_title. rewrite Hb, Hg.
  change ((1 <=? 160) && (160 <=? Z.of_nat 160)) with true. cbv iota zeta.
  change (Z.to_nat (Z.min 160 160 - 1)) with 159%nat. change (Z.to_nat (160 - 1)) with 159%nat.
  rewrite take_app_length' by done. unfold overlay. rewrite take_0. cbn [app].
  rewrite take_app_length' by done. rewrite drop_ge; [done|].
  rewrite length_app, length_drop. simpl length. lia.
Qed.

Section HeaderProps.
Context {E : Type} `{HdlHeader E}.

(** A title set is the title read: setting a title shorter than 160 bytes and
    asking for it with a buffer of 160 bytes gives the new title, padded with NULs;
    on the disk the rest of the header is what it was. *)
Theorem hdlfs_title_roundtrip fd s e d h name buf :
  has_header (f_unit fd) s e d h -> (length name < HDLFS_GAME_TITLE_LEN)%nat ->
  length buf = HDLFS_GAME_TITLE_LEN ->
  let title := name ++ replicate (HDLFS_GAME_TITLE_LEN - length name) 0 in
  wp ('(r1, _) ← hdlfs_devctl fd HDLFS_DEVCTL_SET_TITLE name (Z.of_nat (length name)) None 0;
      '(r2, out) ← hdlfs_devctl fd HDLFS_DEVCTL_GET_TITLE [] 0 (Some buf) 160;
      mret (r1, r2, out))
     (fun r s' e' _ => r = Ret (0, 0, Some title) /\ s' = s /\
        header e' (MountFD d) = info_bytes (set_gamename title h)) s e.
Proof.
  intros Hh Hlen Hbuf title. apply wp_bind. unfold hdlfs_devctl at 1. eapply wp_mounted; [done|].
  change (HDLFS_DEVCTL_SET_TITLE =? HDLFS_DEVCTL_GET_STARTUP_PATH) with false.
  change (HDLFS_DEVCTL_SET_TITLE =? HDLFS_DEVCTL_GET_TITLE) with false.
  change (HDLFS_DEVCTL_SET_TITLE =? HDLFS_DEVCTL_SET_TITLE) with true.
  apply wp_bind. eapply wp_update_title; [done..|]. intros e1 t1 Hh1. fold title in Hh1.
  apply wp_ret. apply wp_bind. unfold hdlfs_devctl. eapply wp_mounted; [done|].
  change (HDLFS_DEVCTL_GET_TITLE =? HDLFS_DEVCTL_GET_STARTUP_PATH) with false.
  change (HDLFS_DEVCTL_GET_TITLE =? HDLFS_DEVCTL_GET_TITLE) with true.
  apply wp_bind. eapply wp_getstat_filler with (title' := Some title); [done..| |done|].
  - cbn [filled]. assert (Htitle : exists t0, title = t0 ++ [0]).
    { exists (name ++ replicate (HDLFS_GAME_TITLE_LEN - length name - 1) 0).
      unfold title. rewrite <- app_assoc. f_equal. rewrite <- replicate_S_end. f_equal. lia. }
    destruct Htitle as [t0 Ht0]. rewrite (put_title_whole _ t0); [by rewrite <- Ht0 | done | | done].
    assert (length title = HDLFS_GAME_TITLE_LEN)
      by (unfold title; rewrite length_app, length_replicate; lia).
    rewrite Ht0, length_app in *. unfold HDLFS_GAME_TITLE_LEN in *. simpl length in *. lia.
  - intros e2 t2 Hh2. apply wp_ret, wp_ret. split_and!; [done..|]. apply Hh2.
Qed.

Lemma chstat_info_ok st flags h :
  info_ok h -> word (st_private_0 st) -> word (st_private_1 st) -> info_ok (chstat_info st flags h).
Proof.
  intros Hok Hp0 Hp1. unfold chstat_info.
  assert (Hattr : info_ok (set_attr (st_attr st) h)).
  { destruct Hok. split; try done. cbn. repeat constructor; apply (uwrap_range 8); lia. }
  assert (Hdisc : forall h', info_ok h' ->
    info_ok (set_disc (st_private_1 st) (Z.shiftr (st_private_0 st) 16) h')).
  { intros h' []. split; try done. cbn. unfold word in *. rewrite Z.shiftr_div_pow2 by lia. dlia. }
  destruct (flag flags FIO_CST_ATTR), (flag flags FIO_CST_PRVT); auto.
Qed.

Lemma wp_chstat fd s e d h st flags (Q : res Z -> hdlfs -> E -> trace -> Prop) :
  has_header (f_unit fd) s e d h -> flag flags CST_FIXED = false ->
  word (st_private_0 st) -> word (st_private_1 st) ->
  (forall e' t, has_header (f_unit fd) s e' d (chstat_info st flags h) -> Q (Ret 1024) s e' t) ->
  wp (hdlfs_chstat fd st flags) Q s e.
Proof.
  intros Hh Hfl Hp0 Hp1 HQ. unfold hdlfs_chstat. eapply wp_mounted; [done|].
  pose proof Hh as [Hu Hd Hm Hc Hok Hhd].
  apply wp_bind. eapply wp_desc; [lia|done|]. apply wp_bind, wp_wait; [done|].
  apply wp_bind. apply wp_read_info with h; [done..|]. intros e1 t1 Hhd1. unfold bind_post at 1.
  apply wp_bind. cbn [Z.eqb Pos.eqb]. rewrite Hfl. cbn [negb].
  pose proof (chstat_info_ok _ flags _ Hok Hp0 Hp1) as Hok'.
  apply wp_write_info; [done|]. intros e2 t2 Hhd2. apply wp_ret. cbn [Z.eqb Pos.eqb negb].
  apply wp_bind, wp_signal; [by eapply counts_set in Hc|]. apply wp_ret.
  rewrite set_entry_back by done. apply HQ. by split.
Qed.

Lemma wp_chstat_refused fd s e d h st flags (Q : res Z -> hdlfs -> E -> trace -> Prop) :
  has_header (f_unit fd) s e d h -> flag flags CST_FIXED = true ->
  (forall e' t, has_header (f_unit fd) s e' d h -> Q (Ret (- EINVAL)) s e' t) ->
  wp (hdlfs_chstat fd st flags) Q s e.
Proof.
  intros Hh Hfl HQ. unfold hdlfs_chstat. eapply wp_mounted; [done|].
  pose proof Hh as [Hu Hd Hm Hc Hok Hhd].
  apply wp_bind. eapply wp_desc; [lia|done|]. apply wp_bind, wp_wait; [done|].
  apply wp_bind. apply wp_read_info with h; [done..|]. intros e1 t1 Hhd1. unfold bind_post at 1.
  apply wp_bind. cbn [Z.eqb Pos.eqb]. rewrite Hfl. cbn [negb]. apply wp_ret.
  apply wp_bind, wp_signal; [by eapply counts_set in Hc|]. apply wp_ret.
  rewrite set_entry_back by done. apply HQ. by split.
Qed.

Lemma wp_getstat fd s e d h st0 (Q : res (Z * iox_stat_t) -> hdlfs -> E -> trace -> Prop) :
  has_header (f_unit fd) s e d h -> 0 <= num_partitions h <= 65 ->
  (forall e' t size, has_header (f_unit fd) s e' d h -> Q (Ret (0, info_stat h size)) s e' t) ->
  wp (hdlfs_getstat fd st0) Q s e.
Proof.
  intros Hh Hn HQ. unfold hdlfs_getstat. apply wp_bind.
  assert (exists size, game_size h = Some size) as [size Hsize].
  { unfold game_size. pose proof (ok_count _ (hh_ok _ _ _ _ _ Hh)) as Hl. unfold NUM_SPECS in Hl.
    rewrite Hl, (uwrap_small 32), (proj2 (Nat.leb_le _ _)) by lia. by eexists. }
  eapply wp_getstat_filler; [done | cbn; by rewrite Hsize | done | done |].
  intros e' t Hh'. apply wp_ret. by apply HQ.
Qed.

(** A change of status, of the flags and of the disc's data, is what the status
    shows afterwards: the attribute word byte for byte, the start of layer 1, and the
    disc type in the high half of [private_0]; the rest still comes from the header.
    The call itself returns 1024, the size of the header, not 0.  A change of the
    mode, the size or a time is refused with EINVAL, and the header stays. *)
Theorem hdlfs_chstat_getstat fd s e d h st st0 flags :
  has_header (f_unit fd) s e d h -> word (st_attr st) -> word (st_private_0 st) ->
  word (st_private_1 st) -> 0 <= num_partitions h <= 65 ->
  flag flags FIO_CST_ATTR = true -> flag flags FIO_CST_PRVT = true ->
  wp (r1 ← hdlfs_chstat fd st flags; '(r2, out) ← hdlfs_getstat fd st0; mret (r1, r2, out))
     (fun r s' e' _ => s' = s /\ exists r1 out, r = Ret (r1, 0, out) /\
        if flag flags CST_FIXED then r1 = - EINVAL /\ header e' (MountFD d) = info_bytes h
        else r1 = 1024 /\ st_attr out = st_attr st /\ st_private_1 out = st_private_1 st /\
             st_private_0 out =
               u32 (Z.lor (Z.shiftl (Z.shiftr (st_private_0 st) 16) 16) (num_partitions h))) s e.
Proof.
  intros Hh Ha Hp0 Hp1 Hn Hattr Hprvt. apply wp_bind. destruct (flag flags CST_FIXED) eqn:Hfl.
  - eapply wp_chstat_refused; [done..|]. intros e1 t1 Hh1. apply wp_bind.
    eapply wp_getstat; [done..|]. intros e2 t2 size Hh2. apply wp_ret. split; [done|].
    do 2 eexists. split; [done|]. split; [done|]. apply Hh2.
  - eapply wp_chstat; [done..|]. intros e1 t1 Hh1. apply wp_bind.
    eapply wp_getstat; [exact Hh1 | by unfold chstat_info; rewrite Hattr, Hprvt|].
    intros e2 t2 size Hh2. apply wp_ret. split; [done|]. do 2 eexists. split; [done|].
    unfold chstat_info. rewrite Hattr, Hprvt. split_and!; [done | | done..]. by apply word_of_bytes.
Qed.
End HeaderProps.

(** ** Mounting *)

Section Mount.
Context {E : Type} `{Handler E} `{!ApaParts E} `{!HdlHeader E} `{!HdlDisk E}.

(** Adding up the sizes of the partitions changes the size of the descriptor only. *)
Lemma sizes_loop u mfd l : forall s e d, 0 <= u -> FD_List s !! Z.to_nat u = Some d ->
  wp (for_ l (fun part =>
        '(size, _) ← call (IomanX_ioctl2 mfd HIOCGETSIZE (ArgInt part) 4 0);
        modify (set_desc u (fun d => set_extent (NumPartitions d) (u32 (d_size d + size)) d)))
      : M hdlfs E unit)
     (fun r s' _ _ => r = Ret tt /\ hdl_sem s' = hdl_sem s /\
        exists z, FD_List s' !! Z.to_nat u = Some (set_extent (NumPartitions d) z d)) s e.
Proof.
  induction l as [|part l IH]; intros s e d Hu Hd; cbn [for_].
  - apply wp_ret. split_and!; [done..|]. exists (d_size d). rewrite Hd. by destruct d.
  - apply wp_bind, wp_bind, wp_call. intros [size b] e1 _. unfold bind_post at 1.
    apply wp_modify. unfold bind_post at 1.
    eapply wp_mono; [apply IH; [done | by apply lookup_set_desc]|].
    intros r s' e' t (-> & Hsem & z & Hz). split_and!; [done..|]. by exists z.
Qed.

Lemma wp_desc_update {A} u s (d : HDLFS_FileDescriptor) f (k : unit -> M hdlfs E A)
    (Q : res A -> hdlfs -> E -> trace -> Prop) e :
  FD_List s !! Z.to_nat u = Some d ->
  (forall s', hdl_sem s' = hdl_sem s -> FD_List s' !! Z.to_nat u = Some (f d) -> wp (k tt) Q s' e) ->
  wp (modify (set_desc u f) ≫= k) Q s e.
Proof.
  intros Hd Hk. apply wp_bind, wp_modify. apply Hk; [done|]. by apply lookup_set_desc.
Qed.

(** What a mount relies on: the partition is a HDLoader one, it opens, and its header
    describes pieces laid out as formatting lays them out. *)
Record mountable (blockdev : string) (mfd : Z) (h : hdl_game_info) (ps : list part_specs_t) : Prop := {
  mb_stat : exists st, st_mode st = HDL_FS_MAGIC /\
            forall e, (handle (IomanX_getstat blockdev) e).1 = (0, st);
  mb_open : forall e flags mode, (handle (IomanX_open blockdev flags mode) e).1 = mfd;
  mb_fd : 0 <= mfd;
  mb_info : info_ok h;
  mb_specs : exists rest, part_specs h = ps ++ rest;
  mb_count : 0 < Z.of_nat (length ps) <= nsub + 1;
  mb_layout : layout_ok ps;
  mb_use : parts_in_use ps;
  mb_fits : fits (E := E) ps
}.

Lemma wp_mount fd blockdev s e d mfd h ps (Q : res Z -> hdlfs -> E -> trace -> Prop) :
  0 <= f_unit fd < MAX_AVAILABLE_FDs -> FD_List s !! Z.to_nat (f_unit fd) = Some d ->
  counts s (SemaID d) 1 -> mountable blockdev mfd h ps -> header e mfd = info_bytes h ->
  (forall s' e' t z, FD_List s' !! Z.to_nat (f_unit fd) =
       Some (mk_desc mfd (SemaID d) (nsub + 1) 0 0 0 z (part_specs h)) ->
     counts s' (SemaID d) 1 -> Q (Ret (f_unit fd)) s' e' t) ->
  wp (hdlfs_mount fd blockdev FIO_MT_RDWR) Q s e.
Proof.
  intros Hu Hd Hc [(st & Hmagic & Hstat) Hopen Hfd Hok [rest Hspecs] Hct _ _ _] Hhd HQ.
  pose proof nsub_range as Hns. unfold hdlfs_mount. rewrite (proj2 (Z.ltb_lt _ _)) by lia.
  apply wp_bind, wp_call. intros [r st'] e1 He1. pose proof (Hstat e) as Hs1.
  pose proof (header_getstat e mfd blockdev) as Hh1. rewrite He1 in Hs1, Hh1. cbn in Hs1, Hh1.
  simplify_eq. unfold bind_post at 1. cbn [Z.leb Z.compare]. rewrite Hmagic, Z.eqb_refl.
  apply wp_bind. eapply wp_desc; [lia|done|]. apply wp_bind, wp_wait; [done|].
  apply wp_bind, wp_call. intros fd' e2 He2. unfold bind_post at 1.
  match type of He2 with handle (IomanX_open _ ?fl ?mo) _ = _ =>
    pose proof (Hopen e1 fl mo) as Hf2; pose proof (header_open e1 mfd blockdev fl mo) as Hh2 end.
  rewrite He2 in Hf2, Hh2. cbn in Hf2, Hh2. subst fd'.
  eapply wp_desc_update; [done|]. intros s1 Hsem1 Hd1.
  rewrite (proj2 (Z.leb_le 0 _)) by done. apply wp_bind, wp_bind.
  apply wp_read_info with h; [done | by rewrite Hh2, Hh1|]. intros e3 t3 Hh3. unfold bind_post at 1.
  cbn [Z.eqb Pos.eqb]. eapply wp_desc_update; [done|]. intros s2 Hsem2 Hd2.
  eapply wp_ask; [intros; apply ask_nsub | done |]. intros b e4. cbv zeta.
  assert (H16 : u16 (nsub + 1) = nsub + 1) by (apply (uwrap_small 16); lia). rewrite H16.
  eapply wp_desc_update; [done|]. intros s3 Hsem3 Hd3.
  apply wp_bind. eapply wp_mono; [apply sizes_loop; [lia|done]|].
  intros ? s4 e5 t5 (-> & Hsem4 & z & Hd4). unfold bind_post at 1.
  eapply wp_desc_update; [done|]. intros s5 Hsem5 Hd5.
  eapply wp_desc_update; [done|]. intros s6 Hsem6 Hd6. apply wp_ret.
  assert (Hsem : hdl_sem s6 = <[Z.to_nat (SemaID d) := Some 0]> (hdl_sem s))
    by (by rewrite Hsem6, Hsem5, Hsem4, Hsem3, Hsem2, Hsem1).
  destruct Hc as [Hv Hl]. assert (Hlt : (Z.to_nat (SemaID d) < length (hdl_sem s))%nat)
    by (by eapply lookup_lt_Some).
  apply wp_bind, wp_signal.
  { split; [done|]. change (sem s6) with (hdl_sem s6). rewrite Hsem. by apply list_lookup_insert_eq. }
  apply wp_ret. apply HQ with z; [exact Hd6|]. split; [done|].
  change (sem (set_entry (Z.to_nat (SemaID d)) (Some 1) s6))
    with (<[Z.to_nat (SemaID d) := Some 1]> (hdl_sem s6)).
  apply list_lookup_insert_eq. by rewrite Hsem, length_insert.
Qed.
End Mount.

Section MountProps.
Context {E : Type} `{Handler E} `{!ApaParts E} `{!HdlHeader E} `{!HdlDisk E}.

(** Mounting a formatted partition for reading and writing and opening the unit
    gives the open game at its first sector, ready for seeks and transfers over the
    whole image. *)
Theorem hdlfs_mount_opens fd blockdev s e d mfd h ps :
  0 <= f_unit fd < MAX_AVAILABLE_FDs -> FD_List s !! Z.to_nat (f_unit fd) = Some d ->
  counts s (SemaID d) 1 -> mountable blockdev mfd h ps -> header e mfd = info_bytes h ->
  wp (r ← hdlfs_mount fd blockdev FIO_MT_RDWR; '(r2, fd') ← hdlfs_open fd; mret (r, r2, fd'))
     (fun res s' _ _ => exists fd' d',
        res = Ret (f_unit fd, f_unit fd, fd') /\ f_unit fd' = f_unit fd /\ f_mode fd' = f_mode fd /\
        MountFD d' = mfd /\ open_game fd' ps s' d' 0) s e.
Proof.
  intros Hu Hd Hc Hmb Hhd. pose proof Hmb as [_ _ Hfd _ [rest Hspecs] Hct Hlay Huse Hfits].
  apply wp_bind. eapply wp_mount; [done..|]. intros s' e' t z Hd' Hc'. unfold bind_post at 1.
  apply wp_bind. unfold hdlfs_open. eapply mounted_run; [exact Hd'|lia|done|].
  apply wp_ret, wp_ret. eexists _, (mk_desc mfd (SemaID d) (nsub + 1) 0 0 0 z (part_specs h)).
  split_and!; [done..|split; try done].
  - cbn. lia.
  - split; [done | done |]. destruct ps as [|p ps]; [simpl in Hct; lia|].
    assert (Hp : (p :: ps) !! 0%nat = Some p) by done.
    destruct (lookup_psz _ _ _ Huse Hp) as (? & _ & _ & _).
    split; [by exists rest | | done | done]. exists p. cbn. split_and!; done || lia.
Qed.
End MountProps.

(** ** The sample disk answers *)

Import HdlSample.

Module HdlHeaderSample.
#[export] Instance disk_parts : ApaParts disk.
Proof.
  refine {| nsub := 1; pstart := fun i => if (0 <=? i) && (i <=? 64) then sample_start i else 0;
            pcount := sample_count |}.
  - lia.
  - intros i. unfold sample_start. destruct (Z.leb_spec 0 i), (Z.leb_spec i 64); cbn [andb]; lia.
  - intros i. unfold sample_count, reserved_sectors. destruct (i =? 0); lia.
  - done.
  - intros e fd i Hi. rewrite (proj2 (Z.leb_le 0 i)), (proj2 (Z.leb_le i 64)) by lia. done.
  - done.
Defined.

#[export] Instance disk_header : HdlHeader disk.
Proof.
  refine {| header := fun e _ => hdr e |}.
  - intros e fd. by eexists _, _, _.
  - intros e fd data _. by eexists _, _, _.
  - done.
  - done.
Defined.

Definition sample_args : HDLFS_FormatArgs :=
  mk_format_args 2 0x14 3 4 3 0 (replicate 160 65) (replicate 60 66).
Definition sample_info : hdl_game_info :=
  set_parts 2 sample_specs (init_info sample_args).
Definition header_disk : disk := mk_disk (fun _ _ => []) (info_bytes sample_info).

Lemma sample_info_ok : info_ok sample_info.
Proof.
  split; try done.
  - repeat constructor; done.
  - apply Forall_app. split; [repeat constructor; done | apply Forall_replicate; by repeat split].
Qed.

Lemma sample_has_header :
  has_header 0 (sample_state 0) header_disk (set_position (0 / 8) (0 mod 8) 0 sample_desc) sample_info.
Proof. split; try done. apply sample_info_ok. Qed.

Lemma sample_mountable : mountable (E := disk) "hdd0:game" 3 sample_info sample_ps.
Proof.
  split; try done.
  - eexists. split; [|intros e; reflexivity]. done.
  - apply sample_info_ok.
  - by eexists.
  - intros [|[|j]] q Hq; simplify_eq/=; done.
  - apply sample_use.
  - intros [|[|j]] q Hq; simplify_eq/=; done.
Qed.
End HdlHeaderSample.

Import HdlHeaderSample.

Lemma hdlfs_format_spec_witness :
  wp (hdlfs_format "hdd0:game" sample_args) (fun r s' _ _ => s' = sample_state 0)
     (sample_state 0) sample_disk.
Proof.
  eapply wp_mono; [apply (hdlfs_format_spec "hdd0:game" sample_args (sample_state 0) sample_disk);
                   cbn; lia|].
  cbv beta. by intros r s e t [-> _].
Defined.

Lemma hdlfs_format_layout_witness :
  wp (hdlfs_format "hdd0:game" sample_args) (fun r _ _ t => r = Ret 0 /\ writes_of t <> [])
     (sample_state 0) sample_disk.
Proof.
  pose proof (hdlfs_format_layout "hdd0:game" sample_args (sample_state 0) sample_disk) as Hl.
  assert (Hok : o_res (hdlfs_format "hdd0:game" sample_args (sample_state 0) sample_disk) = Ret 0)
    by (vm_compute; reflexivity).
  split; [exact Hok|]. destruct (fun Hroom Hn => Hl Hroom Hn Hok) as (? & ? & ? & Hw & _).
  - intros i. change (reserved_sectors i + 4 <= reserved_sectors i + 8). lia.
  - cbn. lia.
  - unfold wp in *. by rewrite Hw.
Defined.

Lemma hdlfs_title_roundtrip_witness :
  wp ('(r1, _) ← hdlfs_devctl sample_file HDLFS_DEVCTL_SET_TITLE [72; 105] (Z.of_nat (length [72; 105])) None 0;
      '(r2, out) ← hdlfs_devctl sample_file HDLFS_DEVCTL_GET_TITLE [] 0 (Some (replicate 160 1)) 160;
      mret (r1, r2, out))
     (fun r _ _ _ => r = Ret (0, 0, Some ([72; 105] ++ replicate 158 0))) (sample_state 0) header_disk.
Proof.
  pose proof (hdlfs_title_roundtrip sample_file (sample_state 0) header_disk _ sample_info
    [72; 105] (replicate 160 1) sample_has_header
    ltac:(apply Nat.ltb_lt; vm_compute; reflexivity) ltac:(vm_compute; reflexivity)) as Hr.
  cbv zeta in Hr.
  eapply wp_mono; [exact Hr|].
  cbv beta. by intros r s e t (-> & _).
Defined.

Lemma hdlfs_chstat_getstat_witness :
  let st := mk_iox_stat 0 0x01020304 0 [] [] [] 0 0x120000 7 0 0 0 0 in
  wp (r1 ← hdlfs_chstat sample_file st 0x42; '(r2, out) ← hdlfs_getstat sample_file iox_stat_zero;
      mret (r1, r2, out))
     (fun r _ _ _ => exists out, r = Ret (1024, 0, out) /\ st_attr out = 0x01020304)
     (sample_state 0) header_disk.
Proof.
  pose proof (hdlfs_chstat_getstat sample_file (sample_state 0) header_disk _ sample_info
    (mk_iox_stat 0 0x01020304 0 [] [] [] 0 0x120000 7 0 0 0 0) iox_stat_zero 0x42 sample_has_header
    ltac:(done) ltac:(done) ltac:(done) ltac:(done) eq_refl eq_refl) as Hr.
  eapply wp_mono; [exact Hr|].
  cbv beta. intros r s e t (_ & r1 & out & -> & Hcase).
  change (flag 0x42 CST_FIXED) with false in Hcase. destruct Hcase as (-> & Ha & _). by exists out.
Defined.

Lemma hdlfs_mount_opens_witness :
  let fd := mk_iop_file 0 FIO_O_RDWR None in
  wp (r ← hdlfs_mount fd "hdd0:game" FIO_MT_RDWR; '(r2, fd') ← hdlfs_open fd; mret (r, r2, fd'))
     (fun res _ _ _ => exists fd', res = Ret (0, 0, fd')) (sample_state 0) header_disk.
Proof.
  pose proof (hdlfs_mount_opens (mk_iop_file 0 FIO_O_RDWR None) "hdd0:game" (sample_state 0)
    header_disk (set_position (0 / 8) (0 mod 8) 0 sample_desc) 3 sample_info sample_ps
    ltac:(done) eq_refl (conj eq_refl eq_refl) sample_mountable eq_refl) as Hr.
  eapply wp_mono; [exact Hr|].
  cbv beta. intros res s e t (fd' & d' & -> & _). by exists fd'.
Defined.
