(* ===== verification/Hl.v ===== *)
(** * High-level operations on the disk (src/src/hl.c)

    Copies between the host and a PFS partition, listings, and the creation of
    partitions and file systems.  The functions keep no state of their own: they are
    stated for the state of whatever program calls them. *)

From S2P Require Import Prelude IoWorld Modes Shm.

Definition host_O_RDONLY : Z := 0.
Definition host_O_WRONLY : Z := 1.
Definition host_O_CREAT : Z := 64.

(** [ps2fs_datetime_t], read from the 8 bytes of a timestamp. *)
Record ps2fs_datetime_t := mk_datetime {
  dt_sec : Z;
  dt_min : Z;
  dt_hour : Z;
  dt_day : Z;
  dt_month : Z;
  dt_year : Z
}.

Definition datetime_of_bytes (b : list Z) : ps2fs_datetime_t :=
  mk_datetime (nth 1 b 0) (nth 2 b 0) (nth 3 b 0) (nth 4 b 0) (nth 5 b 0)
    (nth 6 b 0 + 256 * nth 7 b 0).

(** What the listing shows of an entry's mode; an unknown type leaves [end_symbol]
    as the entry before left it. *)
Definition item_type (m : Z) (end_symbol : option string) : ascii * option string :=
  let t := Z.land m FIO_S_IFMT in
  if t =? FIO_S_IFLNK then ("l"%char, Some "@")
  else if t =? FIO_S_IFREG then ("-"%char, Some "")
  else if t =? FIO_S_IFDIR then ("d"%char, Some "/")
  else ("?"%char, end_symbol).

Definition mode_char (m bit : Z) (c : ascii) : ascii := if flag m bit then c else "-"%char.

Definition mode_string (kind : ascii) (m : Z) : string :=
  string_of_list_ascii
    [kind; mode_char m FIO_S_IRUSR "r"; mode_char m FIO_S_IWUSR "w"; mode_char m FIO_S_IXUSR "x";
     mode_char m FIO_S_IRGRP "r"; mode_char m FIO_S_IWGRP "w"; mode_char m FIO_S_IXGRP "x";
     mode_char m FIO_S_IROTH "r"; mode_char m FIO_S_IWOTH "w"; mode_char m FIO_S_IXOTH "x"].

(** The letter after a partition's name. *)
Definition part_symbol (st : iox_stat_t) : string :=
  if st_mode st =? 0x0000 then "%"
  else if st_attr st =? 1 then "@"
  else if st_mode st =? 0x0100 then "/"
  else if st_mode st =? 0x1337 then "*"
  else "".

(** The size of a partition and its sub-partitions, in MiB, on 64 bits. *)
Definition part_totalsize (st : iox_stat_t) : Z :=
  u64 (st_private_1 st + st_private_2 st * 0x100000000) / 2048.

Definition PFS_ZONE_SIZE : Z := 8192.
Definition PFS_FRAGMENT : Z := 0.

Definition mount_failed : string := ln ("pfs0: mount of " +:+ dq +:+ "%s" +:+ dq +:+ " failed with %d").
Definition dopen_failed : string := ln ("dopen: " +:+ dq +:+ "%s" +:+ dq +:+ " failed with %d").

Section Hl.
Context {St E : Type} `{Handler E}.
Local Abbreviation P := (M St E).

(** A string built in an array of [cap] bytes. *)
Definition in_buffer (cap : nat) (s : string) : P string :=
  assert_ (String.length s <? cap)%nat;; mret s.

(** [if (result < 0) printf(...), retval = -1;] *)
Definition or_fail (result : Z) (fmt : string) (args : list printf_arg) (retval : Z) : P Z :=
  if result <? 0 then printf fmt args;; mret (-1) else mret retval.

(** One turn of [copyto]'s loop; it leaves with [len] and [retval]. *)
Definition copyto_turn (in_file fh : Z) (dest_path : string) (retval : Z) : P (Z + Z * Z) :=
  '(len, buf) ← call (Host_read in_file 65536);
  if 0 <? len then
    assert_ (len <=? Z.of_nat (length buf));;
    result ← call (IomanX_write fh (take (Z.to_nat len) buf) len);
    if result <? 0 then
      printf (ln "%s: write failed with %d") [PStr dest_path; PInt result];;
      mret (inr (len, -1))
    else mret (inl retval)
  else mret (inr (len, retval)).

Definition copyto (fuel : nat) (mount_point dest src : string) : P Z :=
  in_file ← call (Host_open src host_O_RDONLY 0);
  if negb (in_file =? -1) then
    result ← call (IomanX_mount "pfs0:" mount_point 0 ArgNull 0);
    retval ←
      (if 0 <=? result then
         dest_path ← in_buffer 256 ("pfs0:" +:+ dest);
         fh ← call (IomanX_open dest_path (Z.lor FIO_O_WRONLY FIO_O_CREAT) 0x1B6);
         retval ←
           (if 0 <=? fh then
              '(len, retval) ← loop fuel (copyto_turn in_file fh dest_path) 0;
              when (len <? 0) (call (Perror src));;
              result ← call (IomanX_close fh);
              or_fail result (ln "close: failed with %d") [PInt result] retval
            else
              printf (ln "%s: create failed with %d") [PStr dest_path; PInt fh];; mret (-1));
         result ← call (IomanX_umount "pfs0:");
         or_fail result (ln "pfs0: umount failed with %d") [PInt result] retval
       else
         printf mount_failed [PStr mount_point; PInt result];;
         mret (-1));
    call (Host_close in_file);;
    mret retval
  else
    call (Perror src);; mret (-1).

(** One turn of [copyfrom]'s loop. *)
Definition copyfrom_turn (fh out_file : Z) (dest : string) (retval : Z) : P (Z + Z * Z) :=
  '(len, buf) ← call (IomanX_read fh 65536);
  if 0 <? len then
    assert_ (len <=? Z.of_nat (length buf));;
    result ← call (Host_write out_file (take (Z.to_nat len) buf));
    if result =? -1 then call (Perror dest);; mret (inr (len, -1))
    else mret (inl retval)
  else mret (inr (len, retval)).

Definition copyfrom (fuel : nat) (mount_point src dest : string) : P Z :=
  out_file ← call (Host_open dest (Z.lor host_O_CREAT host_O_WRONLY) 0x1B4);
  if negb (out_file =? -1) then
    result ← call (IomanX_mount "pfs0:" mount_point 0 ArgNull 0);
    retval ←
      (if 0 <=? result then
         src_path ← in_buffer 256 ("pfs0:" +:+ src);
         fh ← call (IomanX_open src_path FIO_O_RDONLY 0);
         retval ←
           (if 0 <=? fh then
              '(len, retval) ← loop fuel (copyfrom_turn fh out_file dest) 0;
              retval ← or_fail len (ln "%s: read failed with %d") [PStr src_path; PInt len] retval;
              result ← call (IomanX_close fh);
              or_fail result (ln "close: failed with %d") [PInt result] retval
            else
              printf (ln "%s: open failed with %d") [PStr src_path; PInt fh];; mret (-1));
         result ← call (IomanX_umount "pfs0:");
         or_fail result (ln "pfs0: umount failed with %d") [PInt result] retval
       else
         printf mount_failed [PStr mount_point; PInt result];; mret (-1));
    result ← call (Host_close out_file);
    if result =? -1 then call (Perror dest);; mret (-1) else mret retval
  else
    call (Perror dest);; mret (-1).

(** [sprintf(mod_time, "%04d-%02d-%02d %02d:%02d", ...)] into 17 bytes. *)
Definition mod_time (mtime : list Z) : P string :=
  let t := datetime_of_bytes mtime in
  in_buffer 17 (pad0 4 (dt_year t) +:+ "-" +:+ pad0 2 (dt_month t) +:+ "-" +:+ pad0 2 (dt_day t)
                +:+ " " +:+ pad0 2 (dt_hour t) +:+ ":" +:+ pad0 2 (dt_min t)).

(** One turn of the listing; [end_symbol] is [None] until it is assigned. *)
Definition list_turn (dh lsmode : Z) (end_symbol : option string)
    : P (option string + Z) :=
  '(result, dirent) ← call (IomanX_dread dh);
  if (result =? 0) || (result =? -1) then mret (inr result)
  else
    let st := de_stat dirent in
    let '(kind, end_symbol) := item_type (st_mode st) end_symbol in
    let mode := mode_string kind (st_mode st) in
    mod_time ← mod_time (st_mtime st);
    (if lsmode =? 0 then
       sym ← deref end_symbol;
       printf (ln "%s%s") [PStr (de_name dirent); PStr sym]
     else if lsmode =? 1 then
       sym ← deref end_symbol;
       printf (ln "%s %10u  %s  %s%s")
         [PStr mode; PInt (st_size st); PStr mod_time; PStr (de_name dirent); PStr sym]
     else mret tt);;
    mret (inl end_symbol).

Definition list_dir_objects (fuel : nat) (dh lsmode : Z) : P Z :=
  loop fuel (list_turn dh lsmode) None.

(** One turn of the loop over the partitions. *)
Definition lspart_turn (dh lsmode : Z) (_ : unit) : P (unit + unit) :=
  '(result, dirent) ← call (IomanX_dread dh);
  if (result =? 0) || (result =? -1) then mret (inr tt)
  else
    let st := de_stat dirent in
    let size := st_size st / 2048 in
    let totalsize := part_totalsize st in
    let end_symbol := part_symbol st in
    let main := (st_attr st =? 0) && negb (st_mode st =? 0x0000) in
    mod_time ← mod_time (st_mtime st);
    (if lsmode =? 0 then
       when main
         (printf (ln "%7.2f GiB  %s%s") [PFrac totalsize 1024; PStr (de_name dirent); PStr end_symbol])
     else if lsmode =? 1 then
       printf "%#10x " [PInt (st_private_5 st)];;
       (if st_private_5 st mod 0x200000 =? 0
        then printf "%4u GiB" [PInt (st_private_5 st / 0x200000)]
        else printf "        " []);;
       printf "  %04X" [PInt (st_mode st)];;
       (if size <? 1024 then printf "%5u MiB" [PInt size]
        else printf "%5u GiB" [PInt (size / 1024)]);;
       (if main then
          (* the conversion to int *)
          assert_ (totalsize / 1024 <? 2 ^ 31);;
          if totalsize mod 1024 =? 0 then printf "  %4u    GiB" [PInt (totalsize / 1024)]
          else printf "  %7.2f GiB" [PFrac totalsize 1024]
        else printf "             " []);;
       printf (ln "   %s  %s%s") [PStr mod_time; PStr (de_name dirent); PStr end_symbol]
     else mret tt);;
    mret (inl tt).

Definition lspart (fuel : nat) (lsmode : Z) : P Z :=
  dh ← call (IomanX_dopen "hdd0:");
  if 0 <=? dh then
    when (lsmode =? 1)
      (printf (ln "Start (sector)       Code    Slice         Size   Timestamp         Name") []);;
    loop fuel (lspart_turn dh lsmode) tt;;
    result ← call (IomanX_close dh);
    or_fail result (ln "dclose: failed with %d") [PInt result] 0
  else
    printf dopen_failed [PStr "hdd0:"; PInt dh];; mret dh.

Definition ls (fuel : nat) (mount_point path : string) : P Z :=
  result ← call (IomanX_mount "pfs0:" mount_point 0 ArgNull 0);
  if 0 <=? result then
    dir_path ← in_buffer 256 ("pfs0:" +:+ path);
    dh ← call (IomanX_dopen dir_path);
    retval ←
      (if 0 <=? dh then
         _ ← list_dir_objects fuel dh 1;
         result ← call (IomanX_close dh);
         or_fail result (ln "dclose: failed with %d") [PInt result] 0
       else printf dopen_failed [PStr dir_path; PInt dh];; mret (-1));
    result ← call (IomanX_umount "pfs0:");
    or_fail result (ln "pfs0: umount failed with %d") [PInt result] retval
  else
    printf mount_failed [PStr mount_point; PInt result];; mret (-1).

Definition mkpfs (mount_point : string) : P Z :=
  let format_arg := le32 PFS_ZONE_SIZE ++ le32 0x2d66 ++ le32 PFS_FRAGMENT in
  tmp ← in_buffer 256 ("hdd0:" +:+ mount_point);
  call (IomanX_format "pfs:" (Some tmp) (ArgBytes format_arg) 12).

Definition mkpart (mount_point : string) (size_in_mb format : Z) : P Z :=
  tmp ← in_buffer 256
          (mount_point +:+ "," +:+
           (if 1024 <=? size_in_mb then pretty (size_in_mb / 1024) +:+ "G"
            else pretty size_in_mb +:+ "M"));
  result ← call (IomanX_open tmp (Z.lor FIO_O_RDWR FIO_O_CREAT) 0);
  if 0 <=? result then
    call (IomanX_close result);;
    if negb (format =? 0) then mkpfs mount_point else mret 0
  else mret result.

Definition initialize : P Z :=
  result ← call (IomanX_format "hdd0:" None ArgNull 0);
  if 0 <=? result then
    result ← mkpfs "__net";
    _ ← mkpfs "__system";
    _ ← mkpfs "__sysconf";
    _ ← mkpfs "__common";
    mret result
  else mret result.
End Hl.
