(* ===== verification/HlProps.v ===== *)
(** * High-level operations: what they hold and what they report

    The copies and listings of hl.c close what they open on every path, and their
    result says whether a call they look at has failed. *)

From S2P Require Import Prelude IoWorld Trace Ledger Modes Shm Hl.

Section HlReleases.
Context {St E : Type} `{Handler E}.
Local Abbreviation P := (M St E).

Lemma in_buffer_balanced cap s : balanced (in_buffer cap s : P string).
Proof. intros L. unfold in_buffer. lawful_go. Qed.

Lemma or_fail_balanced r fmt args v : balanced (or_fail r fmt args v : P Z).
Proof. intros L. unfold or_fail. lawful_go. Qed.

Lemma mod_time_balanced b : balanced (mod_time b : P string).
Proof. apply in_buffer_balanced. Qed.
End HlReleases.

#[export] Hint Resolve in_buffer_balanced or_fail_balanced mod_time_balanced : lawful.

Section HlTheorems.
Context {St E : Type} `{Handler E}.
Local Abbreviation P := (M St E).

Lemma list_dir_objects_lawful L fuel dh mode :
  lawful (FileFd dh :: L) (list_dir_objects fuel dh mode : P Z) (fun _ L' => L' = FileFd dh :: L).
Proof. unfold list_dir_objects, list_turn. lawful_go. Qed.

Lemma lspart_balanced fuel mode : balanced (lspart fuel mode : P Z).
Proof. intros L. unfold lspart, lspart_turn. lawful_go. Qed.

(** What is left of a program that unmounts what it mounts: nothing more than before, but
    for a mount the driver would not undo. *)
Definition left_clean (L : list holding) {A} (_ : A) (L' : list holding) : Prop :=
  L' = L \/ L' = Stuck "pfs0:" :: L.

(** C27: the copies and listings use only what they hold and leave nothing behind.
    Whatever the driver and the host answer, a [copyto], [copyfrom] or [ls] reads and
    writes descriptors it has opened and not yet closed, closes each once, and unmounts
    [pfs0:], which it has mounted; when it returns it holds nothing more than before, but
    the mount if the driver refused to undo it.  [lspart] mounts nothing and closes the
    directory it opens. *)
Theorem hl_releases (fuel : nat) (mp a b : string) (mode : Z) (L : list holding) :
  Forall (fun m : P Z => lawful L m (left_clean L)) [copyto fuel mp a b; copyfrom fuel mp a b; ls fuel mp a] /\
  lawful L (lspart fuel mode : P Z) (fun _ L' => L' = L).
Proof.
  split; [|apply lspart_balanced].
  repeat constructor; unfold copyto, copyto_turn, copyfrom, copyfrom_turn, ls, left_clean;
    repeat first [ eapply lawful_bind; [apply list_dir_objects_lawful|intros ? ? ->] | lawful_step ]; auto.
Qed.

(** The calls whose failure a copy reports; [copyfrom] looks at the close of the
    host's file too. *)
Definition reported (host_close : bool) : weight := fun A c =>
  match c in ioE A return A -> Z with
  | Host_open _ _ _ | Host_write _ _ => fun r => if r =? -1 then 1 else 0
  | Host_close _ => fun r => if host_close && (r =? -1) then 1 else 0
  | IomanX_mount _ _ _ _ _ | IomanX_open _ _ _ | IomanX_write _ _ _ | IomanX_close _
  | IomanX_umount _ => fun r => if r <? 0 then 1 else 0
  | IomanX_read _ _ => fun r => if r.1 <? 0 then 1 else 0
  | _ => fun _ => 0
  end.

(** A [retval] that tells whether a call failed. *)
Definition tells (w : weight) (retval : Z) (t : trace) : Prop :=
  (retval = 0 /\ tally w t = 0) \/ (retval = -1 /\ 0 < tally w t).

Ltac tells_done :=
  unfold tells in *; autorewrite with clist_rw in *; cbn [ev_weight reported fst snd andb] in *;
  repeat match goal with Ht : forall b, tally (reported b) _ = 0 |- _ => rewrite Ht in * end;
  repeat case_bool; boolP; try done; lia.

Lemma copyto_loop_tells b in_file fh dest fuel s e :
  wp (loop fuel (copyto_turn in_file fh dest) 0 : P (Z * Z))
     (fun r _ _ t => forall x, r = Ret x -> tells (reported b) x.2 t) s e.
Proof.
  revert s e. induction fuel as [|fuel IH]; intros s e; [by apply wp_loop_O|].
  apply wp_loop_S. unfold copyto_turn at 1. wp_go; try done.
  - intros x [= <-]. tells_done.
  - eapply wp_mono; [apply IH|]. cbv beta. intros r' s2 e2 t Ht x Hx. specialize (Ht x Hx). tells_done.
  - intros x [= <-]. by left.
Qed.

Lemma copyfrom_loop_tells b fh out dest fuel s e :
  wp (loop fuel (copyfrom_turn fh out dest) 0 : P (Z * Z))
     (fun r _ _ t => forall x, r = Ret x -> tells (reported b) (if x.1 <? 0 then -1 else x.2) t) s e.
Proof.
  revert s e. induction fuel as [|fuel IH]; intros s e; [by apply wp_loop_O|].
  apply wp_loop_S. unfold copyfrom_turn at 1. wp_go; try done.
  - intros x [= <-]. tells_done.
  - eapply wp_mono; [apply IH|]. cbv beta. intros r' s2 e2 t Ht x Hx. specialize (Ht x Hx). tells_done.
  - intros x [= <-]. tells_done.
Qed.

Lemma or_fail_tells r fmt args v s e :
  wp (or_fail r fmt args v : P Z)
     (fun res _ _ t => res = Ret (if r <? 0 then -1 else v) /\
        forall b, tally (reported b) t = 0) s e.
Proof. unfold or_fail. destruct (r <? 0); by wp_go. Qed.

(** C26: the result of a copy tells whether it went well: [copyto] and [copyfrom]
    return 0 where none of the calls they look at has failed, and -1 where one has.
    These are all but, in [copyto], the read and the close of the host's file, whose
    failure goes unnoticed. *)
Theorem copy_reports (fuel : nat) (mp a b : string) s e :
  wp (copyto fuel mp a b : P Z)
     (fun r _ _ t => forall v, r = Ret v -> tells (reported false) v t) s e /\
  wp (copyfrom fuel mp a b : P Z)
     (fun r _ _ t => forall v, r = Ret v -> tells (reported true) v t) s e.
Proof.
  split; [unfold copyto | unfold copyfrom]; unfold in_buffer; wp_go; try done.
  all: repeat first [ wp_step; simpl
    | eapply wp_mono; [first [apply (copyto_loop_tells false) | apply (copyfrom_loop_tells true)]|];
      intros [[]| | | |] ? ? ? Ht; cbn; [specialize (Ht _ eq_refl); cbn in Ht|done..]
    | eapply wp_mono; [apply or_fail_tells|]; intros ? ? ? ? [-> ?]; cbn ].
  all: intros ? [= <-]; tells_done.
Qed.
End HlTheorems.
