(* ===== verification/Startup.v ===== *)
(** * How the drivers of this repository are registered

    The HDLoader driver (src/subprojects/hdlfs/main.c, _init.c) and the driver for files of
    the host (src/src/host_adapter.c) give iomanX a record and a table of operations; the
    tables are [Hdlfs.hdlfs_functarray] and [HostAdapter.host_translator_ops].  The drivers
    of APA and PFS are started by one call to code that is not here ([Init_module]). *)

From S2P Require Import Prelude IoWorld Trace.

(** ** The devices *)

Definition IOP_DT_CHAR := 0x01.
Definition IOP_DT_CONS := 0x02.
Definition IOP_DT_BLOCK := 0x04.
Definition IOP_DT_RAW := 0x08.
Definition IOP_DT_FS := 0x10.
Definition IOP_DT_FSEXT := 0x10000000.

Definition MODULE_RESIDENT_END : Z := 0.

Definition hdlfs_dev_name : string := "hdl".
Definition hdlfs_dev : iop_device_t :=
  mk_iop_device hdlfs_dev_name (Z.lor IOP_DT_FS IOP_DT_FSEXT) 1 "HDLoader filesystem driver".

Definition host_translator_fio_dev : iop_device_t :=
  mk_iop_device "host" (Z.lor IOP_DT_FS IOP_DT_FSEXT) 1 "Host adapter filesystem".

(** ** The entry points *)

Section EntryPoints.
Context {St E : Type} `{Handler E}.
Local Abbreviation P := (M St E).

(** [__start] of the driver, which hdlfs.h renames. *)
Definition hdlfs_start (argc : Z) (argv : list (option string)) : P Z :=
  call (IomanX_DelDrv hdlfs_dev_name);;
  call (IomanX_AddDrv hdlfs_dev);;
  mret MODULE_RESIDENT_END.

(** The arguments are not passed on. *)
Definition _init_hdlfs (argc : Z) (argv : list (option string)) : P Z :=
  let args := [None] in
  result ← hdlfs_start 0 args;
  mret result.

Definition host_adapter_init : P Z :=
  call (IomanX_AddDrv host_translator_fio_dev);;
  mret 0.
End EntryPoints.

(** ** The table of devices *)

(** What iomanX promises: a device is added, or refused with a negative result and the
    table as it was (no slot is free, or its [init] failed); deleting removes what has the
    name and nothing else. *)
Class DeviceTable (E : Type) `{Handler E} := {
  devices : E -> list iop_device_t;
  devices_add : forall e d r e', handle (IomanX_AddDrv d) e = (r, e') ->
    (0 <= r /\ devices e' ≡ₚ d :: devices e) \/ (r < 0 /\ devices e' ≡ₚ devices e);
  devices_del : forall e name r e', handle (IomanX_DelDrv name) e = (r, e') ->
    devices e' ≡ₚ filter (fun d => dv_name d <> name) (devices e)
}.

Section Registered.
Context {St E : Type} `{DeviceTable E}.
Local Abbreviation P := (M St E).

Definition others (name : string) (ds : list iop_device_t) : list iop_device_t :=
  filter (fun d => dv_name d <> name) ds.
Definition named (name : string) (ds : list iop_device_t) : list iop_device_t :=
  filter (fun d => dv_name d = name) ds.

#[local] Instance others_proper name : Proper (Permutation ==> Permutation) (others name).
Proof. intros l k Hlk. unfold others. by rewrite Hlk. Qed.
#[local] Instance named_proper name : Proper (Permutation ==> Permutation) (named name).
Proof. intros l k Hlk. unfold named. by rewrite Hlk. Qed.

Lemma named_others name ds : named name (others name ds) = [].
Proof.
  unfold named, others. induction ds as [|d ds IH]; [done|]. rewrite filter_cons. case_decide; [|done].
  rewrite filter_cons. by case_decide.
Qed.

Lemma others_others name ds : others name (others name ds) = others name ds.
Proof.
  unfold others. induction ds as [|d ds IH]; [done|]. rewrite !filter_cons. case_decide; [|done].
  rewrite filter_cons, IH. by case_decide.
Qed.

Lemma others_cons name d ds : dv_name d = name -> others name (d :: ds) = others name ds.
Proof. intros Hd. unfold others. rewrite filter_cons. by case_decide. Qed.
Lemma named_cons name d ds : dv_name d = name -> named name (d :: ds) = d :: named name ds.
Proof. intros Hd. unfold named. rewrite filter_cons. by case_decide. Qed.

(** Starting the HDLoader driver, first or again, returns 0 and touches no other device.
    It leaves the driver registered once where iomanX takes it, and not at all where it
    does not: the result is the same, so that [do_device] goes on without the driver. *)
Theorem hdlfs_registered argc argv s e :
  wp (_init_hdlfs argc argv : P Z) (fun r _ e' t =>
    r = Ret 0 /\ others hdlfs_dev_name (devices e') ≡ₚ others hdlfs_dev_name (devices e) /\
    exists r1 r2, t = [Ev (IomanX_DelDrv hdlfs_dev_name) r1; Ev (IomanX_AddDrv hdlfs_dev) r2] /\
      named hdlfs_dev_name (devices e') ≡ₚ (if r2 <? 0 then [] else [hdlfs_dev])) s e.
Proof.
  unfold _init_hdlfs, hdlfs_start. apply wp_bind, wp_bind, wp_call. intros r1 e1 He1. cbn [bind_post].
  apply wp_bind, wp_call. intros r2 e2 He2. cbn [bind_post]. apply wp_ret. cbn [bind_post]. apply wp_ret.
  apply devices_del in He1. fold (others hdlfs_dev_name (devices e)) in He1.
  split; [done|]. destruct (devices_add e1 _ r2 e2 He2) as [[Hr Hd]|[Hr Hd]].
  - split; [|exists r1, r2; split; [done|]]; rewrite Hd.
    + rewrite others_cons by done. by rewrite He1, others_others.
    + rewrite (proj2 (Z.ltb_ge r2 0)), named_cons by done. by rewrite He1, named_others.
  - split; [|exists r1, r2; split; [done|]]; rewrite Hd, He1.
    + by rewrite others_others.
    + by rewrite (proj2 (Z.ltb_lt r2 0)), named_others.
Qed.

(** The driver for files of the host does not take itself off first, and returns 0
    whether it was taken or not. *)
Theorem host_adapter_registered s e :
  wp (host_adapter_init : P Z) (fun r _ e' t =>
    r = Ret 0 /\ exists r1, t = [Ev (IomanX_AddDrv host_translator_fio_dev) r1] /\
      devices e' ≡ₚ (if r1 <? 0 then devices e else host_translator_fio_dev :: devices e)) s e.
Proof.
  unfold host_adapter_init. apply wp_bind, wp_call. intros r1 e1 He1. cbn [bind_post]. apply wp_ret.
  split; [done|]. exists r1. split; [done|]. destruct (devices_add e _ r1 e1 He1) as [[Hr Hd]|[Hr Hd]].
  - by rewrite (proj2 (Z.ltb_ge r1 0)).
  - by rewrite (proj2 (Z.ltb_lt r1 0)).
Qed.
End Registered.

(** ** A table of two slots *)

Module SampleTable.
#[export] Instance table_handler : Handler (list iop_device_t) := fun A c e =>
  match c in ioE A return A * list iop_device_t with
  | IomanX_AddDrv d => if (length e <? 2)%nat then (0, d :: e) else (-1, e)
  | IomanX_DelDrv name => (0, filter (fun d => dv_name d <> name) e)
  | c => (default_answer c, e)
  end.

#[export] Instance two_slots : DeviceTable (list iop_device_t).
Proof.
  refine {| devices := id |}.
  - intros e d r e' He. unfold handle, table_handler in He. destruct (length e <? 2)%nat; injection He as <- <-; [left|right]; by split; [lia|].
  - intros e name r e' [= _ <-]. done.
Defined.

Definition started (e : list iop_device_t) := (_init_hdlfs 0 [] : M unit (list iop_device_t) Z) tt e.

(** Twice is once; and a full table is not told. *)
Example started_twice :
  o_env (started (o_env (started []))) = [hdlfs_dev] /\
  o_res (started [host_translator_fio_dev; host_translator_fio_dev]) = Ret 0 /\
  named hdlfs_dev_name (o_env (started [host_translator_fio_dev; host_translator_fio_dev])) = [].
Proof. by vm_compute. Qed.
End SampleTable.
