(* ===== verification/Shell.v ===== *)
(** * The interactive shell (src/src/shell.c)

    [shell] reads lines, splits them with [parse_line] and runs the command of the
    table [CMD] whose name and number of arguments fit.  Its state is the context
    [context_t], the global [total_sectors], and the disk device opened by the
    [device] command. *)

From S2P Require Import Prelude IoWorld ParseLine Modes Shm Atad Hl Startup.

Definition HDIOC_TOTALSECTOR : Z := 0x4802.
Definition HIOCADDSUB : Z := 0x6801.

(** [context_t], with [total_sectors] and the variables of atad.c. *)
Record context_t := mk_context {
  setup : Z;
  mount_point : string;
  mount : Z;
  path : string;
  ctx_total_sectors : Z;
  ctx_atad : atad
}.

Definition set_setup (v : Z) (c : context_t) : context_t :=
  mk_context v (mount_point c) (mount c) (path c) (ctx_total_sectors c) (ctx_atad c).
Definition set_mount_point (v : string) (c : context_t) : context_t :=
  mk_context (setup c) v (mount c) (path c) (ctx_total_sectors c) (ctx_atad c).
Definition set_mount (v : Z) (c : context_t) : context_t :=
  mk_context (setup c) (mount_point c) v (path c) (ctx_total_sectors c) (ctx_atad c).
Definition set_path (v : string) (c : context_t) : context_t :=
  mk_context (setup c) (mount_point c) (mount c) v (ctx_total_sectors c) (ctx_atad c).
Definition set_total_sectors (v : Z) (c : context_t) : context_t :=
  mk_context (setup c) (mount_point c) (mount c) (path c) v (ctx_atad c).
Definition set_atad (v : atad) (c : context_t) : context_t :=
  mk_context (setup c) (mount_point c) (mount c) (path c) (ctx_total_sectors c) v.

(** [enum requirements] *)
Definition no_req : Z := 0.
Definition need_device : Z := 1.
Definition need_no_device : Z := 2.
Definition need_mount : Z := 4.
Definition need_no_mount : Z := 8.

(** [strrchr(path, '/')], as an index: the last slash at or before [k]. *)
Fixpoint slash_before (k : nat) (path : string) : option nat :=
  match String.get k path with
  | Some "/"%char => Some k
  | _ => match k with O => None | S k' => slash_before k' path end
  end.
Definition strrchr_slash (path : string) : option nat := slash_before (String.length path) path.

(** The last character of a string, [s[strlen(s) - 1]]. *)
Definition last_char (s : string) : option ascii := String.get (String.length s - 1) s.

Definition drop_last (s : string) : string := String.substring 0 (String.length s - 1) s.

Section Shell.
Context {E : Type} `{Handler E}.
Local Abbreviation P := (M context_t E).

Definition check_requirements (req : Z) : P bool :=
  ctx ← get;
  if flag req need_device && (setup ctx =? 0) then
    eprintf (ln "(!) No device selected; use `device' command.") [];; mret false
  else if flag req need_no_device && negb (setup ctx =? 0) then
    eprintf (ln "(!) Device already selected; restart first.") [];; mret false
  else if flag req need_mount && (mount ctx =? 0) then
    eprintf (ln "(!) No partition mounted; use `mount' command.") [];; mret false
  else if flag req need_no_mount && negb (mount ctx =? 0) then
    eprintf (ln "(!) Partition already mounted; use `umount' first.") [];; mret false
  else mret true.

(** [argv[i]] *)
Definition arg (argv : list string) (i : nat) : P string := deref (argv !! i).

Definition do_lcd (argv : list string) : P Z :=
  if (length argv =? 1)%nat then
    buf ← call (Host_getcwd 256);
    match buf with
    | Some buf => printf (ln "%s") [PStr buf];; mret 0
    | None => mret (-1)
    end
  else
    dir ← arg argv 1; call (Host_chdir dir).

(** The loop over the partitions that adds up [used_sectors]. *)
Definition used_turn (dh used_sectors : Z) : P (Z + Z) :=
  '(result, dirent) ← call (IomanX_dread dh);
  if (result =? 0) || (result =? -1) then mret (inr used_sectors)
  else
    let st := de_stat dirent in
    mret (inl (if negb (st_mode st =? 0x0000) && (st_attr st =? 0)
               then u32 (used_sectors + st_private_1 st) else used_sectors)).

Definition df_title : string :=
  ln "Device                               Size    Used   Avail Capacity".

Definition do_df (fuel : nat) (argv : list string) : P Z :=
  ctx ← get;
  if mount ctx =? 0 then
    dh ← call (IomanX_dopen "hdd0:");
    if dh <? 0 then
      eprintf (ln "(!) Unable to open %s: %s.") [PStr "hdd0:"; PStrerror (- dh)];; mret dh
    else
      used_sectors ← loop fuel (used_turn dh) 0;
      call (IomanX_close dh);;
      let total := u32 (ctx_total_sectors ctx + 1) in
      let free_sectors := u32 (ctx_total_sectors ctx + 1 - used_sectors) in
      printf df_title [];;
      assert_ (negb (total =? 0));;
      printf (ln "%s                             %4uGiB %4uGiB %4uGiB   %3u%%")
        [PStr "hdd0:"; PInt (total / 2097152); PInt (used_sectors / 2097152);
         PInt (free_sectors / 2097152); PInt (u32 (used_sectors * 100) / total)];;
      mret 0
  else
    '(dh, stat) ← call (IomanX_getstat (mount_point ctx));
    if dh <? 0 then
      eprintf (ln "(!) Unable to get stats for %s: %s.") [PStr (mount_point ctx); PStrerror (- dh)];;
      mret dh
    else
      let total_pfs := u32 (st_private_1 stat - st_private_0 stat * 4 - 8192) in
      '(frsize, _) ← call (IomanX_devctl "pfs0:" PDIOC_ZONESZ ArgNull 0 0);
      '(bavail, _) ← call (IomanX_devctl "pfs0:" PDIOC_ZONEFREE ArgNull 0 0);
      let free_sectors := u32 (u32 frsize * u32 bavail) / 512 in
      let used := u32 (total_pfs - free_sectors) in
      printf df_title [];;
      assert_ (negb (total_pfs =? 0));;
      assert_ (5 <=? String.length (mount_point ctx))%nat;;
      let name := String.substring 5 (String.length (mount_point ctx) - 5) (mount_point ctx) in
      (if total_pfs / 2048 <? 10000 then
         printf (ln "%32s  %4uMiB %4uMiB %4uMiB   %3u%%")
           [PStr name; PInt (total_pfs / 2048); PInt (used / 2048); PInt (free_sectors / 2048);
            PInt (u32 (used * 100) / total_pfs)]
       else
         printf (ln "%32s  %4uGiB %4uGiB %4uGiB   %3u%%")
           [PStr name; PInt (total_pfs / 2097152); PInt (used / 2097152);
            PInt (free_sectors / 2097152); PInt (u32 (used * 100) / total_pfs)]);;
      mret 0.

(** One of the driver modules [do_device] cannot do without. *)
Definition init_module (start : P Z) (msg : string) : P unit :=
  result ← start;
  if result <? 0 then
    eprintf (ln msg) [PInt result; PStrerror (- result)];; exit_ 1
  else mret tt.

(** [do_device] once the disk is open. *)
Definition start_device (fuel : nat) : P Z :=
  init_module (call (Init_module "_init_apa" ["ps2hdd.irx"])) "(!) init_apa: failed with %d (%s)";;
  init_module (call (Init_module "_init_pfs" ["pfs.irx"; "-m"; "1"; "-o"; "1"; "-n"; "10"]))
    "(!) init_pfs: failed with %d (%s)";;
  init_module (_init_hdlfs 0 []) "(!) init_hdlfs: failed with %d (%s)";;
  modify (set_setup 1);;
  '(total, _) ← call (IomanX_devctl "hdd0:" HDIOC_TOTALSECTOR ArgNull 0 0);
  modify (set_total_sectors (u32 total));;
  _ ← do_df fuel [];
  mret 0.

Definition do_device (fuel : nat) (argv : list string) : P Z :=
  dev ← arg argv 1;
  zoom ctx_atad set_atad (set_atad_device_path dev);;
  start_device fuel.

Definition do_initialize (fuel : nat) (argv : list string) : P Z :=
  if (length argv =? 1)%nat then
    printf (ln "Use: initialize yes to create APA partitioning.") [];; mret 0
  else
    result ← initialize;
    when (result <? 0) (eprintf (ln "(!) format: %s.") [PStrerror (- result)]);;
    '(total, _) ← call (IomanX_devctl "hdd0:" HDIOC_TOTALSECTOR ArgNull 0 0);
    modify (set_total_sectors (u32 total));;
    _ ← do_df fuel [];
    mret result.

(** ** [mkpart] *)

Definition sizesString : list string :=
  ["8M"; "16M"; "32M"; "64M"; "128M"; "256M"; "512M"; "1G"; "2G"; "4G"; "8G"; "16G"; "32G"].
Definition sizesMB : list Z :=
  [8; 16; 32; 64; 128; 256; 512; 1024; 2048; 4096; 8192; 16384; 32768].
Definition fsType : list string := ["MBR"; "EXT2SWAP"; "EXT2"; "REISER"; "PFS"; "CFS"; "HDL"].

(** The size in [argv[2]]: [None] where it does not end in M or G. *)
Definition parse_size (s : string) : option Z :=
  match last_char s with
  | Some c =>
      if Ascii.eqb c "M"%char then Some (u32 (strtoul10 (bytes_of_string (drop_last s))))
      else if Ascii.eqb c "G"%char
           then Some (u32 (u64 (strtoul10 (bytes_of_string (drop_last s)) * 1024)))
           else None
  | None => None
  end.

(** [while (result < 0 && i > 0)]: the sizes below [sizesString[i]], from the largest
    down, until the driver takes one.  It leaves with [i], [partfd], [result] and
    [size_in_mb]. *)
Fixpoint create_main (i : nat) (name part_type : string) (partfd size_in_mb : Z)
    : P (nat * Z * Z * Z) :=
  match i with
  | O => mret (O, partfd, -1, size_in_mb)
  | S i' =>
      mb ← deref (sizesMB !! i');
      if mb <=? size_in_mb then
        str ← deref (sizesString !! i');
        tmp ← in_buffer 128 ("hdd0:" +:+ name +:+ ",,," +:+ str +:+ "," +:+ part_type);
        partfd ← call (IomanX_open tmp (Z.lor FIO_O_RDWR FIO_O_CREAT) 0);
        if 0 <=? partfd then
          printf (ln "Main partition of %s created.") [PStr str];;
          mret (i', partfd, partfd, u32 (size_in_mb - mb))
        else create_main i' name part_type partfd size_in_mb
      else create_main i' name part_type partfd size_in_mb
  end.

(** One turn of [while (size_in_mb > 0 && j >= 0)]. *)
Definition add_sub_turn (partfd : Z) (x : Z * Z) : P (Z * Z + Z) :=
  let '(j, size_in_mb) := x in
  if (0 <? size_in_mb) && (0 <=? j) then
    mb ← deref (sizesMB !! Z.to_nat j);
    if mb <=? size_in_mb then
      str ← deref (sizesString !! Z.to_nat j);
      '(r, _) ← call (IomanX_ioctl2 partfd HIOCADDSUB (ArgBytes (bytes_of_string str ++ [0]))
                        (Z.of_nat (String.length str) + 1) 0);
      if 0 <=? r then
        printf (ln "Sub partition of %s created.") [PStr str];;
        mret (inl (j, u32 (size_in_mb - mb)))
      else mret (inl (j - 1, size_in_mb))
    else mret (inl (j - 1, size_in_mb))
  else mret (inr size_in_mb).

(** Each turn takes 8 MB or more, or goes to the next smaller size. *)
Definition add_fuel (size_in_mb : Z) : nat := Z.to_nat (size_in_mb / 8) + length sizesMB + 1.

(** The rest of [do_mkpart]: the main partition, its sub-partitions, and the file
    system. *)
Definition mkpart_create (name part_type : string) (partfd size_in_mb : Z) : P Z :=
  '(i, partfd, result, size_in_mb) ← create_main 9 name part_type partfd size_in_mb;
  (if 0 <=? partfd then
     _ ← loop (add_fuel size_in_mb) (add_sub_turn partfd) (Z.of_nat i, size_in_mb); mret tt
   else mret tt);;
  result ← (if 0 <=? result then
              call (IomanX_close partfd);;
              if String.prefix "PFS" part_type then mkpfs name else mret 0
            else mret result);
  when (result <? 0) (eprintf (ln "(!) %s: %s.") [PStr name; PStrerror (- result)]);;
  mret result.

Definition do_mkpart (argv : list string) : P Z :=
  name ← arg argv 1;
  openString ← in_buffer 37 ("hdd0:" +:+ name);
  partfd ← call (IomanX_open openString FIO_O_RDONLY 0);
  if negb (partfd =? -2) then
    call (IomanX_close partfd);;
    printf (ln "%s: partition already exists.") [PStr name];;
    mret (-1)
  else
    size ← arg argv 2;
    (* argv[2][strlen(argv[2]) - 1] *)
    assert_ (0 <? String.length size)%nat;;
    match parse_size size with
    | None =>
        eprintf (ln "%s: Partition size should end with literal M or G.") [PStr size];;
        mret (-1)
    | Some size_in_mb =>
        fs ← arg argv 3;
        if negb (existsb (String.eqb fs) fsType) then
          eprintf (ln "%s: wrong fs type. Acceptable fs types: {PFS, CFS, HDL, REISER, EXT2, EXT2SWAP, MBR}.")
            [PStr fs];;
          mret (-1)
        else
          part_type ← in_buffer 9 fs;
          mkpart_create name part_type partfd size_in_mb
    end.

(** ** Files and directories *)

(** [strcpy(tmp, "pfs0:"); strcat(tmp, ctx->path); ...; strcat(tmp, argv[1])]: the
    path of a name in the current directory. *)
Definition pfs_path (dir name : string) : string :=
  let dir := "pfs0:" +:+ dir in
  let dir := match last_char dir with
             | Some c => if Ascii.eqb c "/"%char then dir else dir +:+ "/"
             | None => dir
             end in
  dir +:+ name.

Definition here (name : string) : P string := ctx ← get; in_buffer 256 (pfs_path (path ctx) name).

(** [if (result < 0) fprintf(stderr, "(!) %s: %s.\n", what, strerror(-result))] *)
Definition complain (what : string) (result : Z) : P unit :=
  when (result <? 0) (eprintf (ln "(!) %s: %s.") [PStr what; PStrerror (- result)]).

Definition do_ls (fuel : nat) (argv : list string) : P Z :=
  lsmode ← (if (1 <? length argv)%nat then opt ← arg argv 1; mret (if String.prefix "-l" opt then 1 else 0)
            else mret 0);
  ctx ← get;
  if mount ctx =? 0 then
    result ← lspart fuel lsmode;
    when (result <? 0) (eprintf (ln "(!) lspart: %s.") [PStrerror (- result)]);;
    mret result
  else
    dir_path ← in_buffer 256 ("pfs0:" +:+ path ctx);
    dh ← call (IomanX_dopen dir_path);
    if 0 <=? dh then
      _ ← list_dir_objects fuel dh lsmode;
      call (IomanX_close dh);;
      mret 0
    else
      eprintf (ln "(!) ls: %s") [PStrerror (- dh)];; mret dh.

Definition do_mount (argv : list string) : P Z :=
  name ← arg argv 1;
  mp ← in_buffer 256 ("hdd0:" +:+ name);
  modify (set_mount_point mp);;
  result ← call (IomanX_mount "pfs0:" mp 0 ArgNull 0);
  if 0 <=? result then modify (set_mount 1);; mret 0
  else eprintf (ln "(!) %s: %s.") [PStr mp; PStrerror (- result)];; mret result.

Definition do_umount (argv : list string) : P Z :=
  result ← call (IomanX_umount "pfs0:");
  if 0 <=? result then modify (set_mount 0);; mret 0
  else eprintf (ln "(!) umount: %s.") [PStrerror (- result)];; mret result.

Definition do_pwd (argv : list string) : P Z :=
  ctx ← get; printf (ln "%s") [PStr (path ctx)];; mret 0.

(** What [do_cd] makes of [ctx->path] before it asks the driver. *)
Definition cd_path (old dir : string) : option string :=
  if String.eqb dir "/" then Some "/"
  else if String.eqb dir ".." || String.eqb dir "../" then
    (* without a slash, a store through NULL *)
    match strrchr_slash old with
    | Some O => Some (String.substring 0 1 old)
    | Some k => Some (String.substring 0 k old)
    | None => None
    end
  else if String.prefix "/" dir then Some dir
  else Some ((if (1 <? String.length old)%nat then old +:+ "/" else old) +:+ dir).

Definition do_cd (argv : list string) : P Z :=
  ctx ← get;
  let backup := path ctx in
  dir ← arg argv 1;
  new ← deref (cd_path backup dir);
  new ← in_buffer 256 new;
  modify (set_path new);;
  tmp ← in_buffer 256 ("pfs0:" +:+ new);
  result ← call (IomanX_chdir tmp);
  (if result <? 0 then
     eprintf (ln "(!) %s: %s.") [PStr tmp; PStrerror (- result)];;
     modify (set_path backup)
   else mret tt);;
  mret result.

Definition do_mkdir (argv : list string) : P Z :=
  name ← arg argv 1; tmp ← here name;
  result ← call (IomanX_mkdir tmp 0x1FF);
  complain tmp result;; mret result.

Definition do_rmdir (argv : list string) : P Z :=
  name ← arg argv 1; tmp ← here name;
  result ← call (IomanX_rmdir tmp);
  complain tmp result;; mret result.

(** One turn of the loop of [do_get]. *)
Definition get_turn (in_ out : Z) (name : string) (_ : unit) : P (unit + unit) :=
  '(len, buf) ← call (IomanX_read in_ 4096);
  if 0 <? len then
    assert_ (len <=? Z.of_nat (length buf));;
    result ← call (Host_write out (take (Z.to_nat len) buf));
    if negb (result =? len) then call (Perror name);; mret (inr tt)
    else mret (inl tt)
  else mret (inr tt).

Definition do_get (fuel : nat) (argv : list string) : P Z :=
  name ← arg argv 1; tmp ← here name;
  in_ ← call (IomanX_open tmp FIO_O_RDONLY 0);
  if 0 <=? in_ then
    out ← call (Host_open name (Z.lor host_O_CREAT host_O_WRONLY) 0x1B4);
    result ← (if negb (out =? -1) then
                loop fuel (get_turn in_ out name) tt;;
                call (Host_close out)
              else call (Perror name);; mret (-1));
    call (IomanX_close in_);;
    mret result
  else
    eprintf (ln "(!) %s: %s.") [PStr tmp; PStrerror (- in_)];; mret in_.

(** One turn of the loop of [do_put]. *)
Definition put_turn (in_ out : Z) (tmp : string) (_ : unit) : P (unit + unit) :=
  '(len, buf) ← call (Host_read in_ 32768);
  if 0 <? len then
    assert_ (len <=? Z.of_nat (length buf));;
    result ← call (IomanX_write out (take (Z.to_nat len) buf) len);
    if negb (result =? len) then
      (if result <? 0 then eprintf (ln "(!) %s: %s.") [PStr tmp; PStrerror (- result)]
       else eprintf (ln "(!) %s: wrote %d bytes instead of %lu.") [PStr tmp; PInt result; PInt len]);;
      mret (inr tt)
    else mret (inl tt)
  else mret (inr tt).

Definition do_put (fuel : nat) (argv : list string) : P Z :=
  name ← arg argv 1; tmp ← here name;
  in_ ← call (Host_open name host_O_RDONLY 0);
  if negb (in_ =? -1) then
    out ← call (IomanX_open tmp (Z.lor FIO_O_WRONLY FIO_O_CREAT) 0x1B6);
    result ← (if 0 <=? out then
                loop fuel (put_turn in_ out tmp) tt;;
                call (IomanX_close out)
              else
                eprintf (ln "(!) %s: %s.") [PStr tmp; PStrerror (- out)];; mret out);
    call (Host_close in_);;
    mret result
  else call (Perror name);; mret (-1).

Definition do_rm (argv : list string) : P Z :=
  name ← arg argv 1; tmp ← here name;
  result ← call (IomanX_remove tmp);
  complain tmp result;; mret result.

Definition do_rename (argv : list string) : P Z :=
  ctx ← get;
  name ← arg argv 1;
  tmp ← (if mount ctx =? 0 then in_buffer 256 ("hdd0:" +:+ name) else here name);
  new ← arg argv 2;
  result ← call (IomanX_rename tmp new);
  complain tmp result;; mret result.

Definition do_rmpart (argv : list string) : P Z :=
  name ← arg argv 1;
  tmp ← in_buffer 256 ("hdd0:" +:+ name);
  result ← call (IomanX_remove tmp);
  complain tmp result;; mret result.

(** ** Commands *)

Definition help_text : string :=
  let tab := String "009" EmptyString in
  ln "~Command List~"
  +:+ ln "lcd [path] - print/change the local working directory"
  +:+ ln "device <device> - use this PS2 HDD;"
  +:+ ln "initialize - blank and create APA/PFS on a new PS2 HDD (destructive);"
  +:+ ln "mkpart <part_name> <size> <fstype> - create a new PFS formatted partition;"
  +:+ ln (tab +:+ "Size must end with M or G literal (like 384M or 3G);")
  +:+ ln (tab +:+ "Acceptable fs types: {PFS, CFS, HDL, REISER, EXT2, EXT2SWAP, MBR};")
  +:+ ln (tab +:+ "Only fs type PFS will format partition, other partitions should be formatted by another utilities;")
  +:+ ln "mount <part_name> - mount a partition;"
  +:+ ln "umount - un-mount a partition;"
  +:+ ln "ls [-l] - no mount: list partitions; mount: list files/dirs; -l: verbose list;"
  +:+ ln "rename <curr_name> <new_name> - no mount: rename partition; mount: rename a file/dir."
  +:+ ln "mkdir <dir_name> - create a new directory;"
  +:+ ln "rmdir <dir_name> - delete an existing empty directory;"
  +:+ ln "pwd - print current PS2 HDD directory;"
  +:+ ln "cd <dir_name> - change directory;"
  +:+ ln "get <file_name> - copy file from PS2 HDD to current dir;"
  +:+ ln "put <file_name> - copy file from current dir to PS2 HDD;"
  +:+ ln (tab +:+ "file name must not contain a path;")
  +:+ ln "rm <file_name> - delete a file;"
  +:+ ln "rename <curr_name> <new_name> - rename a file/dir/partition."
  +:+ ln "rmpart <part_name> - remove partition (destructive)."
  +:+ ln "df - no mount: display free space on the whole HDD; mount: display free space on partition."
  +:+ ln "exit/quit/bye - exits the program. (Do this before you unplug your HDD)".

Definition do_help (argv : list string) : P Z := eprintf "%s" [PStr help_text];; mret 0.

Record command := mk_command {
  cmd_name : string;
  cmd_args : nat;
  cmd_req : Z;
  cmd_process : list string -> P Z
}.

(** The table of [exec]; [fuel] bounds the loops over directories and files. *)
Definition CMD (fuel : nat) : list command := [
  mk_command "lcd" 0 no_req do_lcd;
  mk_command "lcd" 1 no_req do_lcd;
  mk_command "device" 1 need_no_device (do_device fuel);
  mk_command "initialize" 0 (need_device + need_no_mount) (do_initialize fuel);
  mk_command "initialize" 1 (need_device + need_no_mount) (do_initialize fuel);
  mk_command "mkpart" 3 need_device do_mkpart;
  mk_command "mount" 1 (need_device + need_no_mount) do_mount;
  mk_command "umount" 0 (need_device + need_mount) do_umount;
  mk_command "ls" 0 need_device (do_ls fuel);
  mk_command "ls" 1 need_device (do_ls fuel);
  mk_command "mkdir" 1 (need_device + need_mount) do_mkdir;
  mk_command "rmdir" 1 (need_device + need_mount) do_rmdir;
  mk_command "pwd" 0 (need_device + need_mount) do_pwd;
  mk_command "cd" 1 (need_device + need_mount) do_cd;
  mk_command "get" 1 (need_device + need_mount) (do_get fuel);
  mk_command "put" 1 (need_device + need_mount) (do_put fuel);
  mk_command "rm" 1 (need_device + need_mount) do_rm;
  mk_command "rmpart" 1 need_device do_rmpart;
  mk_command "df" 0 need_device (do_df fuel);
  mk_command "rename" 2 need_device do_rename;
  mk_command "help" 0 no_req do_help
].

(** [!strcmp(argv[0], cmd->name) && cmd->args == argc - 1] *)
Definition cmd_matches (argv : list string) (cmd : command) : bool :=
  match argv with
  | name :: args => String.eqb name (cmd_name cmd) && (cmd_args cmd =? length args)%nat
  | [] => false
  end.

Definition exec (fuel : nat) (argv : list string) : P Z :=
  match argv with
  | [] => mret 0
  | name :: _ =>
      match List.find (cmd_matches argv) (CMD fuel) with
      | Some cmd =>
          ok ← check_requirements (cmd_req cmd);
          if ok : bool then cmd_process cmd argv else mret 0
      | None =>
          eprintf (ln "(!) %s: unknown command or bad number of arguments.") [PStr name];; mret 0
      end
  end.

(** ** The loop *)

(** [strchr(ctx->mount_point, ':') + 1] *)
Fixpoint after_colon (s : string) : option string :=
  match s with
  | EmptyString => None
  | String c s' => if Ascii.eqb c ":"%char then Some s' else after_colon s'
  end.

Definition update_prompt (prompt : string) : P string :=
  ctx ← get;
  if negb (setup ctx =? 0) then
    if negb (mount ctx =? 0) then
      part ← deref (after_colon (mount_point ctx));
      in_buffer 256 (part +:+ ":" +:+ path ctx +:+ "# ")
    else mret "# "
  else mret prompt.

Definition quits (line : string) : bool :=
  String.prefix "exit" line || String.prefix "quit" line || String.prefix "bye" line.

(** [parse_line], on the buffer of [getline] with the zero that ends it, and what the
    loop does with the tokens; [errno] as the libc has it after the command. *)
Definition run_line (fuel : nat) (line : string) : P unit :=
  match parse_line shell_tokens_cap (list_ascii_of_string line ++ [NUL]) with
  | Ret (result, tokens) =>
      if 0 <=? result then
        call (Set_errno 0);;
        result ← exec fuel (string_of_list_ascii <$> tokens);
        when (negb (result =? 0))
          (eprintf "(!) Exit code is %d" [PInt result];;
           errno ← call Get_errno;
           if negb (errno =? 0)
           then eprintf (ln "; errno %d (%s).") [PInt errno; PStrerror (- errno)]
           else eprintf (ln ".") [])
      else eprintf (ln "(!) Unable to parse command line.") []
  | Exit c => exit_ c
  | Undef => undef
  | Blocked => stop Blocked
  | OutOfFuel => stop OutOfFuel
  end.

Definition shell_turn (fuel : nat) (prompt : string) : P (string + unit) :=
  eprintf "%s" [PStr prompt];;
  line ← call Host_getline;
  match line with
  | None => mret (inr tt)
  | Some line =>
      if quits line then mret (inr tt)
      else
        run_line fuel line;;
        prompt ← update_prompt prompt;
        mret (inl prompt)
  end.

(** [lines] bounds the number of lines read. *)
Definition shell_loop (fuel lines : nat) : P Z := loop lines (shell_turn fuel) "> ";; mret 0.

Definition banner : string :=
  ln "pfsshell for POSIX systems"
  +:+ ln "https://github.com/ps2homebrew/pfsshell"
  +:+ ln ""
  +:+ ln "This program uses pfs, apa, iomanX, "
  +:+ ln "code from ps2sdk (https://github.com/ps2dev/ps2sdk)"
  +:+ ln ""
  +:+ ln ("Type " +:+ dq +:+ "help" +:+ dq +:+ " for a list of commands.")
  +:+ ln "".

Definition shell (fuel lines : nat) : P Z :=
  modify (fun c => mk_context 0 "" 0 "/" (ctx_total_sectors c) (ctx_atad c));;
  eprintf "%s" [PStr banner];;
  result ← shell_loop fuel lines;
  ctx ← get;
  when (negb (mount ctx =? 0)) (_ ← do_umount []; mret tt);;
  zoom ctx_atad set_atad atad_close;;
  mret result.

(** [main] of src/src/startup.c. *)
Definition startup_main (fuel lines : nat) : P Z := shell fuel lines.
End Shell.
