(* ===== verification/ShellProps.v ===== *)
(** * The shell: correctness *)

From S2P Require Import Prelude IoWorld Trace Ledger ParseLine Modes Shm Atad Hl HlProps Startup Shell.
Import Sample.

(** Runs to the end of a program, absent values included. *)
Ltac ledger_run :=
  wp_go; lazymatch goal with |- match ?o with _ => _ end => destruct o; ledger_run | |- _ => idtac end.

(** ** What the shell holds *)

(** The parts of the context only [device], [mount] and [umount] change. *)
Definition core (s : context_t) : Z * Z * atad := (setup s, mount s, ctx_atad s).

Definition same_core (s s' : context_t) : Prop := core s' = core s.

#[export] Instance same_core_preorder : PreOrder same_core.
Proof. split; [done|]. intros s1 s2 s3 H1 H2. unfold same_core in *. congruence. Qed.

Section Plain.
Context {E : Type} `{Handler E}.
Local Abbreviation P := (M context_t E).

(** A command that leaves everything as it found it. *)
Record plain {A} (m : P A) : Prop := {
  pl_ledger : balanced m;
  pl_core : stable same_core m
}.

Lemma plain_bind {A B} (m : P A) (k : A -> P B) :
  plain m -> (forall a, plain (k a)) -> plain (m ≫= k).
Proof.
  intros [H1 H2] Hk. split.
  - intros L. apply balanced_bind; [done|]. intros a. apply Hk.
  - apply stable_bind; [tc_solve|done|]. intros a. apply Hk.
Qed.

Ltac plain_go := split; [intros ?L; lawful_go|repeat stable_step; try (by unfold same_core)].

Lemma lspart_plain fuel mode : plain (lspart fuel mode : P Z).
Proof.
  split; [apply lspart_balanced|].
  unfold lspart, lspart_turn, mod_time, or_fail, in_buffer. repeat stable_step.
Qed.

Lemma list_dir_objects_core fuel dh mode : stable same_core (list_dir_objects fuel dh mode : P Z).
Proof. unfold list_dir_objects, list_turn, mod_time, in_buffer. repeat stable_step. Qed.

Lemma initialize_plain : plain (initialize : P Z).
Proof. unfold initialize, mkpfs, in_buffer. plain_go. Qed.

Lemma do_df_plain fuel argv : plain (do_df fuel argv : P Z).
Proof. unfold do_df, used_turn. plain_go. Qed.

Lemma do_lcd_plain argv : plain (do_lcd argv : P Z).
Proof. unfold do_lcd, arg. plain_go. Qed.

Lemma do_initialize_plain fuel argv : plain (do_initialize fuel argv : P Z).
Proof.
  unfold do_initialize. destruct (length argv =? 1)%nat; [plain_go|].
  apply plain_bind; [apply initialize_plain|]. intros r.
  apply plain_bind; [plain_go|]. intros u. unfold do_df, used_turn. plain_go.
Qed.

(** ** [mkpart] *)

Lemma add_sub_lawful fd size x L :
  lawful (FileFd fd :: L) (loop (add_fuel size) (add_sub_turn fd) x : P Z) (fun _ L' => L' = FileFd fd :: L).
Proof. apply lawful_loop. intros [j mb]. unfold add_sub_turn. lawful_go. Qed.

Lemma add_sub_core fd size x : stable same_core (loop (add_fuel size) (add_sub_turn fd) x : P Z).
Proof. apply stable_loop; [tc_solve|]. intros [j mb]. unfold add_sub_turn. repeat stable_step. Qed.

(** The main partition, where there is one, is open. *)
Definition main_open (L : list holding) (x : nat * Z * Z * Z) (L' : list holding) : Prop :=
  let '(_, fd, result, _) := x in
  (0 <= fd /\ result = fd /\ L' = FileFd fd :: L) \/ (fd < 0 /\ result = -1 /\ L' = L).

Lemma create_main_lawful i name fs fd size L :
  fd < 0 -> lawful L (create_main i name fs fd size : P (nat * Z * Z * Z)) (main_open L).
Proof.
  revert fd. induction i as [|i IH]; intros fd Hfd; cbn [create_main].
  { apply lawful_ret. by right. }
  lawful_go; try (apply IH; boolP; lia). left. boolP. done.
Qed.

Lemma create_main_core i name fs fd size : stable same_core (create_main i name fs fd size : P (nat * Z * Z * Z)).
Proof.
  revert fd. induction i as [|i IH]; intros fd; cbn [create_main]; [apply stable_ret; tc_solve|].
  unfold in_buffer. repeat stable_step; apply IH.
Qed.

Lemma mkpart_create_core name fs fd size : stable same_core (mkpart_create name fs fd size : P Z).
Proof.
  unfold mkpart_create. apply stable_bind; [tc_solve|apply create_main_core|].
  intros [[[i fd'] result] mb]. unfold mkpfs, in_buffer.
  repeat first [apply add_sub_core | stable_step].
Qed.

Lemma mkpart_create_balanced name fs size : balanced (mkpart_create name fs (-2) size : P Z).
Proof.
  intros L. unfold mkpart_create. eapply lawful_bind; [by apply create_main_lawful|].
  intros [[[i fd] result] mb] L' [(Hfd & -> & ->)|(Hfd & -> & ->)]; unfold mkpfs;
    repeat first [ eapply lawful_bind; [apply add_sub_lawful|intros ? ? ->] | lawful_step ]; try done; clash.
Qed.

Lemma do_mkpart_plain argv : plain (do_mkpart argv : P Z).
Proof.
  split.
  - pose proof mkpart_create_balanced as Hc. intros L. unfold do_mkpart, arg.
    repeat first [ eapply lawful_mono; [boolP; subst; apply Hc|intros ? ? ->] | lawful_step ]; done.
  - unfold do_mkpart, arg, in_buffer. repeat first [apply mkpart_create_core | stable_step].
Qed.

(** ** The other commands *)

Lemma do_ls_plain fuel argv : plain (do_ls fuel argv : P Z).
Proof.
  split.
  - pose proof (lspart_balanced (St := context_t) (E := E) fuel) as H1. intros L. unfold do_ls, arg.
    repeat first [ eapply lawful_bind; [first [apply H1 | apply list_dir_objects_lawful]|intros ? ? ->]
                 | lawful_step ]; try done; clash.
  - pose proof (fun n => pl_core _ (lspart_plain fuel n)) as H1. pose proof (list_dir_objects_core fuel) as H2.
    unfold do_ls, arg, in_buffer. repeat first [apply H1 | apply H2 | stable_step].
Qed.

Lemma do_pwd_plain argv : plain (do_pwd argv : P Z).
Proof. unfold do_pwd. plain_go. Qed.

Lemma do_cd_plain argv : plain (do_cd argv : P Z).
Proof. unfold do_cd, arg, in_buffer. plain_go. Qed.

Lemma do_mkdir_plain argv : plain (do_mkdir argv : P Z).
Proof. unfold do_mkdir, arg, here, complain, in_buffer. plain_go. Qed.

Lemma do_rmdir_plain argv : plain (do_rmdir argv : P Z).
Proof. unfold do_rmdir, arg, here, complain, in_buffer. plain_go. Qed.

Lemma do_get_plain fuel argv : plain (do_get fuel argv : P Z).
Proof. unfold do_get, get_turn, arg, here, in_buffer. plain_go. Qed.

Lemma do_put_plain fuel argv : plain (do_put fuel argv : P Z).
Proof. unfold do_put, put_turn, arg, here, in_buffer. plain_go. Qed.

Lemma do_rm_plain argv : plain (do_rm argv : P Z).
Proof. unfold do_rm, arg, here, complain, in_buffer. plain_go. Qed.

Lemma do_rename_plain argv : plain (do_rename argv : P Z).
Proof. unfold do_rename, arg, here, complain, in_buffer. plain_go. Qed.

Lemma do_rmpart_plain argv : plain (do_rmpart argv : P Z).
Proof. unfold do_rmpart, arg, complain, in_buffer. plain_go. Qed.

Lemma do_help_plain argv : plain (do_help argv : P Z).
Proof. unfold do_help. plain_go. Qed.

(** ** Accounts: what is open is what the context says *)

Definition device_held (s : context_t) : list holding :=
  if at_handle (ctx_atad s) =? -1 then [] else [HostFd (at_handle (ctx_atad s))].

(** The disk, and on top of it the mount, which an unmount may have been refused for. *)
Definition holds (s : context_t) (L : list holding) : Prop :=
  exists mnt, L = mnt ++ device_held s /\
    if mount s =? 0 then mnt = [] else mnt = [Mounted "pfs0:"] \/ mnt = [Stuck "pfs0:"].

(** Before a device is selected nothing is open or mounted. *)
Definition fresh (s : context_t) : Prop :=
  setup s = 0 -> at_handle (ctx_atad s) = -1 /\ mount s = 0.

Definition accounts {A} (m : P A) : Prop :=
  forall s e L, fresh s -> holds s L -> wp m (fun r s' _ t =>
    exists L', ledger L t = Some L' /\ forall a, r = Ret a -> fresh s' /\ holds s' L') s e.

Lemma accounts_bind {A B} (m : P A) (k : A -> P B) :
  accounts m -> (forall a, accounts (k a)) -> accounts (m ≫= k).
Proof.
  intros Hm Hk s e L Hs HL. apply wp_bind. eapply wp_mono; [by apply (Hm s e L)|].
  intros [a| | | |] s' e' t (L' & Ht & Ha); cbn [bind_post]; try by (exists L').
  destruct (Ha a eq_refl) as [Hs' HL']. eapply wp_mono; [by apply (Hk a s' e' L')|]. cbv beta.
  intros r s'' e'' t' Ht'. by rewrite (ledger_app_some _ _ _ _ Ht).
Qed.

Lemma accounts_plain {A} (m : P A) : plain m -> accounts m.
Proof.
  intros [H1 H3] s e L Hs HL. specialize (H1 L s e). specialize (H3 s e). unfold wp in *.
  destruct H1 as (L' & Ht & Ha). exists L'. split; [done|]. intros a Hr. rewrite (Ha a Hr).
  injection H3 as E1 E2 E3. unfold fresh, holds, device_held in *. by rewrite E1, E2, E3.
Qed.

Lemma accounts_loop {X R} fuel (body : X -> P (X + R)) x :
  (forall x, accounts (body x)) -> accounts (loop fuel body x).
Proof.
  intros Hb. revert x. induction fuel as [|fuel IH]; intros x.
  { intros s e L Hs HL. apply wp_stop. by exists L. }
  apply accounts_bind; [apply Hb|]. intros [x'|y]; [apply IH|].
  apply accounts_plain. plain_go.
Qed.

Definition req_ok (req : Z) (s : context_t) : Prop :=
  (flag req need_device = true -> setup s <> 0) /\
  (flag req need_no_device = true -> setup s = 0) /\
  (flag req need_mount = true -> mount s <> 0) /\
  (flag req need_no_mount = true -> mount s = 0).

Lemma check_requirements_spec req s e :
  wp (check_requirements req) (fun r s' _ t => s' = s /\ exists b, r = Ret b /\
      (b = true -> req_ok req s /\ t = []) /\
      (b = false -> exists msg r, t = [Ev (Printf Stderr msg []) r])) s e.
Proof.
  unfold check_requirements, req_ok. wp_go; (split; [done|]); eexists; (split; [done|]); split;
    first [done | intros _; by repeat eexists | intros _; split; [|done]].
  destruct (Z.eqb_spec (setup s) 0), (Z.eqb_spec (mount s) 0), (flag req need_device),
    (flag req need_no_device), (flag req need_mount), (flag req need_no_mount); done.
Qed.

Definition accounts_for (req : Z) (m : P Z) : Prop :=
  forall s e L, fresh s -> holds s L -> req_ok req s -> wp m (fun r s' _ t =>
    exists L', ledger L t = Some L' /\ forall a, r = Ret a -> fresh s' /\ holds s' L') s e.

Lemma plain_accounts_for req m : plain m -> accounts_for req m.
Proof. intros Hm s e L Hs HL _. by apply accounts_plain. Qed.

Lemma do_mount_accounts argv : accounts_for (need_device + need_no_mount) (do_mount argv).
Proof.
  intros s e L Hs (mnt & -> & Hm) (Hdev & _ & _ & Hmnt). specialize (Hdev eq_refl). specialize (Hmnt eq_refl).
  rewrite (proj2 (Z.eqb_eq _ _) Hmnt) in Hm. subst mnt.
  unfold do_mount, arg, in_buffer. ledger_run; (eexists; split; [reflexivity|]); try done; intros ? [= <-];
    (split; [by intros ?|]); unfold holds, device_held; cbn; repeat (case_bool; boolP; try congruence; try lia).
  all: try (exists [Mounted "pfs0:"]; split; [done|by left]). all: by exists [].
Qed.

Lemma holds_mounted s L :
  holds s L -> mount s <> 0 -> exists x, L = x :: device_held s /\ release_mount "pfs0:" L = Some (device_held s).
Proof.
  intros (mnt & -> & Hm) Hne. rewrite (proj2 (Z.eqb_neq _ _) Hne) in Hm.
  destruct Hm as [-> | ->]; eexists; (split; [done|]); unfold device_held; by case_bool.
Qed.

Lemma do_umount_accounts argv : accounts_for (need_device + need_mount) (do_umount argv).
Proof.
  intros s e L Hs HL (Hdev & _ & Hmnt & _). specialize (Hdev eq_refl). specialize (Hmnt eq_refl).
  destruct (holds_mounted s L HL Hmnt) as (x & -> & Hr).
  unfold do_umount. wp_go; rewrite Hr; cbn; (eexists; split; [reflexivity|]); intros ? [= <-];
    (split; [by intros ?|]); case_bool; try congruence.
  - by exists [].
  - exists [Stuck "pfs0:"]. split; [done|]. rewrite (proj2 (Z.eqb_neq _ _) Hmnt). by right.
Qed.

(** A device is selected, or the program ends. *)
Lemma set_atad_device_path_spec dev s e L :
  wp (set_atad_device_path dev : M atad E unit) (fun r s' _ t =>
    exists L', ledger L t = Some L' /\ forall u, r = Ret u ->
      at_handle s' <> -1 /\ L' = HostFd (at_handle s') :: L) s e.
Proof.
  unfold set_atad_device_path, set_atad_device_handle. wp_go; boolP; cbn; unfold use;
    repeat (case_bool; boolP; try congruence; cbn in *; rewrite ?Z.eqb_refl in *; try discriminate);
    try (eexists; split; [reflexivity|]; by intros ? [= <-]).
Qed.

Lemma start_device_balanced fuel : balanced (start_device fuel).
Proof.
  intros L. unfold start_device, init_module, _init_hdlfs, hdlfs_start.
  pose proof (pl_ledger _ (do_df_plain fuel [])) as Hdf.
  repeat first [eapply lawful_bind; [apply Hdf|intros ? ? ->] | lawful_step]; done.
Qed.

Lemma start_device_core fuel s e :
  wp (start_device fuel) (fun r s' _ _ => forall v, r = Ret v ->
    core s' = (1, mount s, ctx_atad s)) s e.
Proof.
  unfold start_device, init_module, _init_hdlfs, hdlfs_start.
  repeat lazymatch goal with
    | |- wp (mbind _ (do_df _ _)) _ _ _ => fail
    | |- _ => wp_step; try done
    end.
  apply wp_bind. eapply wp_mono; [apply pl_core, do_df_plain|]. cbv beta. unfold same_core.
  intros [] s2 e2 t2 Hc; try done. cbn. apply wp_ret. intros v _. exact Hc.
Qed.

Lemma do_device_accounts fuel argv : accounts_for need_no_device (do_device fuel argv).
Proof.
  intros s e L Hs (mnt & -> & Hm) (_ & Hno & _). specialize (Hno eq_refl). destruct (Hs Hno) as [Hat Hmnt].
  rewrite (proj2 (Z.eqb_eq _ _) Hmnt) in Hm. subst mnt. unfold device_held. rewrite Hat. cbn.
  unfold do_device, arg. apply wp_bind, wp_deref. destruct (argv !! 1%nat) as [dev|]; [|by eexists].
  cbn. apply wp_bind, wp_zoom. eapply wp_mono; [by apply (set_atad_device_path_spec _ _ _ [])|]. cbv beta.
  intros [u| | | |] a e1 t1 (L1 & Ht1 & Ha1); cbn [bind_post]; try by (exists L1).
  destruct (Ha1 u eq_refl) as [Ha ->]. set (s1 := set_atad a s).
  pose proof (start_device_balanced fuel [HostFd (at_handle a)] s1 e1) as H4.
  pose proof (start_device_core fuel s1 e1) as H6. unfold wp in *. destruct H4 as (L2 & Ht2 & Ha2).
  exists L2. rewrite (ledger_app_some _ _ _ _ Ht1). split; [done|]. intros v Hv. rewrite (Ha2 v Hv).
  specialize (H6 v Hv). injection H6 as H1 H2 H3. unfold fresh, holds, device_held. rewrite H1, H2, H3.
  split; [done|]. exists []. cbn. by rewrite Hmnt, (proj2 (Z.eqb_neq _ _) Ha).
Qed.

Lemma CMD_accounts fuel argv :
  Forall (fun cmd => accounts_for (cmd_req cmd) (cmd_process cmd argv)) (CMD fuel).
Proof.
  unfold CMD. repeat apply List.Forall_cons; [..|apply List.Forall_nil]; cbn [cmd_req cmd_process];
    first [apply do_device_accounts | apply do_mount_accounts | apply do_umount_accounts
          | apply plain_accounts_for].
  - apply do_lcd_plain.
  - apply do_lcd_plain.
  - apply do_initialize_plain.
  - apply do_initialize_plain.
  - apply do_mkpart_plain.
  - apply do_ls_plain.
  - apply do_ls_plain.
  - apply do_mkdir_plain.
  - apply do_rmdir_plain.
  - apply do_pwd_plain.
  - apply do_cd_plain.
  - apply do_get_plain.
  - apply do_put_plain.
  - apply do_rm_plain.
  - apply do_rmpart_plain.
  - apply do_df_plain.
  - apply do_rename_plain.
  - apply do_help_plain.
Qed.

Lemma find_CMD fuel argv cmd :
  List.find (cmd_matches argv) (CMD fuel) = Some cmd -> cmd ∈ CMD fuel /\ cmd_matches argv cmd = true.
Proof. intros Hf. apply List.find_some in Hf as [Hin Hm]. split; [by apply list_elem_of_In|done]. Qed.

Lemma exec_accounts fuel argv : accounts (exec fuel argv).
Proof.
  unfold exec. destruct argv as [|name args]; [apply accounts_plain; plain_go|].
  destruct (List.find _ (CMD fuel)) as [cmd|] eqn:Hf; [|apply accounts_plain; plain_go].
  apply find_CMD in Hf as [Hin _].
  pose proof (proj1 (Forall_forall _ _) (CMD_accounts fuel (name :: args)) _ Hin) as Hcmd.
  intros s e L Hs HL. apply wp_bind. eapply wp_mono; [apply check_requirements_spec|].
  intros ? s' e' t (-> & b & -> & Htrue & Hfalse). cbn. destruct b.
  - destruct (Htrue eq_refl) as [Hok ->]. by apply Hcmd.
  - destruct (Hfalse eq_refl) as (msg & r & ->). apply wp_ret. by exists L.
Qed.

Lemma run_line_accounts fuel line : accounts (run_line fuel line).
Proof.
  unfold run_line. destruct (parse_line _ _) as [[result tokens]| | | |];
    try by (intros s e L Hs HL; apply wp_stop; exists L).
  destruct (0 <=? result); [|apply accounts_plain; plain_go].
  apply accounts_bind; [apply accounts_plain; plain_go|]. intros u.
  apply accounts_bind; [apply exec_accounts|]. intros r. apply accounts_plain. plain_go.
Qed.

Lemma shell_loop_accounts fuel lines : accounts (shell_loop fuel lines).
Proof.
  unfold shell_loop. apply accounts_bind; [|intros u; apply accounts_plain; plain_go].
  apply accounts_loop. intros prompt. unfold shell_turn.
  apply accounts_bind; [apply accounts_plain; plain_go|]. intros u.
  apply accounts_bind; [apply accounts_plain; plain_go|]. intros [line|]; [|apply accounts_plain; plain_go].
  destruct (quits line); [apply accounts_plain; plain_go|].
  apply accounts_bind; [apply run_line_accounts|]. intros u'. apply accounts_plain.
  unfold update_prompt, in_buffer. plain_go.
Qed.

(** The unmount at the end of a session, where a partition is mounted. *)
Lemma end_umount s e L :
  holds s L ->
  wp (when (negb (mount s =? 0)) (_ ← do_umount []; mret tt) : P unit)
     (fun r s' _ t => exists L', ledger L t = Some L' /\ (exists u, r = Ret u) /\
        (L' = device_held s' \/ L' = Stuck "pfs0:" :: device_held s')) s e.
Proof.
  intros HL. apply wp_when; intros Hm; boolP.
  - destruct (holds_mounted s L HL Hm) as (x & -> & Hr). unfold do_umount.
    wp_go; rewrite Hr; cbn; (eexists; split; [reflexivity|]); (split; [by eexists|]); case_bool; boolP; try lia; auto.
  - destruct HL as (mnt & -> & Hmnt). rewrite (proj2 (Z.eqb_eq _ _) Hm) in Hmnt. subst. cbn.
    eexists; split; [done|]. split; [by eexists|by left].
Qed.

(** The end of a session closes the disk under whatever is stuck. *)
Lemma atad_close_spec s e mnt :
  mnt = [] \/ mnt = [Stuck "pfs0:"] ->
  wp (atad_close : M atad E unit) (fun r s' _ t =>
    (exists u, r = Ret u) /\
    ledger (mnt ++ if at_handle s =? -1 then [] else [HostFd (at_handle s)]) t = Some mnt) s e.
Proof.
  intros Hmnt. unfold atad_close. wp_go; (split; [by eexists|]); boolP;
    destruct Hmnt as [-> | ->]; cbn; repeat (case_bool; boolP; try congruence; cbn); by rewrite ?Z.eqb_refl.
Qed.
End Plain.

(** ** What the table of requirements guards *)

(** A call on a path of the mount point. *)
Definition pfs_call {A} (c : ioE A) : bool :=
  match c with
  | IomanX_open name _ _ | IomanX_remove name | IomanX_mkdir name _ | IomanX_rmdir name
  | IomanX_dopen name | IomanX_getstat name | IomanX_chstat name _ _ | IomanX_format name _ _ _
  | IomanX_rename name _ | IomanX_chdir name | IomanX_umount name | IomanX_devctl name _ _ _ _ =>
      String.prefix "pfs0:" name
  | _ => false
  end.

Definition mount_call {A} (c : ioE A) : bool :=
  match c with IomanX_mount _ _ _ _ _ => true | _ => false end.
Definition format_call {A} (c : ioE A) : bool :=
  match c with IomanX_format _ _ _ _ => true | _ => false end.

(** Formatting anything, or mounting over the mount point. *)
Definition destructive_call {A} (c : ioE A) : bool := mount_call c || format_call c.

(** What holds of the calls before each call that formats. *)
Definition formats_after (G : trace -> string -> option string -> Prop) (t : trace) : Prop :=
  forall t1 dev blk arg n r t2, t = t1 ++ Ev (IomanX_format dev blk arg n) r :: t2 -> G t1 dev blk.

Lemma formats_after_none G t : calls_of (@format_call) t = [] -> formats_after G t.
Proof. intros Ht t1 dev blk arg n r t2 ->. rewrite calls_of_app in Ht. by apply app_eq_nil in Ht as [_ ?]. Qed.

Lemma formats_after_app G t t' :
  calls_of (@format_call) t = [] -> formats_after (fun u => G (t ++ u)) t' -> formats_after G (t ++ t').
Proof.
  intros Ht Ht' t1 dev blk arg n r t2 Heq. apply app_eq_inv in Heq as [(k & -> & Heq)|(k & -> & ->)].
  - destruct k as [|ev k]; cbn in Heq.
    + specialize (Ht' [] dev blk arg n r t2). rewrite !app_nil_r in Ht'. by apply Ht'.
    + injection Heq as <- Heq. rewrite !calls_of_app in Ht. by apply app_eq_nil in Ht as [_ ?].
  - by apply (Ht' k dev blk arg n r t2).
Qed.

Lemma formats_after_one G dev blk arg n r t :
  G [] dev blk -> calls_of (@format_call) t = [] -> formats_after G (Ev (IomanX_format dev blk arg n) r :: t).
Proof.
  intros HG Ht [|ev t1] dev' blk' arg' n' r' t2 Heq; cbn in Heq.
  - injection Heq as <- <- _ _ _ _. done.
  - injection Heq as _ ->. rewrite calls_of_app in Ht. by apply app_eq_nil in Ht as [_ ?].
Qed.

(** The answer to [mkpart] that a partition [name] is not there, and its creation. *)
Definition just_made (name : string) (t : trace) : Prop :=
  Ev (IomanX_open ("hdd0:" +:+ name) FIO_O_RDONLY 0) (-2) ∈ t /\
  exists size fs fd, 0 <= fd /\
    Ev (IomanX_open ("hdd0:" +:+ name +:+ ",,," +:+ size +:+ "," +:+ fs) (Z.lor FIO_O_RDWR FIO_O_CREAT) 0) fd ∈ t.

(** A file system made where [mkpart] has just made the partition. *)
Definition new_partition (argv : list string) (t : trace) (dev : string) (blk : option string) : Prop :=
  exists name, argv !! 1%nat = Some name /\ dev = "pfs:"%string /\ blk = Some ("hdd0:" +:+ name) /\ just_made name t.

Section Guards.
Context {E : Type} `{Handler E}.
Local Abbreviation P := (M context_t E).

Definition unmounted (s : context_t) : Prop := mount s = 0.
Definition any_context (s : context_t) : Prop := True.

Ltac avoids_go :=
  repeat first [avoids_step | exfalso; boolP; unfold unmounted in *; congruence]; try done.

Lemma create_main_avoids I (p : forall A, ioE A -> bool) i name fs fd size :
  (forall str fl, p _ (IomanX_open ("hdd0:" +:+ str) fl 0) = false) ->
  (forall st fmt args, p _ (Printf st fmt args) = false) ->
  avoids I p (create_main i name fs fd size : P (nat * Z * Z * Z)).
Proof.
  intros Hopen Hpr. revert fd. induction i as [|i IH]; intros fd; cbn [create_main]; [apply avoids_ret|].
  unfold in_buffer. repeat avoids_step; try apply IH; rewrite ?Hopen, ?Hpr; done.
Qed.

Lemma do_mkpart_avoids I (p : forall A, ioE A -> bool) argv :
  p = (@pfs_call) \/ p = (@mount_call) -> avoids I p (do_mkpart argv : P Z).
Proof.
  intros Hp. unfold do_mkpart, mkpart_create, mkpfs, arg, in_buffer, add_sub_turn.
  repeat first [apply create_main_avoids | avoids_step]; by destruct Hp as [-> | ->].
Qed.

Lemma create_main_made i name fs fd size s e :
  fd < 0 ->
  wp (create_main i name fs fd size : P (nat * Z * Z * Z)) (fun r _ _ t => calls_of (@format_call) t = [] /\
    forall x, r = Ret x -> 0 <= x.1.2 -> exists size, 0 <= x.1.1.2 /\
      Ev (IomanX_open ("hdd0:" +:+ name +:+ ",,," +:+ size +:+ "," +:+ fs) (Z.lor FIO_O_RDWR FIO_O_CREAT) 0) x.1.1.2 ∈ t) s e.
Proof.
  revert fd s e. induction i as [|i IH]; intros fd s e Hfd; cbn [create_main].
  { apply wp_ret. split; [done|]. intros x [= <-] Hx. cbn in Hx. lia. }
  unfold in_buffer. ledger_run; try done.
  - split; [done|]. intros x [= <-] Hx. cbn in *. eexists. split; [by boolP|by left].
  - boolP. eapply wp_mono; [by apply IH|]. cbv beta. intros r' s2 e2 t [Ht Ha]. split; [done|].
    intros x Hr Hx. destruct (Ha x Hr Hx) as (sz & Hfd' & Hin). exists sz. split; [done|]. by right.
  - by apply IH.
Qed.

Lemma mkpart_create_formats name fs size t0 s e :
  Ev (IomanX_open ("hdd0:" +:+ name) FIO_O_RDONLY 0) (-2) ∈ t0 ->
  wp (mkpart_create name fs (-2) size : P Z) (fun _ _ _ t =>
    formats_after (fun u dev blk => dev = "pfs:"%string /\ blk = Some ("hdd0:" +:+ name) /\ just_made name (t0 ++ u)) t) s e.
Proof.
  intros Hin. unfold mkpart_create. apply wp_bind. eapply wp_mono; [by apply create_main_made|]. cbv beta.
  intros [[[[i fd] result] mb]| | | |] s1 e1 t1 [Ht1 Hm1]; cbn [bind_post]; try by apply formats_after_none.
  specialize (Hm1 _ eq_refl). cbn in Hm1.
  set (quiet := (if 0 <=? fd then _ else _) : P unit). assert (Hq : avoids any_context (@format_call) quiet).
  { unfold quiet, add_sub_turn. avoids_go. }
  apply wp_bind. eapply wp_mono; [by apply Hq|]. intros [u| | | |] s2 e2 t2 (_ & Ht2 & _); cbn [bind_post];
    try (by apply formats_after_app, formats_after_none).
  apply wp_bind, wp_if; intros Hres; boolP; [apply wp_bind, wp_call; intros z e3 _; cbn [bind_post]|].
  all: unfold mkpfs, in_buffer; ledger_run; rewrite ?app_nil_r.
  all: repeat (apply formats_after_app; [done|]).
  all: first [by apply formats_after_none | apply (formats_after_app _ [_]); [done|]].
  all: apply formats_after_one; [|done]; split_and!; [done..|]; destruct (Hm1 Hres) as (sz & Hfd & Hmade).
  all: split; [by apply elem_of_app; left|]; exists sz, fs, fd; split; [done|].
  all: apply elem_of_app; right; apply elem_of_app; by left.
Qed.

Lemma do_mkpart_formats argv s e :
  wp (do_mkpart argv : P Z) (fun _ _ _ t => formats_after (new_partition argv) t) s e.
Proof.
  unfold do_mkpart, arg. apply wp_bind, wp_deref. destruct (argv !! 1%nat) as [name|] eqn:Hname;
    [|by apply formats_after_none].
  cbn [bind_post]. unfold in_buffer. ledger_run; try by apply formats_after_none.
  boolP. subst. eapply wp_mono; [by apply (mkpart_create_formats _ _ _ [Ev (IomanX_open ("hdd0:" +:+ name) FIO_O_RDONLY 0) (-2)]); left|].
  cbv beta. intros _ _ _ t Ht. apply (formats_after_app _ [_]); [done|].
  intros t1 dev blk arg n r t2 Heq. destruct (Ht _ _ _ _ _ _ _ Heq) as (-> & -> & Hmade). by exists name.
Qed.

Lemma lspart_avoids I (p : forall A, ioE A -> bool) fuel mode :
  p = (@pfs_call) \/ p = (@destructive_call) -> avoids I p (lspart fuel mode : P Z).
Proof.
  intros Hp. unfold lspart, lspart_turn, mod_time, or_fail, in_buffer.
  repeat avoids_step; by destruct Hp as [-> | ->].
Qed.

Lemma do_df_pfs fuel argv : avoids unmounted (@pfs_call) (do_df fuel argv : P Z).
Proof. unfold do_df, used_turn. avoids_go. Qed.

Lemma do_df_destructive fuel argv : avoids any_context (@destructive_call) (do_df fuel argv : P Z).
Proof. unfold do_df, used_turn. avoids_go. Qed.

Local Hint Resolve do_df_pfs do_df_destructive : avoids.

Lemma start_device_avoids fuel :
  avoids unmounted (@pfs_call) (start_device fuel : P Z) /\
  avoids any_context (@destructive_call) (start_device fuel : P Z).
Proof.
  unfold start_device, init_module, _init_hdlfs, hdlfs_start. split.
  - repeat avoids_step; done.
  - repeat avoids_step; done.
Qed.

Lemma do_device_avoids fuel argv :
  avoids unmounted (@pfs_call) (do_device fuel argv : P Z) /\
  avoids any_context (@destructive_call) (do_device fuel argv : P Z).
Proof.
  assert (Hzoom : forall I p dev, (forall t s, I s -> I (set_atad t s)) ->
    p = (@pfs_call) \/ p = (@destructive_call) ->
    avoids I p (zoom ctx_atad set_atad (set_atad_device_path dev) : P unit)).
  { intros I p dev HI Hp. apply avoids_zoom; [done|].
    unfold set_atad_device_path, set_atad_device_handle. destruct Hp as [-> | ->]; repeat avoids_step; done. }
  unfold do_device, arg. split.
  - repeat first [apply start_device_avoids | apply Hzoom; auto | avoids_step].
  - repeat first [apply start_device_avoids | apply Hzoom; auto | avoids_step].
Qed.

Definition silent_in {A} (p : forall A, ioE A -> bool) (m : P A) (s : context_t) : Prop :=
  forall e, wp m (fun _ _ _ t => calls_of p t = []) s e.

(** What each command may not do in a context that meets its requirements. *)
Record guarded (argv : list string) (cmd : command) : Prop := {
  gd_driver : forall s, req_ok (cmd_req cmd) s -> setup s = 0 -> cmd_name cmd <> "device" ->
    silent_in (@driver_call) (cmd_process cmd argv) s;
  gd_pfs : forall s, req_ok (cmd_req cmd) s -> mount s = 0 ->
    silent_in (@pfs_call) (cmd_process cmd argv) s;
  gd_mount : forall s, req_ok (cmd_req cmd) s -> mount s <> 0 ->
    silent_in (@mount_call) (cmd_process cmd argv) s;
  gd_format : forall s e, req_ok (cmd_req cmd) s -> mount s <> 0 ->
    wp (cmd_process cmd argv) (fun _ _ _ t => formats_after (fun u dev blk =>
      cmd_name cmd = "mkpart"%string /\ new_partition argv u dev blk) t) s e
}.

Lemma avoids_silent {A} (I : context_t -> Prop) (p : forall A, ioE A -> bool) (m : P A) s :
  avoids I p m -> I s -> silent_in p m s.
Proof. intros Hm Hs e. eapply wp_mono; [by apply Hm|]. by intros ???? (_ & ? & _). Qed.

(** A command that neither mounts nor formats. *)
Lemma avoids_destructive argv cmd s :
  avoids any_context (@destructive_call) (cmd_process cmd argv) ->
  silent_in (@mount_call) (cmd_process cmd argv) s /\
  forall e, wp (cmd_process cmd argv) (fun _ _ _ t => formats_after (fun u dev blk =>
    cmd_name cmd = "mkpart"%string /\ new_partition argv u dev blk) t) s e.
Proof.
  intros Hm. split; intros e; (eapply wp_mono; [by apply (Hm s e)|]); intros ? ? ? t (_ & Ht & _).
  - eapply calls_of_weaken; [|exact Ht]. unfold destructive_call. by intros A c ->.
  - apply formats_after_none. eapply calls_of_weaken; [|exact Ht]. unfold destructive_call.
    intros A c ->. apply orb_true_r.
Qed.

(** A command for a mounted partition. *)
Lemma guarded_mounted argv name n m :
  avoids any_context (@destructive_call) (m argv) ->
  guarded argv (mk_command name n (need_device + need_mount) m).
Proof.
  intros Hm. pose proof (fun s => avoids_destructive argv (mk_command name n (need_device + need_mount) m) s Hm) as Hd.
  split; cbn; intros s.
  - intros (H1 & _) Hs. by destruct (H1 eq_refl).
  - intros (_ & _ & H3 & _) Hs. by destruct (H3 eq_refl).
  - intros _ _. apply Hd.
  - intros e _ _. apply Hd.
Qed.

(** A command for a selected disk. *)
Lemma guarded_device argv name n m :
  avoids unmounted (@pfs_call) (m argv) -> avoids any_context (@destructive_call) (m argv) ->
  guarded argv (mk_command name n need_device m).
Proof.
  intros Hp Hm. pose proof (fun s => avoids_destructive argv (mk_command name n need_device m) s Hm) as Hd.
  split; cbn; intros s.
  - intros (H1 & _) Hs. by destruct (H1 eq_refl).
  - intros _ Hs. by eapply avoids_silent.
  - intros _ _. apply Hd.
  - intros e _ _. apply Hd.
Qed.

(** A command for a disk with nothing mounted. *)
Lemma guarded_unmounted argv name n m :
  (forall s, mount s = 0 -> silent_in (@pfs_call) (m argv) s) ->
  guarded argv (mk_command name n (need_device + need_no_mount) m).
Proof.
  intros Hm. split; cbn; intros s; [intros (H1 & _)|intros _|intros (_ & _ & _ & H4)|intros e (_ & _ & _ & H4)];
    intros Hs; try by destruct (Hs (H4 eq_refl)).
  - by destruct (H1 eq_refl).
  - by apply Hm.
Qed.

(** A command that makes no call to the drivers at all. *)
Lemma guarded_local argv name n m :
  avoids any_context (@driver_call) (m argv) -> guarded argv (mk_command name n no_req m).
Proof.
  intros Hm. assert (Hq : forall (p : forall A, ioE A -> bool), (forall A (c : ioE A), p A c = true -> driver_call c = true) ->
    forall s, silent_in p (m argv) s).
  { intros p Hp s e. eapply wp_mono; [by apply (Hm s e)|]. intros ? ? ? ? (_ & Ht & _).
    by eapply calls_of_weaken. }
  split; cbn; intros s.
  - intros _ _ _. by apply Hq.
  - intros _ _. apply Hq. by intros ? [].
  - intros _ _. apply Hq. by intros ? [].
  - intros e _ _. eapply wp_mono; [apply (Hq (@format_call)); by intros ? []|].
    intros ? ? ? t Ht. by apply formats_after_none.
Qed.

(** [mkpart]. *)
Lemma guarded_mkpart argv : guarded argv (mk_command "mkpart" 3 need_device do_mkpart).
Proof.
  split; cbn; intros s.
  - intros (H1 & _) Hs. by destruct (H1 eq_refl).
  - intros _ Hs. eapply avoids_silent; [apply (do_mkpart_avoids any_context); by left|done].
  - intros _ _. eapply avoids_silent; [apply (do_mkpart_avoids any_context); by right|done].
  - intros e _ _. eapply wp_mono; [apply do_mkpart_formats|]. intros ? ? ? t Ht t1 dev blk arg n r t2 Heq.
    split; [done|by eapply Ht].
Qed.

Lemma do_mount_silent argv s : silent_in (@pfs_call) (do_mount argv) s.
Proof. intros e. unfold do_mount, arg, in_buffer. wp_run. Qed.

Lemma do_initialize_silent fuel argv s : mount s = 0 -> silent_in (@pfs_call) (do_initialize fuel argv) s.
Proof.
  intros Hs. apply (avoids_silent unmounted); [|done].
  unfold do_initialize, initialize, mkpfs, in_buffer.
  repeat avoids_step; done.
Qed.

Lemma do_device_guarded fuel argv : guarded argv (mk_command "device" 1 need_no_device (do_device fuel)).
Proof.
  pose proof (fun s => avoids_destructive argv (mk_command "device" 1 need_no_device (do_device fuel)) s
    (proj2 (do_device_avoids fuel argv))) as Hd.
  split; cbn; intros s.
  - done.
  - intros _ Hs. eapply avoids_silent; [apply do_device_avoids|done].
  - intros _ _. apply Hd.
  - intros e _ _. apply Hd.
Qed.

Lemma list_dir_objects_avoids I fuel dh mode :
  avoids I (@destructive_call) (list_dir_objects fuel dh mode : P Z) /\
  avoids I (@pfs_call) (list_dir_objects fuel dh mode : P Z).
Proof.
  unfold list_dir_objects, list_turn, mod_time, in_buffer. split; repeat avoids_step; done.
Qed.

Lemma CMD_guarded fuel argv : Forall (guarded argv) (CMD fuel).
Proof.
  pose proof (fun I p mode Hp => lspart_avoids I p fuel mode Hp) as Hls.
  pose proof (list_dir_objects_avoids) as Hdir.
  unfold CMD. repeat apply List.Forall_cons; [..|apply List.Forall_nil];
    first [apply do_device_guarded
          | apply guarded_local; unfold do_lcd, do_help, arg; repeat avoids_step; done
          | apply guarded_unmounted; intros s Hs;
            (apply do_mount_silent || by apply do_initialize_silent)
          | apply guarded_mkpart
          | apply guarded_mounted
          | apply guarded_device ].
  all: lazymatch goal with
       | |- avoids _ _ (do_df _ _) => apply do_df_pfs || apply do_df_destructive
       | |- _ => idtac
       end.
  all: unfold do_ls, do_mkdir, do_rmdir, do_pwd, do_cd, do_get, get_turn, do_put, put_turn, do_rm,
         do_rmpart, do_rename, do_umount, here, complain, arg, in_buffer.
  all: repeat lazymatch goal with
       | |- avoids _ _ (mbind _ (lspart _ _)) => apply avoids_bind; [by apply Hls; auto|intros ?]
       | |- avoids _ _ (mbind _ (list_dir_objects _ _ _)) => apply avoids_bind; [apply Hdir|intros ?]
       | |- _ => first [avoids_step | exfalso; boolP; unfold unmounted in *; congruence]
       end; try done.
Qed.
End Guards.



Section Theorems.
Context {E : Type} `{Handler E}.

(** C8: a session uses only what it holds and leaves nothing behind.  Whatever lines are
    typed and whatever the driver and the host answer, every read, write and close of the
    session is of a file, directory or device it has opened and not yet closed, and every
    unmount is of the partition it has mounted; when [shell] returns all of them are
    closed, and the partition is unmounted unless the last attempt, which is made at the
    end of the session, was refused. *)
Theorem shell_releases fuel lines s e :
  at_handle (ctx_atad s) = -1 ->
  wp (shell (E := E) fuel lines) (fun r s' _ t => exists L,
    ledger [] t = Some L /\ forall v, r = Ret v -> L = [] \/ L = [Stuck "pfs0:"]) s e.
Proof.
  intros Hat. unfold shell. apply wp_bind, wp_modify. cbn. set (s0 := mk_context 0 "" 0 "/" _ _).
  assert (Hs0 : fresh s0 /\ holds s0 [])
    by (split; [done|exists []; unfold device_held; cbn; by rewrite Hat]).
  destruct Hs0 as [Hs0 HL0]. apply wp_bind, wp_call. intros u e1 _. cbn. apply wp_bind.
  eapply wp_mono; [by apply (shell_loop_accounts _ _ _ _ [])|]. cbv beta.
  intros [v| | | |] s1 e2 t1 (L1 & Ht1 & Ha1); cbn [bind_post]; try by (exists L1).
  destruct (Ha1 v eq_refl) as [_ HL1]. apply wp_bind, wp_get. cbn. apply wp_bind.
  eapply wp_mono; [by apply (end_umount _ _ L1)|]. cbv beta.
  intros ? s2 e3 t2 (L2 & Ht2 & (u2 & ->) & HL2). cbn. apply wp_bind, wp_zoom.
  assert (exists mnt, (mnt = [] \/ mnt = [Stuck "pfs0:"]) /\ L2 = mnt ++ device_held s2) as (mnt & Hmnt & ->)
    by (destruct HL2 as [-> | ->]; [exists []|exists [Stuck "pfs0:"]]; by auto).
  eapply wp_mono; [by apply (atad_close_spec _ _ mnt)|]. cbv beta. intros ? a e4 t3 [(u3 & ->) Ht3]. cbn.
  apply wp_ret. exists mnt. split; [|by intros]. rewrite !app_nil_r.
  by rewrite (ledger_app_some _ _ _ _ Ht1), (ledger_app_some _ _ _ _ Ht2).
Qed.

(** C10: the table of commands guards the disk: until a device is selected no command
    but [device] reaches a driver; while no partition is mounted no call is made on the
    mount point; and while one is mounted nothing is mounted over it and nothing is
    formatted, the disk and the mounted partition included, but for one thing: [mkpart]
    puts a file system on the partition of its argument, after the driver has said that
    there was none of that name and has made it. *)
Theorem exec_guarded fuel argv s e :
  wp (exec (E := E) fuel argv) (fun _ _ _ t =>
    (setup s = 0 -> default "" (argv !! 0%nat) <> "device" -> calls_of (@driver_call) t = []) /\
    (mount s = 0 -> calls_of (@pfs_call) t = []) /\
    (mount s <> 0 -> calls_of (@mount_call) t = [] /\
       formats_after (fun u dev blk => argv !! 0%nat = Some "mkpart" /\ new_partition argv u dev blk) t)) s e.
Proof.
  unfold exec. destruct argv as [|name args]; [apply wp_ret; split_and!; [done..|]; by split; [|apply formats_after_none]|].
  destruct (List.find _ (CMD fuel)) as [cmd|] eqn:Hf.
  2:{ apply wp_bind, wp_call. intros u e1 _. apply wp_ret. split_and!; [done..|]. by split; [|apply formats_after_none]. }
  apply find_CMD in Hf as [Hin Hmatch].
  assert (Hname : name = cmd_name cmd).
  { apply andb_true_iff in Hmatch as [Hn _]. by apply String.eqb_eq in Hn. }
  pose proof (proj1 (Forall_forall _ _) (CMD_guarded fuel (name :: args)) _ Hin) as [H1 H2 H3 H4].
  apply wp_bind. eapply wp_mono; [apply check_requirements_spec|].
  intros ? s' e' t (-> & b & -> & Htrue & Hfalse). cbn. destruct b.
  - destruct (Htrue eq_refl) as [Hok ->]. cbn. subst name.
    specialize (H1 s Hok). specialize (H2 s Hok). specialize (H3 s Hok). specialize (fun e => H4 s e Hok).
    unfold silent_in, wp in *. split_and!; intros; [by apply H1 | by apply H2 |]. split; [by apply H3|].
    intros t1 dev blk arg n r t2 Heq. destruct (H4 e' H0 _ _ _ _ _ _ _ Heq) as [<- Hnew]. done.
  - destruct (Hfalse eq_refl) as (msg & r & ->). apply wp_ret. split_and!; [done..|].
    by split; [|apply formats_after_none].
Qed.
End Theorems.

Lemma shell_releases_witness :
  wp (shell (E := list Z) 3 3) (fun r _ _ t => exists L,
    ledger [] t = Some L /\ forall v, r = Ret v -> L = [] \/ L = [Stuck "pfs0:"])
     (mk_context 0 "" 0 "/" 0 atad_initial) [].
Proof. apply (shell_releases 3 3). reflexivity. Defined.
