(* ===== verification/ShellCommands.v ===== *)
(** * The shell's commands: what they do *)

From S2P Require Import Prelude IoWorld Trace ParseLine Modes Shm Atad Hl HlProps Shell.

(** ** Strings *)

Definition no_slash (s : string) : Prop := forall k, String.get k s <> Some "/"%char.

Lemma no_slash_cons c s : no_slash (String c s) -> c <> "/"%char /\ no_slash s.
Proof. intros Hs. split; [intros ->; by apply (Hs 0%nat)|]. intros k. apply (Hs (S k)). Qed.

Lemma slash_before_skip k path :
  String.get k path <> Some "/"%char ->
  slash_before k path = match k with O => None | S k' => slash_before k' path end.
Proof.
  intros Hk. destruct k; cbn [slash_before]; destruct (String.get _ path) as [c|]; try done.
  all: destruct (ascii_dec c "/"%char) as [->|Hc]; [done|].
  all: by destruct c as [[] [] [] [] [] [] [] []].
Qed.

(** The last slash is before the last component. *)
Lemma strrchr_slash_last (a c : string) :
  no_slash c -> strrchr_slash (a +:+ "/" +:+ c) = Some (String.length a).
Proof.
  intros Hc. unfold strrchr_slash. rewrite !length_append.
  assert (Hk : forall k, slash_before (String.length a + k) (a +:+ "/" +:+ c) = Some (String.length a)).
  { induction k as [|k IH].
    - destruct (String.length a + 0)%nat eqn:E; cbn [slash_before]; rewrite <- E, get_sapp_r; cbn;
        f_equal; lia.
    - rewrite slash_before_skip.
      + by rewrite Nat.add_succ_r.
      + rewrite get_sapp_r. cbn. apply Hc. }
  apply Hk.
Qed.

(** ** The current directory *)

(** A directory is the list of the names on the way to it. *)
Fixpoint spell (l : list string) : string :=
  match l with
  | [] => ""
  | c :: l' => "/" +:+ c +:+ spell l'
  end.

(** How [ctx->path] spells it: "/" when root, else not ended by a slash. *)
Definition path_string (l : list string) : string := match l with [] => "/" | _ => spell l end.

Lemma spell_app l1 l2 : spell (l1 ++ l2) = spell l1 +:+ spell l2.
Proof.
  induction l1 as [|c l1 IH]; [done|]. cbn [spell app]. by rewrite IH, !sapp_assoc.
Qed.

Definition name_ok (c : string) : Prop := c <> "" /\ no_slash c.

(** The arguments of [cd], and what they mean. *)
Inductive cd_arg :=
  | CdRoot
  | CdParent (slash : bool)
  | CdAbsolute (l : list string)
  | CdRelative (l : list string).

Definition cd_string (a : cd_arg) : string :=
  match a with
  | CdRoot => "/"
  | CdParent slash => if slash then "../" else ".."
  | CdAbsolute l => path_string l
  | CdRelative [] => ""
  | CdRelative (c :: l) => c +:+ spell l
  end.

Definition cd_target (old : list string) (a : cd_arg) : list string :=
  match a with
  | CdRoot => []
  | CdParent _ => removelast old
  | CdAbsolute l => l
  | CdRelative l => old ++ l
  end.

Definition cd_arg_ok (a : cd_arg) : Prop :=
  match a with
  | CdAbsolute l => Forall name_ok l
  | CdRelative l => Forall name_ok l /\ l <> [] /\ l <> [".."]
  | _ => True
  end.

Lemma no_slash_head c s : no_slash (String c s) -> c <> "/"%char.
Proof. intros Hs ->. by apply (Hs 0%nat). Qed.

(** A relative argument is none of the special ones. *)
Lemma relative_string c l :
  name_ok c -> Forall name_ok l -> c :: l <> [".."] ->
  String.eqb (c +:+ spell l) "/" = false /\
  String.eqb (c +:+ spell l) ".." || String.eqb (c +:+ spell l) "../" = false /\
  String.prefix "/" (c +:+ spell l) = false.
Proof.
  intros [Hne Hc] Hl Hdd. destruct c as [|x c]; [done|]. pose proof (no_slash_head _ _ Hc) as Hx.
  rewrite sapp_cons. split_and!.
  - apply String.eqb_neq. intros [= -> _]. done.
  - apply orb_false_iff; split; apply String.eqb_neq.
    + intros [= -> E]. destruct c as [|y c]; [by destruct l|]. rewrite sapp_cons in E.
      injection E as -> E. destruct c; [|done]. destruct l as [|d l]; [done|]. done.
    + intros [= -> E]. destruct c as [|y c]; [by destruct l|]. rewrite sapp_cons in E.
      injection E as -> E. destruct c as [|z c].
      * destruct l as [|d l]; [done|]. cbn [spell] in E.
        change ("" +:+ "/" +:+ d +:+ spell l) with (String "/" (d +:+ spell l)) in E.
        injection E as E. apply (f_equal String.length) in E. rewrite length_append in E.
        apply Forall_cons in Hl as [[Hd _] _]. destruct d; [done|]. simpl in E. lia.
      * rewrite sapp_cons in E. injection E as -> _.
        apply no_slash_cons in Hc as [_ Hc]. apply no_slash_cons in Hc as [_ Hc].
        by apply no_slash_head in Hc.
  - cbn [String.prefix]. by destruct (ascii_dec "/" x) as [<-|].
Qed.

Lemma path_string_snoc l c : path_string (l ++ [c]) = spell l +:+ "/" +:+ c.
Proof.
  transitivity (spell (l ++ [c])); [by destruct l|].
  rewrite spell_app. cbn [spell]. by rewrite sapp_nil_r.
Qed.

Lemma path_string_not_special l :
  Forall name_ok l -> l <> [] ->
  String.eqb (path_string l) ".." || String.eqb (path_string l) "../" = false /\
  String.prefix "/" (path_string l) = true /\ String.eqb (path_string l) "/" = false.
Proof.
  destruct l as [|c l]; [done|]. intros [[Hc _] _]%Forall_cons _. cbn [path_string spell].
  change ("/" +:+ c +:+ spell l) with (String "/" (c +:+ spell l)). split_and!; [done| |].
  - cbn. by destruct (c +:+ spell l).
  - apply String.eqb_neq. intros [= E]. apply (f_equal String.length) in E.
    rewrite length_append in E. destruct c; [done|]. simpl in E. lia.
Qed.

(** [cd_path] computes the target. *)
Lemma cd_path_spec old a :
  Forall name_ok old -> cd_arg_ok a ->
  cd_path (path_string old) (cd_string a) = Some (path_string (cd_target old a)).
Proof.
  intros Hold Ha. unfold cd_path. destruct a as [|slash|l|l]; cbn [cd_string cd_target].
  - done.
  - assert (Hsp : String.eqb (if slash then "../" else "..") "/" = false /\
                  (String.eqb (if slash then "../" else "..") ".." ||
                   String.eqb (if slash then "../" else "..") "../") = true) by by destruct slash.
    destruct Hsp as [-> ->]. destruct old as [|c l _] using rev_ind; [done|].
    apply Forall_app in Hold as [_ [[_ Hc] _]%Forall_cons].
    rewrite path_string_snoc, strrchr_slash_last, removelast_last by done.
    destruct l as [|d l]; cbn [spell path_string]; [by destruct c|].
    change ("/" +:+ d +:+ spell l) with (String "/" (d +:+ spell l)). cbn [String.length].
    f_equal. change (S (String.length (d +:+ spell l))) with (String.length (String "/" (d +:+ spell l))).
    apply substring_sapp.
  - destruct (decide (l = [])) as [->|Hl]; [done|].
    destruct (path_string_not_special l Ha Hl) as (H1 & H2 & H3). by rewrite H3, H1, H2.
  - destruct Ha as (Hok & Hne & Hdd). destruct l as [|c l]; [done|].
    apply Forall_cons in Hok as [Hc Hl].
    destruct (relative_string c l Hc Hl Hdd) as (-> & -> & ->). f_equal.
    destruct old as [|d old]; cbn [path_string app].
    + done.
    + assert (Hlen : (1 <? String.length (spell (d :: old)))%nat = true).
      { apply Nat.ltb_lt. cbn [spell]. rewrite !length_append.
        apply Forall_cons in Hold as [[Hd _] _]. destruct d; [done|]. simpl. lia. }
      rewrite Hlen. change (d :: old ++ c :: l) with ((d :: old) ++ c :: l).
      rewrite spell_app. cbn [spell]. by rewrite !sapp_assoc.
Qed.

(** ** The sizes of partitions *)

Definition size_table : list (string * Z) := zip sizesString sizesMB.

(** The size, in MB, of the entry of the table that [f] spells as [x]. *)
Definition table_mb {A} `{EqDecision A} (f : string -> A) (x : A) : Z :=
  match List.find (fun e => bool_decide (x = f e.1)) size_table with Some e => e.2 | None => 0 end.

Definition main_string (name fs str : string) : string := "hdd0:" +:+ name +:+ ",,," +:+ str +:+ "," +:+ fs.
Definition sub_bytes (str : string) : list Z := bytes_of_string str ++ [0].

Definition main_flags : Z := Z.lor FIO_O_RDWR FIO_O_CREAT.

(** The MB the driver has set aside for the partition [name] of type [fs]. *)
Definition made (name fs : string) : weight := fun A c =>
  match c in ioE A return A -> Z with
  | IomanX_open str fl _ => fun r =>
      if (fl =? main_flags) && (0 <=? r) then table_mb (main_string name fs) str else 0
  | IomanX_ioctl2 _ cmd (ArgBytes b) _ _ => fun r =>
      if (cmd =? HIOCADDSUB) && (0 <=? r.1) then table_mb sub_bytes b else 0
  | _ => fun _ => 0
  end.

(** The driver refused to make a partition. *)
Definition refused (ev : event) : bool :=
  match ev with
  | @Ev A c r =>
      match c in ioE A return A -> bool with
      | IomanX_open _ fl _ => fun r => (fl =? main_flags) && (r <? 0)
      | IomanX_ioctl2 _ cmd _ _ _ => fun r => (cmd =? HIOCADDSUB) && (r.1 <? 0)
      | _ => fun _ => false
      end r
  end.

Definition none_refused (t : trace) : Prop := Forall (fun ev => refused ev = false) t.

Lemma main_string_inj name fs i j a b :
  sizesString !! i = Some a -> sizesString !! j = Some b ->
  main_string name fs a = main_string name fs b -> i = j.
Proof.
  intros Ha Hb E. unfold main_string in E. do 3 apply (inj (String.append _)) in E.
  do 13 (destruct i as [|i]; [injection Ha as <-;
    do 13 (destruct j as [|j]; [injection Hb as <-; first [reflexivity | discriminate E]|]); done|]). done.
Qed.

Lemma table_mb_spec {A} `{EqDecision A} (f : string -> A) i str mb :
  (forall i j a b, sizesString !! i = Some a -> sizesString !! j = Some b -> f a = f b -> i = j) ->
  sizesString !! i = Some str -> sizesMB !! i = Some mb -> table_mb f (f str) = mb.
Proof.
  intros Hinj Hs Hm. unfold table_mb.
  assert (Hl : size_table !! i = Some (str, mb)) by (apply lookup_zip_with_Some; eauto 6).
  destruct (List.find _ size_table) as [[str' mb']|] eqn:Hf.
  - apply List.find_some in Hf as [Hin Hb]. apply bool_decide_eq_true in Hb. cbn in Hb |- *.
    apply list_elem_of_In, list_elem_of_lookup in Hin as [j Hj].
    pose proof Hj as Hj'. apply lookup_zip_with_Some in Hj' as (? & ? & [= <- <-] & Hj1 & Hj2).
    assert (i = j) by (eapply Hinj; eauto). subst. congruence.
  - apply list_elem_of_lookup_2, list_elem_of_In in Hl.
    apply (List.find_none _ _ Hf) in Hl. by rewrite bool_decide_eq_true_2 in Hl.
Qed.

Lemma sub_bytes_inj i j a b :
  sizesString !! i = Some a -> sizesString !! j = Some b -> sub_bytes a = sub_bytes b -> i = j.
Proof.
  intros Ha Hb E. unfold sub_bytes in E. apply (inj (fun l => l ++ [0])) in E.
  apply (f_equal string_of_bytes) in E. rewrite !string_of_bytes_of_string in E. subst b.
  eapply NoDup_lookup; [|exact Ha|exact Hb]. by apply (bool_decide_unpack _).
Qed.

Section Sizes.
Context {E : Type} `{Handler E}.
Local Abbreviation P := (M context_t E).

Lemma size_lookup i :
  (i < 13)%nat -> exists str mb, sizesString !! i = Some str /\ sizesMB !! i = Some mb /\
    8 <= mb <= 32768 /\ (String.length str <= 4)%nat.
Proof.
  intros Hi. do 13 (destruct i as [|i]; [do 2 eexists; split_and!; [done|done|lia|lia|simpl; lia]|]). lia.
Qed.

(** The main partition takes its size from what was asked; it is there unless the
    driver refused one or none was small enough. *)
Lemma create_main_sizes name fs i : forall fd size s e,
  (String.length name <= 31)%nat -> (String.length fs <= 8)%nat ->
  0 <= size < 2 ^ 32 -> (i <= 13)%nat ->
  wp (create_main i name fs fd size : P (nat * Z * Z * Z)) (fun r s' _ t =>
    exists i' fd' result size', r = Ret (i', fd', result, size') /\
      0 <= size' <= size /\ tally (made name fs) t = size - size' /\ (i' <= 12)%nat /\
      (none_refused t -> (0 <= fd' /\ 0 <= result) \/
         size' = size /\ forall j mb, (j < i)%nat -> sizesMB !! j = Some mb -> size < mb)) s e.
Proof.
  induction i as [|i IH]; intros fd size s e Hn Hfs Hsz Hi.
  { apply wp_ret. do 4 eexists. split; [done|]. split_and!; try lia; [cbn; lia|].
    intros _. right. split; [done|]. lia. }
  destruct (size_lookup i ltac:(lia)) as (str & mb & Hstr & Hmb & Hr & Hlen).
  cbn [create_main]. rewrite Hmb. apply wp_bind, wp_ret. cbn [bind_post].
  apply wp_if; intros Hle; boolP.
  - rewrite Hstr. apply wp_bind, wp_ret. cbn [bind_post]. unfold in_buffer.
    apply wp_bind, wp_bind, wp_assert.
    2: { intros Hf%Nat.ltb_ge. rewrite !length_append in Hf. simpl in Hf. lia. }
    intros _. apply wp_ret, wp_bind, wp_call.
    intros fd1 e1 _. cbn [bind_post]. change (_ +:+ name +:+ _) with (main_string name fs str).
    apply wp_if; intros Hfd; boolP.
    + apply wp_bind, wp_call. intros u e2 _. apply wp_ret. do 4 eexists. split; [done|].
      rewrite uwrap_small by (change (2 ^ 32) with 4294967296 in *; lia).
      split_and!; try lia. cbn. rewrite (proj2 (Z.leb_le 0 fd1)) by done.
      change (Z.lor FIO_O_RDWR FIO_O_CREAT =? main_flags) with true. cbn [andb].
      rewrite (table_mb_spec _ i str mb); [lia| |done..]. by intros; eapply main_string_inj.
    + eapply wp_mono; [by apply IH; lia|]. cbv beta.
      intros r s2 e2 t (i' & fd' & result & size' & -> & Hb1 & Hb2 & Hb3 & Hb4).
      do 4 eexists. split; [done|]. split_and!; try lia.
      * cbn. rewrite (proj2 (Z.leb_gt 0 fd1)), andb_false_r by done. simpl. lia.
      * intros [Href _]%Forall_cons. cbn in Href. by rewrite (proj2 (Z.ltb_lt fd1 0)) in Href.
  - eapply wp_mono; [by apply IH; lia|]. cbv beta.
    intros r s2 e2 t (i' & fd' & result & size' & -> & Hb1 & Hb2 & Hb3 & Hb4).
    do 4 eexists. split; [done|]. split_and!; try lia; try done.
    intros Hnone. destruct (Hb4 Hnone) as [?|[-> Hj]]; [by left|].
    right. split; [done|]. intros j mb' Hlt Hj'. destruct (decide (j = i)) as [->|]; [|apply (Hj j); [lia|done]].
    congruence.
Qed.

(** The sub-partitions take theirs from what is left, and the loop ends. *)
Lemma add_sub_sizes name fs partfd fuel : forall j size s e,
  0 <= size < 2 ^ 32 -> -1 <= j <= 12 -> (Z.to_nat (size / 8) + Z.to_nat (j + 1) < fuel)%nat ->
  wp (loop fuel (add_sub_turn partfd) (j, size) : P Z) (fun r s' _ t =>
    exists rest, r = Ret rest /\
      0 <= rest <= size /\ tally (made name fs) t = size - rest /\
      (none_refused t -> (j = -1 -> size < 8) -> rest < 8)) s e.
Proof.
  induction fuel as [|fuel IH]; intros j size s e Hsz Hj Hfuel; [lia|].
  apply wp_loop_S. unfold add_sub_turn at 1. apply wp_if; intros Hc.
  2: { apply wp_ret, wp_ret. eexists. split; [done|]. apply andb_false_iff in Hc.
       split_and!; cbn; lia. }
  boolP. destruct (size_lookup (Z.to_nat j) ltac:(lia)) as (str & mb & Hstr & Hmb & Hr & _).
  rewrite Hmb. apply wp_bind, wp_ret. cbn [bind_post]. apply wp_if; intros Hle; boolP.
  - rewrite Hstr. apply wp_bind, wp_ret. cbn [bind_post]. apply wp_bind, wp_call.
    intros [r b] e1 _. cbn [bind_post]. apply wp_if; intros Hacc; boolP.
    + apply wp_bind, wp_call. intros u e2 _. apply wp_ret. cbn [bind_post].
      rewrite uwrap_small by (change (2 ^ 32) with 4294967296 in *; lia).
      eapply wp_mono; [apply (IH j (size - mb)); [lia|lia|]|].
      { assert (Z.to_nat ((size - mb) / 8) < Z.to_nat (size / 8))%nat; [|lia].
        apply Z2Nat.inj_lt; dlia. }
      cbv beta. intros res s2 e3 t (rest & -> & Hb1 & Hb2 & Hb3). eexists. split; [done|].
      split_and!; try lia.
      * cbn. rewrite (proj2 (Z.leb_le 0 r)) by done.
        change (bytes_of_string str ++ [0]) with (sub_bytes str).
        rewrite (table_mb_spec _ (Z.to_nat j) str mb) by (done || apply sub_bytes_inj). cbn. lia.
      * intros [_ Hn]%Forall_cons _. apply Forall_cons in Hn as [_ Hn]. apply Hb3; [done|lia].
    + apply wp_ret. cbn [bind_post].
      eapply wp_mono; [apply (IH (j - 1) size); lia|]. cbv beta.
      intros res s2 e3 t (rest & -> & Hb1 & Hb2 & Hb3). eexists. split; [done|].
      split_and!; try lia.
      * cbn. rewrite (proj2 (Z.leb_gt 0 r)) by done. simpl. lia.
      * intros [Href _]%Forall_cons. cbn in Href. by rewrite (proj2 (Z.ltb_lt r 0)) in Href.
  - apply wp_ret. cbn [bind_post].
    eapply wp_mono; [apply (IH (j - 1) size); lia|]. cbv beta.
    intros res s2 e3 t (rest & -> & Hb1 & Hb2 & Hb3). eexists. split; [done|].
    split_and!; try lia; try done. intros Hn _. apply Hb3; [done|]. intros Hj0.
    assert (j = 0) as -> by lia. injection Hmb as <-. lia.
Qed.

Lemma mkpfs_returns mp s e :
  (String.length mp < 251)%nat -> wp (mkpfs mp : P Z) (fun r _ _ _ => exists v, r = Ret v) s e.
Proof.
  intros Hmp. unfold mkpfs, in_buffer. apply wp_bind, wp_bind, wp_assert.
  - intros _. apply wp_ret, wp_call. intros v e1 _. by eexists.
  - intros Hf%Nat.ltb_ge. rewrite length_append in Hf. simpl in Hf. lia.
Qed.

(** What follows the partitions: the descriptor is closed, the file system made. *)
Lemma mkpart_end name fs fd result s e :
  (String.length name <= 31)%nat ->
  wp (result ← (if 0 <=? result then
                  call (IomanX_close fd);; if String.prefix "PFS" fs then mkpfs name else mret 0
                else mret result);
      when (result <? 0) (eprintf (ln "(!) %s: %s.") [PStr name; PStrerror (- result)]);;
      mret result : P Z)
     (fun r _ _ t => exists v, r = Ret v /\ tally (made name fs) t = 0) s e.
Proof.
  intros Hn.
  set (m := mbind _ _ : P Z). assert (Ht : tallies (made name fs) m (fun _ => 0)).
  { unfold m, mkpfs, in_buffer. tally_go. }
  assert (Hr : wp m (fun r _ _ _ => exists v, r = Ret v) s e).
  { assert (Hend : forall v s' e', wp (when (v <? 0) (eprintf (ln "(!) %s: %s.")
        [PStr name; PStrerror (- v)]);; mret v : P Z) (fun r _ _ _ => exists v, r = Ret v) s' e')
      by (intros; wp_go; by eexists).
    unfold m. apply wp_bind, wp_if; intros _; [|apply wp_ret, Hend].
    apply wp_bind, wp_call. intros z e1 _. cbn [bind_post]. apply wp_if; intros _; [|apply wp_ret, Hend].
    eapply wp_mono; [apply mkpfs_returns; lia|]. intros ? s2 e2 t2 [v ->]. apply Hend. }
  specialize (Ht s e). unfold wp in *. destruct Hr as [v Hv]. exists v. split; [done|by apply (Ht v)].
Qed.

Lemma mkpart_create_sizes name fs fd n s e :
  (String.length name <= 31)%nat -> (String.length fs <= 8)%nat -> 0 <= n < 2 ^ 32 ->
  wp (mkpart_create name fs fd n : P Z) (fun r _ _ t => exists v, r = Ret v /\
    0 <= tally (made name fs) t <= n /\ (none_refused t -> n - tally (made name fs) t < 8)) s e.
Proof.
  intros Hn Hfs Hsz. unfold mkpart_create. apply wp_bind.
  eapply wp_mono; [apply create_main_sizes; done || lia|].
  intros ? s1 e1 t1 (i & fd1 & result & size & -> & Hb & Ht1 & Hi & Hmain). cbn [bind_post].
  assert (Hend : forall t2 s2 e2 rest, 0 <= rest <= size -> tally (made name fs) t2 = size - rest ->
    (none_refused t1 -> none_refused t2 -> rest < 8) ->
    wp (result ← (if 0 <=? result then
                  call (IomanX_close fd1);; if String.prefix "PFS" fs then mkpfs name else mret 0
                else mret result);
        when (result <? 0) (eprintf (ln "(!) %s: %s.") [PStr name; PStrerror (- result)]);;
        mret result : P Z) (fun r _ _ t => exists v, r = Ret v /\
         0 <= tally (made name fs) (t1 ++ t2 ++ t) <= n /\
         (none_refused (t1 ++ t2 ++ t) -> n - tally (made name fs) (t1 ++ t2 ++ t) < 8)) s2 e2).
  { intros t2 s2 e2 rest Hrest Ht2 Hnone. eapply wp_mono; [by apply mkpart_end|].
    intros ? s3 e3 t3 (v & -> & Ht3). exists v. rewrite !tally_app, Ht1, Ht2, Ht3.
    split_and!; [done|lia|lia|]. intros [H1 [H2 _]%Forall_app]%Forall_app.
    specialize (Hnone H1 H2). lia. }
  apply wp_bind, wp_if; intros Hfd; boolP.
  - apply wp_bind. eapply wp_mono; [apply (add_sub_sizes name fs)|].
    + lia.
    + lia.
    + unfold add_fuel. change (length sizesMB) with 13%nat. lia.
    + intros ? s2 e2 t2 (rest & -> & Hr2 & Ht2 & Hn2). apply wp_ret. cbn [bind_post].
      rewrite app_nil_r. apply (Hend t2 s2 e2 rest); [done|done|]. intros _ H2. apply Hn2; [done|lia].
  - apply wp_ret. cbn [bind_post]. apply (Hend [] s1 e1 size); [lia|cbn; lia|].
    intros H1 _. destruct (Hmain H1) as [[? _]|[-> Hj]]; [lia|].
    specialize (Hj 0%nat 8 ltac:(lia) eq_refl). lia.
Qed.

Lemma parse_size_range x n : parse_size x = Some n -> 0 <= n < 2 ^ 32.
Proof.
  unfold parse_size. destruct (last_char x) as [c|]; [|done].
  destruct (Ascii.eqb c "M"%char); [intros [= <-]; apply uwrap_range; lia|].
  destruct (Ascii.eqb c "G"%char); [intros [= <-]; apply uwrap_range; lia|done].
Qed.
End Sizes.

Section Commands.
Context {E : Type} `{Handler E}.
Local Abbreviation P := (M context_t E).

(** C15: the current directory is the list of names the user walked: [cd] asks the
    driver for the directory its argument names, root, parent, absolute or relative,
    and moves there where the driver agrees; where it refuses, the shell stays where
    it was and the error is the result. *)
Theorem cd_refines s e old a :
  path s = path_string old -> Forall name_ok old -> cd_arg_ok a ->
  (5 + String.length (path_string (cd_target old a)) < 256)%nat ->
  wp (do_cd ["cd"; cd_string a] : P Z) (fun r s' _ t => exists result msgs,
    r = Ret result /\
    t = Ev (IomanX_chdir ("pfs0:" +:+ path_string (cd_target old a))) result :: msgs /\
    calls_of (@driver_call) msgs = [] /\
    s' = set_path (path_string (if result <? 0 then old else cd_target old a)) s) s e.
Proof.
  intros Hs Hold Ha Hlen. unfold do_cd, arg, in_buffer. apply wp_bind, wp_get. cbn [bind_post].
  rewrite Hs. apply wp_bind, wp_deref. cbn [lookup list_lookup bind_post].
  apply wp_bind. rewrite cd_path_spec by done. apply wp_deref. cbn [bind_post].
  set (new := path_string (cd_target old a)) in *.
  assert (Hl1 : (String.length new <? 256)%nat = true) by (apply Nat.ltb_lt; lia).
  assert (Hl2 : (String.length ("pfs0:" +:+ new) <? 256)%nat = true)
    by (apply Nat.ltb_lt; rewrite length_append; simpl; lia).
  rewrite Hl1. apply wp_bind, wp_bind, wp_ret, wp_ret, wp_bind, wp_modify. cbn [bind_post].
  rewrite Hl2. apply wp_bind, wp_bind, wp_ret, wp_ret, wp_bind, wp_call. intros result e1 _.
  cbn [bind_post]. apply wp_bind, wp_if; intros Hr.
  - apply wp_bind, wp_call. intros u e2 _. apply wp_modify, wp_ret. do 2 eexists. split; [done|].
    split; [reflexivity|]. by rewrite Hr.
  - apply wp_ret, wp_ret. do 2 eexists. split; [done|]. split; [reflexivity|]. by rewrite Hr.
Qed.

(** C9: [mkpart] gives what was asked for: for a partition name that is new, the sizes
    of the main partition and the sub-partitions the driver makes never add up to
    more than the request, and when the driver refuses none, to less than 8 MB below
    it; the command always ends.  A name in use is refused and nothing is made. *)
Theorem mkpart_sizes name size fs n s e :
  (String.length name <= 31)%nat -> parse_size size = Some n -> existsb (String.eqb fs) fsType = true ->
  wp (do_mkpart ["mkpart"; name; size; fs] : P Z) (fun r _ _ t => exists v fd t', r = Ret v /\
    t = Ev (IomanX_open ("hdd0:" +:+ name) FIO_O_RDONLY 0) fd :: t' /\
    (fd <> -2 -> v = -1 /\ tally (made name fs) t = 0) /\
    (fd = -2 -> 0 <= tally (made name fs) t <= n /\
                (none_refused t -> n - tally (made name fs) t < 8))) s e.
Proof.
  intros Hname Hsize Hfs. pose proof (parse_size_range _ _ Hsize) as Hn.
  assert (Hlen : (String.length fs <= 8)%nat).
  { apply existsb_exists in Hfs as (x & Hx & <-%String.eqb_eq).
    unfold fsType in Hx. simpl in Hx. intuition subst; simpl; lia. }
  unfold do_mkpart, arg, in_buffer. apply wp_bind, wp_ret. cbn [bind_post].
  apply wp_bind, wp_bind, wp_assert.
  2: { intros Hf%Nat.ltb_ge. rewrite length_append in Hf. simpl in Hf. lia. }
  intros _. apply wp_ret, wp_bind, wp_call. intros fd e1 _. cbn [bind_post].
  assert (Hopen : forall t, tally (made name fs)
            (Ev (IomanX_open ("hdd0:" +:+ name) FIO_O_RDONLY 0) fd :: t) = tally (made name fs) t) by done.
  apply wp_if; intros Hfd; boolP.
  - apply wp_bind, wp_call. intros z e2 _. apply wp_bind, wp_call. intros u e3 _. apply wp_ret.
    do 3 eexists. split; [done|]. split; [reflexivity|]. split; [done|]. by intros ?.
  - apply wp_bind, wp_ret. cbn [bind_post]. apply wp_bind, wp_assert.
    2: { intros Hf%Nat.ltb_ge. destruct size; [done|]. simpl in Hf. lia. }
    intros _. cbn [bind_post]. rewrite Hsize. apply wp_bind, wp_ret. cbn [bind_post].
    rewrite Hfs. cbn [negb]. apply wp_bind, wp_bind, wp_assert.
    2: { intros Hf%Nat.ltb_ge. lia. }
    intros _. apply wp_ret. cbn [bind_post].
    eapply wp_mono; [by apply mkpart_create_sizes|]. intros ? s2 e2 t2 (v & -> & Hb & Hnone).
    do 3 eexists. split; [done|]. split; [reflexivity|]. split; [done|]. intros _.
    cbn [app]. rewrite Hopen. split; [done|]. intros [_ H2]%Forall_cons. by apply Hnone.
Qed.
End Commands.

(** ** Witnesses *)

Module CommandSample.
(** A disk on which no partition exists yet and every request is granted. *)
#[export] Instance new_disk : Handler unit := fun A c e =>
  match c in ioE A return A * unit with
  | IomanX_open _ fl _ => (if fl =? main_flags then 5 else -2, e)
  | c => (default_answer c, e)
  end.

Definition sample_context : context_t := mk_context 1 "hdd0:x" 1 "/dir" 1000 (mk_atad 7 1000).
End CommandSample.
Import CommandSample.

Lemma cd_refines_witness :
  wp (do_cd ["cd"; ".."]) (fun r s' _ _ => exists v, r = Ret v /\
    path s' = path_string (if v <? 0 then ["dir"] else [])) sample_context tt.
Proof.
  eapply wp_mono; [apply (cd_refines sample_context tt ["dir"] (CdParent false))|].
  - reflexivity.
  - repeat constructor; [done|]. intros k. by do 4 (destruct k as [|k]; [done|]).
  - exact I.
  - cbn. lia.
  - cbv beta. intros r s e t (v & msgs & Hr & _ & _ & Hs). exists v. split; [exact Hr|].
    rewrite Hs. reflexivity.
Defined.

Lemma mkpart_sizes_witness :
  wp (do_mkpart ["mkpart"; "x"; "384M"; "PFS"]) (fun r _ _ t => (exists v, r = Ret v) /\
    tally (made "x" "PFS") t <= 384) sample_context tt.
Proof.
  eapply wp_mono; [apply (mkpart_sizes "x" "384M" "PFS" 384)|].
  - cbn. lia.
  - vm_compute. reflexivity.
  - vm_compute. reflexivity.
  - cbv beta. intros r s e t (v & fd & t' & Hr & _ & H1 & H2). split; [by exists v|].
    destruct (Z.eq_dec fd (-2)) as [Hfd|Hfd]; [apply H2 in Hfd; lia|apply H1 in Hfd; lia].
Defined.
