(* ===== verification/ShellCopy.v ===== *)
(** * The shell: [get] and [put]

    What the two copies move, against what the source file holds, and what their
    result says. *)

From S2P Require Import Prelude IoWorld Trace ParseLine Modes Shm Atad Hl Shell.

(** ** The source of a copy

    What reading an open file of the host promises: [ahead e fd] are the bytes still
    ahead of the descriptor, and calls to the driver leave them alone. *)
Class HostSource (E : Type) `{Handler E} := {
  ahead : E -> Z -> option (list Z);
  read_ahead : forall e fd n rest,
    0 <= n -> ahead e fd = Some rest ->
    exists e', handle (Host_read fd n) e =
                 ((Z.of_nat (length (take (Z.to_nat n) rest)), take (Z.to_nat n) rest), e') /\
               ahead e' fd = Some (drop (Z.to_nat n) rest);
  ahead_frame : forall A (c : ioE A) e fd, driver_call c = true -> ahead (handle c e).2 fd = ahead e fd
}.

(** The same of a file of the partition, and calls to the host's files. *)
Class PfsSource (E : Type) `{FileReads E} := {
  unread_frame : forall A (c : ioE A) e fd,
    match c with Host_open _ _ _ | Host_write _ _ | Host_close _ => True | _ => False end ->
    unread (handle c e).2 fd = unread e fd
}.

(** The bytes a trace writes to the host. *)
Fixpoint received (t : trace) : list Z :=
  match t with
  | [] => []
  | Ev c _ :: t' => match c with Host_write _ data => data | _ => [] end ++ received t'
  end.

Lemma received_app t1 t2 : received (t1 ++ t2) = received t1 ++ received t2.
Proof. induction t1 as [|[A c r] t1 IH]; [done|]. cbn. by rewrite IH, app_assoc. Qed.

(** A write took all it was given. *)
Definition write_full (ev : event) : bool :=
  match ev with
  | @Ev A c r =>
      match c in ioE A return A -> bool with
      | IomanX_write _ _ size => fun r => r =? size
      | Host_write _ data => fun r => r =? Z.of_nat (length data)
      | _ => fun _ => true
      end r
  end.

Definition all_full (t : trace) : Prop := Forall (fun ev => write_full ev = true) t.

(** What came through: a first part of the content, all of it where no write was cut. *)
Definition came_through (moved content : list Z) (t : trace) : Prop :=
  moved `prefix_of` content /\ (all_full t -> moved = content).

Lemma came_through_more a b content ev1 ev2 t :
  write_full ev1 = true -> write_full ev2 = true ->
  content = a ++ b -> forall moved, came_through moved b t ->
  came_through (a ++ moved) content (ev1 :: ev2 :: t).
Proof.
  intros H1 H2 -> moved [Hp Hf]. split; [by apply prefix_app|].
  intros [_ [_ Ht]%Forall_cons]%Forall_cons. by rewrite Hf.
Qed.

Lemma came_through_within moved moved' content t t' :
  came_through moved content t -> t ⊆ t' -> moved' = moved -> came_through moved' content t'.
Proof.
  intros [Hp Hf] Hsub ->. split; [done|]. intros Hfull. apply Hf.
  apply Forall_forall. intros ev Hin. by apply (proj1 (Forall_forall _ _) Hfull), Hsub.
Qed.

(** A block of at most [k] bytes, what is left, and the fuel that is enough for it:
    one turn per block, and the last. *)
Lemma next_block {A} k fuel (l : list A) :
  l <> [] -> 0 < k -> Z.of_nat (length l) + k <= Z.of_nat (S fuel) * k ->
  exists a b, take (Z.to_nat k) l = a /\ drop (Z.to_nat k) l = b /\ l = a ++ b /\
    0 < Z.of_nat (length a) /\ Z.of_nat (length b) + k <= Z.of_nat fuel * k.
Proof.
  intros Hl Hk Hle. assert (Hpos : 0 < Z.of_nat (length l)) by (destruct l; [done|simpl; lia]).
  exists (take (Z.to_nat k) l), (drop (Z.to_nat k) l).
  split; [done|]. split; [done|]. split; [symmetry; apply take_drop|]. split.
  - rewrite length_take. lia.
  - rewrite length_drop, Nat2Z.inj_sub_max, Z2Nat.id by lia.
    rewrite Nat2Z.inj_succ in Hle. assert (0 < Z.of_nat fuel) by nia.
    destruct (Z.max_spec 0 (Z.of_nat (length l) - k)) as [[_ ->]|[_ ->]]; nia.
Qed.

Section Copies.
Context {E : Type}.
Local Abbreviation P := (M context_t E).

Lemma put_loop `{HostSource E} in_ out tmp fuel : forall rest s e,
  Z.of_nat (length rest) + 32768 <= Z.of_nat fuel * 32768 -> ahead e in_ = Some rest ->
  wp (loop fuel (put_turn in_ out tmp) tt : P unit) (fun r s' _ t =>
    r = Ret tt /\ s' = s /\ came_through (sent t) rest t) s e.
Proof.
  induction fuel as [|fuel IH]; intros rest s e Hfuel Hin; [lia|].
  apply wp_loop_S. unfold put_turn at 1. apply wp_bind, wp_call. intros [len buf] e1 He1.
  destruct (read_ahead e in_ 32768 rest ltac:(lia) Hin) as (e1' & Hread & Hin1).
  rewrite He1 in Hread. injection Hread as -> -> <-. cbn [bind_post].
  destruct (decide (rest = [])) as [->|Hne].
  { rewrite take_nil. cbn [length Z.of_nat Z.ltb Z.compare]. apply wp_ret, wp_ret. split_and!; [done..|].
    split; [done|]. done. }
  destruct (next_block 32768 fuel _ Hne ltac:(lia) Hfuel) as (chunk & rest' & Hc & Hd & Hsplit & Hpos & Hleft).
  rewrite Hc, Hd in *. clear Hc Hd.
  rewrite (proj2 (Z.ltb_lt 0 _)) by done. rewrite Z.leb_refl, Nat2Z.id, take_ge by lia.
  apply wp_bind, wp_ret. cbn [bind_post]. apply wp_bind, wp_call. intros result e2 He2. cbn [bind_post].
  apply wp_if; intros Hw; boolP.
  - (* the write fell short *)
    assert (Hcut : forall t, sent t = chunk -> Ev (IomanX_write out chunk (Z.of_nat (length chunk))) result ∈ t ->
              came_through (sent t) rest t).
    { intros t Ht Hin2. rewrite Ht. split; [by rewrite Hsplit; apply prefix_app_r|]. intros Hf.
      apply (proj1 (Forall_forall _ _) Hf) in Hin2. cbn in Hin2. boolP. lia. }
    apply wp_bind, wp_if; intros _; apply wp_call; intros u e3 _; apply wp_ret, wp_ret;
      (split; [done|]); (split; [done|]); (apply Hcut; [cbn; by rewrite app_nil_r|]);
      cbn [app]; rewrite !elem_of_cons; tauto.
  - apply wp_ret. cbn [bind_post].
    assert (Hin2 : ahead e2 in_ = Some rest').
    { rewrite <- Hin1. change e2 with (result, e2).2. rewrite <- He2. by apply ahead_frame. }
    eapply wp_mono; [exact (IH rest' s e2 Hleft Hin2)|].
    cbv beta. intros r s2 e3 t (-> & -> & Ht). split; [done|]. split; [done|].
    cbn [app sent]. eapply came_through_more; [done|by apply Z.eqb_eq|exact Hsplit|exact Ht].
Qed.

Lemma get_loop `{PfsSource E} in_ out name fuel : forall rest s e,
  Z.of_nat (length rest) + 4096 <= Z.of_nat fuel * 4096 -> unread e in_ = Some rest ->
  wp (loop fuel (get_turn in_ out name) tt : P unit) (fun r s' _ t =>
    r = Ret tt /\ s' = s /\ came_through (received t) rest t) s e.
Proof.
  induction fuel as [|fuel IH]; intros rest s e Hfuel Hin; [lia|].
  apply wp_loop_S. unfold get_turn at 1. apply wp_bind, wp_call. intros [len buf] e1 He1.
  destruct (read_unread e in_ 4096 rest ltac:(lia) Hin) as (e1' & Hread & Hin1).
  rewrite He1 in Hread. injection Hread as -> -> <-. cbn [bind_post].
  destruct (decide (rest = [])) as [->|Hne].
  { rewrite take_nil. cbn [length Z.of_nat Z.ltb Z.compare]. apply wp_ret, wp_ret. split_and!; [done..|].
    split; [done|]. done. }
  destruct (next_block 4096 fuel _ Hne ltac:(lia) Hfuel) as (chunk & rest' & Hc & Hd & Hsplit & Hpos & Hleft).
  rewrite Hc, Hd in *. clear Hc Hd.
  rewrite (proj2 (Z.ltb_lt 0 _)) by done. rewrite Z.leb_refl, Nat2Z.id, take_ge by lia.
  apply wp_bind, wp_ret. cbn [bind_post]. apply wp_bind, wp_call. intros result e2 He2. cbn [bind_post].
  apply wp_if; intros Hw; boolP.
  - apply wp_bind, wp_call. intros u e3 _. apply wp_ret, wp_ret. split; [done|]. split; [done|].
    cbn [app received]. rewrite app_nil_r. split; [by rewrite Hsplit; apply prefix_app_r|]. intros Hf.
    apply Forall_cons in Hf as [_ [Hf _]%Forall_cons]. cbn in Hf. boolP. lia.
  - apply wp_ret. cbn [bind_post].
    assert (Hin2 : unread e2 in_ = Some rest').
    { rewrite <- Hin1. change e2 with (result, e2).2. rewrite <- He2. by apply unread_frame. }
    eapply wp_mono; [exact (IH rest' s e2 Hleft Hin2)|].
    cbv beta. intros r s2 e3 t (-> & -> & Ht). split; [done|]. split; [done|].
    cbn [app received]. eapply came_through_more; [done|by apply Z.eqb_eq|exact Hsplit|exact Ht].
Qed.

Lemma here_runs `{Handler E} name s e (Q : res string -> context_t -> E -> trace -> Prop) :
  (7 + String.length (path s) + String.length name < 256)%nat ->
  Q (Ret (pfs_path (path s) name)) s e [] -> wp (here name : P string) Q s e.
Proof.
  intros Hlen HQ. unfold here, in_buffer. apply wp_bind, wp_get, wp_bind, wp_assert.
  - intros _. by apply wp_ret.
  - intros Hf%Nat.ltb_ge. unfold pfs_path in Hf. rewrite length_append in Hf.
    destruct (last_char _) as [c|]; [destruct (Ascii.eqb c "/"%char)|];
      rewrite ?length_append in Hf; simpl in Hf; lia.
Qed.

(** C24: [put] copies: the bytes it writes to the partition are a first part of the
    host's file, in order, and the whole file when no write was cut short.  Its result
    is that of closing the new file: a write that failed does not show in it. *)
Theorem do_put_copies `{HostSource E} fuel name content s e :
  (7 + String.length (path s) + String.length name < 256)%nat ->
  Z.of_nat (length content) + 32768 <= Z.of_nat fuel * 32768 ->
  (forall fd e', handle (Host_open name host_O_RDONLY 0) e = (fd, e') ->
     fd <> -1 /\ ahead e' fd = Some content) ->
  wp (do_put fuel ["put"; name] : P Z) (fun r s' _ t => exists v out, r = Ret v /\ s' = s /\
    Ev (IomanX_open (pfs_path (path s) name) (Z.lor FIO_O_WRONLY FIO_O_CREAT) 0x1B6) out ∈ t /\
    ((out < 0 /\ v = out /\ sent t = []) \/
     (0 <= out /\ Ev (IomanX_close out) v ∈ t /\ came_through (sent t) content t))) s e.
Proof.
  intros Hlen Hfuel Hopen. unfold do_put, arg. apply wp_bind, wp_ret. cbn [bind_post].
  apply wp_bind; apply here_runs; [done|]. cbn [bind_post].
  apply wp_bind, wp_call. intros fd e1 He1. destruct (Hopen fd e1 He1) as [Hfd Hin]. cbn [bind_post].
  rewrite (proj2 (Z.eqb_neq fd (-1))) by done. cbn [negb].
  apply wp_bind, wp_call. intros out e2 He2. cbn [bind_post].
  assert (Hin2 : ahead e2 fd = Some content).
  { rewrite <- Hin. change e2 with (out, e2).2. rewrite <- He2. by apply ahead_frame. }
  apply wp_bind, wp_if; intros Hout; boolP.
  - apply wp_bind. eapply wp_mono; [by apply put_loop|]. intros ? s3 e3 t3 (-> & -> & Ht3).
    cbn [bind_post]. apply wp_call. intros v e4 _. cbn [bind_post].
    apply wp_bind, wp_call. intros z e5 _. apply wp_ret. exists v, out.
    split; [done|]. split; [done|]. split; [cbn [app]; rewrite !elem_of_cons; tauto|].
    right. split; [done|]. split.
    { cbn [app]. rewrite !elem_of_cons, !elem_of_app, !elem_of_cons. tauto. }
    eapply came_through_within; [exact Ht3| |].
    + intros ev Hev. cbn [app]. rewrite !elem_of_cons, !elem_of_app. tauto.
    + cbn [app sent]. rewrite !sent_app. cbn. by rewrite !app_nil_r.
  - apply wp_bind, wp_call. intros u e3 _. apply wp_ret. cbn [bind_post].
    apply wp_bind, wp_call. intros z e5 _. apply wp_ret. exists out, out.
    split; [done|]. split; [done|]. split; [cbn [app]; rewrite !elem_of_cons; tauto|]. by left.
Qed.

(** C25: [get] copies: the bytes it writes to the host are a first part of the file of
    the partition, in order, and the whole file when no write was cut short.  Its
    result is that of closing the host's file: a write that failed does not show in
    it. *)
Theorem do_get_copies `{PfsSource E} fuel name content s e :
  (7 + String.length (path s) + String.length name < 256)%nat ->
  Z.of_nat (length content) + 4096 <= Z.of_nat fuel * 4096 ->
  (forall fd e', handle (IomanX_open (pfs_path (path s) name) FIO_O_RDONLY 0) e = (fd, e') ->
     0 <= fd /\ unread e' fd = Some content) ->
  wp (do_get fuel ["get"; name] : P Z) (fun r s' _ t => exists v out, r = Ret v /\ s' = s /\
    Ev (Host_open name (Z.lor host_O_CREAT host_O_WRONLY) 0x1B4) out ∈ t /\
    ((out = -1 /\ v = -1 /\ received t = []) \/
     (out <> -1 /\ Ev (Host_close out) v ∈ t /\ came_through (received t) content t))) s e.
Proof.
  intros Hlen Hfuel Hopen. unfold do_get, arg. apply wp_bind, wp_ret. cbn [bind_post].
  apply wp_bind; apply here_runs; [done|]. cbn [bind_post].
  apply wp_bind, wp_call. intros fd e1 He1. destruct (Hopen fd e1 He1) as [Hfd Hin]. cbn [bind_post].
  rewrite (proj2 (Z.leb_le 0 fd)) by done.
  apply wp_bind, wp_call. intros out e2 He2. cbn [bind_post].
  assert (Hin2 : unread e2 fd = Some content).
  { rewrite <- Hin. change e2 with (out, e2).2. rewrite <- He2. by apply unread_frame. }
  apply wp_bind, wp_if; intros Hout; boolP.
  - apply wp_bind. eapply wp_mono; [by apply get_loop|]. intros ? s3 e3 t3 (-> & -> & Ht3).
    cbn [bind_post]. apply wp_call. intros v e4 _. cbn [bind_post].
    apply wp_bind, wp_call. intros z e5 _. apply wp_ret. exists v, out.
    split; [done|]. split; [done|]. split; [cbn [app]; rewrite !elem_of_cons; tauto|].
    right. split; [done|]. split.
    { cbn [app]. rewrite !elem_of_cons, !elem_of_app, !elem_of_cons. tauto. }
    eapply came_through_within; [exact Ht3| |].
    + intros ev Hev. cbn [app]. rewrite !elem_of_cons, !elem_of_app. tauto.
    + cbn [app received]. rewrite !received_app. cbn. by rewrite !app_nil_r.
  - apply wp_bind, wp_call. intros u e3 _. apply wp_ret. cbn [bind_post].
    apply wp_bind, wp_call. intros z e5 _. apply wp_ret. exists (-1), out.
    split; [done|]. split; [done|]. split; [cbn [app]; rewrite !elem_of_cons; tauto|]. by left.
Qed.
End Copies.

(** ** Witnesses *)

Module CopySample.
(** A file of the host and one of the partition, each a stream that reads take from;
    opens and writes succeed. *)
Inductive copy_env := CopyEnv (host part : list Z).

Definition read_of (l : list Z) (n : Z) : Z * list Z :=
  (Z.of_nat (length (take (Z.to_nat n) l)), take (Z.to_nat n) l).

#[export] Instance copy_handler : Handler copy_env := fun A c '(CopyEnv h p) =>
  match c in ioE A return A * copy_env with
  | Host_read _ n => (read_of h n, CopyEnv (drop (Z.to_nat n) h) p)
  | IomanX_read _ n => (read_of p n, CopyEnv h (drop (Z.to_nat n) p))
  | IomanX_write _ _ n => (n, CopyEnv h p)
  | Host_write _ data => (Z.of_nat (length data), CopyEnv h p)
  | IomanX_open _ _ _ => (3, CopyEnv h p)
  | Host_open _ _ _ => (4, CopyEnv h p)
  | c => (default_answer c, CopyEnv h p)
  end.

#[export] Instance copy_host_source : HostSource copy_env.
Proof.
  refine {| ahead := fun '(CopyEnv h _) _ => Some h |}.
  - intros [h p] fd n rest Hn [= ->]. eexists. split; reflexivity.
  - intros A c [h p] fd Hc. destruct c; done.
Defined.

#[export] Instance copy_reads : FileReads copy_env.
Proof.
  refine {| unread := fun '(CopyEnv _ p) _ => Some p |}.
  intros [h p] fd n rest Hn [= ->]. eexists. split; reflexivity.
Defined.

#[export] Instance copy_pfs_source : PfsSource copy_env.
Proof. split. intros A c [h p] fd Hc. destruct c; done. Defined.

Definition sample_context : context_t := mk_context 1 "hdd0:x" 1 "/dir" 1000 (mk_atad 7 1000).
End CopySample.
Import CopySample.

Lemma do_put_copies_witness :
  wp (do_put 2 ["put"; "f"]) (fun r _ _ t => exists v, r = Ret v /\ sent t `prefix_of` [1; 2; 3])
     sample_context (CopyEnv [1; 2; 3] []).
Proof.
  eapply wp_mono; [apply (do_put_copies 2 "f" [1; 2; 3])|].
  - cbn. lia.
  - cbn [length]. lia.
  - intros fd e' [= <- <-]. split; [lia|reflexivity].
  - cbv beta. intros r s e t (v & out & Hr & _ & _ & [(_ & _ & Ht)|(_ & _ & [Hp _])]); exists v; split.
    + exact Hr.
    + rewrite Ht. apply prefix_nil.
    + exact Hr.
    + exact Hp.
Defined.

Lemma do_get_copies_witness :
  wp (do_get 2 ["get"; "f"]) (fun r _ _ t => exists v, r = Ret v /\ received t `prefix_of` [1; 2; 3])
     sample_context (CopyEnv [] [1; 2; 3]).
Proof.
  eapply wp_mono; [apply (do_get_copies 2 "f" [1; 2; 3])|].
  - cbn. lia.
  - cbn [length]. lia.
  - intros fd e' [= <- <-]. split; [lia|reflexivity].
  - cbv beta. intros r s e t (v & out & Hr & _ & _ & [(_ & _ & Ht)|(_ & _ & [Hp _])]); exists v; split.
    + exact Hr.
    + rewrite Ht. apply prefix_nil.
    + exact Hr.
    + exact Hp.
Defined.
