(* ===== verification/Headers.v ===== *)
(** * What the callers and the drivers are compiled with

    The programs under src/src/ take the constants and structures of the file layer from
    iomanX_port.h; the drivers take them from the headers of the emulated system
    (src/subprojects/fakeps2sdk/include/).  Both sides meet in one process, so that the two
    have to say the same. *)

From S2P Require Import Prelude IoWorld Modes Shm Startup Shell.

(** ** Constants

    Name and value, in the order of the headers; those the model uses by their names. *)

(** src/src/iomanX_port.h. *)
Definition port_constants : list (string * Z) :=
  [("FIO_O_RDONLY", FIO_O_RDONLY); ("FIO_O_WRONLY", FIO_O_WRONLY); ("FIO_O_RDWR", FIO_O_RDWR);
   ("FIO_O_DIROPEN", FIO_O_DIROPEN); ("FIO_O_NBLOCK", 0x0010); ("FIO_O_APPEND", FIO_O_APPEND);
   ("FIO_O_CREAT", FIO_O_CREAT); ("FIO_O_TRUNC", FIO_O_TRUNC); ("FIO_O_EXCL", FIO_O_EXCL);
   ("FIO_O_NOWAIT", 0x8000); ("FIO_MT_RDWR", FIO_MT_RDWR); ("FIO_MT_RDONLY", FIO_MT_RDONLY);
   ("FIO_SEEK_SET", FIO_SEEK_SET); ("FIO_SEEK_CUR", FIO_SEEK_CUR); ("FIO_SEEK_END", FIO_SEEK_END);
   ("IOP_DT_CHAR", IOP_DT_CHAR); ("IOP_DT_CONS", IOP_DT_CONS); ("IOP_DT_BLOCK", IOP_DT_BLOCK);
   ("IOP_DT_RAW", IOP_DT_RAW); ("IOP_DT_FS", IOP_DT_FS); ("IOP_DT_FSEXT", IOP_DT_FSEXT);
   ("FIO_CST_MODE", FIO_CST_MODE); ("FIO_CST_ATTR", FIO_CST_ATTR); ("FIO_CST_SIZE", FIO_CST_SIZE);
   ("FIO_CST_CT", FIO_CST_CT); ("FIO_CST_AT", FIO_CST_AT); ("FIO_CST_MT", FIO_CST_MT);
   ("FIO_CST_PRVT", FIO_CST_PRVT); ("FIO_S_IFMT", FIO_S_IFMT); ("FIO_S_IFLNK", FIO_S_IFLNK);
   ("FIO_S_IFREG", FIO_S_IFREG); ("FIO_S_IFDIR", FIO_S_IFDIR); ("FIO_S_ISUID", FIO_S_ISUID);
   ("FIO_S_ISGID", FIO_S_ISGID); ("FIO_S_ISVTX", FIO_S_ISVTX); ("FIO_S_IRWXU", 0x01C0);
   ("FIO_S_IRUSR", FIO_S_IRUSR); ("FIO_S_IWUSR", FIO_S_IWUSR); ("FIO_S_IXUSR", FIO_S_IXUSR);
   ("FIO_S_IRWXG", 0x0038); ("FIO_S_IRGRP", FIO_S_IRGRP); ("FIO_S_IWGRP", FIO_S_IWGRP);
   ("FIO_S_IXGRP", FIO_S_IXGRP); ("FIO_S_IRWXO", 0x0007); ("FIO_S_IROTH", FIO_S_IROTH);
   ("FIO_S_IWOTH", FIO_S_IWOTH); ("FIO_S_IXOTH", FIO_S_IXOTH); ("HIOCADDSUB", HIOCADDSUB);
   ("HIOCDELSUB", 0x6802); ("HIOCNSUB", HIOCNSUB); ("HIOCFLUSH", 0x6804);
   ("HDIOC_TOTALSECTOR", HDIOC_TOTALSECTOR); ("HDIOC_FREESECTOR", 0x480A);
   ("HIOCTRANSFER", HIOCTRANSFER); ("HIOCGETSIZE", HIOCGETSIZE); ("HIOCSETPARTERROR", 0x6834);
   ("HIOCGETPARTERROR", 0x6835); ("PIOCALLOC", 0x7001); ("PIOCFREE", 0x7002); ("PIOCATTRADD", 0x7003);
   ("PIOCATTRDEL", 0x7004); ("PIOCATTRLOOKUP", 0x7005); ("PIOCATTRREAD", 0x7006);
   ("PIOCINVINODE", 0x7032); ("PDIOC_ZONESZ", PDIOC_ZONESZ); ("PDIOC_ZONEFREE", PDIOC_ZONEFREE);
   ("PDIOC_CLOSEALL", 0x5003); ("PDIOC_GETFSCKSTAT", 0x5004); ("PDIOC_CLRFSCKSTAT", 0x5005);
   ("PDIOC_SETUID", 0x5032); ("PDIOC_SETGID", 0x5033); ("PDIOC_SHOWBITMAP", 0xFF);
   ("PFS_IO_MODE_READ", 0x00); ("PFS_IO_MODE_WRITE", 0x01)]%string.

(** io_common.h. *)
Definition io_common_constants : list (string * Z) :=
  [("FIO_O_RDONLY", 0x0001); ("FIO_O_WRONLY", 0x0002); ("FIO_O_RDWR", 0x0003);
   ("FIO_O_DIROPEN", 0x0008); ("FIO_O_NBLOCK", 0x0010); ("FIO_O_APPEND", 0x0100);
   ("FIO_O_CREAT", 0x0200); ("FIO_O_TRUNC", 0x0400); ("FIO_O_EXCL", 0x0800); ("FIO_O_NOWAIT", 0x8000);
   ("FIO_MT_RDWR", 0x00); ("FIO_MT_RDONLY", 0x01); ("FIO_SEEK_SET", 0); ("FIO_SEEK_CUR", 1);
   ("FIO_SEEK_END", 2)]%string.

(** iox_stat.h: of iomanX. *)
Definition iox_stat_constants : list (string * Z) :=
  [("FIO_CST_MODE", 0x0001); ("FIO_CST_ATTR", 0x0002); ("FIO_CST_SIZE", 0x0004);
   ("FIO_CST_CT", 0x0008); ("FIO_CST_AT", 0x0010); ("FIO_CST_MT", 0x0020); ("FIO_CST_PRVT", 0x0040);
   ("FIO_S_IFMT", 0xF000); ("FIO_S_IFLNK", 0x4000); ("FIO_S_IFREG", 0x2000); ("FIO_S_IFDIR", 0x1000);
   ("FIO_S_ISUID", 0x0800); ("FIO_S_ISGID", 0x0400); ("FIO_S_ISVTX", 0x0200); ("FIO_S_IRWXU", 0x01C0);
   ("FIO_S_IRUSR", 0x0100); ("FIO_S_IWUSR", 0x0080); ("FIO_S_IXUSR", 0x0040); ("FIO_S_IRWXG", 0x0038);
   ("FIO_S_IRGRP", 0x0020); ("FIO_S_IWGRP", 0x0010); ("FIO_S_IXGRP", 0x0008); ("FIO_S_IRWXO", 0x0007);
   ("FIO_S_IROTH", 0x0004); ("FIO_S_IWOTH", 0x0002); ("FIO_S_IXOTH", 0x0001)]%string.

(** iox_stat.h: of the older ioman. *)
Definition iox_stat_old_constants : list (string * Z) :=
  [("FIO_SO_IFMT", 0x0038); ("FIO_SO_IFLNK", 0x0008); ("FIO_SO_IFREG", 0x0010);
   ("FIO_SO_IFDIR", 0x0020); ("FIO_SO_IROTH", 0x0004); ("FIO_SO_IWOTH", 0x0002);
   ("FIO_SO_IXOTH", 0x0001)]%string.

(** hdd-ioctl.h: partitions, and the requests to the APA driver. *)
Definition hdd_ioctl_constants : list (string * Z) :=
  [("APA_TYPE_FREE", 0x0000); ("APA_TYPE_MBR", 0x0001); ("APA_TYPE_EXT2SWAP", 0x0082);
   ("APA_TYPE_EXT2", 0x0083); ("APA_TYPE_REISER", 0x0088); ("APA_TYPE_PFS", 0x0100);
   ("APA_TYPE_CFS", 0x0101); ("APA_TYPE_HDL", 0x1337); ("APA_IDMAX", 32); ("APA_MAXSUB", 64);
   ("APA_PASSMAX", 8); ("APA_FLAG_SUB", 0x0001); ("HIOCADDSUB", 0x6801); ("HIOCDELSUB", 0x6802);
   ("HIOCNSUB", 0x6803); ("HIOCFLUSH", 0x6804); ("HIOCTRANSFER", 0x6832); ("HIOCGETSIZE", 0x6833);
   ("HIOCSETPARTERROR", 0x6834); ("HIOCGETPARTERROR", 0x6835); ("HIOCGETPARTSTART", 0x6836);
   ("APA_IO_MODE_READ", 0x00); ("APA_IO_MODE_WRITE", 0x01); ("HDIOC_MAXSECTOR", 0x4801);
   ("HDIOC_TOTALSECTOR", 0x4802); ("HDIOC_IDLE", 0x4803); ("HDIOC_FLUSH", 0x4804);
   ("HDIOC_SWAPTMP", 0x4805); ("HDIOC_DEV9OFF", 0x4806); ("HDIOC_STATUS", 0x4807);
   ("HDIOC_FORMATVER", 0x4808); ("HDIOC_SMARTSTAT", 0x4809); ("HDIOC_FREESECTOR", 0x480A);
   ("HDIOC_IDLEIMM", 0x480B); ("HDIOC_GETTIME", 0x6832); ("HDIOC_SETOSDMBR", 0x6833);
   ("HDIOC_GETSECTORERROR", 0x6834); ("HDIOC_GETERRORPARTNAME", 0x6835); ("HDIOC_READSECTOR", 0x6836);
   ("HDIOC_WRITESECTOR", 0x6837); ("HDIOC_SCEIDENTIFY", 0x6838)]%string.

(** hdd-ioctl.h: the requests to the PFS driver. *)
Definition hdd_ioctl_pfs_constants : list (string * Z) :=
  [("PIOCALLOC", 0x7001); ("PIOCFREE", 0x7002); ("PIOCATTRADD", 0x7003); ("PIOCATTRDEL", 0x7004);
   ("PIOCATTRLOOKUP", 0x7005); ("PIOCATTRREAD", 0x7006); ("PIOCINVINODE", 0x7032);
   ("PDIOC_ZONESZ", 0x5001); ("PDIOC_ZONEFREE", 0x5002); ("PDIOC_CLOSEALL", 0x5003);
   ("PDIOC_GETFSCKSTAT", 0x5004); ("PDIOC_CLRFSCKSTAT", 0x5005); ("PDIOC_SETUID", 0x5032);
   ("PDIOC_SETGID", 0x5033); ("PDIOC_SHOWBITMAP", 0xFF); ("PFS_IO_MODE_READ", 0x00);
   ("PFS_IO_MODE_WRITE", 0x01)]%string.


Definition sdk_constants : list (string * Z) :=
  io_common_constants ++ iox_stat_constants ++ iox_stat_old_constants ++ hdd_ioctl_constants ++
  hdd_ioctl_pfs_constants.

(** The tests for the type of a mode of the older ioman. *)
Definition FIO_SO_IFMT := 0x0038.
Definition FIO_SO_IFLNK := 0x0008.
Definition FIO_SO_IFREG := 0x0010.
Definition FIO_SO_IFDIR := 0x0020.
Definition FIO_SO_ISLNK (m : Z) : bool := Z.land m FIO_SO_IFMT =? FIO_SO_IFLNK.
Definition FIO_SO_ISREG (m : Z) : bool := Z.land m FIO_SO_IFMT =? FIO_SO_IFREG.
Definition FIO_SO_ISDIR (m : Z) : bool := Z.land m FIO_SO_IFMT =? FIO_SO_IFDIR.

(** ** The layout of structures

    A type is its size and its alignment; the sizes are those of hosts with 32-bit [int]
    and 64-bit pointers. *)

Record ctype := mk_ctype { sizeof : Z; alignof : Z }.

Definition c_char := mk_ctype 1 1.
Definition c_uint := mk_ctype 4 4.
Definition c_pointer := mk_ctype 8 8.
Definition array (n : Z) (t : ctype) : ctype := mk_ctype (n * sizeof t) (alignof t).

Definition round_up (n a : Z) : Z := (n + a - 1) / a * a.

(** The members with their offsets, from the offset [at_] on, and where the last ends. *)
Fixpoint members_from (at_ : Z) (fs : list (string * ctype)) : list (string * Z * Z) * Z :=
  match fs with
  | [] => ([], at_)
  | (name, t) :: fs' =>
      let o := round_up at_ (alignof t) in
      let '(ms, last_) := members_from (o + sizeof t) fs' in
      ((name, o, sizeof t) :: ms, last_)
  end.

(** Name, offset and size of the members. *)
Definition layout (fs : list (string * ctype)) : list (string * Z * Z) := (members_from 0 fs).1.

Definition struct_align (fs : list (string * ctype)) : Z := foldr Z.max 1 ((fun f => alignof f.2) <$> fs).
Definition struct (fs : list (string * ctype)) : ctype :=
  mk_ctype (round_up (members_from 0 fs).2 (struct_align fs)) (struct_align fs).

(** [typedef ... __attribute__((aligned(n)))]: of the name, the size stays. *)
Definition aligned (n : Z) (t : ctype) : ctype := mk_ctype (sizeof t) (Z.max n (alignof t)).

(** ** The structures *)

(** [iox_stat_t] and [iox_dirent_t] of iomanX_port.h. *)
Definition port_iox_stat_fields : list (string * ctype) :=
  [("mode", c_uint); ("attr", c_uint); ("size", c_uint); ("ctime", array 8 c_char); ("atime", array 8 c_char);
   ("mtime", array 8 c_char); ("hisize", c_uint); ("private_0", c_uint); ("private_1", c_uint);
   ("private_2", c_uint); ("private_3", c_uint); ("private_4", c_uint); ("private_5", c_uint)]%string.
Definition port_iox_stat_t : ctype := struct port_iox_stat_fields.
Definition port_iox_dirent_fields : list (string * ctype) :=
  [("stat", port_iox_stat_t); ("name", array 256 c_char); ("unknown", c_uint)]%string.
Definition port_iox_dirent_t : ctype := struct port_iox_dirent_fields.

(** [iox_stat_t] and [iox_dirent_t] of iox_stat.h. *)
Definition sdk_iox_stat_fields : list (string * ctype) :=
  [("mode", c_uint); ("attr", c_uint); ("size", c_uint); ("ctime", array 8 c_char); ("atime", array 8 c_char);
   ("mtime", array 8 c_char); ("hisize", c_uint); ("private_0", c_uint); ("private_1", c_uint);
   ("private_2", c_uint); ("private_3", c_uint); ("private_4", c_uint); ("private_5", c_uint)]%string.
Definition sdk_iox_stat_t : ctype := aligned 64 (struct sdk_iox_stat_fields).
Definition sdk_iox_dirent_fields : list (string * ctype) :=
  [("stat", sdk_iox_stat_t); ("name", array 256 c_char); ("privdata", c_pointer)]%string.
Definition sdk_iox_dirent_t : ctype := aligned 64 (struct sdk_iox_dirent_fields).

(** [io_stat_t] and [io_dirent_t] of io_common.h. *)
Definition sdk_io_stat_t : ctype :=
  struct [("mode", c_uint); ("attr", c_uint); ("size", c_uint); ("ctime", array 8 c_char);
          ("atime", array 8 c_char); ("mtime", array 8 c_char); ("hisize", c_uint)]%string.
Definition sdk_io_dirent_t : ctype :=
  struct [("stat", sdk_io_stat_t); ("name", array 256 c_char); ("privdata", c_pointer)]%string.

(** [hddIoctl2Transfer_t] of pfsd_common.h and of hdd-ioctl.h, and what else is there. *)
Definition port_hddIoctl2Transfer_fields : list (string * ctype) :=
  [("sub", c_uint); ("sector", c_uint); ("size", c_uint); ("mode", c_uint); ("buffer", c_pointer)]%string.
Definition sdk_hddIoctl2Transfer_fields : list (string * ctype) :=
  [("sub", c_uint); ("sector", c_uint); ("size", c_uint); ("mode", c_uint); ("buffer", c_pointer)]%string.
Definition sdk_hddAtaTransfer_t : ctype :=
  struct [("lba", c_uint); ("size", c_uint); ("data", array 0 c_char)]%string.
Definition sdk_hddSetOsdMBR_t : ctype := struct [("start", c_uint); ("size", c_uint)]%string.

(** ** The two sides *)

(** Values of one name. *)
Definition same_value (c : string * Z) : bool :=
  forallb (fun d => negb (bool_decide (c.1 = d.1)) || (c.2 =? d.2)) sdk_constants.

Lemma same_value_spec name v w : same_value (name, v) = true -> (name, w) ∈ sdk_constants -> v = w.
Proof.
  unfold same_value. rewrite forallb_forall. intros Hs Hw. apply list_elem_of_In in Hw.
  specialize (Hs _ Hw). cbn in Hs. rewrite bool_decide_eq_true_2 in Hs by done. by apply Z.eqb_eq.
Qed.

Lemma port_same : forallb same_value port_constants = true.
Proof. by vm_compute. Qed.

(** The callers' names the drivers' headers do not have. *)
Definition callers_only : list string :=
  List.filter (fun n => negb (bool_decide (n ∈ sdk_constants.*1))) port_constants.*1.

(** Callers and drivers agree but in one thing.  A constant both sides name has one value,
    and those are all the constants of the callers but the kinds of devices.  A status, and the argument of a transfer, have their members at the same
    places on both sides, where the bytes the daemon shares with its clients have them;
    and so has an entry of a directory.  But the drivers' entry is 60 bytes longer and
    wants to lie at a multiple of 64: a driver that clears or copies a whole entry writes
    past the one the caller has given it. *)
Theorem headers_agree :
  (forall name v w, (name, v) ∈ port_constants -> (name, w) ∈ sdk_constants -> v = w) /\
  callers_only = ["IOP_DT_CHAR"; "IOP_DT_CONS"; "IOP_DT_BLOCK"; "IOP_DT_RAW"; "IOP_DT_FS"; "IOP_DT_FSEXT"]%string /\
  layout port_iox_stat_fields = layout sdk_iox_stat_fields /\ sizeof port_iox_stat_t = sizeof sdk_iox_stat_t /\
  layout port_hddIoctl2Transfer_fields = layout sdk_hddIoctl2Transfer_fields /\
  take 2 (layout port_iox_dirent_fields) = take 2 (layout sdk_iox_dirent_fields) /\
  sizeof sdk_iox_dirent_t = sizeof port_iox_dirent_t + 60 /\
  alignof port_iox_dirent_t = 4 /\ alignof sdk_iox_dirent_t = 64.
Proof.
  split.
  { intros name v w Hv. apply same_value_spec. pose proof port_same as Hp. rewrite forallb_forall in Hp.
    by apply Hp, list_elem_of_In. }
  by vm_compute.
Qed.

(** The bytes of the shared segment are those of the callers' structures. *)
Theorem shared_layout de :
  stat_ok (de_stat de) ->
  Z.of_nat (length (stat_bytes (de_stat de))) = sizeof port_iox_stat_t /\
  Z.of_nat (length (dirent_bytes de)) = sizeof port_iox_dirent_t.
Proof.
  intros Hst. pose proof (length_stat_bytes _ Hst) as H64. unfold dirent_bytes.
  rewrite !length_app, H64, length_strncpy_bytes. split; by vm_compute.
Qed.
