(* ===== verification/Adapter.v ===== *)
(** * The FUSE adapter (src/src/iomanx_adapter.c, POSIX build)

    The partition mounted on [pfs0:] as a file system of the host: each operation of
    FUSE becomes calls to the file layer.  What FUSE hands to an operation and takes
    back (the file handle, the buffers, the [stat]) are arguments and results. *)

From S2P Require Import Prelude IoWorld Modes Clock Tar Atad.

(** [totalsectors], and the disk device. *)
Record adapter := mk_adapter {
  totalsectors : Z;
  ad_atad : atad
}.

Definition set_totalsectors (v : Z) (s : adapter) : adapter := mk_adapter v (ad_atad s).
Definition set_ad_atad (v : atad) (s : adapter) : adapter := mk_adapter (totalsectors s) v.

Definition FIO_O_NBLOCK : Z := 0x0010.
Definition ENOENT : Z := 2.

(** Flags of the host's [open] (Linux). *)
Definition O_ACCMODE : Z := 3.
Definition O_WRONLY : Z := 1.
Definition O_RDWR : Z := 2.
Definition O_CREAT : Z := 0x40.
Definition O_EXCL : Z := 0x80.
Definition O_TRUNC : Z := 0x200.
Definition O_APPEND : Z := 0x400.
Definition O_NONBLOCK : Z := 0x800.

Record fuse_file_info := mk_fi { fi_flags : Z; fi_fh : Z }.

Record statvfs := mk_statvfs {
  f_bsize : Z;
  f_frsize : Z;
  f_blocks : Z;
  f_bfree : Z;
  f_bavail : Z;
  f_namemax : Z
}.

Record options := mk_options {
  opt_device : string;
  opt_partition : string;
  opt_maxopen : string;
  opt_numbuffers : string;
  opt_show_help : bool
}.

(** ** Conversions *)

Section Conversions.
Context `{TimeLib}.

Definition convert_stat_to_posix (st : iox_stat_t) : posix_stat :=
  mk_posix_stat (adapter_convert_mode_to_posix (st_mode st)) (posix_size (st_size st) (st_hisize st))
    (convert_time_to_posix (st_ctime st)) (convert_time_to_posix (st_atime st))
    (convert_time_to_posix (st_mtime st)).

Definition convert_stat_to_iomanx (st : posix_stat) : iox_stat_t :=
  mk_iox_stat (adapter_convert_mode_to_iomanx (px_mode st)) 0 (iomanx_size (px_size st))
    (convert_time_to_iomanx (px_ctime st)) (convert_time_to_iomanx (px_atime st))
    (convert_time_to_iomanx (px_mtime st)) (iomanx_hisize (px_size st)) 0 0 0 0 0 0.
End Conversions.

(** The access mode and flags common to [open] and [create]. *)
Definition access_flags (fl : Z) : Z :=
  let flags := or_if (Z.land fl O_ACCMODE =? 0) FIO_O_RDONLY 0 in
  let flags := or_if (Z.land fl O_ACCMODE =? O_WRONLY) FIO_O_WRONLY flags in
  let flags := or_if (Z.land fl O_ACCMODE =? O_RDWR) FIO_O_RDWR flags in
  let flags := or_if (flag fl O_NONBLOCK) FIO_O_NBLOCK flags in
  or_if (flag fl O_APPEND) FIO_O_APPEND flags.

Definition open_flags (fl : Z) : Z :=
  let flags := or_if (flag fl O_CREAT) FIO_O_CREAT (access_flags fl) in
  let flags := or_if (flag fl O_TRUNC) FIO_O_TRUNC flags in
  or_if (flag fl O_EXCL) FIO_O_EXCL flags.

Definition create_flags (fl : Z) : Z :=
  let flags := Z.lor (access_flags fl) FIO_O_CREAT in
  let flags := or_if (flag fl O_TRUNC) FIO_O_TRUNC flags in
  or_if (flag fl O_EXCL) FIO_O_EXCL flags.

Section Operations.
Context {E : Type} `{Handler E, TimeLib}.
Local Abbreviation A := (M adapter E).

(** [translate_path], to a buffer of 1024 bytes; both bounds are its whole size, so
    that a longer name runs past its end. *)
Definition translate_path (s2 : string) : A string :=
  let s1 := (IOMANX_MOUNT_POINT +:+ "/" +:+ s2)%string in
  assert_ (String.length s1 <? 1024)%nat;;
  mret s1.

(** [if (res < 0) return res; ... return 0;] *)
Definition or_zero (res : Z) : Z := if res <? 0 then res else 0.

Definition iomanx_adapter_init : A unit := mret tt.

Definition iomanx_adapter_destroy : A unit :=
  call (IomanX_umount IOMANX_MOUNT_POINT);;
  zoom ad_atad set_ad_atad atad_close.

(** The mode of [iomanX_open] is not passed: [garbage]. *)
Definition iomanx_adapter_open (garbage : Z) (path : string) (fi : option fuse_file_info)
    : A (Z * option fuse_file_info) :=
  match fi with
  | None => mret (0, None)
  | Some f =>
      translated_path ← translate_path path;
      fh ← call (IomanX_open translated_path (open_flags (fi_flags f)) garbage);
      if fh <? 0 then mret (fh, fi) else mret (0, Some (mk_fi (fi_flags f) fh))
  end.

Definition iomanx_adapter_create (path : string) (mode : Z) (fi : option fuse_file_info)
    : A (Z * option fuse_file_info) :=
  match fi with
  | None => mret (0, None)
  | Some f =>
      translated_path ← translate_path path;
      let translated_mode := adapter_convert_mode_to_iomanx mode in
      fh ← call (IomanX_open translated_path (create_flags (fi_flags f)) translated_mode);
      if fh <? 0 then mret (fh, fi) else mret (0, Some (mk_fi (fi_flags f) fh))
  end.

Definition iomanx_adapter_fsync (path : string) (isdatasync : Z) (fi : option fuse_file_info) : A Z :=
  match fi with
  | None => mret 0
  | Some _ =>
      translated_path ← translate_path path;
      res ← call (IomanX_sync translated_path isdatasync);
      mret (or_zero res)
  end.

Definition iomanx_adapter_release (fi : option fuse_file_info) : A Z :=
  match fi with
  | None => mret 0
  | Some f => res ← call (IomanX_close (fi_fh f)); mret (or_zero res)
  end.

(** The 64-bit result of [iomanX_lseek64] goes to an [int], the offset of
    [iomanX_lseek] is one. *)
Definition iomanx_adapter_lseek (offset whence : Z) (fi : option fuse_file_info) : A Z :=
  match fi with
  | None => mret (- ENOENT)
  | Some f =>
      res64 ← call (IomanX_lseek64 (fi_fh f) offset whence);
      let res := s32 res64 in
      if res =? -48 then call (IomanX_lseek (fi_fh f) (s32 offset) whence) else mret res
  end.

(** A null [fi] ends in [iomanx_adapter_lseek]. *)
Definition iomanx_adapter_read (size offset : Z) (fi : option fuse_file_info) : A (Z * list Z) :=
  res ← iomanx_adapter_lseek offset FIO_SEEK_SET fi;
  if res <? 0 then mret (res, [])
  else f ← deref fi; call (IomanX_read (fi_fh f) (s32 size)).

Definition iomanx_adapter_write (buf : list Z) (size offset : Z) (fi : option fuse_file_info) : A Z :=
  res ← iomanx_adapter_lseek offset FIO_SEEK_SET fi;
  if res <? 0 then mret res
  else f ← deref fi; call (IomanX_write (fi_fh f) buf (s32 size)).

(** The fields of a [statvfs] are unsigned: the tests for a negative value are never
    true. *)
Definition iomanx_adapter_statfs (buf : statvfs) : A (Z * statvfs) :=
  s ← get;
  '(zonesz, _) ← call (IomanX_devctl IOMANX_MOUNT_POINT PDIOC_ZONESZ ArgNull 0 0);
  let bsize := u64 zonesz in
  if bsize <? 0 then
    mret (s32 bsize, mk_statvfs bsize bsize (f_blocks buf) (f_bfree buf) (f_bavail buf) (f_namemax buf))
  else
    assert_ (negb (bsize / 512 =? 0));;
    let blocks := u64 (totalsectors s) / (bsize / 512) in
    '(free, _) ← call (IomanX_devctl IOMANX_MOUNT_POINT PDIOC_ZONEFREE ArgNull 0 0);
    let bfree := u64 free in
    if bfree <? 0 then
      mret (s32 bfree, mk_statvfs bsize bsize blocks bfree bfree (f_namemax buf))
    else mret (0, mk_statvfs bsize bsize blocks bfree bfree 255).

Definition iomanx_adapter_unlink (path : string) : A Z :=
  translated_path ← translate_path path;
  res ← call (IomanX_remove translated_path);
  mret (or_zero res).

Definition iomanx_adapter_mkdir (path : string) (mode : Z) : A Z :=
  translated_path ← translate_path path;
  let translated_mode := adapter_convert_mode_to_iomanx mode in
  res ← call (IomanX_mkdir translated_path translated_mode);
  mret (or_zero res).

Definition iomanx_adapter_rmdir (path : string) : A Z :=
  translated_path ← translate_path path;
  res ← call (IomanX_rmdir translated_path);
  mret (or_zero res).

(** A turn of [while ((res = iomanX_dread(dp, &de)) && (res != -1))]; the loop ends
    with [res]. *)
Definition readdir_turn (dp : Z) (_ : unit) : A (unit + Z) :=
  '(res, de) ← call (IomanX_dread dp);
  if negb (res =? 0) && negb (res =? -1) then
    full ← call (Fuse_fill (de_name de) (convert_stat_to_posix (de_stat de)));
    mret (if negb (full =? 0) then inr res else inl tt)
  else mret (inr res).

Definition iomanx_adapter_readdir (fuel : nat) (path : string) : A Z :=
  translated_path ← translate_path path;
  dp ← call (IomanX_dopen translated_path);
  if dp <? 0 then mret dp
  else
    res ← loop fuel (readdir_turn dp) tt;
    call (IomanX_close dp);;
    mret res.

Definition iomanx_adapter_getattr (path : string) (stbuf : posix_stat) : A (Z * posix_stat) :=
  translated_path ← translate_path path;
  '(res, iomanx_stat) ← call (IomanX_getstat translated_path);
  mret (if res <? 0 then (res, stbuf) else (0, convert_stat_to_posix iomanx_stat)).

Definition iomanx_adapter_ftruncate (offset : Z) (fi : option fuse_file_info) : A Z :=
  res ← iomanx_adapter_lseek offset FIO_SEEK_SET fi;
  mret (or_zero res).

(** Only the mode of [posix_stat] is set: the rest is [garbage]. *)
Definition iomanx_adapter_chmod (garbage : posix_stat) (path : string) (mode : Z) : A Z :=
  let st := mk_posix_stat mode (px_size garbage) (px_ctime garbage) (px_atime garbage) (px_mtime garbage) in
  translated_path ← translate_path path;
  res ← call (IomanX_chstat translated_path (convert_stat_to_iomanx st) FIO_CST_MODE);
  mret (or_zero res).

(** Only two stamps of [iomanx_stat] are set. *)
Definition iomanx_adapter_utimens (garbage : iox_stat_t) (path : string) (atime mtime : Z) : A Z :=
  let st := mk_iox_stat (st_mode garbage) (st_attr garbage) (st_size garbage) (st_ctime garbage)
              (convert_time_to_iomanx atime) (convert_time_to_iomanx mtime) (st_hisize garbage)
              (st_private_0 garbage) (st_private_1 garbage) (st_private_2 garbage)
              (st_private_3 garbage) (st_private_4 garbage) (st_private_5 garbage) in
  translated_path ← translate_path path;
  res ← call (IomanX_chstat translated_path st (Z.lor FIO_CST_AT FIO_CST_MT));
  mret (or_zero res).

Definition iomanx_adapter_rename (from to : string) : A Z :=
  translated_from ← translate_path from;
  translated_to ← translate_path to;
  res ← call (IomanX_rename translated_from translated_to);
  mret (or_zero res).

Definition iomanx_adapter_symlink (from to : string) : A Z :=
  translated_from ← translate_path from;
  translated_to ← translate_path to;
  res ← call (IomanX_symlink translated_from translated_to);
  mret (or_zero res).

(** What is in the buffer of [size] bytes, with [buf[res] = 0]. *)
Definition iomanx_adapter_readlink (path : string) (size : Z) : A (Z * list Z) :=
  translated_path ← translate_path path;
  '(res, data) ← call (IomanX_readlink translated_path (u32 (size - 1)));
  if res <? 0 then mret (res, data)
  else
    assert_ (res <? size);;
    mret (0, overlay (Z.to_nat res) [0] data).

(** ** Start *)

(** The loop that adds up the sizes of the main partition and its sub-partitions. *)
Fixpoint add_sizes (fd : Z) (is_ : list Z) : A unit :=
  match is_ with
  | [] => mret tt
  | i :: is' =>
      '(size, _) ← call (IomanX_ioctl2 fd HIOCGETSIZE (ArgInt i) 4 0);
      s ← get;
      assert_ (fits_int (totalsectors s + size));;
      put (set_totalsectors (totalsectors s + size) s);;
      add_sizes fd is'
  end.

(** [iomanx_adapter_opt_proc]: the first argument that is no option is the device; a
    key FUSE does not have aborts the process. *)
Inductive opt_key := FUSE_OPT_KEY_OPT | FUSE_OPT_KEY_NONOPT | OtherKey.

Definition iomanx_adapter_opt_proc (opt : options) (arg : string) (key : opt_key) : A (Z * options) :=
  match key with
  | FUSE_OPT_KEY_OPT => mret (1, opt)
  | FUSE_OPT_KEY_NONOPT =>
      if (String.length (opt_device opt) =? 0)%nat then
        mret (0, mk_options arg (opt_partition opt) (opt_maxopen opt) (opt_numbuffers opt) (opt_show_help opt))
      else mret (1, opt)
  | OtherKey => eprintf (ln "internal error") [];; exit_ 134
  end.

(** [option_spec]: the templates FUSE matches arguments with, and the field each sets. *)
Inductive option_field := Opt_partition | Opt_maxopen | Opt_numbuffers | Opt_show_help.

Definition option_spec : list (string * option_field) :=
  [("--partition=%s", Opt_partition);
   ("--maxopen=%s", Opt_maxopen);
   ("--buffers=%s", Opt_numbuffers);
   ("-h", Opt_show_help);
   ("--help", Opt_show_help)]%string.

Definition default_options : options := mk_options "" "__common" "32" "127" false.

Definition show_help (progname : string) : A unit :=
  printf (ln (ln "usage: %s [options] <disk> <mountpoint>")) [PStr progname];;
  printf (ln "File-system specific options:" +:+
          ln "    --partition=<s>      PFS partition in APA to mount" +:+
          ln ("                         (default " +:+ dq +:+ "__common" +:+ dq +:+ ")") +:+
          ln "    --maxopen=<d>        Maximum number of files that can be opened at one time" +:+
          ln ("                         (default " +:+ dq +:+ "32" +:+ dq +:+ ", max " +:+ dq +:+ "32" +:+ dq +:+ ")") +:+
          ln "    --numbuffers=<d>     Maximum number of buffers" +:+
          ln ("                         (default " +:+ dq +:+ "127" +:+ dq +:+ ", max " +:+ dq +:+ "127" +:+ dq +:+ ")") +:+
          ln "")%string [].

(** [main] once FUSE has parsed the options.  [fuse_opt_add_arg] and [fuse_main], which
    runs the operations, are FUSE's. *)
Definition adapter_start (fuse_main : A Z) (garbage : Z) (opt : options) : A Z :=
  zoom ad_atad set_ad_atad (set_atad_device_path (opt_device opt));;
  result ← call (Init_module "_init_apa" ["ps2hdd.irx"]);
  if result <? 0 then
    eprintf (ln "(!) init_apa: failed with %d (%s)") [PInt result; PStrerror (- result)];; mret 1
  else
    result ← call (Init_module "_init_pfs"
                ["pfs.irx"; "-m"; "1"; "-o"; opt_maxopen opt; "-n"; opt_numbuffers opt]);
    if result <? 0 then
      eprintf (ln "(!) init_pfs: failed with %d (%s)") [PInt result; PStrerror (- result)];; mret 1
    else
      let mount_point := ("hdd0:" +:+ String.substring 0 250 (opt_partition opt))%string in
      modify (set_totalsectors 0);;
      fd ← call (IomanX_open mount_point FIO_O_RDONLY garbage);
      '(nsub, _) ← call (IomanX_ioctl2 fd HIOCNSUB ArgNull 0 0);
      add_sizes fd (seqZ 0 (nsub + 1));;
      call (IomanX_close fd);;
      result ← call (IomanX_mount IOMANX_MOUNT_POINT mount_point 0 ArgNull 0);
      if result <? 0 then
        eprintf (ln "(!) %s: %s.") [PStr mount_point; PStrerror (- result)];; mret 1
      else fuse_main.

Definition adapter_main (fuse_opt_add_arg : A Z) (fuse_main : A Z) (garbage : Z) (progname : string)
    (opt : options) : A Z :=
  if (String.length (opt_device opt) =? 0)%nat || opt_show_help opt then
    show_help progname;;
    added ← fuse_opt_add_arg;
    if negb (added =? 0) then mret 1 else adapter_start fuse_main garbage opt
  else adapter_start fuse_main garbage opt.

(** All of [main]; [fuse_opt_parse] is FUSE's. *)
Definition adapter_program
    (fuse_opt_parse : options -> list (string * option_field) ->
                      (options -> string -> opt_key -> A (Z * options)) -> A (Z * options))
    (fuse_opt_add_arg : A Z) (fuse_main : A Z) (garbage : Z) (progname : string) : A Z :=
  '(parsed, opt) ← fuse_opt_parse default_options option_spec iomanx_adapter_opt_proc;
  if parsed =? -1 then mret 1 else adapter_main fuse_opt_add_arg fuse_main garbage progname opt.

(** ** The table of operations *)

Inductive fuse_op :=
  | FuseGetattr (path : string) (stbuf : posix_stat)
  | FuseReadlink (path : string) (size : Z)
  | FuseMkdir (path : string) (mode : Z)
  | FuseUnlink (path : string)
  | FuseRmdir (path : string)
  | FuseSymlink (from to : string)
  | FuseRename (from to : string)
  | FuseChmod (garbage : posix_stat) (path : string) (mode : Z)
  | FuseFtruncate (offset : Z) (fi : option fuse_file_info)
  | FuseOpen (garbage : Z) (path : string) (fi : option fuse_file_info)
  | FuseRead (size offset : Z) (fi : option fuse_file_info)
  | FuseWrite (buf : list Z) (size offset : Z) (fi : option fuse_file_info)
  | FuseStatfs (buf : statvfs)
  | FuseRelease (fi : option fuse_file_info)
  | FuseFsync (path : string) (isdatasync : Z) (fi : option fuse_file_info)
  | FuseReaddir (fuel : nat) (path : string)
  | FuseInit
  | FuseDestroy
  | FuseCreate (path : string) (mode : Z) (fi : option fuse_file_info)
  | FuseUtimens (garbage : iox_stat_t) (path : string) (atime mtime : Z).

(** The value an operation returns; [init] and [destroy] have none. *)
Definition iomanx_adapter_operations (op : fuse_op) : A Z :=
  match op with
  | FuseGetattr path st => '(r, _) ← iomanx_adapter_getattr path st; mret r
  | FuseReadlink path size => '(r, _) ← iomanx_adapter_readlink path size; mret r
  | FuseMkdir path mode => iomanx_adapter_mkdir path mode
  | FuseUnlink path => iomanx_adapter_unlink path
  | FuseRmdir path => iomanx_adapter_rmdir path
  | FuseSymlink from to => iomanx_adapter_symlink from to
  | FuseRename from to => iomanx_adapter_rename from to
  | FuseChmod garbage path mode => iomanx_adapter_chmod garbage path mode
  | FuseFtruncate offset fi => iomanx_adapter_ftruncate offset fi
  | FuseOpen garbage path fi => '(r, _) ← iomanx_adapter_open garbage path fi; mret r
  | FuseRead size offset fi => '(r, _) ← iomanx_adapter_read size offset fi; mret r
  | FuseWrite buf size offset fi => iomanx_adapter_write buf size offset fi
  | FuseStatfs buf => '(r, _) ← iomanx_adapter_statfs buf; mret r
  | FuseRelease fi => iomanx_adapter_release fi
  | FuseFsync path isdatasync fi => iomanx_adapter_fsync path isdatasync fi
  | FuseReaddir fuel path => iomanx_adapter_readdir fuel path
  | FuseInit => iomanx_adapter_init;; mret 0
  | FuseDestroy => iomanx_adapter_destroy;; mret 0
  | FuseCreate path mode fi => '(r, _) ← iomanx_adapter_create path mode fi; mret r
  | FuseUtimens garbage path atime mtime => iomanx_adapter_utimens garbage path atime mtime
  end.
End Operations.
