(* ===== verification/AdapterProps.v ===== *)
(** * The FUSE adapter: properties *)

From S2P Require Import Prelude IoWorld Trace Modes Clock Shm Tar Atad Adapter.

(** ** Names and records handed to the file layer *)

Definition adapter_root : string := (IOMANX_MOUNT_POINT +:+ "/")%string.

(** A call on something else than the mounted partition. *)
Definition outside {A} (c : ioE A) : bool :=
  match c with
  | IomanX_open n _ _ | IomanX_remove n | IomanX_mkdir n _ | IomanX_rmdir n | IomanX_dopen n
  | IomanX_getstat n | IomanX_chstat n _ _ | IomanX_sync n _ | IomanX_readlink n _ =>
      negb (String.prefix adapter_root n)
  | IomanX_rename o n | IomanX_symlink o n =>
      negb (String.prefix adapter_root o) || negb (String.prefix adapter_root n)
  | IomanX_umount n | IomanX_devctl n _ _ _ _ => negb (String.eqb n IOMANX_MOUNT_POINT)
  | IomanX_mount _ _ _ _ _ | IomanX_format _ _ _ _ | IomanX_chdir _ | Init_module _ _
  | IomanX_ioctl _ _ _ | IomanX_ioctl2 _ _ _ _ _ => true
  | _ => false
  end.

Section Safe.
Context {E : Type} `{Handler E, TimeLib}.
Local Abbreviation A := (M adapter E).

Lemma prefix_root path : String.prefix adapter_root (IOMANX_MOUNT_POINT +:+ "/" +:+ path) = true.
Proof. by destruct path. Qed.

Lemma close_device_confined :
  avoids (fun _ => True) (@outside) (zoom ad_atad set_ad_atad atad_close : A unit).
Proof. apply avoids_zoom; [done|]. unfold atad_close. repeat avoids_step; done. Qed.
End Safe.

#[export] Hint Resolve close_device_confined : avoids.

Ltac unfold_operation :=
  unfold iomanx_adapter_getattr, iomanx_adapter_readlink, iomanx_adapter_mkdir,
    iomanx_adapter_unlink, iomanx_adapter_rmdir, iomanx_adapter_symlink, iomanx_adapter_rename,
    iomanx_adapter_chmod, iomanx_adapter_ftruncate, iomanx_adapter_open, iomanx_adapter_read,
    iomanx_adapter_write, iomanx_adapter_statfs, iomanx_adapter_release, iomanx_adapter_fsync,
    iomanx_adapter_readdir, iomanx_adapter_init, iomanx_adapter_destroy, iomanx_adapter_create,
    iomanx_adapter_utimens, iomanx_adapter_lseek, readdir_turn, translate_path.

(** C13: the adapter stays on its partition: whatever FUSE asks and the file layer
    answers, every name an operation hands to the file layer begins with [pfs0:/], what
    it asks of a device it asks of [pfs0:], and it mounts, formats and starts nothing. *)
Theorem adapter_confined `{Handler E, TimeLib} op :
  avoids (fun _ : adapter => True) (@outside) (iomanx_adapter_operations op : M adapter E Z).
Proof.
  destruct op; cbn [iomanx_adapter_operations]; unfold_operation; repeat avoids_step;
    try (unfold outside; rewrite !prefix_root; reflexivity).
Qed.

(** ** The status of a file *)

(** What a change of status takes from the new one: the permissions, or times. *)
Definition changed (mask : Z) (new old : iox_stat_t) : iox_stat_t :=
  mk_iox_stat
    (if flag mask FIO_CST_MODE then Z.lor (Z.land (st_mode old) FIO_S_IFMT) (Z.land (st_mode new) 0xFFF)
     else st_mode old)
    (st_attr old) (st_size old)
    (if flag mask FIO_CST_CT then st_ctime new else st_ctime old)
    (if flag mask FIO_CST_AT then st_atime new else st_atime old)
    (if flag mask FIO_CST_MT then st_mtime new else st_mtime old)
    (st_hisize old) (st_private_0 old) (st_private_1 old) (st_private_2 old) (st_private_3 old)
    (st_private_4 old) (st_private_5 old).

(** A file layer that keeps the status of its files: changes of mode and times. *)
Class StatusKept (E : Type) `{Handler E} := {
  status : E -> string -> option iox_stat_t;
  status_chstat : forall e n new mask old,
    status e n = Some old -> Z.land mask 0x39 = mask ->
    exists e', handle (IomanX_chstat n new mask) e = (0, e') /\
               status e' n = Some (changed mask new old);
  status_getstat : forall e n st,
    status e n = Some st -> exists e', handle (IomanX_getstat n) e = ((0, st), e')
}.

(** The eight bytes of a time: its calendar date nine hours earlier. *)
Definition stamp_of (t : Z) : list Z :=
  let b := greg_gmtime (t - 9 * 3600) in
  [0; tm_sec b; tm_min b; tm_hour b; tm_mday b; tm_mon b + 1;
   (tm_year b + 1900) mod 256; (tm_year b + 1900) / 256].

Definition is_chstat {A} (c : ioE A) : bool :=
  match c with IomanX_chstat _ _ _ => true | _ => false end.

(** The years 0 to 65535 that eight bytes can say. *)
Definition stampable (t : Z) : Prop := -62167219200 + 32400 <= t < 2005949145600 + 32400.

Lemma stamp_of_time t : stampable t -> convert_time_to_iomanx t = stamp_of t.
Proof.
  intros Ht. unfold stampable in Ht. pose proof (greg_year_bounds (t - 32400) ltac:(lia)) as Hy.
  rewrite time_to_iomanx_fields by exact Hy. unfold stamp_of. change (t - 9 * 3600) with (t - 32400).
  cbn [gmtime gregorian]. set (y := tm_year (greg_gmtime (t - 32400)) + 1900) in *.
  rewrite Z.shiftr_div_pow2 by lia. by rewrite (uwrap_small 8 (y / 2 ^ 8)) by dlia.
Qed.

Lemma time_of_posix_time t : stampable t -> convert_time_to_posix (convert_time_to_iomanx t) = t.
Proof.
  intros Ht. unfold stampable in Ht. apply time_posix_iomanx_posix. apply greg_year_bounds. lia.
Qed.

Lemma changed_type mode old :
  Z.land (Z.lor (Z.land old FIO_S_IFMT) (Z.land mode 0xFFF)) FIO_S_IFMT = Z.land old FIO_S_IFMT.
Proof.
  rewrite Z.land_lor_distr_l, <- !Z.land_assoc.
  change (Z.land FIO_S_IFMT FIO_S_IFMT) with FIO_S_IFMT. change (Z.land 0xFFF FIO_S_IFMT) with 0.
  by rewrite Z.land_0_r, Z.lor_0_r.
Qed.

Lemma changed_perm mode old i :
  0 <= i < 12 -> Z.testbit (Z.lor (Z.land old FIO_S_IFMT) (Z.land mode 0xFFF)) i = Z.testbit mode i.
Proof.
  intros Hi. rewrite Z.lor_spec, !Z.land_spec. assert (Hi' := enum16 i ltac:(lia)).
  unfold FIO_S_IFMT. enum Hi'; try lia; const_bits;
    repeat match goal with |- context [Z.testbit ?x _] => destruct (Z.testbit x _) end; reflexivity.
Qed.

(** The mode FUSE is shown after [chmod mode] of a file with mode [old]: every class may
    do what some class may, the other bits are [mode]'s, the type is the file's. *)
Record shown_mode (mode old shown : Z) : Prop := {
  sm_perm : forall k c, k ∈ [0; 1; 2] -> c ∈ [0; 3; 6] -> Z.testbit shown (k + c) = any_class mode k;
  sm_special : forall k, 9 <= k < 12 -> Z.testbit shown k = Z.testbit mode k;
  sm_type : forall k, 12 <= k < 16 -> Z.testbit shown k = Z.testbit (adapter_convert_mode_to_posix old) k
}.

Lemma shown_mode_changed mode old :
  shown_mode mode old (adapter_convert_mode_to_posix
    (Z.lor (Z.land old FIO_S_IFMT) (Z.land (adapter_convert_mode_to_iomanx mode) 0xFFF))).
Proof.
  set (n := Z.lor _ _).
  assert (Hp : forall k, k ∈ [0; 1; 2] -> any_class n k = any_class mode k).
  { intros k Hk. unfold any_class at 1. assert (0 <= k < 3) by (enum Hk; lia). unfold n.
    rewrite !changed_perm by lia. rewrite !adapter_to_iomanx_perm by (done || list_mem).
    rewrite <- (Z.add_0_r k) at 1. rewrite adapter_to_iomanx_perm by (done || list_mem).
    by rewrite !orb_diag. }
  assert (Ht : FIO_S_ISLNK n = FIO_S_ISLNK old /\ FIO_S_ISREG n = FIO_S_ISREG old /\
               FIO_S_ISDIR n = FIO_S_ISDIR old).
  { unfold FIO_S_ISLNK, FIO_S_ISREG, FIO_S_ISDIR, n. by rewrite !changed_type. }
  destruct Ht as (Hl & Hr & Hd).
  destruct (adapter_to_posix_type n) as (T12 & T13 & T14 & T15).
  destruct (adapter_to_posix_type old) as (O12 & O13 & O14 & O15).
  unfold b12, b13, b14, b15 in *.
  split.
  - intros k c Hk Hc. by rewrite adapter_to_posix_perm, Hp.
  - intros k Hk. rewrite adapter_to_posix_special by done. unfold n.
    by rewrite changed_perm, adapter_to_iomanx_special by lia.
  - intros k Hk. assert (Hk' := enum16 k ltac:(lia)).
    enum Hk'; try lia; rewrite ?T12, ?T13, ?T14, ?T15, ?O12, ?O13, ?O14, ?O15, ?Hl, ?Hr, ?Hd; done.
Qed.

(** ** Reading at an offset *)

(** Open files that can be sought: [file_at e fd] is the content of a descriptor. *)
Class SeekableReads (E : Type) `{FileReads E} := {
  file_at : E -> Z -> option (list Z);
  lseek64_at : forall e fd off l, 0 <= off -> file_at e fd = Some l ->
    exists e', handle (IomanX_lseek64 fd off FIO_SEEK_SET) e = (off, e') /\
               unread e' fd = Some (drop (Z.to_nat off) l)
}.

Definition reads_made (t : trace) : list (Z * Z) :=
  omap (fun ev => match ev with Ev c _ => match c with IomanX_read fd n => Some (fd, n) | _ => None end end) t.

(** C12: a read at an offset: where the offset is an [int], FUSE gets the bytes of the
    file from there on, as many as it asked for or as are left.  An offset of 2 GiB or
    more is cut to 32 bits for the test on the seek: where these make a negative number
    the read fails with it, and nothing is read. *)
Theorem adapter_read_at `{SeekableReads E, TimeLib} size off f l s e :
  0 <= off -> 0 <= size < 2 ^ 31 -> s32 off <> -48 -> file_at e (fi_fh f) = Some l ->
  wp (iomanx_adapter_read size off (Some f) : M adapter E (Z * list Z)) (fun r s' _ t =>
    let x := take (Z.to_nat size) (drop (Z.to_nat off) l) in
    s' = s /\
    if s32 off <? 0 then r = Ret (s32 off, []) /\ reads_made t = []
    else r = Ret (Z.of_nat (length x), x) /\ reads_made t = [(fi_fh f, size)]) s e.
Proof.
  intros Hoff Hsize Hcut Hf. unfold iomanx_adapter_read, iomanx_adapter_lseek.
  destruct (lseek64_at e (fi_fh f) off l Hoff Hf) as (e1 & Hseek & Hun).
  apply wp_bind, wp_bind, wp_call. intros r e2 Hr. rewrite Hseek in Hr. injection Hr as <- <-.
  cbn [bind_post]. rewrite (proj2 (Z.eqb_neq _ _)) by done. apply wp_ret. cbn [bind_post].
  destruct (s32 off <? 0) eqn:Hneg; [by apply wp_ret|].
  apply wp_bind, wp_deref. cbn [bind_post]. apply wp_call. intros r e3 Hr.
  assert (Hsz : s32 size = size) by (unfold swrap; rewrite Z.mod_small; lia).
  destruct (read_unread e1 (fi_fh f) (s32 size) _ ltac:(lia) Hun) as (e4 & Hread & _).
  rewrite Hread in Hr. injection Hr as <- <-. rewrite Hsz. by split_and!.
Qed.

Lemma root_fits path :
  (String.length path < 1018)%nat ->
  (String.length (IOMANX_MOUNT_POINT +:+ "/" +:+ path) <? 1024)%nat = true.
Proof.
  intros Hp. apply Nat.ltb_lt. rewrite !length_append. unfold IOMANX_MOUNT_POINT. cbn [String.length]. lia.
Qed.

Section Status.
Context {E : Type} `{StatusKept E}.
Local Abbreviation A := (M adapter E).

Lemma wp_translate {B} path (k : string -> A B) Q s e :
  (String.length path < 1018)%nat -> wp (k (adapter_root +:+ path)%string) Q s e ->
  wp (translate_path path ≫= k) Q s e.
Proof using.
  intros Hp Hk. unfold translate_path. apply wp_bind, wp_bind, wp_assert; intros Hlen; cbn [bind_post].
  - apply wp_ret. exact Hk.
  - by rewrite root_fits in Hlen.
Qed.

(** C14: a change of mode and times through the adapter is what it shows next.  On a file
    layer that keeps the status of its files, [chmod] passes on the mode converted, for
    the mode alone, and [utimens] the calendar dates of the two times, for these alone;
    [getattr] then shows the permissions of [mode] with every class allowed what one was,
    the two times to the second, and the type, the size and the third time of the file. *)
Theorem adapter_status_roundtrip garbage garbage2 path mode atime mtime buf old s e :
  (String.length path < 1018)%nat -> stampable atime -> stampable mtime ->
  status e (adapter_root +:+ path) = Some old ->
  wp (r1 ← iomanx_adapter_chmod garbage path mode;
      r2 ← iomanx_adapter_utimens garbage2 path atime mtime;
      '(r3, out) ← iomanx_adapter_getattr path buf;
      mret (r1, r2, r3, out) : A (Z * Z * Z * posix_stat))
     (fun r s' _ t => s' = s /\ exists st1 st2 out, r = Ret (0, 0, 0, out) /\
        calls_of (@is_chstat) t =
          [Ev (IomanX_chstat (adapter_root +:+ path) st1 FIO_CST_MODE) 0;
           Ev (IomanX_chstat (adapter_root +:+ path) st2 (Z.lor FIO_CST_AT FIO_CST_MT)) 0] /\
        st_mode st1 = adapter_convert_mode_to_iomanx mode /\
        st_atime st2 = stamp_of atime /\ st_mtime st2 = stamp_of mtime /\
        shown_mode mode (st_mode old) (px_mode out) /\
        px_atime out = atime /\ px_mtime out = mtime /\
        px_ctime out = convert_time_to_posix (st_ctime old) /\
        px_size out = posix_size (st_size old) (st_hisize old)) s e.
Proof.
  intros Hp Ha Hm Hold. unfold iomanx_adapter_chmod, iomanx_adapter_utimens, iomanx_adapter_getattr. cbv zeta.
  apply wp_bind, wp_translate; [done|]. apply wp_bind, wp_call. intros r1 e1 Hr1.
  destruct (status_chstat e _ (convert_stat_to_iomanx (mk_posix_stat mode (px_size garbage) (px_ctime garbage)
    (px_atime garbage) (px_mtime garbage))) FIO_CST_MODE old Hold eq_refl) as (e1' & Hc1 & Hs1).
  rewrite Hc1 in Hr1. injection Hr1 as <- <-. cbn [bind_post]. apply wp_ret. cbn [bind_post].
  apply wp_bind, wp_translate; [done|]. apply wp_bind, wp_call. intros r2 e2 Hr2.
  match type of Hr2 with handle (IomanX_chstat _ ?st ?mask) _ = _ =>
    destruct (status_chstat e1' _ st mask _ Hs1 eq_refl) as (e2' & Hc2 & Hs2) end.
  rewrite Hc2 in Hr2. injection Hr2 as <- <-. cbn [bind_post]. apply wp_ret. cbn [bind_post].
  apply wp_bind, wp_translate; [done|]. apply wp_bind, wp_call. intros [r3 st3] e3 Hr3.
  destruct (status_getstat e2' _ _ Hs2) as (e3' & Hg). rewrite Hg in Hr3. injection Hr3 as <- <- <-.
  cbn [bind_post]. apply wp_ret. cbn [bind_post]. apply wp_ret. split; [done|].
  do 3 eexists. split; [reflexivity|]. split; [reflexivity|].
  cbn [st_mode convert_stat_to_iomanx px_mode st_atime st_mtime].
  split; [done|]. split; [by apply stamp_of_time|]. split; [by apply stamp_of_time|].
  cbn [px_mode px_atime px_mtime px_ctime px_size convert_stat_to_posix changed st_mode st_atime
       st_mtime st_ctime st_size st_hisize].
  change (flag FIO_CST_MODE FIO_CST_MODE) with true.
  split; [apply shown_mode_changed|].
  split; [exact (time_of_posix_time atime Ha)|]. split; [exact (time_of_posix_time mtime Hm)|done].
Qed.
End Status.

(** ** Listing a directory *)

(** Directories a driver lists: the entries ahead of a descriptor, each read gives the
    next one with a positive result, and 0 when there is none. *)
Class DirReads (E : Type) `{Handler E} := {
  entries : E -> Z -> option (list iox_dirent_t);
  dread_next : forall e fd de l, entries e fd = Some (de :: l) ->
    exists r e', handle (IomanX_dread fd) e = ((r, de), e') /\ 0 < r /\ entries e' fd = Some l;
  dread_end : forall e fd, entries e fd = Some [] ->
    exists de e', handle (IomanX_dread fd) e = ((0, de), e');
  fill_frame : forall e fd name st, entries (handle (Fuse_fill name st) e).2 fd = entries e fd
}.

(** What the listing hands to FUSE. *)
Fixpoint fills (t : trace) : list (string * posix_stat) :=
  match t with
  | [] => []
  | Ev c _ :: t' => match c with Fuse_fill name st => (name, st) :: fills t' | _ => fills t' end
  end.

Lemma fills_app t1 t2 : fills (t1 ++ t2) = fills t1 ++ fills t2.
Proof. induction t1 as [|[A c r] t1 IH]; [done|]. cbn. destruct c; cbn; by rewrite ?IH. Qed.

(** The first entry FUSE has no room for. *)
Fixpoint refused (t : trace) : bool :=
  match t with
  | [] => false
  | Ev c r :: t' =>
      match c in ioE A return A -> bool with Fuse_fill _ _ => fun r => negb (r =? 0) | _ => fun _ => false end r
      || refused t'
  end.

Section Readdir.
Context {E : Type} `{Handler E, TimeLib}.
Local Abbreviation A := (M adapter E).

Definition shown (de : iox_dirent_t) : string * posix_stat :=
  (de_name de, convert_stat_to_posix (de_stat de)).

Lemma readdir_loop `{!DirReads E} dp fuel : forall l s e,
  (length l < fuel)%nat -> entries e dp = Some l ->
  wp (loop fuel (readdir_turn dp) tt : A Z) (fun r s' _ t => s' = s /\ exists v, r = Ret v /\
    ((v = 0 /\ refused t = false /\ fills t = map shown l) \/
     (0 < v /\ refused t = true /\ exists k, fills t = map shown (take k l)))) s e.
Proof.
  induction fuel as [|fuel IH]; intros l s e Hfuel Hl; [lia|].
  apply wp_loop_S. unfold readdir_turn at 1. apply wp_bind, wp_call. intros [res de] e1 He1.
  cbn [bind_post]. destruct l as [|d l].
  - destruct (dread_end e dp Hl) as (de' & e' & Hend). rewrite Hend in He1. injection He1 as <- <- <-.
    apply wp_ret, wp_ret. split; [done|]. exists 0. split; [done|]. by left.
  - destruct (dread_next e dp d l Hl) as (r & e' & Hnext & Hr & Hl1). rewrite Hnext in He1.
    injection He1 as <- <- <-. rewrite (proj2 (Z.eqb_neq r 0)), (proj2 (Z.eqb_neq r (-1))) by lia.
    cbn [negb andb]. apply wp_bind, wp_call. intros full e2 He2. cbn [bind_post]. apply wp_ret. cbn [bind_post].
    assert (Hl2 : entries e2 dp = Some l).
    { rewrite <- Hl1. change e2 with (full, e2).2. rewrite <- He2. by apply fill_frame. }
    destruct (full =? 0) eqn:Hfull; cbn [negb].
    + eapply wp_mono; [apply (IH l s e2); [simpl in Hfuel; lia|exact Hl2]|]. cbv beta.
      intros r0 s' e3 t (-> & v & -> & Hv). split; [done|]. exists v. split; [done|].
      cbn [fills refused app map]. rewrite Hfull. cbn [negb orb]. destruct Hv as [(-> & Href & Hfl)|(Hv & Href & k & Hfl)].
      * left. by rewrite Hfl.
      * right. split; [done|]. split; [done|]. exists (S k). by rewrite Hfl.
    + apply wp_ret. split; [done|]. exists r. split; [done|]. right. split; [done|].
      cbn [fills refused app]. rewrite Hfull. split; [done|]. by exists 1%nat.
Qed.

(** C11: a listing hands FUSE every entry of the directory once and in order, with its
    status converted, returns 0 and closes what it opened; where FUSE has no room for an
    entry it stops there, and returns a positive number. *)
Theorem adapter_readdir_lists `{!DirReads E} fuel path l dp s e :
  (String.length path < 1018)%nat -> (length l < fuel)%nat ->
  (exists e', handle (IomanX_dopen (adapter_root +:+ path)) e = (dp, e') /\ entries e' dp = Some l) ->
  0 <= dp ->
  wp (iomanx_adapter_readdir fuel path : A Z) (fun r s' _ t => s' = s /\
    (exists c, Ev (IomanX_close dp) c ∈ t) /\ exists v, r = Ret v /\
    ((v = 0 /\ refused t = false /\ fills t = map shown l) \/
     (0 < v /\ refused t = true /\ exists k, fills t = map shown (take k l)))) s e.
Proof.
  intros Hpath Hfuel (e' & Hopen & Hl) Hdp. unfold iomanx_adapter_readdir, translate_path.
  apply wp_bind, wp_bind, wp_assert; intros Hlen; cbn [bind_post].
  2: { by rewrite root_fits in Hlen. }
  apply wp_ret. cbn [bind_post]. apply wp_bind, wp_call. intros d e1 He1.
  change (IOMANX_MOUNT_POINT +:+ "/" +:+ path)%string with (adapter_root +:+ path)%string in He1.
  rewrite Hopen in He1. injection He1 as <- <-. cbn [bind_post].
  rewrite (proj2 (Z.ltb_ge dp 0)) by done. apply wp_bind. eapply wp_mono.
  { apply readdir_loop; [exact Hfuel|exact Hl]. }
  cbv beta. intros r s' e2 t (-> & v & -> & Hv). cbn [bind_post].
  apply wp_bind, wp_call. intros c e3 _. cbn [bind_post]. apply wp_ret. split; [done|]. split.
  - exists c. rewrite !elem_of_app, elem_of_cons, !elem_of_cons. tauto.
  - exists v. split; [done|]. cbn [app].
    assert (Hf : fills (Ev (IomanX_dopen (IOMANX_MOUNT_POINT +:+ "/" +:+ path)) dp :: t ++ [Ev (IomanX_close dp) c]) = fills t)
      by (cbn [fills]; rewrite fills_app; cbn [fills]; apply app_nil_r).
    assert (Hr : refused (Ev (IomanX_dopen (IOMANX_MOUNT_POINT +:+ "/" +:+ path)) dp :: t ++ [Ev (IomanX_close dp) c]) = refused t).
    { cbn [refused orb]. clear. induction t as [|[X x y] t IH]; [done|]. cbn [app refused]. by rewrite IH. }
    rewrite Hf, Hr. exact Hv.
Qed.

(** A directory that cannot be read is read for ever: where the driver goes on
    answering with an error other than -1 and FUSE takes what it is handed, the listing
    does not end. *)
Theorem adapter_readdir_diverges fuel path err dp s e :
  (String.length path < 1018)%nat -> err < -1 -> 0 <= dp ->
  (forall e, (handle (IomanX_dopen (adapter_root +:+ path)) e).1 = dp) ->
  (forall e, (handle (IomanX_dread dp) e).1.1 = err) ->
  (forall e name st, (handle (Fuse_fill name st) e).1 = 0) ->
  wp (iomanx_adapter_readdir fuel path : A Z) (fun r _ _ _ => r = OutOfFuel) s e.
Proof.
  intros Hpath Herr Hdp Hopen Hread Hfill. unfold iomanx_adapter_readdir, translate_path.
  apply wp_bind, wp_bind, wp_assert; intros Hlen; cbn [bind_post].
  2: { by rewrite root_fits in Hlen. }
  apply wp_ret. cbn [bind_post]. apply wp_bind, wp_call. intros d e1 He1.
  assert (d = dp) as -> by (rewrite <- (Hopen e); by change (adapter_root +:+ path)%string
    with (IOMANX_MOUNT_POINT +:+ "/" +:+ path)%string; rewrite He1). cbn [bind_post].
  rewrite (proj2 (Z.ltb_ge dp 0)) by done. apply wp_bind. clear He1 Hlen.
  assert (Hloop : forall e, wp (loop fuel (readdir_turn dp) tt : A Z) (fun r _ _ _ => r = OutOfFuel) s e).
  { clear e e1. induction fuel as [|fuel IH]; intros e; [done|].
    apply wp_loop_S. unfold readdir_turn at 1. apply wp_bind, wp_call. intros [res de] e1 He1.
    assert (res = err) as -> by (rewrite <- (Hread e); by rewrite He1). cbn [bind_post].
    rewrite (proj2 (Z.eqb_neq err 0)), (proj2 (Z.eqb_neq err (-1))) by lia. cbn [negb andb].
    apply wp_bind, wp_call. intros full e2 He2. cbn [bind_post].
    assert (full = 0) as -> by (rewrite <- (Hfill e1 (de_name de) (convert_stat_to_posix (de_stat de))); by rewrite He2).
    apply wp_ret. cbn. eapply wp_mono; [apply IH|]. done. }
  eapply wp_mono; [apply Hloop|]. by intros r s' e' t ->.
Qed.
End Readdir.

(** ** Witnesses *)

Module AdapterSample.
(** A directory as the entries ahead, and one file with its position. *)
Inductive fs_env := FsEnv (dir : list iox_dirent_t) (file ahead : list Z).

#[export] Instance fs_handler : Handler fs_env := fun A c '(FsEnv d f p) =>
  match c in ioE A return A * fs_env with
  | IomanX_dopen _ => (3, FsEnv d f p)
  | IomanX_dread _ =>
      match d with
      | [] => ((0, mk_iox_dirent iox_stat_zero ""), FsEnv d f p)
      | de :: d' => ((1, de), FsEnv d' f p)
      end
  | IomanX_lseek64 _ off _ => (off, FsEnv d f (drop (Z.to_nat off) f))
  | IomanX_read _ n =>
      ((Z.of_nat (length (take (Z.to_nat n) p)), take (Z.to_nat n) p), FsEnv d f (drop (Z.to_nat n) p))
  | c => (default_answer c, FsEnv d f p)
  end.

#[export] Instance fs_reads : FileReads fs_env.
Proof.
  refine {| unread := fun '(FsEnv _ _ p) _ => Some p |}.
  intros [d f p] fd n rest Hn [= ->]. eexists. split; reflexivity.
Defined.

#[export] Instance fs_seeks : SeekableReads fs_env.
Proof.
  refine {| file_at := fun '(FsEnv _ f _) _ => Some f |}.
  intros [d f p] fd off l Hoff [= ->]. eexists. split; reflexivity.
Defined.

#[export] Instance fs_dirs : DirReads fs_env.
Proof.
  refine {| entries := fun '(FsEnv d _ _) _ => Some d |}.
  - intros [d f p] fd de l [= ->]. exists 1, (FsEnv l f p). split_and!; [reflexivity|lia|reflexivity].
  - intros [d f p] fd [= ->]. eexists _, _. reflexivity.
  - by intros [d f p] fd name st.
Defined.

(** A directory the driver cannot read. *)
Definition unreadable : Handler unit := fun A c e =>
  match c in ioE A return A * unit with
  | IomanX_dopen _ => (3, e)
  | IomanX_dread _ => ((-5, mk_iox_dirent iox_stat_zero ""), e)
  | c => (default_answer c, e)
  end.

(** One file, whose status is the state. *)
#[export] Instance one_status : Handler iox_stat_t := fun A c e =>
  match c in ioE A return A * iox_stat_t with
  | IomanX_chstat _ new mask => (0, changed mask new e)
  | IomanX_getstat _ => ((0, e), e)
  | c => (default_answer c, e)
  end.

#[export] Instance one_status_kept : StatusKept iox_stat_t.
Proof.
  refine {| status := fun e _ => Some e |}.
  - intros e n new mask old [= ->] _. by eexists.
  - intros e n st [= ->]. by eexists.
Defined.

Definition sample_status : iox_stat_t :=
  mk_iox_stat 0x21FF 0 7 (replicate 8 0) (replicate 8 0) (replicate 8 0) 0 0 0 0 0 0 0.
Definition sample_adapter : adapter := mk_adapter 1000 (mk_atad 7 1000).
Definition sample_dir : list iox_dirent_t :=
  [mk_iox_dirent iox_stat_zero "a"; mk_iox_dirent iox_stat_zero "b"].
End AdapterSample.
Import AdapterSample.

Lemma adapter_status_roundtrip_witness :
  wp (r1 ← iomanx_adapter_chmod (mk_posix_stat 0 0 0 0 0) "/x" 0x8180;
      r2 ← iomanx_adapter_utimens iox_stat_zero "/x" 951901199 1000000000;
      '(r3, out) ← iomanx_adapter_getattr "/x" (mk_posix_stat 0 0 0 0 0);
      mret (r1, r2, r3, out))
     (fun r _ _ _ => exists out, r = Ret (0, 0, 0, out) /\ px_atime out = 951901199 /\ px_mtime out = 1000000000)
     sample_adapter sample_status.
Proof.
  eapply wp_mono; [apply (adapter_status_roundtrip (mk_posix_stat 0 0 0 0 0) iox_stat_zero "/x" 0x8180
    951901199 1000000000 (mk_posix_stat 0 0 0 0 0) sample_status)|].
  - cbn. lia.
  - unfold stampable. lia.
  - unfold stampable. lia.
  - reflexivity.
  - intros r s' e' t (_ & st1 & st2 & out & Hr & _ & _ & _ & _ & _ & Ha & Hm & _). by exists out.
Defined.

Lemma adapter_read_at_witness :
  wp (iomanx_adapter_read 2 1 (Some (mk_fi 0 5))) (fun r _ _ _ => r = Ret (2, [11; 12]))
     sample_adapter (FsEnv [] [10; 11; 12; 13] []).
Proof.
  eapply wp_mono; [apply (adapter_read_at 2 1 (mk_fi 0 5) [10; 11; 12; 13])|].
  - lia.
  - lia.
  - by vm_compute.
  - reflexivity.
  - intros r s' e' t (_ & Hr & _). exact Hr.
Defined.

Lemma adapter_readdir_lists_witness :
  wp (iomanx_adapter_readdir 3 "/") (fun r _ _ t => exists v, r = Ret v)
     sample_adapter (FsEnv sample_dir [] []).
Proof.
  eapply wp_mono; [apply (adapter_readdir_lists 3 "/" sample_dir 3)|].
  - cbn. lia.
  - cbn. lia.
  - eexists. split; reflexivity.
  - lia.
  - intros r s' e' t (_ & _ & v & Hr & _). by exists v.
Defined.

Lemma adapter_readdir_diverges_witness :
  wp (iomanx_adapter_readdir (H := unreadable) 100 "/") (fun r _ _ _ => r = OutOfFuel)
     sample_adapter tt.
Proof.
  apply (adapter_readdir_diverges (H := unreadable) 100 "/" (-5) 3); [cbn; lia|lia|lia|done..].
Defined.

(** ** The start *)

(** The option the help text calls [--numbuffers] is [--buffers]. *)
Theorem numbuffers_is_no_option :
  "--numbuffers=%s"%string ∉ (option_spec.*1) /\ ("--buffers=%s"%string, Opt_numbuffers) ∈ option_spec.
Proof. split; [refine (bool_decide_unpack _ _); by vm_compute|list_mem]. Qed.
