(* ===== verification/HostAdapter.v ===== *)
(** * The driver of the host's files (src/src/host_adapter.c)

    A driver for iomanX, [host:], that passes each operation on to the host's libc; the
    Linux build.  An open file is an [iop_file_t] whose [privdata] is a descriptor or a
    [DIR *]. *)

From S2P Require Import Prelude IoWorld Modes Clock Atad Adapter.

(** [f->privdata]; 0 is the null pointer. *)
Record iop_file_t := mk_iop_file { privdata : Z }.

Definition set_privdata (v : Z) (f : iop_file_t) : iop_file_t := mk_iop_file v.

Definition EBADF : Z := 9.

(** ** Conversions: the copies of this file *)

Definition host_convert_mode_to_posix (iomanx_mode : Z) : Z :=
  let posix_mode := 0 in
  let posix_mode := or_if (FIO_S_ISDIR iomanx_mode) S_IFDIR posix_mode in
  let posix_mode := or_if (FIO_S_ISREG iomanx_mode) S_IFREG posix_mode in
  let posix_mode := or_if (FIO_S_ISLNK iomanx_mode) S_IFLNK posix_mode in
  let posix_mode :=
    or_if (flag iomanx_mode (Z.lor (Z.lor FIO_S_IRUSR FIO_S_IRGRP) FIO_S_IROTH))
          (Z.lor (Z.lor S_IRUSR S_IRGRP) S_IROTH) posix_mode in
  let posix_mode :=
    or_if (flag iomanx_mode (Z.lor (Z.lor FIO_S_IWUSR FIO_S_IWGRP) FIO_S_IWOTH))
          (Z.lor (Z.lor S_IWUSR S_IWGRP) S_IWOTH) posix_mode in
  let posix_mode :=
    or_if (flag iomanx_mode (Z.lor (Z.lor FIO_S_IXUSR FIO_S_IXGRP) FIO_S_IXOTH))
          (Z.lor (Z.lor S_IXUSR S_IXGRP) S_IXOTH) posix_mode in
  let posix_mode := or_if (flag iomanx_mode FIO_S_ISUID) S_ISUID posix_mode in
  let posix_mode := or_if (flag iomanx_mode FIO_S_ISGID) S_ISGID posix_mode in
  or_if (flag iomanx_mode FIO_S_ISVTX) S_ISVTX posix_mode.

Definition host_convert_mode_to_iomanx (posix_mode : Z) : Z :=
  let iomanx_mode := 0 in
  let iomanx_mode := or_if (S_ISDIR posix_mode) FIO_S_IFDIR iomanx_mode in
  let iomanx_mode := or_if (S_ISREG posix_mode) FIO_S_IFREG iomanx_mode in
  let iomanx_mode := or_if (S_ISLNK posix_mode) FIO_S_IFLNK iomanx_mode in
  let iomanx_mode :=
    or_if (flag posix_mode (Z.lor (Z.lor S_IRUSR S_IRGRP) S_IROTH))
          (Z.lor (Z.lor FIO_S_IRUSR FIO_S_IRGRP) FIO_S_IROTH) iomanx_mode in
  let iomanx_mode :=
    or_if (flag posix_mode (Z.lor (Z.lor S_IWUSR S_IWGRP) S_IWOTH))
          (Z.lor (Z.lor FIO_S_IWUSR FIO_S_IWGRP) FIO_S_IWOTH) iomanx_mode in
  let iomanx_mode :=
    or_if (flag posix_mode (Z.lor (Z.lor S_IXUSR S_IXGRP) S_IXOTH))
          (Z.lor (Z.lor FIO_S_IXUSR FIO_S_IXGRP) FIO_S_IXOTH) iomanx_mode in
  let iomanx_mode := or_if (flag posix_mode S_ISUID) FIO_S_ISUID iomanx_mode in
  let iomanx_mode := or_if (flag posix_mode S_ISGID) FIO_S_ISGID iomanx_mode in
  or_if (flag posix_mode S_ISVTX) FIO_S_ISVTX iomanx_mode.

Section Conversions.
Context `{TimeLib}.

Definition host_convert_time_to_iomanx (posix_time : Z) : list Z :=
  let timeinfo := gmtime (posix_time - 9 * 60 * 60) in
  [ 0;
    u8 (tm_sec timeinfo);
    u8 (tm_min timeinfo);
    u8 (tm_hour timeinfo);
    u8 (tm_mday timeinfo);
    u8 (tm_mon timeinfo + 1);
    Z.land (tm_year timeinfo + 1900) 0xff;
    Z.land (Z.shiftr (tm_year timeinfo + 1900) 8) 0xff ].

Definition host_convert_stat_to_iomanx (st : posix_stat) : iox_stat_t :=
  mk_iox_stat (host_convert_mode_to_iomanx (px_mode st)) 0 (iomanx_size (px_size st))
    (host_convert_time_to_iomanx (px_ctime st)) (host_convert_time_to_iomanx (px_atime st))
    (host_convert_time_to_iomanx (px_mtime st)) (iomanx_hisize (px_size st)) 0 0 0 0 0 0.

(** They agree with those of the FUSE adapter. *)
Lemma host_conversions_same :
  (forall m, host_convert_mode_to_posix m = adapter_convert_mode_to_posix m) /\
  (forall st, host_convert_stat_to_iomanx st = convert_stat_to_iomanx st).
Proof. done. Qed.
End Conversions.

(** The flags of [open]: the bits of iomanX stay in and the host's are added, one test
    after the other on the growing value; [translated_flags] is not used. *)
Definition host_open_flags (flags : Z) : Z :=
  let flags :=
    if flag flags FIO_O_RDWR then Z.lor flags O_RDWR
    else if flag flags FIO_O_RDONLY then Z.lor flags 0
    else or_if (flag flags FIO_O_WRONLY) O_WRONLY flags in
  let flags := or_if (flag flags FIO_O_NBLOCK) O_NONBLOCK flags in
  let flags := or_if (flag flags FIO_O_APPEND) O_APPEND flags in
  let flags := Z.lor flags O_CREAT in
  let flags := or_if (flag flags FIO_O_TRUNC) O_TRUNC flags in
  or_if (flag flags FIO_O_EXCL) O_EXCL flags.

Section Operations.
Context {E : Type} `{Handler E, TimeLib}.
Local Abbreviation F := (M iop_file_t E).

(** [if (res < 0) return -errno; return ok;] *)
Definition or_errno (res ok : Z) : F Z :=
  if res <? 0 then errno ← call Get_errno; mret (- errno) else mret ok.

Definition host_translator_op_init : F Z := mret (-48).
Definition host_translator_op_exit : F Z := mret (-48).
Definition host_translator_op_format (dev blockdev : string) : F Z := mret (-48).

Definition host_translator_op_open (name : string) (flags mode : Z) : F Z :=
  fh ← call (Host_open name (host_open_flags flags) mode);
  if fh <? 0 then errno ← call Get_errno; mret (- errno)
  else modify (set_privdata fh);; mret 0.

Definition host_translator_op_close : F Z :=
  f ← get;
  res ← call (Host_close (s32 (privdata f)));
  or_errno res 0.

(** Results of 64 bits go to an [int]. *)
Definition host_translator_op_read (size : Z) : F (Z * list Z) :=
  f ← get;
  '(res64, data) ← call (Host_read (s32 (privdata f)) (u64 size));
  let res := s32 res64 in
  r ← or_errno res res;
  mret (r, data).

Definition host_translator_op_write (ptr : list Z) (size : Z) : F Z :=
  f ← get;
  assert_ ((0 <=? size) && (size <=? Z.of_nat (length ptr)));;
  res64 ← call (Host_write (s32 (privdata f)) (take (Z.to_nat size) ptr));
  let res := s32 res64 in
  or_errno res res.

Definition host_translator_op_lseek (offset mode : Z) : F Z :=
  f ← get;
  res64 ← call (Host_lseek (s32 (privdata f)) offset mode);
  let res := s32 res64 in
  or_errno res res.

Definition host_translator_op_ioctl (cmd : Z) : F Z := mret (-48).

Definition host_translator_op_remove (name : string) : F Z :=
  res ← call (Host_unlink name); or_errno res 0.

Definition host_translator_op_mkdir (path : string) (mode : Z) : F Z :=
  res ← call (Host_mkdir path mode); or_errno res 0.

Definition host_translator_op_rmdir (path : string) : F Z :=
  res ← call (Host_rmdir path); or_errno res 0.

Definition host_translator_op_dopen (path : string) : F Z :=
  res ← call (Host_opendir path);
  match res with
  | None => errno ← call Get_errno; mret (- errno)
  | Some dir => modify (set_privdata dir);; mret 0
  end.

Definition host_translator_op_dclose : F Z :=
  f ← get;
  if privdata f =? 0 then mret (- EBADF)
  else res ← call (Host_closedir (privdata f)); or_errno res 0.

(** The record is filled with zeros and up to 256 bytes of the name; without a next
    entry it stays as it is ([buf]). *)
Definition host_translator_op_dread (buf : iox_dirent_t) : F (Z * iox_dirent_t) :=
  f ← get;
  if privdata f =? 0 then mret (- EBADF, buf)
  else
    call (Set_errno 0);;
    d ← call (Host_readdir (privdata f));
    match d with
    | None =>
        errno ← call Get_errno;
        mret ((if negb (errno =? 0) then - errno else -1), buf)
    | Some d_name => mret (0, mk_iox_dirent iox_stat_zero (String.substring 0 256 d_name))
    end.

Definition host_translator_op_getstat (name : string) (st : iox_stat_t) : F (Z * iox_stat_t) :=
  '(res, px) ← call (Host_stat name);
  if res <? 0 then errno ← call Get_errno; mret (- errno, st)
  else mret (0, host_convert_stat_to_iomanx px).

Definition host_translator_op_chstat (name : string) (st : option iox_stat_t) (statmask : Z) : F Z :=
  match st with
  | None => mret (- EBADF)
  | Some st =>
      if flag statmask FIO_CST_MODE then
        res ← call (Host_chmod name (host_convert_mode_to_posix (st_mode st)));
        or_errno res 0
      else mret 0
  end.

Definition host_translator_op_rename (old new_1 : string) : F Z :=
  res ← call (Host_rename old new_1); or_errno res 0.

Definition host_translator_op_chdir (name : string) : F Z :=
  res ← call (Host_chdir name); or_errno res 0.

Definition host_translator_op_sync (dev : string) (sync_flag : Z) : F Z := call Host_sync;; mret 0.

Definition host_translator_op_mount (fsname devname : string) : F Z := mret (-48).
Definition host_translator_op_umount (fsname : string) : F Z := mret (-48).

(** The place reached is not returned, but 0. *)
Definition host_translator_op_lseek64 (offset whence : Z) : F Z :=
  f ← get;
  res64 ← call (Host_lseek (s32 (privdata f)) offset whence);
  or_errno (s32 res64) 0.

Definition host_translator_op_devctl (name : string) (cmd : Z) : F Z := mret (-48).

Definition host_translator_op_symlink (old new_1 : string) : F Z :=
  res ← call (Host_symlink old new_1); or_errno res 0.

(** Nor is the length of the target. *)
Definition host_translator_op_readlink (path : string) (buflen : Z) : F (Z * list Z) :=
  '(res, data) ← call (Host_readlink path buflen);
  r ← or_errno (s32 res) 0;
  mret (r, data).

Definition host_translator_op_ioctl2 (cmd : Z) : F Z := mret (-48).

(** ** The table of the driver *)

Inductive host_op :=
  | Op_init
  | Op_exit
  | Op_format (dev blockdev : string)
  | Op_open (name : string) (flags mode : Z)
  | Op_close
  | Op_read (size : Z)
  | Op_write (ptr : list Z) (size : Z)
  | Op_lseek (offset mode : Z)
  | Op_ioctl (cmd : Z)
  | Op_remove (name : string)
  | Op_mkdir (path : string) (mode : Z)
  | Op_rmdir (path : string)
  | Op_dopen (path : string)
  | Op_dclose
  | Op_dread (buf : iox_dirent_t)
  | Op_getstat (name : string) (st : iox_stat_t)
  | Op_chstat (name : string) (st : option iox_stat_t) (statmask : Z)
  | Op_rename (old new_1 : string)
  | Op_chdir (name : string)
  | Op_sync (dev : string) (sync_flag : Z)
  | Op_mount (fsname devname : string)
  | Op_umount (fsname : string)
  | Op_lseek64 (offset whence : Z)
  | Op_devctl (name : string) (cmd : Z)
  | Op_symlink (old new_1 : string)
  | Op_readlink (path : string) (buflen : Z)
  | Op_ioctl2 (cmd : Z).

(** The value each operation returns. *)
Definition host_translator_ops (op : host_op) : F Z :=
  match op with
  | Op_init => host_translator_op_init
  | Op_exit => host_translator_op_exit
  | Op_format dev blockdev => host_translator_op_format dev blockdev
  | Op_open name flags mode => host_translator_op_open name flags mode
  | Op_close => host_translator_op_close
  | Op_read size => '(r, _) ← host_translator_op_read size; mret r
  | Op_write ptr size => host_translator_op_write ptr size
  | Op_lseek offset mode => host_translator_op_lseek offset mode
  | Op_ioctl cmd => host_translator_op_ioctl cmd
  | Op_remove name => host_translator_op_remove name
  | Op_mkdir path mode => host_translator_op_mkdir path mode
  | Op_rmdir path => host_translator_op_rmdir path
  | Op_dopen path => host_translator_op_dopen path
  | Op_dclose => host_translator_op_dclose
  | Op_dread buf => '(r, _) ← host_translator_op_dread buf; mret r
  | Op_getstat name st => '(r, _) ← host_translator_op_getstat name st; mret r
  | Op_chstat name st statmask => host_translator_op_chstat name st statmask
  | Op_rename old new_1 => host_translator_op_rename old new_1
  | Op_chdir name => host_translator_op_chdir name
  | Op_sync dev sync_flag => host_translator_op_sync dev sync_flag
  | Op_mount fsname devname => host_translator_op_mount fsname devname
  | Op_umount fsname => host_translator_op_umount fsname
  | Op_lseek64 offset whence => host_translator_op_lseek64 offset whence
  | Op_devctl name cmd => host_translator_op_devctl name cmd
  | Op_symlink old new_1 => host_translator_op_symlink old new_1
  | Op_readlink path buflen => '(r, _) ← host_translator_op_readlink path buflen; mret r
  | Op_ioctl2 cmd => host_translator_op_ioctl2 cmd
  end.
End Operations.
