(* ===== verification/HostProps.v ===== *)
(** * The driver of the host's files: properties *)

From S2P Require Import Prelude IoWorld Trace Modes Clock Atad Adapter HostAdapter.

(** ** Flags *)

Lemma flag_or_if c v x b : flag (or_if c v x) b = flag x b || (c && flag v b).
Proof.
  destruct c; simpl; [|by rewrite orb_false_r]. unfold flag. rewrite Z.land_lor_distr_l, <- negb_andb. f_equal.
  destruct (Z.eqb_spec (Z.lor (Z.land x b) (Z.land v b)) 0) as [Hz|Hz].
  - apply Z.lor_eq_0_iff in Hz as [-> ->]. done.
  - symmetry. apply andb_false_iff. rewrite !Z.eqb_neq.
    destruct (Z.eq_dec (Z.land x b) 0) as [Hx|]; [right|by left]. intros Hv. apply Hz. by rewrite Hx, Hv.
Qed.

Lemma flag_lor_l x v b : flag (Z.lor x v) b = flag x b || flag v b.
Proof. apply (flag_or_if true). Qed.

(** Flags of constants are computed, those of [flags] split. *)
Ltac flag_consts :=
  repeat match goal with
  | |- context [flag (Z.pos ?c) ?b] =>
      let v := eval vm_compute in (flag (Z.pos c) b) in change (flag (Z.pos c) b) with v
  end.

Ltac flag_cases :=
  repeat match goal with |- context [flag ?m ?b] => destruct (flag m b) end; done.

(** A stage of the flags by the flags of the one before. *)
Ltac flag_stage x c v y Ey :=
  pose proof (flag_or_if (flag x c) v x) as Ey; set (y := or_if (flag x c) v x) in *; clearbody y.

Ltac flag_back Ey :=
  rewrite !Ey; flag_consts; rewrite ?andb_false_r, ?andb_true_r, ?orb_false_r, ?orb_true_r.

(** What an open of a host file asks for.  The flags of iomanX keep their bits, which
    mean other things to the host: opening to read asks for access mode 3, not for
    reading; the file is always created; it is truncated not only for [FIO_O_TRUNC] but
    for [FIO_O_CREAT] and [FIO_O_APPEND], and opened exclusively for [FIO_O_NBLOCK]. *)
Theorem host_open_bits flags :
  let r := host_open_flags flags in
  flag r 1 = flag flags FIO_O_RDONLY /\
  flag r O_RDWR = flag flags FIO_O_RDONLY || flag flags FIO_O_WRONLY /\
  flag r O_CREAT = true /\
  flag r O_TRUNC = flag flags FIO_O_TRUNC || flag flags FIO_O_CREAT || flag flags FIO_O_APPEND /\
  flag r O_APPEND = flag flags FIO_O_APPEND || flag flags FIO_O_TRUNC /\
  flag r O_EXCL = flag flags O_EXCL || flag flags FIO_O_EXCL || flag flags FIO_O_NBLOCK.
Proof.
  unfold host_open_flags. change FIO_O_RDWR with (Z.lor FIO_O_RDONLY FIO_O_WRONLY). rewrite flag_lor.
  unfold FIO_O_RDONLY, FIO_O_WRONLY, FIO_O_NBLOCK, FIO_O_APPEND, FIO_O_CREAT,
    FIO_O_TRUNC, FIO_O_EXCL, O_RDWR, O_WRONLY, O_NONBLOCK, O_APPEND, O_CREAT, O_TRUNC, O_EXCL.
  assert (H1 : exists f1, f1 = (if flag flags 1 || flag flags 2 then Z.lor flags 2
                                else if flag flags 1 then Z.lor flags 0 else or_if (flag flags 2) 1 flags) /\
                          forall b, flag f1 b = flag flags b || ((flag flags 1 || flag flags 2) && flag 2 b)).
  { eexists. split; [reflexivity|]. intros b.
    destruct (flag flags 1), (flag flags 2); cbn; rewrite ?flag_lor_l, ?orb_false_r; done. }
  destruct H1 as (f1 & <- & E1). flag_stage f1 16 2048 f2 E2. flag_stage f2 256 1024 f3 E3.
  pose proof (flag_lor_l f3 64) as E4. set (f4 := Z.lor f3 64) in *. clearbody f4.
  flag_stage f4 1024 512 f5 E5. flag_stage f5 2048 128 f6 E6.
  flag_back E6. flag_back E5. flag_back E4. flag_back E3. flag_back E2. flag_back E1. flag_cases.
Qed.

(** ** Errors *)

(** A call to the host that failed, by the contract of the call: -1, or a null pointer. *)
Definition failed (ev : event) : bool :=
  match ev with
  | @Ev A c r =>
      match c in ioE A return A -> bool with
      | Host_open _ _ _ | Host_close _ | Host_write _ _ | Host_lseek _ _ _ | Host_unlink _
      | Host_mkdir _ _ | Host_rmdir _ | Host_closedir _ | Host_chmod _ _ | Host_rename _ _
      | Host_chdir _ | Host_symlink _ _ => fun r => r =? -1
      | Host_read _ _ | Host_readlink _ _ => fun r => r.1 =? -1
      | Host_stat _ => fun r => r.1 =? -1
      | Host_opendir _ => fun r => negb (bool_decide (is_Some r))
      | Host_readdir _ => fun r => negb (bool_decide (is_Some r))
      | _ => fun _ => false
      end r
  end.

(** A seek to a place whose low 32 bits are no [int]: from 2 GiB up to 4 GiB, and so on. *)
Definition far (ev : event) : bool :=
  match ev with
  | @Ev A c r =>
      match c in ioE A return A -> bool with
      | Host_lseek _ _ _ => fun r => (0 <=? r) && (2 ^ 31 <=? r mod 2 ^ 32)
      | _ => fun _ => false
      end r
  end.

(** What the calls of libc answer: -1, or no negative number; an [int] is in its range,
    and Linux transfers at most 0x7ffff000 bytes at once. *)
Class HostResults (E : Type) `{Handler E} := {
  host_result : forall A (c : ioE A) e,
    match c in ioE A return A -> Prop with
    | Host_open _ _ _ | Host_close _ | Host_unlink _ | Host_mkdir _ _ | Host_rmdir _
    | Host_closedir _ | Host_chmod _ _ | Host_rename _ _ | Host_chdir _ | Host_symlink _ _
    | Host_write _ _ =>
        fun r => -1 <= r < 2 ^ 31
    | Host_lseek _ _ _ => fun r => -1 <= r < 2 ^ 63
    | Host_stat _ => fun r => -1 <= r.1 < 2 ^ 31
    | Host_read _ _ | Host_readlink _ _ => fun r => -1 <= r.1 < 2 ^ 31
    | _ => fun _ => True
    end (handle c e).1
}.

Lemma fits_s32 z : fits_int z = true -> s32 z = z.
Proof. intros Hz. unfold fits_int in Hz. boolP. apply swrap_small; lia. Qed.

(** The call to the host an operation stands for. *)
Definition asks (op : host_op) (f : iop_file_t) (ev : event) : Prop :=
  let fd := s32 (privdata f) in
  match op with
  | Op_open name flags mode => exists r, ev = Ev (Host_open name (host_open_flags flags) mode) r
  | Op_close => exists r, ev = Ev (Host_close fd) r
  | Op_read size => exists r, ev = Ev (Host_read fd (u64 size)) r
  | Op_write ptr size => exists r, ev = Ev (Host_write fd (take (Z.to_nat size) ptr)) r
  | Op_lseek off whence | Op_lseek64 off whence => exists r, ev = Ev (Host_lseek fd off whence) r
  | Op_remove name => exists r, ev = Ev (Host_unlink name) r
  | Op_mkdir path mode => exists r, ev = Ev (Host_mkdir path mode) r
  | Op_rmdir path => exists r, ev = Ev (Host_rmdir path) r
  | Op_dopen path => exists r, ev = Ev (Host_opendir path) r
  | Op_dclose => exists r, ev = Ev (Host_closedir (privdata f)) r
  | Op_dread _ => exists r, ev = Ev (Host_readdir (privdata f)) r
  | Op_getstat name _ => exists r, ev = Ev (Host_stat name) r
  | Op_chstat name (Some st) _ =>
      exists r, ev = Ev (Host_chmod name (host_convert_mode_to_posix (st_mode st))) r
  | Op_rename old new_1 => exists r, ev = Ev (Host_rename old new_1) r
  | Op_chdir name => exists r, ev = Ev (Host_chdir name) r
  | Op_sync _ _ => exists r, ev = Ev Host_sync r
  | Op_symlink old new_1 => exists r, ev = Ev (Host_symlink old new_1) r
  | Op_readlink path buflen => exists r, ev = Ev (Host_readlink path buflen) r
  | _ => False
  end.

(** What an operation that worked returns: the bytes it moved, the place it reached (in
    an [int]), or 0. *)
Definition gives (op : host_op) (ev : event) : Z :=
  match ev with
  | @Ev A c r =>
      match c in ioE A return A -> Z with
      | Host_read _ _ => fun r => r.1
      | Host_write _ _ => fun r => r
      | Host_lseek _ _ _ => fun r => match op with Op_lseek _ _ => s32 r | _ => 0 end
      | _ => fun _ => 0
      end r
  end.

(** What is refused or done without a call. *)
Definition settled (op : host_op) (f : iop_file_t) : option Z :=
  match op with
  | Op_init | Op_exit | Op_format _ _ | Op_ioctl _ | Op_mount _ _ | Op_umount _ | Op_devctl _ _
  | Op_ioctl2 _ => Some (-48)
  | Op_dclose | Op_dread _ => if privdata f =? 0 then Some (- EBADF) else None
  | Op_chstat _ None _ => Some (- EBADF)
  | Op_chstat _ (Some _) mask => if flag mask FIO_CST_MODE then None else Some 0
  | _ => None
  end.

(** A listing clears [errno] first, to tell an error from the end. *)
Definition clears (op : host_op) : trace :=
  match op with Op_dread _ => [Ev (Set_errno 0) tt] | _ => [] end.

Section Errors.
Context {E : Type} `{HostResults E, TimeLib}.
Local Abbreviation F := (M iop_file_t E).

(** How an operation on [f] ends. *)
Definition told (op : host_op) (f : iop_file_t) (r : res Z) (t : trace) : Prop :=
  match settled op f with
  | Some v => r = Ret v /\ t = []
  | None =>
      (exists ev, asks op f ev /\
         if failed ev || far ev then exists n, t = clears op ++ [ev; Ev Get_errno n] /\
           r = Ret (match op with Op_dread _ => if n =? 0 then -1 else - n | _ => - n end)
         else t = clears op ++ [ev] /\ r = Ret (gives op ev)) \/
      (exists ptr size, op = Op_write ptr size /\ ~ (0 <= size <= Z.of_nat (length ptr)) /\ r = Undef)
  end.

Lemma wp_or_errno res ok (f : iop_file_t) (e : E) (Q : _ -> _ -> _ -> _ -> Prop) :
  (res < 0 -> forall n e', Q (Ret (- n)) f e' [Ev Get_errno n]) ->
  (0 <= res -> Q (Ret ok) f e []) -> wp (or_errno res ok : F Z) Q f e.
Proof.
  intros Hneg Hok. unfold or_errno. apply wp_if; intros Hres; boolP.
  - apply wp_bind, wp_call. intros n e' _. cbn [bind_post]. apply wp_ret. by apply Hneg.
  - by apply wp_ret, Hok.
Qed.

Lemma told_failed op f ev n :
  settled op f = None -> asks op f ev -> clears op = [] -> failed ev || far ev = true ->
  told op f (Ret (- n)) [ev; Ev Get_errno n].
Proof.
  intros Hset Hask Hpre Hf. unfold told. rewrite Hset. left. exists ev. split; [done|].
  rewrite Hf, Hpre. exists n. split; [done|]. destruct op; done.
Qed.

Lemma told_done op f ev v :
  settled op f = None -> asks op f ev -> clears op = [] -> failed ev || far ev = false ->
  v = gives op ev -> told op f (Ret v) [ev].
Proof.
  intros Hset Hask Hpre Hf ->. unfold told. rewrite Hset. left. exists ev. split; [done|].
  by rewrite Hf, Hpre.
Qed.

(** The contract of the last call. *)
Ltac result_of :=
  match goal with
  | He : handle ?c ?e = (?r, _) |- _ =>
      let Hr := fresh "Hr" in
      pose proof (host_result _ c e) as Hr; rewrite He in Hr; cbn in Hr
  end.

Ltac told_test :=
  cbn [failed far]; rewrite ?orb_false_r;
  first [apply Z.eqb_eq; cbn; lia | apply Z.eqb_neq; cbn; lia].

(** A call and its test. *)
Ltac to_test :=
  repeat first
    [ apply wp_bind, wp_get; cbn [bind_post]
    | apply wp_bind, wp_call; intros ? ? ?; cbn [bind_post] ];
  try result_of.

Ltac told_case :=
  match goal with
  | |- told _ _ (Ret (- _)) _ => apply told_failed; [done|by eexists|done|told_test]
  | |- told _ _ _ _ => apply told_done; [done|by eexists|done|told_test|done]
  end.

Ltac simple_op := to_test; apply wp_or_errno; [intros ? ? ?|intros ?]; told_case.

Lemma s32_seek r :
  -1 <= r < 2 ^ 63 ->
  (s32 r <? 0) = (r =? -1) || ((0 <=? r) && (2 ^ 31 <=? r mod 2 ^ 32)).
Proof.
  intros Hr. unfold swrap. change (2 ^ (32 - 1)) with (2 ^ 31).
  apply eq_true_iff_eq. rewrite orb_true_iff, andb_true_iff, Z.ltb_lt, Z.eqb_eq, !Z.leb_le. dlia.
Qed.

Lemma told_seek op off whence (f : iop_file_t) r ok :
  op = Op_lseek off whence \/ op = Op_lseek64 off whence ->
  ok = match op with Op_lseek _ _ => s32 r | _ => 0 end -> -1 <= r < 2 ^ 63 ->
  let ev := Ev (Host_lseek (s32 (privdata f)) off whence) r in
  (s32 r < 0 -> forall n, told op f (Ret (- n)) [ev; Ev Get_errno n]) /\ (0 <= s32 r -> told op f (Ret ok) [ev]).
Proof.
  intros Hop Hok Hr ev. pose proof (s32_seek r Hr) as Hs. split; intros Hneg; [intros n|].
  - apply told_failed; [by destruct Hop; subst|by destruct Hop; subst; eexists|by destruct Hop; subst|].
    cbn [failed far ev]. rewrite <- Hs. by apply Z.ltb_lt.
  - apply told_done; [by destruct Hop; subst|by destruct Hop; subst; eexists|by destruct Hop; subst| |].
    + cbn [failed far ev]. rewrite <- Hs. by apply Z.ltb_ge.
    + rewrite Hok. by destruct Hop; subst.
Qed.

(** Read and readlink hand back data too. *)
Ltac pair_op :=
  apply wp_bind; to_test; case_match; match goal with Hr : _ <= _ < _ |- _ => cbn in Hr end;
  apply wp_bind; rewrite ?(swrap_small 32) by lia; apply wp_or_errno; [intros ? ? ?|intros ?];
  cbn [bind_post]; apply wp_ret; cbn [bind_post]; apply wp_ret; told_case.

Lemma told_open name flags mode (f : iop_file_t) (e : E) :
  wp (host_translator_ops (Op_open name flags mode) : F Z) (fun r _ _ t => told (Op_open name flags mode) f r t) f e.
Proof.
  cbn [host_translator_ops]. unfold host_translator_op_open. to_test. apply wp_if; intros Hneg; boolP.
  - to_test. apply wp_ret. told_case.
  - apply wp_bind, wp_modify. cbn [bind_post]. apply wp_ret. told_case.
Qed.

Lemma told_dopen path (f : iop_file_t) (e : E) :
  wp (host_translator_ops (Op_dopen path) : F Z) (fun r _ _ t => told (Op_dopen path) f r t) f e.
Proof.
  cbn [host_translator_ops]. unfold host_translator_op_dopen. to_test. destruct r as [dir|].
  - apply wp_bind, wp_modify. cbn [bind_post]. apply wp_ret. apply told_done; [done|by eexists|done..].
  - to_test. apply wp_ret. apply told_failed; [done|by eexists|done..].
Qed.

Lemma told_dread buf (f : iop_file_t) (e : E) :
  wp (host_translator_ops (Op_dread buf) : F Z) (fun r _ _ t => told (Op_dread buf) f r t) f e.
Proof.
  cbn [host_translator_ops]. unfold host_translator_op_dread, told. cbn [settled].
  apply wp_bind, wp_bind, wp_get. cbn [bind_post].
  destruct (privdata f =? 0); [by apply wp_ret, wp_ret|].
  apply wp_bind, wp_call. intros [] e1 _. cbn [bind_post]. apply wp_bind, wp_call. intros d e2 _. cbn [bind_post].
  destruct d as [name|].
  - apply wp_ret, wp_ret. left. exists (Ev (Host_readdir (privdata f)) (Some name)). split; [by eexists|]. split; reflexivity.
  - apply wp_bind, wp_call. intros n e3 _. cbn [bind_post]. apply wp_ret, wp_ret.
    left. exists (Ev (Host_readdir (privdata f)) None). split; [by eexists|]. exists n. split; [reflexivity|]. by destruct (n =? 0).
Qed.

Lemma told_getstat name st (f : iop_file_t) (e : E) :
  wp (host_translator_ops (Op_getstat name st) : F Z) (fun r _ _ t => told (Op_getstat name st) f r t) f e.
Proof.
  cbn [host_translator_ops]. unfold host_translator_op_getstat. apply wp_bind. to_test.
  destruct r as [res px]. cbn in Hr. apply wp_if; intros Hneg; boolP.
  - to_test. apply wp_ret, wp_ret. told_case.
  - apply wp_ret, wp_ret. told_case.
Qed.

Lemma told_write ptr size (f : iop_file_t) (e : E) :
  wp (host_translator_ops (Op_write ptr size) : F Z) (fun r _ _ t => told (Op_write ptr size) f r t) f e.
Proof.
  cbn [host_translator_ops]. unfold host_translator_op_write. apply wp_bind, wp_get. cbn [bind_post].
  apply wp_bind, wp_assert; intros Hb; cbn [bind_post].
  - to_test. rewrite swrap_small by lia. apply wp_or_errno; [intros ? ? ?|intros ?]; told_case.
  - right. exists ptr, size. split; [done|]. split; [|done]. boolP. lia.
Qed.

(** C28: the driver tells of errors.  An operation makes the one call to the host that it
    stands for (a listing clears [errno] first); if that call failed, by its contract, the
    result is the negated [errno] read right after it, and otherwise 0, the number of bytes
    or the place reached.  The exceptions: what is answered without a call (-48 for the
    operations there are none for, EBADF for a null pointer, 0 for a change of status but
    the mode); the end of a directory, which is -1, the number of an error; and a seek
    beyond 2 GiB, which works, but returns an old [errno] where the low 32 bits of the place
    are no [int], and else these bits alone. *)
Theorem host_errors op (f : iop_file_t) (e : E) :
  wp (host_translator_ops op : F Z) (fun r _ _ t => told op f r t) f e.
Proof.
  destruct op; cbn [host_translator_ops];
    unfold host_translator_op_init, host_translator_op_exit, host_translator_op_format,
      host_translator_op_ioctl, host_translator_op_mount, host_translator_op_umount,
      host_translator_op_devctl, host_translator_op_ioctl2,
      host_translator_op_close, host_translator_op_remove, host_translator_op_mkdir,
      host_translator_op_rmdir, host_translator_op_rename, host_translator_op_chdir,
      host_translator_op_symlink;
    try (by apply wp_ret); try simple_op.
  - apply told_open.
  - unfold host_translator_op_read. pair_op.
  - apply told_write.
  - (* lseek *)
    unfold host_translator_op_lseek. to_test.
    destruct (told_seek (Op_lseek offset mode) offset mode f r (s32 r)) as [Hn Hp]; [by left|done|done|].
    by apply wp_or_errno; auto.
  - apply told_dopen.
  - (* dclose *)
    unfold host_translator_op_dclose, told. cbn [settled]. apply wp_bind, wp_get. cbn [bind_post].
    destruct (privdata f =? 0) eqn:Hnull; [by apply wp_ret|].
    enough (Hw : wp (res ← call (Host_closedir (privdata f)); or_errno res 0 : F Z)
              (fun r _ _ t => told Op_dclose f r t) f e) by (unfold told in Hw; cbn [settled] in Hw; by rewrite Hnull in Hw).
    assert (Hset : settled Op_dclose f = None) by (cbn; by rewrite Hnull).
    to_test. apply wp_or_errno; [intros ? ? ?|intros ?];
      [apply told_failed; [done|by eexists|done|told_test]|apply told_done; [done|by eexists|done|told_test|done]].
  - apply told_dread.
  - apply told_getstat.
  - (* chstat *)
    unfold host_translator_op_chstat. destruct st as [st|]; [|by apply wp_ret].
    destruct (flag statmask FIO_CST_MODE) eqn:Hmode.
    + assert (Hset : settled (Op_chstat name (Some st) statmask) f = None) by (cbn; by rewrite Hmode).
      to_test. apply wp_or_errno; [intros ? ? ?|intros ?];
        [apply told_failed; [done|by eexists|done|told_test]|apply told_done; [done|by eexists|done|told_test|done]].
    + apply wp_ret. unfold told. cbn. by rewrite Hmode.
  - (* sync *)
    to_test. apply wp_ret. apply told_done; [done|by eexists|done..].
  - (* lseek64 *)
    unfold host_translator_op_lseek64. to_test.
    destruct (told_seek (Op_lseek64 offset whence) offset whence f r 0) as [Hn Hp]; [by right|done|done|].
    by apply wp_or_errno; auto.
  - unfold host_translator_op_readlink. pair_op.
Qed.
End Errors.

(** ** Data *)

Section Data.
Context {E : Type} `{HostFile E, TimeLib}.
Local Abbreviation F := (M iop_file_t E).

Definition write_then_read (off : Z) (data : list Z) : F (Z * list Z) :=
  host_translator_op_lseek off FIO_SEEK_SET;;
  host_translator_op_write data (Z.of_nat (length data));;
  host_translator_op_lseek off FIO_SEEK_SET;;
  host_translator_op_read (Z.of_nat (length data)).

Lemma or_errno_ok res ok s e : 0 <= res -> (or_errno res ok : F Z) s e = Out (Ret ok) s e [].
Proof. intros Hres. unfold or_errno. by rewrite (proj2 (Z.ltb_ge res 0)). Qed.

Lemma op_lseek_at off s e (Q : res Z -> iop_file_t -> E -> trace -> Prop) :
  0 <= off < 2 ^ 31 -> fits_int (privdata s) = true ->
  (forall e' t, content e' (privdata s) = content e (privdata s) -> position e' (privdata s) = off ->
     Q (Ret off) s e' t) ->
  wp (host_translator_op_lseek off FIO_SEEK_SET : F Z) Q s e.
Proof.
  intros Hoff Hfd HQ. unfold host_translator_op_lseek. apply wp_bind, wp_get. cbn [bind_post].
  apply wp_bind, wp_call. rewrite fits_s32 by done. intros r e1 He1.
  destruct (host_seek e (privdata s) off ltac:(lia)) as (e1' & Hseek & Hc & Hp).
  change host_SEEK_SET with FIO_SEEK_SET in Hseek. rewrite Hseek in He1. injection He1 as <- <-.
  cbn [bind_post]. rewrite swrap_small by lia. unfold wp. rewrite or_errno_ok by lia. by apply HQ.
Qed.

(** C29: a host file keeps what is written to it: data written at a place of an open file,
    within its length and below 2 GiB, is what reading there gives, and both calls return
    its length. *)
Theorem host_write_read off data s e :
  0 <= off < 2 ^ 31 -> Z.of_nat (length data) < 2 ^ 31 -> fits_int (privdata s) = true ->
  off + Z.of_nat (length data) <= Z.of_nat (length (content e (privdata s))) ->
  wp (write_then_read off data) (fun r s' e' _ =>
    r = Ret (Z.of_nat (length data), data) /\ s' = s /\
    content e' (privdata s) = overlay (Z.to_nat off) data (content e (privdata s))) s e.
Proof.
  intros Hoff Hlen Hfd Hin. unfold write_then_read.
  apply wp_bind, op_lseek_at; [done..|]. intros e1 t1 Hc1 Hp1. cbn [bind_post].
  apply wp_bind. unfold host_translator_op_write. apply wp_bind, wp_get. cbn [bind_post].
  apply wp_bind, wp_assert; intros Hb; [|boolP; lia]. cbn [bind_post].
  rewrite Nat2Z.id, firstn_all, fits_s32 by done. apply wp_bind, wp_call. intros r e2 He2.
  destruct (host_write e1 (privdata s) data) as (e2' & Hw & Hc2); [lia|rewrite Hp1, Hc1; done|].
  rewrite Hw in He2. injection He2 as <- <-. cbn [bind_post]. rewrite swrap_small by lia.
  unfold wp at 1. rewrite or_errno_ok by lia. cbn [o_res o_st o_env o_tr bind_post].
  apply wp_bind, op_lseek_at; [done..|]. intros e3 t3 Hc3 Hp3. cbn [bind_post].
  unfold host_translator_op_read. apply wp_bind, wp_get. cbn [bind_post].
  rewrite fits_s32 by done. apply wp_bind, wp_call. intros [r data'] e4 He4.
  assert (Hu : u64 (Z.of_nat (length data)) = Z.of_nat (length data)) by (apply Z.mod_small; lia).
  destruct (host_read e3 (privdata s) (u64 (Z.of_nat (length data)))) as (e4' & Hr & Hc4); [lia|lia|].
  rewrite Hr in He4. injection He4 as <- <- <-. cbn [bind_post].
  assert (Hread : take (Z.to_nat (u64 (Z.of_nat (length data)))) (drop (Z.to_nat (position e3 (privdata s)))
            (content e3 (privdata s))) = data).
  { rewrite Hu, Nat2Z.id, Hp3, Hc3, Hc2, Hp1, Hc1. apply overlay_inside. lia. }
  rewrite Hread, swrap_small by lia. apply wp_bind. unfold wp at 1. rewrite or_errno_ok by lia.
  cbn [o_res o_st o_env o_tr bind_post]. apply wp_ret. split; [done|]. split; [done|].
  by rewrite Hc4, Hc3, Hc2, Hp1, Hc1.
Qed.
End Data.

(** ** Witnesses *)

Module HostSample.
Definition unread_file : Handler unit := fun A c e =>
  match c in ioE A return A * unit with
  | Host_unlink _ => (-1, e)
  | Get_errno => (2, e)
  | c => (default_answer c, e)
  end.
#[export] Existing Instance unread_file.

#[export] Instance unread_file_results : HostResults unit.
Proof. split. intros A c e. by destruct c. Defined.
End HostSample.
Import HostSample.
Import OneFile.

Lemma host_errors_witness :
  wp (host_translator_ops (E := unit) (Op_remove "x")) (fun r _ _ t =>
    told (Op_remove "x") (mk_iop_file 5) r t /\ r = Ret (- 2)) (mk_iop_file 5) tt.
Proof. split; [apply (host_errors (Op_remove "x") (mk_iop_file 5) tt)|reflexivity]. Defined.

Lemma host_write_read_witness :
  wp (write_then_read (E := OneFile.state) 1 [7; 8]) (fun r _ _ _ => r = Ret (2, [7; 8]))
     (mk_iop_file 5) ([1; 2; 3; 4], 0).
Proof.
  eapply wp_mono; [apply (host_write_read (E := OneFile.state) 1 [7; 8] (mk_iop_file 5) ([1; 2; 3; 4], 0))|].
  - lia.
  - cbn. lia.
  - reflexivity.
  - cbn. lia.
  - intros r s' e' t (Hr & _). exact Hr.
Defined.
