(* ===== verification/Client.v ===== *)
(** * The clients of the PFS daemon (src/src/pfsd_client.c)

    Each operation takes the system semaphore, puts what the daemon needs in the
    shared segment, sends a packet, waits for the reply, takes the result out of the
    segment and gives the semaphore back.  The memory a pointer leads to is a value
    passed in and, where the code writes to it, returned. *)

From S2P Require Import Prelude IoWorld Shm.

(** The globals of the file; the segment itself is shared with the daemon and is
    reached through calls. *)
Record client := mk_client {
  SemID : Z;
  ShmID : Z;
  Cfd : Z;
  SharedMemorySize : Z
}.

Definition initial_client : client := mk_client 0 0 0 0.

Definition set_sem (z : Z) (s : client) : client := mk_client z (ShmID s) (Cfd s) (SharedMemorySize s).
Definition set_shmid (z : Z) (s : client) : client := mk_client (SemID s) z (Cfd s) (SharedMemorySize s).
Definition set_cfd (z : Z) (s : client) : client := mk_client (SemID s) (ShmID s) z (SharedMemorySize s).
Definition set_shmsize (z : Z) (s : client) : client := mk_client (SemID s) (ShmID s) (Cfd s) z.

Definition PFSD_PATH : string := "/tmp/pfsd".
Definition PFSD_SHARED_KEY : Z := 0x7C724E1D.

(** The size of the structure sent with a request. *)
Definition rpc_buf_size (req : request) : Z :=
  match req with
  | PFSD_REQ_OPEN _ _ _ | PFSD_REQ_CHSTAT _ _ _ | PFSD_REQ_READLINK _ _ _ => 1032
  | PFSD_REQ_LSEEK _ _ _ | PFSD_REQ_READ _ _ _ | PFSD_REQ_WRITE _ _ _ | PFSD_REQ_IOCTL _ _ _ => 12
  | PFSD_REQ_LSEEK64 _ _ _ | PFSD_REQ_IOCTL2 _ _ _ _ _ _
  | PFSD_REQ_IOCTL2_HIOCTRANSFER _ _ _ _ _ _ => 24
  | PFSD_REQ_CLOSE _ | PFSD_REQ_DCLOSE _ | PFSD_REQ_SETREADAHEAD _ => 4
  | PFSD_REQ_DREAD _ _ => 8
  | PFSD_REQ_DOPEN _ | PFSD_REQ_RMDIR _ | PFSD_REQ_CHDIR _ | PFSD_REQ_REMOVE _
  | PFSD_REQ_UMOUNT _ | PFSD_REQ_GETMOUNTPOINT _ => 1024
  | PFSD_REQ_GETSTAT _ _ | PFSD_REQ_MKDIR _ _ | PFSD_REQ_SYNC _ _ => 1028
  | PFSD_REQ_RENAME _ _ | PFSD_REQ_SYMLINK _ _ => 2048
  | PFSD_REQ_FORMAT _ _ _ _ => 2056
  | PFSD_REQ_MOUNT _ _ _ _ _ => 2060
  | PFSD_REQ_DEVCTL _ _ _ _ _ _ => 1044
  | PFSD_REQ_GETREADAHEAD | PFSD_REQ_OTHER _ => 0
  end.

(** The argument of [scepfsdIoctl2]: for [HIOCTRANSFER] a [hddIoctl2Transfer_t] with
    what its [buffer] points to, for the other commands plain memory. *)
Inductive ioctl2_arg :=
  | Xfer (sub sector size mode : Z) (buffer : option (list Z))
  | Plain (arg : option (list Z)).

Section Client.
Context {E : Type} `{Handler E}.
Local Abbreviation C := (M client E).

(** ** Connection *)

Definition Connect : C Z :=
  fd ← call Sys_socket;
  modify (set_cfd fd);;
  if fd <? 0 then call (Perror "socket");; mret (-1) else
  bound ← call (Sys_bind fd "");
  if bound <? 0 then call (Perror "bind");; mret (-1) else
  connected ← call (Sys_connect fd PFSD_PATH);
  if connected <? 0 then call (Perror "connect");; mret (-1) else mret 0.

Definition GetShmSize : C Z := s ← get; call (Sys_shmctl_stat (ShmID s)).

Definition StartUp : C Z :=
  connected ← Connect;
  if connected <? 0 then printf (ln "Can't connect to pfsd.") [];; mret (-1) else
  sem ← call (Sys_semget PFSD_SHARED_KEY 1 0);
  modify (set_sem sem);;
  if sem <? 0 then call (Perror "semget");; mret (-2) else
  shm ← call (Sys_shmget PFSD_SHARED_KEY 0 0);
  modify (set_shmid shm);;
  if shm <? 0 then call (Perror "shmget");; mret (-3) else
  call (Sys_shmat shm);;
  size ← GetShmSize;
  modify (set_shmsize size);;
  if s32 size <=? 0 then eprintf (ln "GetShmSize error.") [];; mret (-5) else mret 0.

Definition CleanUp : C unit :=
  s ← get; call Sys_shmdt;; call (Host_close (Cfd s));; mret tt.

Definition scepfsdInit : C Z := StartUp.
Definition scepfsdExit : C unit := CleanUp.

(** ** One request *)

Definition RequireLock : C unit :=
  s ← get;
  r ← call (Sys_semop (SemID s) (-1));
  when (r <? 0) (call (Perror "semop require lock")).

Definition ReleaseLock : C unit :=
  s ← get;
  r ← call (Sys_semop (SemID s) 1);
  when (r <? 0) (call (Perror "semop release lock")).

Definition SendRequest (req : request) : C unit :=
  s ← get;
  allocated ← call (Host_malloc (rpc_buf_size req + 8));
  assert_ allocated;;
  r ← call (Send_packet (Cfd s) req);
  when (r <? 0) (call (Perror (ln "Send msg failed."))).

(** The value is what the read left in [rpcret], whatever it was when it failed. *)
Definition receive (size : Z) : C Z :=
  s ← get;
  '(n, rpcret) ← call (Recv_reply (Cfd s) size);
  when (n <=? 0) (call (Perror (ln "Receive msg failed.")));;
  mret rpcret.

Definition ReceiveReply : C Z := receive 4.
Definition ReceiveReplyLong : C Z := receive 4.
Definition ReceiveReplyLongLong : C Z := receive 8.

(** [memcpy(ShmPtr, p, n)] and back.  What does not fit the segment or the memory
    behind the pointer is undefined. *)
Definition to_shm (p : list Z) (n : Z) : C unit :=
  s ← get;
  assert_ ((0 <=? n) && (n <=? SharedMemorySize s) && (n <=? Z.of_nat (length p)));;
  call (Shm_put (take (Z.to_nat n) p)).

Definition load_shm (n : Z) : C (list Z) :=
  s ← get;
  assert_ ((0 <=? n) && (n <=? SharedMemorySize s));;
  call (Shm_get n).

Definition from_shm (off : nat) (n : Z) (p : list Z) : C (list Z) :=
  assert_ (Z.of_nat off + n <=? Z.of_nat (length p));;
  data ← load_shm n;
  mret (overlay off data p).

(** [strcpy] to a name of the packet. *)
Definition packet_name (name : string) : C string :=
  assert_ (String.length name <? PACKET_NAME)%nat;; mret name.

(** A request between [RequireLock] and [ReleaseLock], with what goes to the segment
    before and what is taken from it after. *)
Definition transact {A} (before : C unit) (req : request) (after : C A) : C (Z * A) :=
  RequireLock;;
  before;;
  SendRequest req;;
  ret ← ReceiveReply;
  a ← after;
  ReleaseLock;;
  mret (ret, a).

Definition request_only (req : request) : C Z :=
  '(ret, _) ← transact (mret tt) req (mret tt); mret ret.

(** [if (arg && arglen) memcpy(ShmPtr, arg, arglen)] and the same back to [buf]. *)
Definition put_arg (arg : option (list Z)) (arglen : Z) : C unit :=
  match arg with
  | Some p => when (negb (arglen =? 0)) (to_shm p arglen)
  | None => mret tt
  end.

Definition take_buf (buf : option (list Z)) (buflen : Z) : C (option (list Z)) :=
  match buf with
  | Some p => if buflen =? 0 then mret buf else p' ← from_shm 0 buflen p; mret (Some p')
  | None => mret None
  end.

Definition non_null {A} (p : option A) : bool := match p with Some _ => true | None => false end.

(** ** Files *)

Definition scepfsdOpen (name : string) (flags mode : Z) : C Z :=
  n ← packet_name name; request_only (PFSD_REQ_OPEN n flags mode).

Definition scepfsdLseek (fd offset whence : Z) : C Z :=
  RequireLock;;
  SendRequest (PFSD_REQ_LSEEK fd offset whence);;
  ret ← ReceiveReplyLong;
  ReleaseLock;;
  mret ret.

Definition scepfsdLseek64 (fd offset whence : Z) : C Z :=
  RequireLock;;
  SendRequest (PFSD_REQ_LSEEK64 fd offset whence);;
  ret ← ReceiveReplyLongLong;
  ReleaseLock;;
  mret ret.

(** A pointer [off] bytes into the memory of the caller, or past a null one. *)
Definition is_ptr (ptr : option (list Z)) (off : nat) : bool := non_null ptr || negb (off =? 0)%nat.

Definition block_of (ptr : option (list Z)) : C (list Z) := deref ptr.

(** The [for] of [scepfsdRead] and [scepfsdWrite]: pieces of the size of the segment,
    each by a call to the function itself ([self]), which for that size makes none. *)
Definition chunk_turn (self : option (list Z) -> nat -> Z -> C (Z * option (list Z)))
    (off : nat) (size : Z) '((chunked_size, ptr) : Z * option (list Z))
    : C (Z * option (list Z) + Z * option (list Z) * bool) :=
  s ← get;
  if SharedMemorySize s <? u64 (size - chunked_size) then
    '(result, ptr) ← self ptr (off + Z.to_nat chunked_size)%nat (SharedMemorySize s);
    if result <? 0 then mret (inr (result, ptr, true))
    else if result <? s32 (SharedMemorySize s) then
      mret (inr (result + chunked_size, ptr, true))
    else
      assert_ (fits_int (chunked_size + result));;
      mret (inl (chunked_size + result, ptr))
  else mret (inr (chunked_size, ptr, false)).

(** What follows the loop: the last piece goes to [ptr] itself, not to
    [ptr + chunked_size]. *)
Definition read_last (fd : Z) (off : nat) (size chunked_size : Z) (ptr : option (list Z))
    : C (Z * option (list Z)) :=
  let m_size := s32 (size - chunked_size) in
  '(ret, ptr) ← transact (mret tt) (PFSD_REQ_READ fd (is_ptr ptr off) m_size)
    (if is_ptr ptr off then p ← block_of ptr; p' ← from_shm off m_size p; mret (Some p')
     else mret ptr);
  assert_ (fits_int (ret + chunked_size));;
  mret (ret + chunked_size, ptr).

Definition write_last (fd : Z) (off : nat) (size chunked_size : Z) (ptr : option (list Z))
    : C (Z * option (list Z)) :=
  let m_size := s32 (size - chunked_size) in
  '(ret, _) ← transact
    (when (is_ptr ptr off) (p ← block_of ptr; to_shm (drop off p) m_size))
    (PFSD_REQ_WRITE fd (is_ptr ptr off) m_size) (mret tt);
  assert_ (fits_int (ret + chunked_size));;
  mret (ret + chunked_size, ptr).

Definition chunked (last : nat -> Z -> Z -> option (list Z) -> C (Z * option (list Z)))
    (fuel : nat) (self : option (list Z) -> nat -> Z -> C (Z * option (list Z)))
    (ptr : option (list Z)) (off : nat) (size : Z) : C (Z * option (list Z)) :=
  '(result, ptr, done) ← loop fuel (chunk_turn self off size) (0, ptr);
  if done : bool then mret (result, ptr) else last off size result ptr.

(** The recursion is one level deep: the inner call is for one segment. *)
Definition scepfsdRead (fuel : nat) (fd : Z) (ptr : option (list Z)) (size : Z)
    : C (Z * option (list Z)) :=
  chunked (read_last fd) fuel (chunked (read_last fd) 1 (fun _ _ _ => stop OutOfFuel)) ptr 0 size.

Definition scepfsdWrite (fuel : nat) (fd : Z) (ptr : option (list Z)) (size : Z)
    : C (Z * option (list Z)) :=
  chunked (write_last fd) fuel (chunked (write_last fd) 1 (fun _ _ _ => stop OutOfFuel)) ptr 0 size.

Definition scepfsdClose (fd : Z) : C Z := request_only (PFSD_REQ_CLOSE fd).

Definition scepfsdIoctl (fd cmd : Z) (arg : option (list Z)) : C Z :=
  '(ret, _) ← transact (match arg with Some p => to_shm p 1024 | None => mret tt end)
                (PFSD_REQ_IOCTL fd cmd (non_null arg)) (mret tt);
  mret ret.

(** The memory returned is that of the transfer's buffer, or [buf]. *)
Definition scepfsdIoctl2 (fd command : Z) (arg : ioctl2_arg) (arglen : Z)
    (buf : option (list Z)) (buflen : Z) : C (Z * option (list Z)) :=
  if command =? 0x6832 then
    match arg with
    | Xfer sub sector size mode buffer =>
        if negb (non_null buffer) || (0x100 <? size) then mret (-22, buffer)
        else
          p ← deref buffer;
          '(ret, p) ← transact (to_shm p (Z.shiftl size 9))
            (PFSD_REQ_IOCTL2_HIOCTRANSFER fd sub sector size mode true)
            (from_shm 0 (Z.shiftl size 9) p);
          mret (ret, Some p)
    | Plain _ => undef
    end
  else
    match arg with
    | Plain arg =>
        transact (put_arg arg arglen)
          (PFSD_REQ_IOCTL2 fd command (non_null arg) (s32 arglen) (non_null buf) (s32 buflen))
          (take_buf buf buflen)
    | Xfer _ _ _ _ _ => undef
    end.

(** ** Directories and status *)

Definition scepfsdDopen (name : string) : C Z :=
  n ← packet_name name; request_only (PFSD_REQ_DOPEN n).

(** The copy out of the segment does not look at the pointer. *)
Definition scepfsdDread (fd : Z) (iox_dirent : option iox_dirent_t) : C (Z * iox_dirent_t) :=
  transact (mret tt) (PFSD_REQ_DREAD fd (non_null iox_dirent))
    (deref iox_dirent;; bs ← load_shm 324; mret (dirent_of_bytes bs)).

Definition scepfsdDclose (fd : Z) : C Z := request_only (PFSD_REQ_DCLOSE fd).

Definition scepfsdChstat (name : string) (stat : option iox_stat_t) (mask : Z) : C Z :=
  n ← packet_name name;
  '(ret, _) ← transact (match stat with Some st => to_shm (stat_bytes st) 64 | None => mret tt end)
                (PFSD_REQ_CHSTAT n (non_null stat) mask) (mret tt);
  mret ret.

Definition scepfsdGetstat (name : string) (stat : option iox_stat_t) : C (Z * option iox_stat_t) :=
  n ← packet_name name;
  transact (mret tt) (PFSD_REQ_GETSTAT n (non_null stat))
    (match stat with
     | Some _ => bs ← load_shm 64; mret (Some (stat_of_bytes bs))
     | None => mret None
     end).

Definition scepfsdMkdir (name : string) (mode : Z) : C Z :=
  n ← packet_name name; request_only (PFSD_REQ_MKDIR n mode).
Definition scepfsdRmdir (name : string) : C Z :=
  n ← packet_name name; request_only (PFSD_REQ_RMDIR n).
Definition scepfsdChdir (name : string) : C Z :=
  n ← packet_name name; request_only (PFSD_REQ_CHDIR n).
Definition scepfsdRemove (name : string) : C Z :=
  n ← packet_name name; request_only (PFSD_REQ_REMOVE n).
Definition scepfsdRename (old new : string) : C Z :=
  o ← packet_name old; n ← packet_name new; request_only (PFSD_REQ_RENAME o n).
Definition scepfsdSymlink (old new : string) : C Z :=
  o ← packet_name old; n ← packet_name new; request_only (PFSD_REQ_SYMLINK o n).

Definition scepfsdReadlink (name : string) (buf : option (list Z)) (buflen : Z)
    : C (Z * option (list Z)) :=
  n ← packet_name name;
  transact (mret tt) (PFSD_REQ_READLINK n (non_null buf) (s32 buflen)) (take_buf buf buflen).

(** ** Devices *)

Definition scepfsdSync (dev : string) (flag : Z) : C Z :=
  d ← packet_name dev; request_only (PFSD_REQ_SYNC d flag).

Definition scepfsdFormat (dev blockdev : string) (arg : option (list Z)) (arglen : Z) : C Z :=
  d ← packet_name dev; b ← packet_name blockdev;
  '(ret, _) ← transact (put_arg arg arglen) (PFSD_REQ_FORMAT d b (non_null arg) (s32 arglen)) (mret tt);
  mret ret.

Definition scepfsdMount (fsname devname : string) (flag : Z) (arg : option (list Z)) (arglen : Z)
    : C Z :=
  f ← packet_name fsname; d ← packet_name devname;
  '(ret, _) ← transact (put_arg arg arglen) (PFSD_REQ_MOUNT f d flag (non_null arg) (s32 arglen)) (mret tt);
  mret ret.

Definition scepfsdUmount (fsname : string) : C Z :=
  f ← packet_name fsname; request_only (PFSD_REQ_UMOUNT f).

Definition scepfsdDevctl (name : string) (cmd : Z) (arg : option (list Z)) (arglen : Z)
    (buf : option (list Z)) (buflen : Z) : C (Z * option (list Z)) :=
  n ← packet_name name;
  transact (put_arg arg arglen)
    (PFSD_REQ_DEVCTL n cmd (non_null arg) (s32 arglen) (non_null buf) (s32 buflen)) (take_buf buf buflen).

Definition scepfsdSetReadAhead (enabled : Z) : C Z := request_only (PFSD_REQ_SETREADAHEAD enabled).
Definition scepfsdGetReadAhead : C Z := request_only PFSD_REQ_GETREADAHEAD.

Definition scepfsdGetMountPoint (in_oldmap : string) (out_newmap : bool) : C (Z * option string) :=
  p ← packet_name in_oldmap;
  transact (mret tt) (PFSD_REQ_GETMOUNTPOINT p)
    (if out_newmap then s ← call Shm_string; mret (Some s) else mret None).
End Client.

(** ** The interface (src/src/pfsd_client.h) *)

Inductive client_op :=
  | OpOpen (name : string) (flags mode : Z)
  | OpLseek (fd offset whence : Z)
  | OpLseek64 (fd offset whence : Z)
  | OpRead (fuel : nat) (fd : Z) (ptr : option (list Z)) (size : Z)
  | OpWrite (fuel : nat) (fd : Z) (ptr : option (list Z)) (size : Z)
  | OpClose (fd : Z)
  | OpDopen (name : string)
  | OpDread (fd : Z) (de : option iox_dirent_t)
  | OpDclose (fd : Z)
  | OpChstat (name : string) (stat : option iox_stat_t) (mask : Z)
  | OpGetstat (name : string) (stat : option iox_stat_t)
  | OpMkdir (name : string) (mode : Z)
  | OpRmdir (name : string)
  | OpChdir (name : string)
  | OpRemove (name : string)
  | OpRename (old new : string)
  | OpIoctl (fd cmd : Z) (arg : option (list Z))
  | OpIoctl2 (fd command : Z) (arg : ioctl2_arg) (arglen : Z) (buf : option (list Z)) (buflen : Z)
  | OpSymlink (old new : string)
  | OpReadlink (name : string) (buf : option (list Z)) (buflen : Z)
  | OpSync (dev : string) (flag : Z)
  | OpFormat (dev blockdev : string) (arg : option (list Z)) (arglen : Z)
  | OpMount (fsname devname : string) (flag : Z) (arg : option (list Z)) (arglen : Z)
  | OpUmount (fsname : string)
  | OpDevctl (name : string) (cmd : Z) (arg : option (list Z)) (arglen : Z)
      (buf : option (list Z)) (buflen : Z)
  | OpSetReadAhead (enabled : Z)
  | OpGetReadAhead
  | OpGetMountPoint (path : string) (out : bool).

(** The value every operation returns. *)
Definition client_api {E} `{Handler E} (op : client_op) : M client E Z :=
  match op with
  | OpOpen name flags mode => scepfsdOpen name flags mode
  | OpLseek fd offset whence => scepfsdLseek fd offset whence
  | OpLseek64 fd offset whence => scepfsdLseek64 fd offset whence
  | OpRead fuel fd ptr size => '(ret, _) ← scepfsdRead fuel fd ptr size; mret ret
  | OpWrite fuel fd ptr size => '(ret, _) ← scepfsdWrite fuel fd ptr size; mret ret
  | OpClose fd => scepfsdClose fd
  | OpDopen name => scepfsdDopen name
  | OpDread fd de => '(ret, _) ← scepfsdDread fd de; mret ret
  | OpDclose fd => scepfsdDclose fd
  | OpChstat name stat mask => scepfsdChstat name stat mask
  | OpGetstat name stat => '(ret, _) ← scepfsdGetstat name stat; mret ret
  | OpMkdir name mode => scepfsdMkdir name mode
  | OpRmdir name => scepfsdRmdir name
  | OpChdir name => scepfsdChdir name
  | OpRemove name => scepfsdRemove name
  | OpRename old new => scepfsdRename old new
  | OpIoctl fd cmd arg => scepfsdIoctl fd cmd arg
  | OpIoctl2 fd cmd arg arglen buf buflen =>
      '(ret, _) ← scepfsdIoctl2 fd cmd arg arglen buf buflen; mret ret
  | OpSymlink old new => scepfsdSymlink old new
  | OpReadlink name buf buflen => '(ret, _) ← scepfsdReadlink name buf buflen; mret ret
  | OpSync dev flag => scepfsdSync dev flag
  | OpFormat dev blockdev arg arglen => scepfsdFormat dev blockdev arg arglen
  | OpMount fsname devname flag arg arglen => scepfsdMount fsname devname flag arg arglen
  | OpUmount fsname => scepfsdUmount fsname
  | OpDevctl name cmd arg arglen buf buflen =>
      '(ret, _) ← scepfsdDevctl name cmd arg arglen buf buflen; mret ret
  | OpSetReadAhead enabled => scepfsdSetReadAhead enabled
  | OpGetReadAhead => scepfsdGetReadAhead
  | OpGetMountPoint path out => '(ret, _) ← scepfsdGetMountPoint path out; mret ret
  end.
