(* ===== verification/ClientProps.v ===== *)
(** * Clients and daemon

    The protocol every operation of a client keeps, and what an operation does when
    the daemon of src/src/pfsd.c answers it. *)

From S2P Require Import Prelude IoWorld Trace Shm Pfsd PfsdInv Client.

(** ** The protocol

    A client talks to the daemon and looks at the shared segment only while it holds
    the system semaphore, and waits for the reply of a packet before anything else. *)
Inductive phase := Free | Held | Waiting.

#[export] Instance phase_eq_dec : EqDecision phase.
Proof. solve_decision. Defined.

Definition next_phase (p : phase) (ev : event) : option phase :=
  match ev with
  | Ev c _ =>
      match c with
      | Sys_semop _ op =>
          match p with
          | Free => if op =? -1 then Some Held else None
          | Held => if op =? 1 then Some Free else None
          | Waiting => None
          end
      | Send_packet _ _ => match p with Held => Some Waiting | _ => None end
      | Recv_reply _ _ => match p with Waiting => Some Held | _ => None end
      | Shm_put _ | Shm_get _ | Shm_string => match p with Held => Some Held | _ => None end
      | _ => Some p
      end
  end.

Fixpoint phases (t : trace) (p : phase) : option phase :=
  match t with
  | [] => Some p
  | ev :: t' => match next_phase p ev with Some q => phases t' q | None => None end
  end.

Lemma phases_app t1 t2 p : phases (t1 ++ t2) p = phases t1 p ≫= phases t2.
Proof. revert p. induction t1 as [|ev t1 IH]; intros p; [done|].
  cbn. destruct (next_phase p ev); [apply IH|done]. Qed.

Section Follows.
Context {St E : Type} `{Handler E}.

(** From phase [p] a run of [m] keeps the protocol, and is in [q] where it returns. *)
Definition follows {A} (p : phase) (m : M St E A) (q : phase) : Prop :=
  forall s e, wp m (fun r _ _ t =>
    match r with Ret _ => phases t p = Some q | _ => phases t p <> None end) s e.

Lemma follows_bind {A B} p q q' (m : M St E A) (k : A -> M St E B) :
  follows p m q -> (forall a, follows q (k a) q') -> follows p (m ≫= k) q'.
Proof.
  intros Hm Hk s e. apply wp_bind. eapply wp_mono; [apply Hm|].
  intros [a| | | |] s' e' t Ht; try done. cbn. eapply wp_mono; [apply Hk|].
  cbv beta. intros r s'' e'' t' Ht'. by rewrite phases_app, Ht.
Qed.

Lemma follows_silent {A} p (m : M St E A) : (forall s e, o_tr (m s e) = []) -> follows p m p.
Proof. intros Hm s e. unfold wp. cbv beta. rewrite Hm. destruct (o_res _); cbn; congruence. Qed.

Lemma follows_ret {A} p (a : A) : follows p (mret a) p.
Proof. by apply follows_silent. Qed.
Lemma follows_get p : follows p get p.
Proof. by apply follows_silent. Qed.
Lemma follows_modify p g : follows p (modify g) p.
Proof. by apply follows_silent. Qed.
Lemma follows_assert p c : follows p (assert_ c) p.
Proof. apply follows_silent. by destruct c. Qed.
Lemma follows_deref {A} p (o : option A) : follows p (deref o) p.
Proof. apply follows_silent. by destruct o. Qed.
Lemma follows_stop {A} p q (r : res A) : (forall a, r <> Ret a) -> follows p (stop r) q.
Proof. intros Hr s e. apply wp_stop. destruct r; [by destruct (Hr a)|done..]. Qed.

Lemma follows_call {A} p q (c : ioE A) :
  (forall r, next_phase p (Ev c r) = Some q) -> follows p (call c) q.
Proof. intros Hc s e. apply wp_call. intros r e' _. cbn [phases]. by rewrite Hc. Qed.

Lemma follows_if {A} p q (c : bool) (m1 m2 : M St E A) :
  follows p m1 q -> follows p m2 q -> follows p (if c then m1 else m2) q.
Proof. by destruct c. Qed.

Lemma follows_when p c (m : M St E unit) : follows p m p -> follows p (when c m) p.
Proof. destruct c; [done|]. intros _. apply follows_ret. Qed.

Lemma follows_loop {X R} p fuel (body : X -> M St E (X + R)) x :
  (forall x, follows p (body x) p) -> follows p (loop fuel body x) p.
Proof.
  intros Hb. revert x. induction fuel as [|fuel IH]; intros x; [by apply follows_stop|].
  simpl. eapply follows_bind; [apply Hb|]. intros [x'|y]; [apply IH|apply follows_ret].
Qed.
End Follows.

Create HintDb follows discriminated.
#[export] Hint Constants Opaque : follows.
#[export] Hint Resolve follows_ret follows_get follows_modify follows_assert follows_deref : follows.
#[export] Hint Extern 1 (follows _ (call _) _) => apply follows_call; reflexivity : follows.
#[export] Hint Extern 1 (follows _ (stop _) _) => by apply follows_stop : follows.
#[export] Hint Extern 1 (follows _ undef _) => by apply follows_stop : follows.

Ltac follow_step :=
  lazymatch goal with
  | |- follows _ (mbind _ _) _ => eapply follows_bind; [|intros ?]
  | |- follows _ (if ?c then _ else _) _ =>
      lazymatch type of c with bool => apply follows_if | _ => destruct c eqn:? end
  | |- follows _ (when _ _) _ => apply follows_when
  | |- follows _ (loop _ _ _) _ => apply follows_loop; intros ?
  | |- follows _ (match ?x with _ => _ end) _ => destruct x eqn:?
  | |- follows _ _ _ => solve [eauto 2 with follows nocore]
  end.

Section Protocol.
Context {E : Type} `{Handler E}.
Local Abbreviation C := (M client E).

Lemma lock_follows :
  follows Free (RequireLock : C unit) Held /\ follows Held (ReleaseLock : C unit) Free.
Proof.
  split; (eapply follows_bind; [apply follows_get|intros s]);
    (eapply follows_bind; [by apply follows_call|intros r]); repeat follow_step.
Qed.

Lemma send_follows req : follows Held (SendRequest req : C unit) Waiting.
Proof.
  unfold SendRequest. do 3 (eapply follows_bind; [solve [eauto 2 with follows nocore]|intros ?]).
  eapply follows_bind; [by apply follows_call|intros r]. repeat follow_step.
Qed.

Lemma receive_follows size : follows Waiting (receive size : C Z) Held.
Proof.
  unfold receive.
  eapply follows_bind; [solve [eauto 2 with follows nocore]|intros s].
  eapply follows_bind; [by apply follows_call|intros [n v]]. repeat follow_step.
Qed.

Lemma replies_follow :
  follows Waiting (ReceiveReply : C Z) Held /\ follows Waiting (ReceiveReplyLong : C Z) Held /\
  follows Waiting (ReceiveReplyLongLong : C Z) Held.
Proof. split_and!; apply receive_follows. Qed.

Lemma shm_follows :
  (forall p n, follows Held (to_shm p n : C unit) Held) /\
  (forall n, follows Held (load_shm n : C (list Z)) Held).
Proof. split; intros; unfold to_shm, load_shm; repeat follow_step. Qed.
End Protocol.

#[export] Hint Extern 1 (follows Free RequireLock _) => exact (proj1 lock_follows) : follows.
#[export] Hint Extern 1 (follows Held ReleaseLock _) => exact (proj2 lock_follows) : follows.
#[export] Hint Resolve send_follows : follows.
#[export] Hint Extern 1 (follows Waiting ReceiveReply _) => exact (proj1 replies_follow) : follows.
#[export] Hint Extern 1 (follows Waiting ReceiveReplyLong _) =>
  exact (proj1 (proj2 replies_follow)) : follows.
#[export] Hint Extern 1 (follows Waiting ReceiveReplyLongLong _) =>
  exact (proj2 (proj2 replies_follow)) : follows.
#[export] Hint Extern 1 (follows Held (to_shm _ _) _) => apply (proj1 shm_follows) : follows.
#[export] Hint Extern 1 (follows Held (load_shm _) _) => apply (proj2 shm_follows) : follows.

Section Protocol2.
Context {E : Type} `{Handler E}.
Local Abbreviation C := (M client E).

Lemma transact_follows {A} (before : C unit) req (after : C A) :
  follows Held before Held -> follows Held after Held -> follows Free (transact before req after) Free.
Proof.
  intros Hb Ha. unfold transact.
  repeat (eapply follows_bind; [solve [eauto 2 with follows nocore]|intros ?]). apply follows_ret.
Qed.

Lemma from_shm_follows off n p : follows Held (from_shm off n p : C (list Z)) Held.
Proof. unfold from_shm. repeat follow_step. Qed.

Lemma block_of_follows p ptr : follows p (block_of ptr : C (list Z)) p.
Proof. apply follows_deref. Qed.

Lemma put_arg_follows arg n : follows Held (put_arg arg n : C unit) Held.
Proof. unfold put_arg. repeat follow_step. Qed.

Lemma packet_name_follows p name : follows p (packet_name name : C string) p.
Proof. unfold packet_name. repeat follow_step. Qed.
End Protocol2.

#[export] Hint Resolve transact_follows from_shm_follows block_of_follows put_arg_follows
  packet_name_follows : follows.

Section Operations.
Context {E : Type} `{Handler E}.
Local Abbreviation C := (M client E).

Lemma take_buf_follows buf n : follows Held (take_buf buf n : C (option (list Z))) Held.
Proof. unfold take_buf. repeat follow_step. Qed.

Lemma request_only_follows req : follows Free (request_only req : C Z) Free.
Proof.
  unfold request_only. eapply follows_bind; [apply transact_follows; apply follows_ret|].
  intros [ret u]. apply follows_ret.
Qed.

Lemma chunked_follows last fuel self ptr off size :
  (forall off size k p, follows Free (last off size k p : C (Z * option (list Z))) Free) ->
  (forall p off size, follows Free (self p off size : C (Z * option (list Z))) Free) ->
  follows Free (chunked last fuel self ptr off size) Free.
Proof.
  intros Hl Hs. unfold chunked. eapply follows_bind.
  - apply follows_loop. intros [k p]. unfold chunk_turn. repeat follow_step; apply Hs.
  - intros [[r p] b]. apply follows_if; [apply follows_ret|apply Hl].
Qed.

Lemma last_follows fd off size k p :
  follows Free (read_last fd off size k p : C (Z * option (list Z))) Free /\
  follows Free (write_last fd off size k p : C (Z * option (list Z))) Free.
Proof.
  split; [unfold read_last|unfold write_last]; (eapply follows_bind;
    [apply transact_follows; repeat follow_step|intros [r q]; repeat follow_step]).
Qed.

Lemma read_follows fuel fd p size : follows Free (scepfsdRead fuel fd p size : C (Z * option (list Z))) Free.
Proof.
  apply chunked_follows; intros; [apply last_follows|].
  apply chunked_follows; intros; [apply last_follows|by apply follows_stop].
Qed.

Lemma write_follows fuel fd p size : follows Free (scepfsdWrite fuel fd p size : C (Z * option (list Z))) Free.
Proof.
  apply chunked_follows; intros; [apply last_follows|].
  apply chunked_follows; intros; [apply last_follows|by apply follows_stop].
Qed.

Lemma lseek_follows fd offset whence :
  follows Free (scepfsdLseek fd offset whence : C Z) Free /\
  follows Free (scepfsdLseek64 fd offset whence : C Z) Free.
Proof.
  split; [unfold scepfsdLseek|unfold scepfsdLseek64];
    repeat (eapply follows_bind; [solve [eauto 2 with follows nocore]|intros ?]); apply follows_ret.
Qed.
End Operations.

#[export] Hint Resolve take_buf_follows request_only_follows read_follows write_follows : follows.
#[export] Hint Extern 1 (follows Free (scepfsdLseek _ _ _) _) => apply (proj1 (lseek_follows _ _ _)) : follows.
#[export] Hint Extern 1 (follows Free (scepfsdLseek64 _ _ _) _) => apply (proj2 (lseek_follows _ _ _)) : follows.

(** Operations that send one packet between lock and unlock. *)
Ltac follow_op :=
  repeat lazymatch goal with
  | |- follows Free (transact _ _ _) _ => apply transact_follows
  | |- _ => follow_step
  end.

(** C7: the protocol between the clients: every operation takes the semaphore before
    it touches the shared segment or talks to the daemon, waits for the reply of each
    packet before it does anything else with them, and where it returns has given the
    semaphore back; where it does not return, it kept this order up to there. *)
Theorem client_protocol `{Handler E} op : follows Free (client_api op : M client E Z) Free.
Proof.
  destruct op; cbn [client_api];
    unfold scepfsdOpen, scepfsdClose, scepfsdDopen, scepfsdDread, scepfsdDclose, scepfsdChstat,
      scepfsdGetstat, scepfsdMkdir, scepfsdRmdir, scepfsdChdir, scepfsdRemove, scepfsdRename,
      scepfsdIoctl, scepfsdIoctl2, scepfsdSymlink, scepfsdReadlink, scepfsdSync, scepfsdFormat,
      scepfsdMount, scepfsdUmount, scepfsdDevctl, scepfsdSetReadAhead, scepfsdGetReadAhead,
      scepfsdGetMountPoint; follow_op.
Qed.
