(* ===== verification/ClientDaemon.v ===== *)
(** * A client and the daemon together

    The client's calls answered by the daemon's own request handler: the segment the
    client writes is the one the daemon reads, and a packet is served when the client
    waits for its reply. *)

From S2P Require Import Prelude IoWorld Trace Shm Pfsd Client.

(** ** Runs that return *)

Section Runs.
Context {St E : Type} `{Handler E}.

Definition runs {A} (m : M St E A) (s : St) (e : E) (a : A) (s' : St) (e' : E) : Prop :=
  exists t, m s e = Out (Ret a) s' e' t.

Lemma bind_out {A B} (m : M St E A) (k : A -> M St E B) s e a s1 e1 t1 r s2 e2 t2 :
  m s e = Out (Ret a) s1 e1 t1 -> k a s1 e1 = Out r s2 e2 t2 ->
  (m ≫= k) s e = Out r s2 e2 (t1 ++ t2).
Proof. intros H1 H2. unfold mbind, M_bind, bind_outcome. by rewrite H1; simpl; rewrite H2. Qed.

Lemma call_out {A} (c : ioE A) (s : St) e r e' : handle c e = (r, e') -> call c s e = Out (Ret r) s e' [Ev c r].
Proof. intros Hc. unfold call. by rewrite Hc. Qed.

Lemma assert_out c (s : St) (e : E) : c = true -> assert_ c s e = Out (Ret tt) s e [].
Proof. by intros ->. Qed.

Lemma runs_ret {A} (a : A) s e : runs (mret a) s e a s e.
Proof. by exists []. Qed.

Lemma runs_bind {A B} (m : M St E A) (k : A -> M St E B) s e a s1 e1 b s2 e2 :
  runs m s e a s1 e1 -> runs (k a) s1 e1 b s2 e2 -> runs (m ≫= k) s e b s2 e2.
Proof.
  intros [t1 H1] [t2 H2]. exists (t1 ++ t2). unfold mbind, M_bind, bind_outcome. by rewrite H1; simpl; rewrite H2.
Qed.

Lemma runs_get_bind {B} (k : St -> M St E B) s e b s2 e2 :
  runs (k s) s e b s2 e2 -> runs (get ≫= k) s e b s2 e2.
Proof. intros Hk. eapply runs_bind; [by exists []|done]. Qed.

Lemma runs_call {A} (c : ioE A) s e r e' : handle c e = (r, e') -> runs (call c) s e r s e'.
Proof. intros Hc. unfold runs, call. rewrite Hc. by eexists. Qed.

Lemma runs_assert_bind {B} c (k : unit -> M St E B) s e b s2 e2 :
  c = true -> runs (k tt) s e b s2 e2 -> runs (assert_ c ≫= k) s e b s2 e2.
Proof. intros -> Hk. eapply runs_bind; [by exists []|done]. Qed.

Lemma runs_when_false c (m : M St E unit) s e : c = false -> runs (when c m) s e tt s e.
Proof. intros ->. by exists []. Qed.

Lemma runs_wp {A} (m : M St E A) s e a s' e' (Q : res A -> St -> E -> trace -> Prop) :
  runs m s e a s' e' -> (forall t, Q (Ret a) s' e' t) -> wp m Q s e.
Proof. intros [t Ht] HQ. unfold wp. rewrite Ht. apply HQ. Qed.

Lemma runs_loop_S {X R} n (body : X -> M St E (X + R)) x s e x' s1 e1 y s2 e2 :
  runs (body x) s e (inl x') s1 e1 -> runs (loop n body x') s1 e1 y s2 e2 ->
  runs (loop (S n) body x) s e y s2 e2.
Proof. intros H1 H2. cbn [loop]. by eapply runs_bind. Qed.

Lemma runs_loop_end {X R} n (body : X -> M St E (X + R)) x s e y s1 e1 :
  runs (body x) s e (inr y) s1 e1 -> runs (loop (S n) body x) s e y s1 e1.
Proof. intros H1. cbn [loop]. eapply runs_bind; [done|apply runs_ret]. Qed.
End Runs.

(** ** The system *)

(** The daemon with its environment, the packet under way, and the calls the daemon
    has made. *)
Record system (E : Type) := mk_sys {
  sy_daemon : pfsd;
  sy_env : E;
  sy_pending : option request;
  sy_log : trace
}.
Arguments mk_sys {E}.
Arguments sy_daemon {E}.
Arguments sy_env {E}.
Arguments sy_pending {E}.
Arguments sy_log {E}.

(** How the client is known to the daemon, and what the code leaves open. *)
Class Wiring := { w_conn : Z; w_hdd : Z; w_garbage : Z }.

Fixpoint replies (t : trace) : list Z :=
  match t with
  | [] => []
  | Ev c _ :: t' => match c with Reply _ v => v :: replies t' | _ => replies t' end
  end.

Section System.
Context {E : Type} `{Handler E, Wiring}.

Definition serve (sys : system E) : Z * Z * system E :=
  match sy_pending sys with
  | None => (0, w_garbage, sys)
  | Some req =>
      let o := event_handler_func w_hdd w_garbage w_conn req (sy_daemon sys) (sy_env sys) in
      let sys' := mk_sys (o_st o) (o_env o) None (sy_log sys ++ o_tr o) in
      match o_res o, replies (o_tr o) with
      | Ret _, v :: _ => (4, v, sys')
      | _, _ => (0, w_garbage, sys')
      end
  end.

#[export] Instance system_handler : Handler (system E) := fun A c sys =>
  match c in ioE A return A * system E with
  | Send_packet _ req =>
      (rpc_buf_size req + 8, mk_sys (sy_daemon sys) (sy_env sys) (Some req) (sy_log sys))
  | Recv_reply _ _ => serve sys
  | Shm_put data =>
      (tt, mk_sys (set_shm (overlay 0 data (ShmPtr (sy_daemon sys))) (sy_daemon sys))
             (sy_env sys) (sy_pending sys) (sy_log sys))
  | Shm_get n => (take (Z.to_nat n) (ShmPtr (sy_daemon sys)), sys)
  | Shm_string => (string_of_bytes (cstr (ShmPtr (sy_daemon sys))), sys)
  | Host_open path flags mode =>
      let '(r, e') := handle (Host_open path flags mode) (sy_env sys) in
      (r, mk_sys (sy_daemon sys) e' (sy_pending sys) (sy_log sys))
  | Host_read fd n =>
      let '(r, e') := handle (Host_read fd n) (sy_env sys) in
      (r, mk_sys (sy_daemon sys) e' (sy_pending sys) (sy_log sys))
  | Sys_shmctl_stat _ => (Z.of_nat (length (ShmPtr (sy_daemon sys))), sys)
  | c => (default_answer c, sys)
  end.

Local Abbreviation C := (M client (system E)).

Lemma request_size_nonneg req : 0 <= rpc_buf_size req.
Proof. destruct req; simpl; lia. Qed.

Lemma runs_lock s sys : runs (RequireLock : C unit) s sys tt s sys /\
                        runs (ReleaseLock : C unit) s sys tt s sys.
Proof.
  split; apply runs_get_bind; (eapply runs_bind; [by apply runs_call|]); by apply runs_when_false.
Qed.

Lemma runs_send req s sys :
  runs (SendRequest req : C unit) s sys tt s
    (mk_sys (sy_daemon sys) (sy_env sys) (Some req) (sy_log sys)).
Proof.
  apply runs_get_bind. eapply runs_bind; [by apply runs_call|]. apply runs_assert_bind; [done|].
  eapply runs_bind; [by apply runs_call|]. apply runs_when_false.
  apply Z.ltb_ge. pose proof (request_size_nonneg req). lia.
Qed.

Lemma runs_receive req s d e log d' e' t v vs size :
  event_handler_func w_hdd w_garbage w_conn req d e = Out (Ret tt) d' e' t -> replies t = v :: vs ->
  runs (receive size : C Z) s (mk_sys d e (Some req) log) v s (mk_sys d' e' None (log ++ t)).
Proof.
  intros Hh Hr. apply runs_get_bind. eapply runs_bind.
  { apply (runs_call (Recv_reply (Cfd s) size)). cbn. unfold serve; cbn. rewrite Hh; cbn.
    rewrite Hr. reflexivity. }
  cbn beta iota. eapply runs_bind; [by apply runs_when_false|]. apply runs_ret.
Qed.

(** One request: the daemon's handler runs once, between what the client does before
    it and after it. *)
Lemma runs_transact {A} (before : C unit) req (after : C A) s sys d e log d' e' t v vs a sys' :
  runs before s sys tt s (mk_sys d e None log) ->
  event_handler_func w_hdd w_garbage w_conn req d e = Out (Ret tt) d' e' t -> replies t = v :: vs ->
  runs after s (mk_sys d' e' None (log ++ t)) a s sys' ->
  runs (transact before req after) s sys (v, a) s sys'.
Proof.
  intros Hb Hh Hr Ha. unfold transact.
  eapply runs_bind; [apply runs_lock|]. eapply runs_bind; [exact Hb|].
  eapply runs_bind; [apply runs_send|]. cbn [sy_daemon sy_env sy_log].
  eapply runs_bind; [by eapply runs_receive|]. eapply runs_bind; [exact Ha|].
  eapply runs_bind; [apply runs_lock|]. apply runs_ret.
Qed.

Lemma runs_to_shm p n s d e pend log :
  0 <= n <= SharedMemorySize s -> n <= Z.of_nat (length p) ->
  runs (to_shm p n : C unit) s (mk_sys d e pend log) tt s
    (mk_sys (set_shm (overlay 0 (take (Z.to_nat n) p) (ShmPtr d)) d) e pend log).
Proof.
  intros Hn Hp. apply runs_get_bind, runs_assert_bind; [|by apply runs_call].
  rewrite !(proj2 (Z.leb_le _ _)) by lia. done.
Qed.

Lemma runs_from_shm off n p s sys :
  0 <= n <= SharedMemorySize s -> Z.of_nat off + n <= Z.of_nat (length p) ->
  runs (from_shm off n p : C (list Z)) s sys
    (overlay off (take (Z.to_nat n) (ShmPtr (sy_daemon sys))) p) s sys.
Proof.
  intros Hn Hp. apply runs_assert_bind; [apply Z.leb_le; lia|]. eapply runs_bind; [|apply runs_ret].
  apply runs_get_bind, runs_assert_bind; [|by apply runs_call].
  rewrite !(proj2 (Z.leb_le _ _)) by lia. done.
Qed.
End System.

(** ** Transfers in pieces *)

Section Pieces.
Context {E : Type} `{Handler E, Wiring}.
Local Abbreviation C := (M client (system E)).
Local Abbreviation mem := (option (list Z)).

Lemma s32_small z : 0 <= z < 2 ^ 31 -> s32 z = z.
Proof. intros Hz. unfold swrap. rewrite Z.mod_small; lia. Qed.

Lemma fits_small z : 0 <= z < 2 ^ 31 -> fits_int z = true.
Proof. intros Hz. unfold fits_int. rewrite (proj2 (Z.leb_le _ _)), (proj2 (Z.ltb_lt _ _)) by lia. done. Qed.

Context (last : nat -> Z -> Z -> mem -> C (Z * mem)) (s : client).
Local Abbreviation K := (SharedMemorySize s).
Hypothesis HK : 0 < K < 2 ^ 31.

Lemma turn_last self off size k ptr sys :
  0 <= size - k <= K ->
  runs (chunk_turn self off size (k, ptr) : C _) s sys (inr (k, ptr, false)) s sys.
Proof.
  intros Hk. apply runs_get_bind. rewrite u64_small by lia. rewrite (proj2 (Z.ltb_ge _ _)) by lia.
  apply runs_ret.
Qed.

(** A call for one segment goes straight to the last piece. *)
Lemma chunked_once self ptr off sys r sys' :
  runs (last off K 0 ptr) s sys r s sys' -> runs (chunked last 1 self ptr off K) s sys r s sys'.
Proof.
  intros Hl. eapply runs_bind; [eapply runs_loop_end, turn_last; lia|]. exact Hl.
Qed.

Lemma turn_piece off size k ptr ptr' sys sys' :
  0 <= k -> K < size - k -> size < 2 ^ 31 ->
  runs (last (off + Z.to_nat k)%nat K 0 ptr) s sys (K, ptr') s sys' ->
  runs (chunk_turn (chunked last 1 (fun _ _ _ => stop OutOfFuel)) off size (k, ptr) : C _) s sys
    (inl (k + K, ptr')) s sys'.
Proof.
  intros Hk0 Hk Hsize Hl. apply runs_get_bind. rewrite u64_small by lia.
  rewrite (proj2 (Z.ltb_lt _ _)) by lia. eapply runs_bind; [by apply chunked_once|]. cbn beta iota.
  rewrite (proj2 (Z.ltb_ge _ _)) by lia. rewrite s32_small by lia.
  rewrite (proj2 (Z.ltb_ge _ _)) by lia. apply runs_assert_bind; [apply fits_small; lia|]. apply runs_ret.
Qed.

(** What a transfer of [size] bytes keeps piece by piece, it has when only the last
    piece is left: [k] bytes are through, a multiple of the segment. *)
Lemma chunks_run size (I : Z -> mem -> system E -> Prop) fuel :
  size < 2 ^ 31 ->
  (forall k ptr sys, 0 <= k -> K < size - k -> I k ptr sys ->
     exists ptr' sys', runs (last (Z.to_nat k) K 0 ptr) s sys (K, ptr') s sys' /\ I (k + K) ptr' sys') ->
  forall k ptr sys, 0 <= k <= size -> (0 < fuel)%nat -> size - k <= Z.of_nat fuel * K ->
    (K | k) -> k = 0 \/ k < size -> I k ptr sys ->
  exists k' ptr' sys',
    runs (loop fuel (chunk_turn (chunked last 1 (fun _ _ _ => stop OutOfFuel)) 0 size) (k, ptr) : C _)
      s sys (k', ptr', false) s sys' /\
    I k' ptr' sys' /\ 0 <= k' /\ (K | k') /\ 0 <= size - k' <= K /\ (k' = 0 \/ k' < size).
Proof.
  intros Hsize Hpiece. induction fuel as [|fuel IH]; intros k ptr sys Hk Hf Hleft Hdiv Hlt HI; [lia|].
  destruct (Z.lt_ge_cases K (size - k)) as [Hmore|Hless].
  - destruct (Hpiece k ptr sys) as (ptr1 & sys1 & Hrun & HI1); [lia..|done|].
    destruct (IH (k + K) ptr1 sys1) as (k' & ptr' & sys' & Hr & Hrest); [lia|nia|nia| | |done|].
    + apply Z.divide_add_r; [done|apply Z.divide_refl].
    + right. lia.
    + exists k', ptr', sys'. split; [|done].
      eapply runs_loop_S; [apply turn_piece; [lia|lia|lia|exact Hrun]|exact Hr].
  - exists k, ptr, sys. split; [by apply runs_loop_end, turn_last; lia|]. split_and!; [done|lia|done|lia|lia|done].
Qed.
End Pieces.

(** ** Reading and writing *)

(** What serving requests on open files leaves alone. *)
Definition same_tables (d d' : pfsd) : Prop :=
  g_openfile_items d' = g_openfile_items d /\ g_mountlist_items d' = g_mountlist_items d /\
  g_clients d' = g_clients d /\ length (ShmPtr d') = length (ShmPtr d).

Lemma same_tables_refl d : same_tables d d.
Proof. done. Qed.

Lemma same_tables_trans d1 d2 d3 : same_tables d1 d2 -> same_tables d2 d3 -> same_tables d1 d3.
Proof. intros (? & ? & ? & ?) (? & ? & ? & ?). split_and!; congruence. Qed.

Lemma same_tables_shm data d :
  (length data <= length (ShmPtr d))%nat -> same_tables d (set_shm (overlay 0 data (ShmPtr d)) d).
Proof. intros Hl. split_and!; [done..|]. simpl. by apply length_overlay. Qed.

Lemma take_overlay data dst :
  (length data <= length dst)%nat -> take (length data) (overlay 0 data dst) = data.
Proof. exact (overlay_inside 0 data dst). Qed.

(** Drivers that take all they are given. *)
Class WritesAll (E : Type) `{Handler E} :=
  writes_all : forall fd data n e, fst (handle (IomanX_write fd data n) e) = n.

Section Transfers.
Context {E : Type} `{Handler E, Wiring}.
Local Abbreviation C := (M client (system E)).

Lemma remap_granted fd pid i d e :
  find_openfile fd pid (g_openfile_items d) = Some i ->
  rpc_remap_fd fd pid d e = Out (E := E) (Ret fd) d e [].
Proof.
  intros Hf. unfold rpc_remap_fd, mbind, M_bind, bind_outcome, get. cbn. by rewrite Hf.
Qed.

Lemma serve_write fd n d e i r e' :
  find_openfile fd w_conn (g_openfile_items d) = Some i -> (Z.to_nat n <= length (ShmPtr d))%nat ->
  handle (IomanX_write fd (take (Z.to_nat n) (ShmPtr d)) n) e = (r, e') ->
  event_handler_func w_hdd w_garbage w_conn (PFSD_REQ_WRITE fd true n) d e =
    Out (Ret tt) d (handle (Reply w_conn r) e').2
      ([] ++ ([] ++ [] ++ []) ++ [Ev (IomanX_write fd (take (Z.to_nat n) (ShmPtr d)) n) r] ++
       [Ev (Reply w_conn r) tt]).
Proof.
  intros Hf Hn Hw. cbn [event_handler_func].
  eapply bind_out; [by eapply remap_granted|]. eapply bind_out.
  { eapply bind_out; [reflexivity|]. cbn beta iota.
    eapply bind_out; [by apply assert_out, Nat.leb_le|reflexivity]. }
  eapply bind_out; [by apply call_out|].
  destruct (handle (Reply w_conn r) e') as [[] e''] eqn:He. by apply call_out.
Qed.

Lemma serve_read fd n d e i r data e' :
  find_openfile fd w_conn (g_openfile_items d) = Some i -> (length data <= length (ShmPtr d))%nat ->
  handle (IomanX_read fd n) e = (r, data, e') ->
  event_handler_func w_hdd w_garbage w_conn (PFSD_REQ_READ fd true n) d e =
    Out (Ret tt) (set_shm (overlay 0 data (ShmPtr d)) d) (handle (Reply w_conn r) e').2
      ([] ++ [Ev (IomanX_read fd n) (r, data)] ++ ([] ++ [] ++ []) ++ [Ev (Reply w_conn r) tt]).
Proof.
  intros Hf Hn Hw. cbn [event_handler_func].
  eapply bind_out; [by eapply remap_granted|]. eapply bind_out; [by apply call_out|].
  cbn beta iota. eapply bind_out.
  { eapply bind_out; [reflexivity|]. cbn beta iota.
    eapply bind_out; [by apply assert_out, Nat.leb_le|reflexivity]. }
  destruct (handle (Reply w_conn r) e') as [[] e''] eqn:He. by apply call_out.
Qed.

Lemma write_piece `{!WritesAll E} fd data off size k s d e log i :
  find_openfile fd w_conn (g_openfile_items d) = Some i ->
  0 < SharedMemorySize s < 2 ^ 31 -> SharedMemorySize s = Z.of_nat (length (ShmPtr d)) ->
  0 <= size - k <= SharedMemorySize s -> 0 <= k -> size < 2 ^ 31 ->
  Z.of_nat off + (size - k) <= Z.of_nat (length data) ->
  exists sys', runs (write_last fd off size k (Some data) : C _) s (mk_sys d e None log)
                 (size, Some data) s sys' /\
    same_tables d (sy_daemon sys') /\ sy_pending sys' = None /\
    sent (sy_log sys') = sent log ++ take (Z.to_nat (size - k)) (drop off data).
Proof.
  intros Hf HK Hshm Hm Hk Hsize Hlen. set (x := take (Z.to_nat (size - k)) (drop off data)).
  assert (Hx : length x = Z.to_nat (size - k)) by (unfold x; rewrite length_take, length_drop; lia).
  assert (Hxs : (length x <= length (ShmPtr d))%nat) by lia.
  set (d1 := set_shm (overlay 0 x (ShmPtr d)) d).
  assert (Hd1 : take (Z.to_nat (size - k)) (ShmPtr d1) = x) by (rewrite <- Hx; by apply take_overlay).
  assert (Hs1 : same_tables d d1) by by apply same_tables_shm.
  destruct (handle (IomanX_write fd x (size - k)) e) as [r e'] eqn:Hw.
  assert (r = size - k) as -> by (rewrite <- (writes_all fd x (size - k) e); by rewrite Hw).
  rewrite <- Hd1 in Hw.
  pose proof (serve_write fd (size - k) d1 e i (size - k) e') as Hserve.
  specialize (Hserve Hf). 
  specialize (Hserve ltac:(destruct Hs1 as (_ & _ & _ & Hl); rewrite Hl; lia) Hw).
  cbn [app] in Hserve. rewrite Hd1 in Hserve.
  eexists (mk_sys d1 _ None (log ++ _)). split; [|split; [exact Hs1|split; [done|]]].
  - unfold write_last. eapply runs_bind.
    + eapply runs_transact; [|rewrite s32_small by lia; exact Hserve|reflexivity|apply runs_ret].
      cbn [is_ptr non_null orb when block_of deref]. eapply runs_bind; [apply runs_ret|].
      rewrite s32_small by lia. apply runs_to_shm; [lia|]. rewrite length_drop. lia.
    + cbn beta iota. replace (size - k + k) with size by lia.
      apply runs_assert_bind; [apply fits_small; lia|]. apply runs_ret.
  - cbn [sy_log]. rewrite sent_app. cbn [sent]. by rewrite !app_nil_r.
Qed.

Lemma read_piece `{!FileReads E} fd p off size k s d e log i rest :
  find_openfile fd w_conn (g_openfile_items d) = Some i -> unread e fd = Some rest ->
  (forall e v, unread (handle (Reply w_conn v) e).2 fd = unread e fd) ->
  0 < SharedMemorySize s < 2 ^ 31 -> SharedMemorySize s = Z.of_nat (length (ShmPtr d)) ->
  0 <= size - k <= SharedMemorySize s -> 0 <= k -> size < 2 ^ 31 ->
  size - k <= Z.of_nat (length rest) -> Z.of_nat off + (size - k) <= Z.of_nat (length p) ->
  exists sys', runs (read_last fd off size k (Some p) : C _) s (mk_sys d e None log)
                 (size, Some (overlay off (take (Z.to_nat (size - k)) rest) p)) s sys' /\
    same_tables d (sy_daemon sys') /\ sy_pending sys' = None /\
    unread (sy_env sys') fd = Some (drop (Z.to_nat (size - k)) rest).
Proof.
  intros Hf Hun Hframe HK Hshm Hm Hk Hsize Hrest Hlen.
  destruct (read_unread e fd (size - k) rest ltac:(lia) Hun) as (e' & Hread & Hun').
  set (x := take (Z.to_nat (size - k)) rest) in *.
  assert (Hx : length x = Z.to_nat (size - k)) by (unfold x; rewrite length_take; lia).
  assert (Hxs : (length x <= length (ShmPtr d))%nat) by lia.
  rewrite Hx, Z2Nat.id in Hread by lia.
  pose proof (serve_read fd (size - k) d e i (size - k) x e' Hf Hxs Hread) as Hserve.
  set (d1 := set_shm (overlay 0 x (ShmPtr d)) d) in *. cbn [app] in Hserve.
  eexists (mk_sys d1 _ None (log ++ _)). split; [|split; [by apply same_tables_shm|split; [done|]]].
  - unfold read_last. eapply runs_bind.
    + eapply runs_transact; [apply runs_ret|rewrite s32_small by lia; exact Hserve|reflexivity|].
      cbn [is_ptr non_null orb block_of deref]. eapply runs_bind; [apply runs_ret|].
      rewrite s32_small by lia. eapply runs_bind; [apply runs_from_shm; [lia|done]|]. apply runs_ret.
    + cbn [sy_daemon d1 set_shm ShmPtr]. rewrite <- Hx, take_overlay by done.
      cbn beta iota. replace (size - k + k) with size by lia.
      apply runs_assert_bind; [apply fits_small; lia|]. apply runs_ret.
  - cbn [sy_env]. by rewrite Hframe.
Qed.
End Transfers.

(** A transfer that fits in the segment is its own last piece. *)
Lemma only_piece K k n : 0 <= k -> (K | k) -> k = 0 \/ k < n -> n <= K -> k = 0.
Proof.
  intros Hk Hdiv [->|Hlt] Hn; [done|]. destruct (Z.eq_dec k 0) as [->|]; [done|].
  pose proof (Z.divide_pos_le K k ltac:(lia) Hdiv). lia.
Qed.

(** Bytes moved piece by piece to their place, over the old content of a buffer. *)
Definition filled (k : Z) (rest p : list Z) : list Z :=
  take (Z.to_nat k) rest ++ drop (Z.to_nat k) p.

Lemma length_filled k rest p :
  0 <= k <= Z.of_nat (length p) -> k <= Z.of_nat (length rest) -> length (filled k rest p) = length p.
Proof. intros. unfold filled. rewrite length_app, length_take, length_drop. lia. Qed.

Lemma filled_more k m rest p :
  0 <= k -> 0 <= m -> k + m <= Z.of_nat (length rest) -> k + m <= Z.of_nat (length p) ->
  overlay (Z.to_nat k) (take (Z.to_nat m) (drop (Z.to_nat k) rest)) (filled k rest p) =
  filled (k + m) rest p.
Proof.
  intros Hk Hm Hr Hp. unfold filled, overlay.
  assert (Hl : length (take (Z.to_nat k) rest) = Z.to_nat k) by (rewrite length_take; lia).
  rewrite take_app_length' by done. rewrite drop_app_ge by lia. rewrite Hl, drop_drop.
  rewrite length_take, length_drop, app_assoc, Z2Nat.inj_add by done.
  f_equal; [by rewrite take_take_drop|]. f_equal. lia.
Qed.

Section Theorems.
Context {E : Type} `{Handler E, Wiring}.

(** C4: a write through the daemon: for a client that owns the descriptor and drivers
    that take all they are given, the daemon's tables stay as they are, the result is
    the number of bytes, and the driver gets the whole buffer when it fits in the
    segment.  A longer one goes out in pieces of the segment's size, the last of which
    repeats the beginning of the buffer. *)
Theorem client_write `{!WritesAll E} fuel fd data s d e log i :
  let K := SharedMemorySize s in let n := Z.of_nat (length data) in
  find_openfile fd w_conn (g_openfile_items d) = Some i ->
  0 < K < 2 ^ 31 -> K = Z.of_nat (length (ShmPtr d)) ->
  n < 2 ^ 31 -> (0 < fuel)%nat -> n <= Z.of_nat fuel * K ->
  exists k sys', runs (scepfsdWrite fuel fd (Some data) n) s (mk_sys d e None log)
                   (n, Some data) s sys' /\
    same_tables d (sy_daemon sys') /\
    ((K | k) /\ 0 <= n - k <= K /\ (k = 0 \/ k < n)) /\
    sent (sy_log sys') = sent log ++ take (Z.to_nat k) data ++ take (Z.to_nat (n - k)) data /\
    (n <= K -> sent (sy_log sys') = sent log ++ data).
Proof.
  intros K n Hf HK Hshm Hn Hfuel Hle.
  destruct (chunks_run (write_last fd) s HK n (fun k ptr sys => ptr = Some data /\
      same_tables d (sy_daemon sys) /\ sy_pending sys = None /\
      sent (sy_log sys) = sent log ++ take (Z.to_nat k) data) fuel) with (k := 0) (ptr := Some data)
      (sys := mk_sys d e None log) as (k & ptr & sys1 & Hrun & (-> & Hsame & Hpend & Hsent) & Hk & Hdiv & Hrest & Hlt);
    [done| |lia|done|lia|apply Z.divide_0_r|by left|by rewrite app_nil_r|].
  - intros k ptr [d1 e1 pend log1] Hk0 Hk (-> & Hsame & Hpend & Hsent). cbn in Hsame, Hpend, Hsent. subst pend.
    pose proof Hsame as (Hfiles & _ & _ & Hl).
    destruct (write_piece fd data (Z.to_nat k) K 0 s d1 e1 log1 i) as (sys' & Hr & Hs' & Hp' & Hw);
      [by rewrite Hfiles|done|by rewrite Hl|lia..|].
    exists (Some data), sys'. split; [exact Hr|]. split; [done|]. split; [by eapply same_tables_trans|].
    split; [done|]. rewrite Hw, Hsent, <- app_assoc, Z.sub_0_r, Z2Nat.inj_add by lia.
    by rewrite take_take_drop.
  - destruct sys1 as [d1 e1 pend log1]. cbn in Hsame, Hpend, Hsent. subst pend.
    pose proof Hsame as (Hfiles & _ & _ & Hl).
    destruct (write_piece fd data 0 n k s d1 e1 log1 i) as (sys' & Hr & Hs' & _ & Hw);
      [by rewrite Hfiles|done|by rewrite Hl|done|done|done|lia|].
    rewrite drop_0, Hsent, <- app_assoc in Hw. exists k, sys'.
    split; [eapply runs_bind; [exact Hrun|exact Hr]|]. split; [by eapply same_tables_trans|].
    split; [done|]. split; [exact Hw|]. intros Hfit. rewrite Hw.
    assert (k = 0) as -> by (by eapply only_piece). unfold n. by rewrite Z.sub_0_r, Nat2Z.id, firstn_all.
Qed.

(** C5: a read through the daemon: for a client that owns the descriptor and a file with
    enough bytes ahead, the result is their number, the descriptor moves on by it, and
    the buffer holds them when they fit in the segment.  For more, the last piece is
    laid over the beginning of the buffer, and the buffer's end stays as it was. *)
Theorem client_read `{!FileReads E} fuel fd p s d e log i rest :
  let K := SharedMemorySize s in let n := Z.of_nat (length p) in
  find_openfile fd w_conn (g_openfile_items d) = Some i -> unread e fd = Some rest ->
  (forall e v, unread (handle (Reply w_conn v) e).2 fd = unread e fd) ->
  0 < K < 2 ^ 31 -> K = Z.of_nat (length (ShmPtr d)) ->
  n < 2 ^ 31 -> n <= Z.of_nat (length rest) -> (0 < fuel)%nat -> n <= Z.of_nat fuel * K ->
  exists k p' sys', runs (scepfsdRead fuel fd (Some p) n) s (mk_sys d e None log)
                      (n, Some p') s sys' /\
    same_tables d (sy_daemon sys') /\ unread (sy_env sys') fd = Some (drop (length p) rest) /\
    ((K | k) /\ 0 <= n - k <= K /\ (k = 0 \/ k < n)) /\
    p' = overlay 0 (take (Z.to_nat (n - k)) (drop (Z.to_nat k) rest)) (filled k rest p) /\
    (n <= K -> p' = take (length p) rest).
Proof.
  intros K n Hf Hun Hframe HK Hshm Hn Hrest Hfuel Hle.
  destruct (chunks_run (read_last fd) s HK n (fun k ptr sys => ptr = Some (filled k rest p) /\
      same_tables d (sy_daemon sys) /\ sy_pending sys = None /\
      unread (sy_env sys) fd = Some (drop (Z.to_nat k) rest)) fuel) with (k := 0) (ptr := Some p)
      (sys := mk_sys d e None log) as (k & ptr & sys1 & Hrun & (-> & Hsame & Hpend & Hun1) & Hk & Hdiv & Hk2 & Hlt);
    [done| |lia|done|lia|apply Z.divide_0_r|by left|exact (conj eq_refl (conj (same_tables_refl d) (conj eq_refl Hun)))|].
  - intros k ptr [d1 e1 pend log1] Hk0 Hk (-> & Hsame & Hpend & Hun1). cbn in Hsame, Hpend, Hun1. subst pend.
    pose proof Hsame as (Hfiles & _ & _ & Hl).
    destruct (read_piece fd (filled k rest p) (Z.to_nat k) K 0 s d1 e1 log1 i
                (drop (Z.to_nat k) rest)) as (sys' & Hr & Hs' & Hp' & Hw);
      [by rewrite Hfiles|done|done|done|by rewrite Hl|lia|lia|lia|rewrite length_drop; lia
      |rewrite length_filled; lia|].
    eexists _, sys'. split; [exact Hr|]. rewrite Z.sub_0_r in *.
    split; [by rewrite filled_more by lia|]. split; [by eapply same_tables_trans|]. split; [done|].
    rewrite Hw, drop_drop, Z2Nat.inj_add by lia. do 2 f_equal.
  - destruct sys1 as [d1 e1 pend log1]. cbn in Hsame, Hpend, Hun1. subst pend.
    pose proof Hsame as (Hfiles & _ & _ & Hl).
    destruct (read_piece fd (filled k rest p) 0 n k s d1 e1 log1 i (drop (Z.to_nat k) rest))
      as (sys' & Hr & Hs' & _ & Hw);
      [by rewrite Hfiles|done|done|done|by rewrite Hl|done|done|done|rewrite length_drop; lia
      |rewrite length_filled; lia|].
    eexists k, _, sys'. split; [eapply runs_bind; [exact Hrun|exact Hr]|].
    split; [by eapply same_tables_trans|].
    split; [rewrite Hw, drop_drop; do 2 f_equal; lia|]. split; [done|]. split; [done|].
    intros Hfit. assert (k = 0) as -> by (by eapply only_piece).
    rewrite Z.sub_0_r. etrans; [apply (filled_more 0 n rest p); lia|]. unfold filled.
    assert (Hz : Z.to_nat (0 + n) = length p) by lia. by rewrite Hz, skipn_all, app_nil_r.
Qed.
End Theorems.

(** ** Witnesses *)

Module ClientSample.
Import Sample.

#[export] Instance sample_wiring : Wiring := {| w_conn := 4; w_hdd := 7; w_garbage := 0 |}.

(** A daemon with a segment of four bytes and descriptor 9 open for client 4, its file
    being a stream that also takes all it is given. *)
Definition sample_daemon : pfsd := mk_pfsd [mk_openfile 9 4 0] [] [4] 3 [0; 0; 0; 0] false.
Definition sample_client : client := mk_client 1 2 3 4.

Definition drain : Handler (list Z) := fun A c e =>
  match c in ioE A return A * list Z with
  | IomanX_write _ _ n => (n, e)
  | c => handle (Handler := one_stream) c e
  end.
#[export] Existing Instance drain.

#[export] Instance drain_writes : WritesAll (list Z).
Proof. by intros fd data n e. Defined.

#[export] Instance drain_reads : FileReads (list Z).
Proof.
  refine {| unread := fun e _ => Some e |}.
  intros e fd n rest Hn [= ->]. eexists. split; reflexivity.
Defined.
End ClientSample.
Import ClientSample.

(** Six bytes through a segment of four: the last two repeat the first two. *)
Lemma client_write_witness :
  exists k sys', runs (scepfsdWrite 2 9 (Some [1; 2; 3; 4; 5; 6]) 6) sample_client
                   (mk_sys sample_daemon [] None []) (6, Some [1; 2; 3; 4; 5; 6]) sample_client sys' /\
    sent (sy_log sys') = take (Z.to_nat k) [1; 2; 3; 4; 5; 6] ++ take (Z.to_nat (6 - k)) [1; 2; 3; 4; 5; 6].
Proof.
  destruct (client_write 2 9 [1; 2; 3; 4; 5; 6] sample_client sample_daemon [] [] 0)
    as (k & sys' & Hrun & _ & _ & Hsent & _); [reflexivity|cbn; lia|reflexivity|cbn; lia|lia|cbn; lia|].
  exists k, sys'. split; [exact Hrun|exact Hsent].
Defined.

Lemma client_read_witness :
  exists k p' sys', runs (scepfsdRead 2 9 (Some [0; 0; 0; 0; 0; 0]) 6) sample_client
                      (mk_sys sample_daemon [1; 2; 3; 4; 5; 6; 7] None []) (6, Some p') sample_client sys' /\
    p' = overlay 0 (take (Z.to_nat (6 - k)) (drop (Z.to_nat k) [1; 2; 3; 4; 5; 6; 7]))
           (filled k [1; 2; 3; 4; 5; 6; 7] [0; 0; 0; 0; 0; 0]).
Proof.
  destruct (client_read 2 9 [0; 0; 0; 0; 0; 0] sample_client sample_daemon [1; 2; 3; 4; 5; 6; 7] [] 0
              [1; 2; 3; 4; 5; 6; 7]) as (k & p' & sys' & Hrun & _ & _ & _ & Hp & _);
    [reflexivity|reflexivity|by intros|cbn; lia|reflexivity|cbn; lia|cbn; lia|lia|cbn; lia|].
  exists k, p', sys'. split; [exact Hrun|exact Hp].
Defined.

(** What those two runs come to. *)
Example six_through_four :
  (o_res (scepfsdRead 2 9 (Some [0; 0; 0; 0; 0; 0]) 6 sample_client
            (mk_sys sample_daemon [1; 2; 3; 4; 5; 6; 7] None [])) = Ret (6, Some [5; 6; 3; 4; 0; 0])) /\
  (sent (sy_log (o_env (scepfsdWrite 2 9 (Some [1; 2; 3; 4; 5; 6]) 6 sample_client
            (mk_sys sample_daemon [] None [])))) = [1; 2; 3; 4; 1; 2]).
Proof. split; vm_compute; reflexivity. Qed.
