(* ===== verification/Pfslib.v ===== *)
(** * The file layer as the daemon links it (src/src/pfslib_compat.c, .h)

    Start and end of the library, which hold the disks of the host, and the [scepfs*]
    names of the calls of iomanX; the branch without [WIP_WIP_FIXME]. *)

From stdpp Require Import pretty.
From S2P Require Import Prelude IoWorld Trace Atad.

(** [hddFd], one descriptor per disk, with the state of the disk driver. *)
Record pfslib := mk_pfslib {
  hddFd : list Z;
  pl_atad : atad
}.

Definition DISKS : nat := 2.

Definition pfslib_initial : pfslib := mk_pfslib (replicate DISKS 0) atad_initial.

Definition set_hddFd (i : nat) (fd : Z) (s : pfslib) : pfslib :=
  mk_pfslib (<[i := fd]> (hddFd s)) (pl_atad s).
Definition set_pl_atad (a : atad) (s : pfslib) : pfslib := mk_pfslib (hddFd s) a.

Definition LOCK_EX : Z := 2.
Definition LOCK_UN : Z := 8.

(** [g_hdd_argv] and [g_pfs_argv], whose first entries are null, up to their counts. *)
Definition g_hdd_argv : list string := [""; "-o"; "32"; "-n"; "8"].
Definition g_pfs_argv : list string := [""; "-m"; "32"; "-n"; "72"; "-o"; "32"].

(** [sprintf(dev_buf, "/dev/hd%c", 'a' + i)] *)
Definition dev_buf (i : nat) : string :=
  "/dev/hd" +:+ String (Ascii.ascii_of_nat (97 + i)) "".

Section Library.
Context {E : Type} `{Handler E}.
Local Abbreviation L := (M pfslib E).

(** A turn of the loop over the disks: whether the disk counts.  [O_LARGEFILE] is 0 on
    64-bit hosts. *)
Definition init_disk (i : nat) : L bool :=
  fd ← call (Host_open (dev_buf i) host_O_RDWR 0);
  modify (set_hddFd i fd);;
  if fd <? 0 then modify (set_hddFd i (-1));; mret false
  else
    locked ← call (Host_flock fd LOCK_EX);
    if negb (locked =? 0) then call (Host_close fd);; modify (set_hddFd i (-1));; mret false
    else if (i =? 0)%nat then
      bad ← zoom pl_atad set_pl_atad (set_atad_device_handle fd);
      if negb (bad =? 0) then call (Host_flock fd LOCK_UN);; call (Host_close fd);; mret false
      else mret true
    else mret true.

(** The loop, from disk [i] on, with [blkdev_count]. *)
Fixpoint init_disks (n i : nat) (blkdev_count : Z) : L Z :=
  match n with
  | O => mret blkdev_count
  | S n' => ok ← init_disk i; init_disks n' (S i) (blkdev_count + Z.b2z ok)
  end.

Definition scepfsInit : L Z :=
  blkdev_count ← init_disks DISKS 0 0;
  if blkdev_count =? 0 then mret (-1)
  else
    r ← call (Init_module "_init_apa" g_hdd_argv);
    if negb (r =? 0) then mret (-2)
    else
      r ← call (Init_module "_init_pfs" g_pfs_argv);
      mret (if negb (r =? 0) then -3 else 0).

(** A turn of the loop of [scepfsExit]. *)
Definition exit_disk (fd : Z) : L unit :=
  when (0 <=? fd) (call (Host_flock fd LOCK_UN);; call (Host_close fd);; mret tt).

Definition scepfsExit : L unit := s ← get; for_ (hddFd s) exit_disk.
End Library.

(** ** The calls

    Sizes are [size_t] here and [int] or [unsigned int] for iomanX. *)

Section Calls.
Context {St E : Type} `{Handler E}.
Local Abbreviation C := (M St E).

Definition scepfsOpen (name : string) (flags mode : Z) : C Z := call (IomanX_open name flags mode).
Definition scepfsLseek (fd offset whence : Z) : C Z := call (IomanX_lseek fd offset whence).
Definition scepfsLseek64 (fd offset whence : Z) : C Z := call (IomanX_lseek64 fd offset whence).
Definition scepfsRead (fd size : Z) : C (Z * list Z) := call (IomanX_read fd (s32 size)).

Definition scepfsWrite (fd : Z) (ptr : list Z) (size : Z) : C Z :=
  let n := s32 size in
  assert_ ((0 <=? n) && (n <=? Z.of_nat (length ptr)));;
  call (IomanX_write fd (take (Z.to_nat n) ptr) n).

Definition scepfsClose (fd : Z) : C Z := call (IomanX_close fd).
Definition scepfsDopen (name : string) : C Z := call (IomanX_dopen name).
Definition scepfsDread (fd : Z) : C (Z * iox_dirent_t) := call (IomanX_dread fd).
Definition scepfsDclose (fd : Z) : C Z := call (IomanX_close fd).
Definition scepfsChstat (name : string) (stat : iox_stat_t) (mask : Z) : C Z :=
  call (IomanX_chstat name stat mask).
Definition scepfsGetstat (name : string) : C (Z * iox_stat_t) := call (IomanX_getstat name).
Definition scepfsMkdir (name : string) (mode : Z) : C Z := call (IomanX_mkdir name mode).
Definition scepfsRmdir (name : string) : C Z := call (IomanX_rmdir name).
Definition scepfsChdir (name : string) : C Z := call (IomanX_chdir name).
Definition scepfsRemove (name : string) : C Z := call (IomanX_remove name).
Definition scepfsRename (old new_ : string) : C Z := call (IomanX_rename old new_).
Definition scepfsIoctl (fd cmd : Z) (arg : ioctl_arg) : C Z := call (IomanX_ioctl fd cmd arg).
Definition scepfsIoctl2 (fd command : Z) (arg : ioctl_arg) (arglen buflen : Z) : C (Z * list Z) :=
  call (IomanX_ioctl2 fd command arg (u32 arglen) (u32 buflen)).
Definition scepfsSymlink (old new_ : string) : C Z := call (IomanX_symlink old new_).
Definition scepfsReadlink (name : string) (buflen : Z) : C (Z * list Z) :=
  call (IomanX_readlink name (u32 buflen)).
Definition scepfsSync (dev : string) (flag : Z) : C Z := call (IomanX_sync dev flag).
Definition scepfsFormat (dev : string) (blockdev : option string) (arg : ioctl_arg) (arglen : Z) : C Z :=
  call (IomanX_format dev blockdev arg (s32 arglen)).
Definition scepfsMount (fsname devname : string) (flag : Z) (arg : ioctl_arg) (arglen : Z) : C Z :=
  call (IomanX_mount fsname devname flag arg (s32 arglen)).
Definition scepfsUmount (fsname : string) : C Z := call (IomanX_umount fsname).
Definition scepfsDevctl (name : string) (cmd : Z) (arg : ioctl_arg) (arglen buflen : Z) : C (Z * list Z) :=
  call (IomanX_devctl name cmd arg (u32 arglen) (u32 buflen)).
End Calls.

(** ** What a run opens, locks, unlocks and closes *)

Fixpoint opened (t : trace) : list Z :=
  match t with
  | [] => []
  | @Ev A c r :: t' =>
      match c in ioE A return A -> list Z with
      | Host_open _ _ _ => fun r => if 0 <=? r then [r] else []
      | _ => fun _ => []
      end r ++ opened t'
  end.

Fixpoint closed (t : trace) : list Z :=
  match t with
  | [] => []
  | Ev c _ :: t' => match c with Host_close fd => [fd] | _ => [] end ++ closed t'
  end.

Fixpoint locked (t : trace) : list Z :=
  match t with
  | [] => []
  | @Ev A c r :: t' =>
      match c in ioE A return A -> list Z with
      | Host_flock fd op => fun r => if (op =? LOCK_EX) && (r =? 0) then [fd] else []
      | _ => fun _ => []
      end r ++ locked t'
  end.

Fixpoint unlocked (t : trace) : list Z :=
  match t with
  | [] => []
  | Ev c _ :: t' =>
      match c with Host_flock fd op => if op =? LOCK_UN then [fd] else [] | _ => [] end ++ unlocked t'
  end.

(** Descriptors that turned out not to seek to their end. *)
Fixpoint unusable (t : trace) : list Z :=
  match t with
  | [] => []
  | @Ev A c r :: t' =>
      match c in ioE A return A -> list Z with
      | Host_lseek fd _ _ => fun r => if r =? -1 then [fd] else []
      | _ => fun _ => []
      end r ++ unusable t'
  end.

Definition balanced (t : trace) : Prop :=
  closed t ≡ₚ opened t ++ unusable t /\ unlocked t ≡ₚ locked t ++ unusable t.

(** Permutations of up to three descriptors. *)
Ltac perm_small :=
  solve [reflexivity | apply perm_swap | apply perm_skip, perm_swap | apply (Permutation_app_comm [_] [_; _])
        | etrans; [apply perm_swap|apply perm_skip, perm_swap]].

(** The tests of a trace, by the facts of the path that made it. *)
Ltac settle :=
  repeat match goal with |- context [if ?c then _ else _] => destruct c eqn:? end; boolP; try lia; subst; cbn.

Section Balance.
Context {E : Type} `{Handler E}.

(** C30: the library gives back the disks it takes: after a start, whatever came of it,
    and the end, every descriptor that was opened is closed and every lock taken is
    released, once; but a first disk that cannot seek to its end is unlocked and closed
    twice, the start having kept its descriptor. *)
Theorem scepfs_balanced s e :
  length (hddFd s) = DISKS ->
  wp (scepfsInit ≫= fun _ => scepfsExit : M pfslib E unit)
     (fun r _ _ t => r = Ret tt /\ balanced t) s e.
Proof.
  destruct s as [[|a [|b [|]]] dev]; try done. intros _.
  unfold scepfsInit, scepfsExit, init_disks, init_disk, set_atad_device_handle, exit_disk, DISKS.
  repeat (first [apply wp_zoom | wp_step]; simpl); try discriminate.
  all: try (exfalso; boolP; lia).
  all: split; [done|]; unfold balanced; cbn; settle; try done; split; perm_small.
Qed.
End Balance.

(** ** Witnesses *)

Import Sample.

Lemma scepfs_balanced_witness :
  wp (scepfsInit ≫= fun _ => scepfsExit : M pfslib (list Z) unit)
     (fun r _ _ t => r = Ret tt /\ balanced t) pfslib_initial [].
Proof. apply (scepfs_balanced pfslib_initial []). reflexivity. Defined.
