(* ===== verification/DiskBuffer.v ===== *)
(** * The disk buffer that is compiled out (src/src/pfslib_compat.c, WIP_WIP_FIXME)

    A sector whose number is even is held back until its neighbour comes, so that the two
    are written together.  No build defines WIP_WIP_FIXME; the code is modelled as it
    would run. *)

From S2P Require Import Prelude IoWorld Trace Atad.

(** [Buf1024] and what it belongs to, with the descriptors of the disks. *)
Record disk_buffer := mk_disk_buffer {
  Buf1024 : list Z;
  Buf1024dev : Z;
  Buf1024lba : Z;
  fDirty1024 : bool;
  db_hddFd : list Z
}.

Definition SECTOR : Z := 512.
Definition BLKGETSIZE : Z := 0x1260.

(** The buffer taken for one sector, and given back. *)
Definition buffered (bs : list Z) (device lba : Z) (s : disk_buffer) : disk_buffer :=
  mk_disk_buffer bs device lba true (db_hddFd s).
Definition clean (s : disk_buffer) : disk_buffer :=
  mk_disk_buffer (Buf1024 s) (Buf1024dev s) (Buf1024lba s) false (db_hddFd s).

Section DiskBuffer.
Context {E : Type} `{Handler E}.
Local Abbreviation P := (M disk_buffer E).

(** [hddFd[device]] *)
Definition disk_fd (device : Z) : P Z :=
  s ← get;
  assert_ (0 <=? device);;
  deref (db_hddFd s !! Z.to_nat device).

(** The result, with the buffer as it is left.  [lba << 9] is taken in 32 bits. *)
Definition rawDiskAccess (device : Z) (buf : list Z) (lba nsectors dir : Z) : P (Z * list Z) :=
  fd ← disk_fd device;
  sought ← call (Host_lseek fd (u32 (Z.shiftl lba 9)) host_SEEK_SET);
  if sought <? 0 then mret (-1, buf)
  else
    let n := Z.shiftl nsectors 9 in
    assert_ ((0 <=? n) && (n <=? Z.of_nat (length buf)) && fits_int n);;
    if negb (dir =? 0) then
      w ← call (Host_write fd (take (Z.to_nat n) buf));
      mret (if negb (w =? n) then -1 else 0, buf)
    else
      '(r, data) ← call (Host_read fd n);
      assert_ (Z.of_nat (length data) <=? n);;
      mret (if negb (r =? n) then -1 else 0, overlay 0 data buf).

Definition Flush1024Buffer : P unit :=
  s ← get;
  when (fDirty1024 s) (
    modify clean;;
    rawDiskAccess (Buf1024dev s) (Buf1024 s) (u32 (Buf1024lba s)) 1 1;;
    mret tt).

(** What [DiskAccess] does about a sector that is held back: whether that was all, and
    what is left to do: from which byte of the caller's buffer, to which sector, how many. *)
Definition pair_or_flush (device : Z) (buf : list Z) (lba nsectors dir : Z) : P (bool * (nat * Z * Z)) :=
  s ← get;
  if fDirty1024 s then
    if negb (dir =? 0) && (device =? Buf1024dev s) && (u32 (Buf1024lba s + 1) =? lba) then
      assert_ (512 <=? length buf)%nat;;
      rawDiskAccess device (Buf1024 s ++ take 512 buf) (u32 (Buf1024lba s)) 2 1;;
      modify clean;;
      mret (nsectors - 1 =? 0, (512%nat, Buf1024lba s + 2, nsectors - 1))
    else
      Flush1024Buffer;;
      mret (false, (0%nat, s32 lba, nsectors))
  else mret (false, (0%nat, s32 lba, nsectors)).

Definition DiskAccess (device : Z) (buf : list Z) (lba nsectors dir : Z) : P (Z * list Z) :=
  '(all_done, (off, lba_tmp, nsectors_tmp)) ← pair_or_flush device buf lba nsectors dir;
  let buf_tmp := drop off buf in
  let back '(r, b) := (r, take off buf ++ b) in
  if all_done : bool then mret (0, buf)
  else if negb (dir =? 1) || Z.odd (lba_tmp + nsectors_tmp - 1) then
    x ← rawDiskAccess device buf_tmp (u32 lba_tmp) nsectors_tmp dir;
    mret (back x)
  else
    assert_ ((0 <=? nsectors_tmp) && (SECTOR * nsectors_tmp + SECTOR <=? Z.of_nat (length buf_tmp)));;
    modify (buffered (take 512 (drop (Z.to_nat (SECTOR * nsectors_tmp)) buf_tmp)) device
              (lba_tmp + nsectors_tmp - 1));;
    if negb (nsectors_tmp - 1 =? 0) then
      x ← rawDiskAccess device buf_tmp (u32 lba_tmp) (nsectors_tmp - 1) dir;
      mret (back x)
    else mret (0, buf).

(** [garbage] is what [ret_sz] holds before the call: a failed [ioctl] leaves it. *)
Definition DiskGetNumberOfSectors (garbage device : Z) : P Z :=
  fd ← disk_fd device;
  if fd <? 0 then mret 0
  else
    '(r, n) ← call (Host_ioctl fd BLKGETSIZE 0);
    mret (if r <? 0 then garbage else n).

Definition DiskSync (device : Z) : P unit :=
  Flush1024Buffer;;
  fd ← disk_fd device;
  call (Host_fsync fd);;
  mret tt.

(** ** What it holds back *)

(** The sector held back is not the last of those given but the one after them: with no
    more memory than the sectors, a write that ends on an even sector is undefined. *)
Theorem held_back_past_end device buf lba n s e :
  fDirty1024 s = false -> 0 <= lba < 2 ^ 31 - n -> 0 < n -> Z.odd (lba + n - 1) = false ->
  Z.of_nat (length buf) = SECTOR * n ->
  wp (DiskAccess device buf lba n 1) (fun r _ e' t => r = Undef /\ e' = e /\ t = []) s e.
Proof.
  intros Hs Hlba Hn Hodd Hlen. unfold DiskAccess, pair_or_flush. apply wp_bind, wp_bind, wp_get. cbn [bind_post].
  rewrite Hs. apply wp_ret. cbn [bind_post]. rewrite (swrap_small 32) by lia. rewrite Hodd. cbn [negb orb Z.eqb Pos.eqb].
  apply wp_bind, wp_assert; intros Ha; [|done]. boolP. rewrite drop_0, Hlen in *. unfold SECTOR in *. lia.
Qed.

(** Where there is more memory, what is held back, and written at the next flush, is the
    sector behind the last. *)
Theorem held_back_wrong device buf lba n s e :
  fDirty1024 s = false -> 0 <= lba < 2 ^ 31 - n -> 0 < n -> Z.odd (lba + n - 1) = false ->
  SECTOR * n + SECTOR <= Z.of_nat (length buf) ->
  wp (DiskAccess device buf lba n 1) (fun r s' _ _ => forall x, r = Ret x ->
    fDirty1024 s' = true /\ Buf1024lba s' = lba + n - 1 /\
    Buf1024 s' = take 512 (drop (Z.to_nat (SECTOR * n)) buf)) s e.
Proof.
  intros Hs Hlba Hn Hodd Hlen. unfold DiskAccess, pair_or_flush. apply wp_bind, wp_bind, wp_get. cbn [bind_post].
  rewrite Hs. apply wp_ret. cbn [bind_post]. rewrite (swrap_small 32) by lia. rewrite Hodd. cbn [negb orb Z.eqb Pos.eqb].
  rewrite drop_0. apply wp_bind, wp_assert; intros _; [|done]. cbn [bind_post]. apply wp_bind, wp_modify. cbn [bind_post].
  unfold rawDiskAccess, disk_fd. wp_go; try done. all: case_match; [|by intros x Hx]; wp_go; by intros x Hx.
Qed.
End DiskBuffer.
