(* ===== verification/PfsdMain.v ===== *)
(** * The life of the PFS daemon (src/src/pfsd.c: set-up, main, shutdown)

    [main] starts the library, the System V objects and the socket, and serves until
    [poll] gives up; what happens to one return of [poll] is in Pfsd.v. *)

From S2P Require Import Prelude IoWorld Trace Shm Pfsd PfsdInv Atad Client Pfslib.

(** The daemon of Pfsd.v with its library and the identifiers of the semaphore and
    the segment.  What the segment holds when it is attached is what [dm_daemon] says. *)
Record pfsd_main := mk_pfsd_main {
  dm_lib : pfslib;
  dm_daemon : pfsd;
  SemId : Z;
  ShmId : Z
}.

Definition set_lib (x : pfslib) (s : pfsd_main) : pfsd_main :=
  mk_pfsd_main x (dm_daemon s) (SemId s) (ShmId s).
Definition set_daemon (x : pfsd) (s : pfsd_main) : pfsd_main :=
  mk_pfsd_main (dm_lib s) x (SemId s) (ShmId s).
Definition set_SemId (x : Z) (s : pfsd_main) : pfsd_main :=
  mk_pfsd_main (dm_lib s) (dm_daemon s) x (ShmId s).
Definition set_ShmId (x : Z) (s : pfsd_main) : pfsd_main :=
  mk_pfsd_main (dm_lib s) (dm_daemon s) (SemId s) x.
Definition set_SocketFd (x : Z) (d : pfsd) : pfsd :=
  mk_pfsd (g_openfile_items d) (g_mountlist_items d) (g_clients d) x (ShmPtr d) (debug_mode d).
Definition set_debug (d : pfsd) : pfsd :=
  mk_pfsd (g_openfile_items d) (g_mountlist_items d) (g_clients d) (SocketFd d) (ShmPtr d) true.

(** [IPC_CREAT] with the permissions [rw-rw-rw-]. *)
Definition IPC_FLAGS : Z := 0x200 + 0x1b6.
(** [S_IRWXU | S_IRWXG | S_IRWXO] *)
Definition SOCKET_MODE : Z := 0x1ff.
Definition EINTR : Z := 4.

Section Main.
Context {E : Type} `{Handler E}.
Local Abbreviation D := (M pfsd_main E).

Definition StartUp_Daemon : D Z :=
  sem ← call (Sys_semget PFSD_SHARED_KEY 1 IPC_FLAGS);
  modify (set_SemId sem);;
  if sem <? 0 then call (Perror "Can't create semaphore");; mret 1
  else
    set ← call (Sys_semctl_setval sem 1);
    if set <? 0 then call (Perror "semctl");; mret 1
    else
      shm ← call (Sys_shmget PFSD_SHARED_KEY 0x20000 IPC_FLAGS);
      modify (set_ShmId shm);;
      if shm <? 0 then call (Perror "Can't create shared memory");; mret 1
      else call (Sys_shmat shm);; mret 0.

Definition CleanUp_Daemon : D Z :=
  s ← get;
  call (Sys_semctl_rmid (SemId s));;
  call Sys_shmdt;;
  call (Sys_shmctl_rmid (ShmId s));;
  call (Host_unlink PFSD_PATH);;
  mret 0.

Definition Connect_Daemon : D Z :=
  s ← call Sys_socket;
  if s <? 0 then call (Perror "socket");; mret (-1)
  else
    call (Host_unlink PFSD_PATH);;
    bound ← call (Sys_bind s PFSD_PATH);
    if bound <? 0 then call (Perror "bind");; mret (-1)
    else
      call (Host_chmod PFSD_PATH SOCKET_MODE);;
      listening ← call (Sys_listen s 5);
      if listening <? 0 then call (Perror "listen");; mret (-1)
      else call Sys_ignore_sigpipe;; mret s.

(** The disk the ioctls of the library go to: [hddFd[0]]. *)
Definition first_disk (s : pfsd_main) : Z := nth 0 (hddFd (dm_lib s)) (-1).

(** The inner loop: until a hang-up, or [poll] fails. *)
Definition serve_turn (cleanup_fuel : nat) (_ : unit) : D (unit + unit) :=
  s ← get;
  '(n, (new_client, evs)) ← call (Sys_poll (g_clients (dm_daemon s)) (SocketFd (dm_daemon s)));
  if n <? 0 then mret (inr tt)
  else
    flag ← zoom dm_daemon set_daemon (poll_turn (first_disk s) cleanup_fuel new_client evs);
    mret (if flag : bool then inl tt else inr tt).

(** A turn of the outer loop: [Some] is [return], [None] the [break]. *)
Definition main_turn (fuel cleanup_fuel : nat) (_ : unit) : D (unit + option Z) :=
  loop fuel (serve_turn cleanup_fuel) tt;;
  errno ← call Get_errno;
  if negb (errno =? EINTR) then call (Perror "poll");; mret (inr (Some 1))
  else s ← get; mret (if debug_mode (dm_daemon s) then inr None else inl tt).

Definition pfsd_main_loop (fuel cleanup_fuel : nat) : D Z :=
  r ← loop fuel (main_turn fuel cleanup_fuel) tt;
  match r with
  | Some v => mret v
  | None => zoom dm_daemon set_daemon output_statistics;; CleanUp_Daemon
  end.

Definition pfsd_program (fuel cleanup_fuel : nat) (argc : Z) : D Z :=
  when (2 <=? argc) (modify (fun s => set_daemon (set_debug (dm_daemon s)) s));;
  r ← zoom dm_lib set_lib scepfsInit;
  if r <? 0 then printf (ln "PFSlib initialize failed.") [];; mret 1
  else
    r ← StartUp_Daemon;
    if negb (r =? 0) then mret 1
    else
      socket ← Connect_Daemon;
      modify (fun s => set_daemon (set_SocketFd socket (dm_daemon s)) s);;
      if socket <? 0 then mret 1 else pfsd_main_loop fuel cleanup_fuel.
End Main.
