(* ===== verification/PfsdMainProps.v ===== *)
(** * The life of the PFS daemon: properties *)

From S2P Require Import Prelude IoWorld Trace Shm Pfsd PfsdInv PfsdProps PfsdCalls Atad Client Pfslib PfsdMain.

(** ** The System V objects *)

Abbreviation keeps_objects := (avoids (fun _ => True) (@removal)).

Ltac objects_go :=
  repeat (cbv zeta; first [progress cbn [fst snd] | avoids_step]); auto with avoids.

Section Serving.
Context {E : Type} `{Handler E}.

Lemma removal_only A (c : ioE A) : removal c = true -> removal c || host_file_call c || writes c = true.
Proof. by intros ->. Qed.

Local Abbreviation D := (M pfsd_main E).

Lemma atad_handle_objects fd : keeps_objects (set_atad_device_handle fd : M atad E Z).
Proof. unfold set_atad_device_handle. objects_go. Qed.

Lemma init_disk_objects i : keeps_objects (init_disk i : M pfslib E bool).
Proof.
  unfold init_disk. objects_go. apply avoids_zoom; [done|apply atad_handle_objects].
Qed.
#[local] Hint Resolve init_disk_objects : avoids.

Lemma scepfsInit_objects : keeps_objects (scepfsInit : M pfslib E Z).
Proof. unfold scepfsInit, init_disks, DISKS. objects_go. Qed.

Lemma setup_objects : keeps_objects (StartUp_Daemon : D Z) /\ keeps_objects (Connect_Daemon : D Z).
Proof. unfold StartUp_Daemon, Connect_Daemon. split; objects_go. Qed.

Lemma serve_turn_objects cleanup_fuel u : keeps_objects (serve_turn cleanup_fuel u : D _).
Proof. unfold serve_turn. objects_go. apply avoids_zoom; [done|]. by apply poll_turn_calls; [apply removal_only|]. Qed.
#[local] Hint Resolve serve_turn_objects : avoids.

End Serving.

(** ** How the daemon ends *)

Section Ends.
Context {E : Type} `{Handler E}.
Local Abbreviation D := (M pfsd_main E).

(** The end of [main] in debug mode: the calls of [CleanUp_Daemon] and none before. *)
Definition cleaned_up (s : pfsd_main) (t : trace) : Prop :=
  exists t0 a b c d,
    t = t0 ++ [Ev (Sys_semctl_rmid (SemId s)) a; Ev Sys_shmdt b; Ev (Sys_shmctl_rmid (ShmId s)) c;
               Ev (Host_unlink PFSD_PATH) d] /\
    calls_of (@removal) t0 = [].

Definition ends_as (r : res Z) (s : pfsd_main) (t : trace) : Prop :=
  forall v, r = Ret v ->
    (v = 1 /\ calls_of (@removal) t = []) \/
    (v = 0 /\ debug_mode (dm_daemon s) = true /\ Ev Get_errno EINTR ∈ t /\ cleaned_up s t).

Lemma ends_after r s t0 t :
  calls_of (@removal) t0 = [] -> ends_as r s t -> ends_as r s (t0 ++ t).
Proof.
  intros H0 Ht v Hv. destruct (Ht v Hv) as [[-> Hnone]|(-> & Hd & Hi & (t1 & a & b & c & d & -> & H1))].
  - left. by rewrite calls_of_app, H0, Hnone.
  - right. split_and!; [done..| |].
    + apply elem_of_app. by right.
    + exists (t0 ++ t1), a, b, c, d. rewrite app_assoc, calls_of_app, H0, H1. done.
Qed.

(** After calls that remove nothing. *)
Lemma wp_ends_bind {A} (m : D A) (k : A -> D Z) s e :
  keeps_objects m ->
  (forall a s e, wp (k a) (fun r s' _ t => ends_as r s' t) s e) ->
  wp (m ≫= k) (fun r s' _ t => ends_as r s' t) s e.
Proof.
  intros Hm Hk. apply wp_bind. eapply wp_mono; [by apply Hm|].
  intros [a| | | |] s' e' t (_ & Ht & _); try done. cbn. eapply wp_mono; [apply Hk|].
  cbv beta. intros. by apply ends_after.
Qed.

Lemma print_mounts_same l n (s : pfsd) (e : E) : wp (print_mounts l n) (fun _ s' _ _ => s' = s) s e.
Proof. revert n e. induction l as [|x l IH]; intros n e; simpl; wp_run; try done; apply IH. Qed.

Lemma output_statistics_same (s : pfsd) (e : E) : wp output_statistics (fun _ s' _ _ => s' = s) s e.
Proof.
  unfold output_statistics. apply wp_bind, wp_get. cbn [bind_post]. apply wp_bind, wp_call. intros u e1 _.
  cbn [bind_post]. apply wp_bind. eapply wp_mono; [apply print_mounts_same|].
  intros [n| | | |] s1 e2 t ->; try done. cbn [bind_post]. apply wp_bind.
  apply wp_when; intros _; [apply wp_call; intros u' e3 _|]; cbn [bind_post].
  all: apply wp_if; intros _; [by apply wp_call|].
  all: apply wp_bind, wp_call; intros u'' e4 _; cbn [bind_post].
  all: eapply wp_mono; [apply (wp_for_inv (fun s' _ => s' = s) _ _ s e4 []); [|done]|done].
  all: intros x s' e5 t' ->; wp_run; done.
Qed.

(** The outer loop: it breaks off for an interrupted [poll] in debug mode only. *)
Lemma main_turns_end fuel n cleanup_fuel s e :
  wp (loop n (main_turn fuel cleanup_fuel) tt : D _) (fun r s' _ t =>
    calls_of (@removal) t = [] /\ forall o, r = Ret o ->
      match o with
      | Some v => v = 1
      | None => debug_mode (dm_daemon s') = true /\ Ev Get_errno EINTR ∈ t
      end) s e.
Proof.
  revert s e. induction n as [|n IH]; intros s e; [by apply wp_stop|].
  cbn [loop]. unfold main_turn at 1. apply wp_bind, wp_bind.
  assert (Hserve : keeps_objects (loop fuel (serve_turn cleanup_fuel) tt : D unit))
    by (apply avoids_loop, serve_turn_objects).
  eapply wp_mono; [by apply Hserve|].
  intros [u| | | |] s1 e1 t1 (_ & Ht1 & _); try (split; [done|discriminate]). cbn [bind_post].
  apply wp_bind, wp_call. intros errno e2 _. cbn [bind_post].
  apply wp_if; intros He; boolP.
  - apply wp_bind, wp_call. intros ? e3 _. cbn [bind_post]. apply wp_ret. cbn [bind_post].
    apply wp_ret. split; [by rewrite !calls_of_app, Ht1|]. by intros o [= <-].
  - apply wp_bind, wp_get. cbn [bind_post]. apply wp_ret. cbn [bind_post].
    destruct (debug_mode (dm_daemon s1)) eqn:Hd.
    + apply wp_ret. split; [by rewrite !calls_of_app, Ht1|]. intros o [= <-]. split; [done|].
      rewrite !elem_of_app. left. right. rewrite He. left. by constructor.
    + eapply wp_mono; [apply IH|]. intros r s' e' t [Ht Hr].
      split; [by rewrite !calls_of_app, Ht1, Ht|]. intros o ->. specialize (Hr o eq_refl).
      destruct o; [done|]. split; [apply Hr|]. apply elem_of_app. right. apply Hr.
Qed.

Lemma main_loop_ends fuel cleanup_fuel s e :
  wp (pfsd_main_loop fuel cleanup_fuel : D Z) (fun r s' _ t => ends_as r s' t) s e.
Proof.
  unfold pfsd_main_loop. apply wp_bind. eapply wp_mono; [apply main_turns_end|].
  intros r s1 e1 t1 [Ht1 Hr]. destruct r as [o| | | |]; try discriminate. cbn [bind_post].
  specialize (Hr o eq_refl). destruct o as [v|].
  - apply wp_ret. intros ? [= <-]. left. by rewrite app_nil_r.
  - destruct Hr as [Hd Hi]. apply wp_bind, wp_zoom.
    pose proof (output_statistics_same (dm_daemon s1) e1) as Hsame.
    pose proof (output_statistics_calls (@removal) removal_only (dm_daemon s1) e1 I) as (_ & Hobj & _).
    unfold wp in Hsame |- *. destruct (output_statistics (dm_daemon s1) e1) as [r2 s2 e2 t2].
    cbn [o_res o_st o_env o_tr] in *. subst s2. destruct r2 as [u| | | |]; try discriminate. cbn [bind_post].
    unfold CleanUp_Daemon. wp_go. intros v [= <-]. right. split_and!; [done..| |].
    + rewrite !elem_of_app. by left.
    + eexists (t1 ++ t2), _, _, _, _. rewrite calls_of_app, Ht1, Hobj, <- !app_assoc. done.
Qed.

(** C31: how the daemon ends: with 1, leaving its semaphore, its segment and its socket
    behind; or with 0, in debug mode after [poll] was interrupted, having removed its own
    semaphore, segment and socket as its last calls. *)
Theorem daemon_ends fuel cleanup_fuel argc s e :
  wp (pfsd_program fuel cleanup_fuel argc : D Z) (fun r s' _ t => ends_as r s' t) s e.
Proof.
  unfold pfsd_program. destruct setup_objects as [Hstart Hconnect].
  apply wp_ends_bind; [objects_go|]. intros u s1 e1.
  apply wp_ends_bind; [apply avoids_zoom; [done|apply scepfsInit_objects]|]. intros r s2 e2.
  assert (Hone : forall s e, wp (mret 1 : D Z) (fun r s' _ t => ends_as r s' t) s e)
    by (intros; apply wp_ret; intros v [= <-]; by left).
  apply wp_if; intros _; [apply wp_ends_bind; [objects_go|]; intros; apply Hone|].
  apply wp_ends_bind; [apply Hstart|]. intros r' s3 e3. apply wp_if; intros _; [apply Hone|].
  apply wp_ends_bind; [apply Hconnect|]. intros socket s4 e4.
  apply wp_ends_bind; [objects_go|]. intros u' s5 e5. apply wp_if; intros _; [apply Hone|].
  apply main_loop_ends.
Qed.
End Ends.

(** ** Safety of the whole program *)



Section Safety.
Context {E : Type} `{DaemonEnv E}.
Local Abbreviation D := (M pfsd_main E).









End Safety.

(** ** A hang-up ends the daemon *)

Section HangUp.
Context {E : Type} `{CloseWorks E}.
Local Abbreviation D := (M pfsd_main E).

Definition idle (ev : client_events) : Prop := ev_pollhup ev = false /\ ev_pollin ev = false.

Lemma poll_idle hdd fuel pre evs i (d : pfsd) Q e :
  Forall idle pre -> (i + length pre <= length (g_clients d))%nat ->
  wp (poll_clients hdd fuel evs (i + length pre)) Q d e -> wp (poll_clients hdd fuel (pre ++ evs) i) Q d e.
Proof.
  intros Hpre. revert i. induction Hpre as [|ev pre [Hhup Hin] _ IH]; intros i Hi Hwp; cbn [length] in *.
  { by rewrite Nat.add_0_r in Hwp. }
  cbn [app poll_clients]. apply wp_bind, wp_get. cbn [bind_post].
  destruct (lookup_lt_is_Some_2 (g_clients d) i) as [fd Hfd]; [lia|]. rewrite Hfd, Hhup, Hin.
  apply wp_bind. cbn [when]. apply wp_ret. cbn [bind_post].
  eapply wp_mono; [apply IH|]; [lia| |done]. by rewrite Nat.add_succ_r in Hwp.
Qed.

(** C21: a client that goes away takes the daemon with it: when [poll] reports that a
    client has hung up and nothing of the clients before it, the daemon cleans up after
    it and then looks at [errno], which [poll] has not set: it serves on when a left-over
    value is [EINTR] (in debug mode it ends even then), and otherwise ends with 1. *)
Theorem hangup_ends_daemon fuel cleanup_fuel n pre ev post fd s e e1 :
  inv (dm_daemon s) -> g_clients (dm_daemon s) !! length pre = Some fd ->
  (length (g_openfile_items (dm_daemon s)) < cleanup_fuel)%nat ->
  handle (Sys_poll (g_clients (dm_daemon s)) (SocketFd (dm_daemon s))) e =
    ((n, (false, pre ++ ev :: post)), e1) ->
  0 <= n -> Forall idle pre -> ev_pollhup ev = true ->
  wp (main_turn (S fuel) cleanup_fuel tt : D _) (fun r s' _ t =>
    no_files fd (dm_daemon s') /\ no_mounts fd (dm_daemon s') /\
    g_clients (dm_daemon s') = delete (length pre) (g_clients (dm_daemon s)) /\
    exists errno, Ev Get_errno errno ∈ t /\
      r = Ret (if errno =? EINTR then if debug_mode (dm_daemon s') then inr None else inl tt
               else inr (Some 1))) s e.
Proof.
  intros Hs Hc Hfuel Hpoll Hn Hpre Hhup. unfold main_turn. apply wp_bind. cbn [loop].
  unfold serve_turn at 1. apply wp_bind, wp_bind, wp_get. cbn [bind_post].
  apply wp_bind. apply wp_call. intros r e1' Hr. rewrite Hpoll in Hr. injection Hr as <- <-.
  cbn [bind_post]. rewrite (proj2 (Z.ltb_ge n 0)) by done.
  apply wp_bind, wp_zoom. cbn [poll_turn]. pose proof (lookup_lt_Some _ _ _ Hc) as Hlt.
  apply poll_idle; [done|lia|]. cbn [poll_clients Nat.add].
  apply wp_bind, wp_get. cbn [bind_post]. rewrite Hc, Hhup.
  apply wp_bind. pose proof (Forall_lookup_1 _ _ _ _ (inv_clients _ Hs) Hc) as Hfd. cbn beta in Hfd.
  eapply wp_mono; [by apply (cleanup_client_spec fd Hfd cleanup_fuel (length pre))|].
  intros r d' e2 t2 (-> & Hi & -> & _). cbn [bind_post].
  pose proof (without_client_none fd Hfd (length pre) (dm_daemon s)) as [Hnf Hnm].
  apply wp_ret. cbn [bind_post]. apply wp_ret. cbn [bind_post]. apply wp_ret. cbn [bind_post].
  apply wp_bind, wp_call. intros errno e3 _. cbn [bind_post].
  apply wp_if; intros He; boolP;
    [apply wp_bind, wp_call; intros ? e4 _; cbn [bind_post]; apply wp_ret
    |apply wp_bind, wp_get; cbn [bind_post]; apply wp_ret].
  all: split_and!; [done..|]; exists errno; split; [rewrite !elem_of_app, ?elem_of_cons; tauto|].
  - by rewrite (proj2 (Z.eqb_neq _ _)).
  - by rewrite (proj2 (Z.eqb_eq _ _)).
Qed.
End HangUp.

(** ** Witnesses *)

Module MainSample.
Import DaemonSample.

(** A machine with disks, where [poll] reports that the second client has hung up. *)
Definition quiet_events : client_events := mk_events false false 0 PFSD_REQ_GETREADAHEAD 0.
Definition hup_events : client_events := mk_events true false 0 PFSD_REQ_GETREADAHEAD 0.

Definition machine : Handler unit := fun A c e =>
  match c in ioE A return A * unit with
  | Sys_poll _ _ => ((1, (false, [quiet_events; hup_events])), e)
  | c => handle (Handler := drivers) c e
  end.


End MainSample.

Import DaemonSample MainSample.

Lemma hangup_ends_daemon_witness :
  wp (@main_turn unit machine 1 2 tt) (fun r s' _ _ =>
    no_files 6 (dm_daemon s') /\ g_clients (dm_daemon s') = [4])
    (mk_pfsd_main pfslib_initial mounted 1 2) tt.
Proof.
  eapply wp_mono.
  - eapply (@hangup_ends_daemon unit machine drivers_close 0 2 1 [quiet_events] hup_events [] 6).
    + exact mounted_inv.
    + reflexivity.
    + cbn. lia.
    + reflexivity.
    + lia.
    + by repeat constructor.
    + reflexivity.
  - intros r s' e' t (Hf & _ & Hc & _). split; [exact Hf|exact Hc].
Defined.

