(* ===== verification/Kinst.v ===== *)
(** * The kernel installer (src/src/ps2kinst.c)

    Copies a file of the host to [pfs0:vmlinux] on the partition [hdd0:__system],
    through the daemon, or through the library when no daemon runs.  The two functions
    of the file make the same calls, one of [scepfsd*], the other of [scepfs*]: the
    calls are an interface, [PfsApi], with two instances. *)

From S2P Require Import Prelude IoWorld Trace Shm Pfsd Client Pfslib.

(** The globals, with the states of the client and of the library. *)
Record kinst := mk_kinst {
  k_client : client;
  k_lib : pfslib;
  rfd : Z;
  k_buf : list Z
}.

Definition BUF_SIZE : Z := 0x8000.

Definition kinst_initial : kinst :=
  mk_kinst initial_client pfslib_initial 0 (replicate (Z.to_nat BUF_SIZE) 0).

Definition set_k_client (x : client) (s : kinst) : kinst := mk_kinst x (k_lib s) (rfd s) (k_buf s).
Definition set_k_lib (x : pfslib) (s : kinst) : kinst := mk_kinst (k_client s) x (rfd s) (k_buf s).
Definition set_rfd (x : Z) (s : kinst) : kinst := mk_kinst (k_client s) (k_lib s) x (k_buf s).
Definition set_k_buf (x : list Z) (s : kinst) : kinst := mk_kinst (k_client s) (k_lib s) (rfd s) x.

(** ** The calls *)

Class PfsApi (St E : Type) := {
  api_Mount : string -> string -> Z -> M St E Z;
  api_Mkdir : string -> Z -> M St E Z;
  api_Chdir : string -> M St E Z;
  api_Open : string -> Z -> Z -> M St E Z;
  api_Write : Z -> list Z -> Z -> M St E Z;
  api_Close : Z -> M St E Z;
  api_Umount : string -> M St E Z;
  api_Exit : M St E unit
}.

Section Apis.
Context {E : Type} `{Handler E}.

Definition direct_api : PfsApi kinst E := {|
  api_Mount fs dev flag := zoom k_lib set_k_lib (scepfsMount fs dev flag ArgNull 0);
  api_Mkdir name mode := zoom k_lib set_k_lib (scepfsMkdir name mode);
  api_Chdir name := zoom k_lib set_k_lib (scepfsChdir name);
  api_Open name flags mode := zoom k_lib set_k_lib (scepfsOpen name flags mode);
  api_Write fd ptr size := zoom k_lib set_k_lib (scepfsWrite fd ptr size);
  api_Close fd := zoom k_lib set_k_lib (scepfsClose fd);
  api_Umount fs := zoom k_lib set_k_lib (scepfsUmount fs);
  api_Exit := zoom k_lib set_k_lib scepfsExit
|}.

Definition daemon_api (fuel : nat) : PfsApi kinst E := {|
  api_Mount fs dev flag := zoom k_client set_k_client (scepfsdMount fs dev flag None 0);
  api_Mkdir name mode := zoom k_client set_k_client (scepfsdMkdir name mode);
  api_Chdir name := zoom k_client set_k_client (scepfsdChdir name);
  api_Open name flags mode := zoom k_client set_k_client (scepfsdOpen name flags mode);
  api_Write fd ptr size :=
    '(ret, _) ← zoom k_client set_k_client (scepfsdWrite fuel fd (Some ptr) size); mret ret;
  api_Close fd := zoom k_client set_k_client (scepfsdClose fd);
  api_Umount fs := zoom k_client set_k_client (scepfsdUmount fs);
  api_Exit := zoom k_client set_k_client scepfsdExit
|}.
End Apis.

(** ** Installing *)

(** [-EEXIST] of iomanX. *)
Definition EEXIST_17 : Z := 17.
(** [FIO_O_WRONLY | FIO_O_CREAT | FIO_O_TRUNC] *)
Definition KERNEL_FLAGS : Z := 1538.
Definition KERNEL_MODE : Z := 511.

Section Install.
Context {E : Type} `{Handler E}.
Local Abbreviation K := (M kinst E).

Definition fail (msg : string) (es : Z) : K Z := eprintf (ln msg) [];; mret es.

(** A turn of the copy: it leaves with the result of the last read, or with the end
    of the program. *)
Definition copy_turn `{PfsApi kinst E} (wfd : Z) (_ : unit) : K (unit + (Z + Z)) :=
  s ← get;
  '(r, data) ← call (Host_read (rfd s) BUF_SIZE);
  let r := s32 r in
  assert_ (length data <=? length (k_buf s))%nat;;
  modify (fun s => set_k_buf (overlay 0 data (k_buf s)) s);;
  if r <=? 0 then mret (inr (inl r))
  else
    s ← get;
    w ← api_Write wfd (k_buf s) r;
    if negb (w =? r) then es ← fail "Write failed." (-7); mret (inr (inr es))
    else mret (inl tt).

(** The body the two functions share, from the mount on. *)
Definition install `{PfsApi kinst E} (fuel : nat) : K Z :=
  r ← api_Mount "pfs0:" "hdd0:__system" 0;
  if r <? 0 then fail "Mount failed." (-3) else
  r ← api_Mkdir "pfs0:/p2lboot" KERNEL_MODE;
  if (r <? 0) && negb (r =? - EEXIST_17) then fail "Mkdir failed." (-4) else
  r ← api_Chdir "pfs0:/p2lboot";
  if r <? 0 then fail "Chdir failed." (-5) else
  wfd ← api_Open "pfs0:vmlinux" KERNEL_FLAGS KERNEL_MODE;
  if wfd <? 0 then fail "Create failed." (-6) else
  end_ ← loop fuel (copy_turn wfd) tt;
  match end_ with
  | inr es => mret es
  | inl r =>
      if r <? 0 then fail "Read failed." (-8)
      else
        s ← get;
        call (Host_close (rfd s));;
        api_Close wfd;;
        api_Umount "pfs0:";;
        api_Exit;;
        eprintf (ln "Installation Succeed.") [];;
        mret 0
  end.

Definition install_kernel_PFSlib (fuel : nat) (kernel : string) : K Z :=
  r ← zoom k_lib set_k_lib scepfsInit;
  if negb (r =? 0) then fail "PFSlib init failed." (-2)
  else install (H0 := direct_api) fuel.

Definition install_kernel (fuel : nat) (kernel : string) : K Z :=
  fd ← call (Host_open kernel 0 0);
  modify (set_rfd fd);;
  if fd <? 0 then fail "can't open kernel_file." (-1)
  else
    r ← zoom k_client set_k_client scepfsdInit;
    if negb (r =? 0) then
      eprintf (ln "use PFSlib instead") [];; install_kernel_PFSlib fuel kernel
    else install (H0 := daemon_api fuel) fuel.

(** ** Command line *)

Definition usage_text : string :=
  ln "usage: ps2kinst [options] kernel_file" +:+ ln "install linux kernel in system area." +:+
  ln "" +:+ ln "      --help         display this help and exit".

Definition usage (es : Z) : K Z := eprintf usage_text [];; mret es.

(** [main], given what [getopt_long] returns until -1 and the arguments from [optind] on:
    0 for [--help], whose flag getopt sets, the letter h, or something else. *)
Inductive opt_result := Opt_flag | Opt_h | Opt_bad.

Fixpoint kinst_main (fuel : nat) (opts : list opt_result) (files : list string) (show_help : bool) : K Z :=
  match opts with
  | [] =>
      match files with
      | [] => usage 1
      | file :: _ => if show_help then usage 0 else install_kernel fuel file
      end
  | Opt_flag :: opts => kinst_main fuel opts files true
  | Opt_h :: opts => kinst_main fuel opts files true
  | Opt_bad :: _ => usage 1
  end.
End Install.
