(* ===== verification/KinstProps.v ===== *)
(** * The kernel installer: properties

    [install] is proved against what its calls promise, [PfsApiSpec]; the calls through
    the daemon keep that promise by the models of client, segment and daemon, and so do
    the calls of the library. *)

From S2P Require Import Prelude IoWorld Trace Shm Pfsd PfsdInv PfsdProps PfsdCalls Client ClientDaemon Pfslib Kinst.

(** ** The kernel file *)

(** Reading an open file of the host: the bytes still ahead of the descriptor. *)
Class HostReads (E : Type) `{Handler E} := {
  ahead : E -> Z -> option (list Z);
  host_ahead : forall e fd n rest, 0 <= n -> ahead e fd = Some rest ->
    exists e', handle (Host_read fd n) e =
                 ((Z.of_nat (length (take (Z.to_nat n) rest)), take (Z.to_nat n) rest), e') /\
               ahead e' fd = Some (drop (Z.to_nat n) rest)
}.

(** ** What the installer needs of its calls *)

(** How a call ends: with a value, the bytes [data] delivered to the driver, and without
    touching the kernel file or the installer's own variables. *)
Definition call_ends {E} `{HostReads E} (delivered : E -> trace -> list Z) (data : list Z)
    (P : Z -> kinst -> E -> Prop) (s : kinst) (e : E) (r : res Z) (s' : kinst) (e' : E) (t : trace) : Prop :=
  (exists v, r = Ret v /\ P v s' e') /\ ahead e' (rfd s) = ahead e (rfd s) /\
  rfd s' = rfd s /\ k_buf s' = k_buf s /\ forall t0, delivered e' (t0 ++ t) = delivered e t0 ++ data.

Class PfsApiSpec (E : Type) `{HostReads E} (api : PfsApi kinst E) := {
  ready : kinst -> E -> Prop;
  owns : Z -> kinst -> E -> Prop;
  delivered : E -> trace -> list Z;
  (** printing, and reading and closing the kernel file, deliver nothing, and what is
      ready stays so *)
  api_other : forall A (c : ioE A) e r e' t,
    match c with Printf _ _ _ | Host_read _ _ | Host_close _ => True | _ => False end ->
    handle c e = (r, e') ->
    delivered e' (t ++ [Ev c r]) = delivered e t /\
    (forall s, ready s e -> ready s e') /\ forall fd s, owns fd s e -> owns fd s e';
  api_globals : forall s n b e,
    (ready s e -> ready (mk_kinst (k_client s) (k_lib s) n b) e) /\
    forall fd, owns fd s e -> owns fd (mk_kinst (k_client s) (k_lib s) n b) e;
  api_mount : forall s e, ready s e ->
    wp (api_Mount "pfs0:" "hdd0:__system" 0) (call_ends delivered [] (fun _ => ready) s e) s e;
  api_mkdir : forall s e, ready s e ->
    wp (api_Mkdir "pfs0:/p2lboot" KERNEL_MODE) (call_ends delivered [] (fun _ => ready) s e) s e;
  api_chdir : forall s e, ready s e ->
    wp (api_Chdir "pfs0:/p2lboot") (call_ends delivered [] (fun _ => ready) s e) s e;
  api_open : forall s e, ready s e ->
    wp (api_Open "pfs0:vmlinux" KERNEL_FLAGS KERNEL_MODE)
       (call_ends delivered [] (fun v s' e' => 0 <= v -> owns v s' e') s e) s e;
  api_write : forall fd data n s e, owns fd s e -> 0 < n <= BUF_SIZE -> n <= Z.of_nat (length data) ->
    wp (api_Write fd data n)
       (call_ends delivered (take (Z.to_nat n) data) (fun _ => owns fd) s e) s e;
  api_close : forall fd s e, owns fd s e ->
    wp (api_Close fd) (call_ends delivered [] (fun _ => ready) s e) s e;
  api_umount : forall s e, ready s e ->
    wp (api_Umount "pfs0:") (call_ends delivered [] (fun _ => ready) s e) s e;
  api_exit : forall s e, ready s e ->
    wp api_Exit (fun r _ e' t => r = Ret tt /\ forall t0, delivered e' (t0 ++ t) = delivered e t0) s e
}.

Section Install.
Context {E : Type} `{HostReads E, api : !PfsApi kinst E, spec : !PfsApiSpec E api}.
Local Abbreviation K := (M kinst E).

(** The program ends with 0 and the bytes [image] delivered, or with one of its errors. *)
Definition installed (image : list Z) (e : E) (r : res Z) (e' : E) (t : trace) : Prop :=
  exists v, r = Ret v /\
    ((v = 0 /\ forall t0, delivered e' (t0 ++ t) = delivered e t0 ++ image) \/ -8 <= v < 0).

Lemma installed_after x y e e1 r e2 t1 t2 :
  (forall t0, delivered e1 (t0 ++ t1) = delivered e t0 ++ x) -> installed y e1 r e2 t2 ->
  installed (x ++ y) e r e2 (t1 ++ t2).
Proof.
  intros H1 (v & -> & Hv). exists v. split; [done|]. destruct Hv as [[-> H2]|Hv]; [left|by right].
  split; [done|]. intros t0. by rewrite app_assoc, H2, H1, <- app_assoc.
Qed.

Lemma wp_api {B} (m : K Z) (k : Z -> K B) data P Q s e :
  wp m (call_ends delivered data P s e) s e ->
  (forall v s' e' t, P v s' e' -> ahead e' (rfd s) = ahead e (rfd s) -> rfd s' = rfd s -> k_buf s' = k_buf s ->
     (forall t0, delivered e' (t0 ++ t) = delivered e t0 ++ data) ->
     wp (k v) (fun r s'' e'' t' => Q r s'' e'' (t ++ t')) s' e') ->
  wp (m ≫= k) Q s e.
Proof.
  intros Hm Hk. apply wp_bind. eapply wp_mono; [exact Hm|].
  intros r s' e' t ((v & -> & Hv) & Ha & Hr & Hb & Hd). cbn [bind_post]. by apply Hk.
Qed.

(** A call that delivers nothing, before the rest. *)
Lemma wp_api_setup (m : K Z) (k : Z -> K Z) P image s e :
  wp m (call_ends delivered [] P s e) s e ->
  (forall v s' e', P v s' e' -> ahead e' (rfd s) = ahead e (rfd s) -> rfd s' = rfd s -> k_buf s' = k_buf s ->
     wp (k v) (fun r _ e'' t' => installed image e' r e'' t') s' e') ->
  wp (m ≫= k) (fun r _ e' t => installed image e r e' t) s e.
Proof.
  intros Hm Hk. eapply wp_api; [exact Hm|]. intros v s' e' t Hv Ha Hr Hb Hd.
  eapply wp_mono; [by apply Hk|]. intros r s'' e'' t' Hi. by apply (installed_after []) with (e1 := e').
Qed.

Lemma fail_installed msg es image s e :
  -8 <= es < 0 -> wp (fail msg es : K Z) (fun r _ e' t => installed image e r e' t) s e.
Proof.
  intros Hes. apply wp_bind, wp_call. intros u e' _. cbn [bind_post]. apply wp_ret. exists es.
  split; [done|]. by right.
Qed.

(** What the copy ends with: everything delivered, or a write that failed. *)
Definition copied (image : list Z) (wfd : Z) (e : E) (r : res (Z + Z)) (s' : kinst) (e' : E) (t : trace) : Prop :=
  (r = Ret (inl 0) /\ owns wfd s' e' /\ forall t0, delivered e' (t0 ++ t) = delivered e t0 ++ image) \/
  r = Ret (inr (-7)).

Lemma copy_spec fuel wfd image s e :
  owns wfd s e -> ahead e (rfd s) = Some image -> Z.of_nat (length (k_buf s)) = BUF_SIZE ->
  Z.of_nat (length image) <= (Z.of_nat fuel - 1) * BUF_SIZE ->
  wp (loop fuel (copy_turn wfd) tt : K _) (fun r s' e' t => copied image wfd e r s' e' t) s e.
Proof.
  revert image s e. induction fuel as [|fuel IH]; intros image s e Hown Hahead Hbuf Hfuel.
  { unfold BUF_SIZE in *; lia. }
  apply wp_loop_S. unfold copy_turn. apply wp_bind, wp_get. cbn [bind_post].
  destruct (host_ahead e (rfd s) BUF_SIZE image ltac:(done) Hahead) as (e1 & Hread & Ha1).
  apply wp_bind, wp_call. intros [n data] e1' Hr. rewrite Hread in Hr. injection Hr as <- <- <-.
  set (data := take (Z.to_nat BUF_SIZE) image) in *. cbn [bind_post].
  assert (Hlen : Z.of_nat (length data) <= BUF_SIZE /\ (length data <= length image)%nat)
    by (unfold data; rewrite length_take; unfold BUF_SIZE; lia).
  rewrite s32_small by (unfold BUF_SIZE in *; lia).
  apply wp_bind, wp_assert; intros Hfits; [|boolP; apply Nat.leb_gt in Hfits; lia]. cbn [bind_post].
  apply Nat.leb_le in Hfits. apply wp_bind, wp_modify. cbn [bind_post].
  set (s1 := set_k_buf (overlay 0 data (k_buf s)) s).
  destruct (api_other _ (Host_read (rfd s) BUF_SIZE) e (Z.of_nat (length data), data) e1 [] I Hread) as (_ & Hready & Howns).
  assert (Hdel : forall t0, delivered e1 (t0 ++ [Ev (Host_read (rfd s) BUF_SIZE) (Z.of_nat (length data), data)]) = delivered e t0)
    by (intros t0; by eapply api_other).
  assert (Hown1 : owns wfd s1 e1) by (by apply api_globals, Howns).
  apply wp_if; intros Hz; boolP.
  - assert (Hnil : image = []).
    { destruct image; [done|]. unfold data in Hz. rewrite length_take in Hz. cbn in Hz. unfold BUF_SIZE in Hz. lia. }
    apply wp_ret. cbn [bind_post]. apply wp_ret. left. subst image.
    split; [unfold data; by rewrite take_nil|]. split; [done|]. intros t0. rewrite !app_nil_r. apply Hdel.
  - apply wp_bind, wp_get. cbn [bind_post].
    assert (Hbuf1 : take (length data) (k_buf s1) = data) by (by apply take_overlay).
    apply wp_api with (data := data) (P := fun _ => owns wfd).
    { rewrite <- Hbuf1 at 2. rewrite <- (Nat2Z.id (length data)) at 2. apply api_write; [done|unfold BUF_SIZE in *; lia|].
      unfold s1. cbn [k_buf set_k_buf]. rewrite length_overlay by lia. lia. }
    intros w s2 e2 t2 Hown2 Ha2 Hrfd2 Hb2 Hd2. cbn [bind_post].
    apply wp_if; intros Hw; boolP.
    { apply wp_bind. unfold fail. apply wp_bind, wp_call. intros u e3 _. cbn [bind_post]. apply wp_ret.
      cbn [bind_post]. apply wp_ret. cbn [bind_post]. apply wp_ret. by right. }
    apply wp_ret. cbn [bind_post].
    eapply wp_mono; [apply (IH (drop (Z.to_nat BUF_SIZE) image)); [done| | |]|].
    + rewrite Hrfd2. etrans; [exact Ha2|exact Ha1].
    + rewrite Hb2. unfold s1. cbn [k_buf set_k_buf]. by rewrite length_overlay by lia.
    + rewrite length_drop. unfold data in Hz. rewrite length_take in Hz. unfold BUF_SIZE in *. lia.
    + cbv beta. intros r s3 e3 t3 [(-> & Hown3 & Hd3)| ->]; [left|by right]. split_and!; [done..|].
      intros t0. rewrite !app_assoc, !app_nil_r, Hd3, Hd2, Hdel, <- app_assoc. f_equal. apply take_drop.
Qed.

Lemma install_spec fuel image s e :
  ready s e -> ahead e (rfd s) = Some image -> Z.of_nat (length (k_buf s)) = BUF_SIZE ->
  Z.of_nat (length image) <= (Z.of_nat fuel - 1) * BUF_SIZE ->
  wp (install fuel : K Z) (fun r _ e' t => installed image e r e' t) s e.
Proof.
  intros Hready Ha Hb Hfuel. unfold install.
  eapply wp_api_setup; [by apply api_mount|]. intros v1 s1 e1 Hr1 Ha1 Hf1 Hb1. cbn beta in Hr1.
  apply wp_if; intros _; [by apply fail_installed|].
  eapply wp_api_setup; [by apply api_mkdir|]. intros v2 s2 e2 Hr2 Ha2 Hf2 Hb2. cbn beta in Hr2.
  apply wp_if; intros _; [by apply fail_installed|].
  eapply wp_api_setup; [by apply api_chdir|]. intros v3 s3 e3 Hr3 Ha3 Hf3 Hb3. cbn beta in Hr3.
  apply wp_if; intros _; [by apply fail_installed|].
  eapply wp_api_setup; [by apply api_open|]. intros wfd s4 e4 Hr4 Ha4 Hf4 Hb4. cbn beta in Hr4.
  apply wp_if; intros Hw; [by apply fail_installed|]. boolP.
  apply wp_bind. eapply wp_mono; [apply (copy_spec fuel wfd image)|].
  - by apply Hr4.
  - rewrite Hf4, Ha4, Hf3, Ha3, Hf2, Ha2, Hf1, Ha1. done.
  - by rewrite Hb4, Hb3, Hb2, Hb1.
  - done.
  - intros r s5 e5 t5 [(-> & Hown & Hd)| ->]; cbn [bind_post].
    2:{ apply wp_ret. exists (-7). split; [done|]. right. lia. }
    cbn. apply wp_bind, wp_get. cbn [bind_post]. apply wp_bind, wp_call. intros c e6 Hclose. cbn [bind_post].
    destruct (api_other _ (Host_close (rfd s5)) e5 c e6 [] I Hclose) as (_ & _ & Howns).
    assert (Hd6 : forall t0, delivered e6 (t0 ++ [Ev (Host_close (rfd s5)) c]) = delivered e5 t0)
      by (intros t0; by eapply api_other).
    eapply wp_api; [by apply api_close, Howns|]. intros v7 s7 e7 t7 Hr7 _ _ _ Hd7. cbn beta in Hr7.
    eapply wp_api; [by apply api_umount|]. intros v8 s8 e8 t8 Hr8 _ _ _ Hd8. cbn beta in Hr8.
    apply wp_bind. eapply wp_mono; [by apply api_exit|]. intros r s9 e9 t9 [-> Hd9]. cbn [bind_post].
    apply wp_bind, wp_call. intros u e10 Hprint. cbn [bind_post]. apply wp_ret.
    exists 0. split; [done|]. left. split; [done|]. intros t0.
    repeat rewrite ?app_nil_r, ?app_assoc in *.
    rewrite (proj1 (api_other _ (Printf _ _ _) e9 u e10 _ I Hprint)).
    rewrite Hd9, Hd8, app_nil_r, Hd7, app_nil_r, Hd6, Hd. done.
Qed.
End Install.

(** ** A site: the kernel file and the drivers

    The file of the host is apart from what the drivers work on. *)

Section Site.
Context {Host E : Type} `{HostReads Host, Handler E}.

Definition site_handler : Handler (Host * E) := fun A c '(h, e) =>
  if host_file_call c then let '(r, h') := handle c h in (r, (h', e))
  else let '(r, e') := handle c e in (r, (h, e')).
#[export] Existing Instance site_handler.

Lemma site_apart A (c : ioE A) (he : Host * E) :
  host_file_call c = false -> (handle c he).2.1 = he.1.
Proof. intros Hc. destruct he as [h e]. cbn. rewrite Hc. by destruct (handle c e). Qed.

#[export] Instance site_reads : HostReads (Host * E).
Proof.
  refine {| ahead := fun he fd => ahead he.1 fd |}. intros [h e] fd n rest Hn Ha. cbn in Ha |- *.
  destruct (host_ahead h fd n rest Hn Ha) as (h' & Hr & Ha'). exists (h', e). by rewrite Hr.
Defined.

Lemma site_answer A (c : ioE A) (he : Host * E) :
  host_file_call c = false -> (handle c he).1 = (handle c he.2).1.
Proof. intros Hc. destruct he as [h e]. cbn. rewrite Hc. by destruct (handle c e). Qed.

#[export] Instance site_env `{!DaemonEnv E} : DaemonEnv (Host * E).
Proof.
  constructor; intros; rewrite site_answer by done;
    [apply close_invalid|apply accept_not_stdin|apply read_len|apply ioctl2_len|apply devctl_len
    |apply readlink_len|apply getstat_ok|apply dread_ok].
Qed.
End Site.

(** ** The library keeps the promise *)

Section Direct.
Context {Host E : Type} `{HostReads Host, Handler E}.

(** Calls of the library, apart from writes. *)
Lemma direct_call (c : ioE Z) s (he : Host * E) :
  host_file_call c = false -> writes c = false ->
  wp (zoom k_lib set_k_lib (call c))
     (call_ends (fun _ t => sent t) [] (fun _ _ _ => True) s he) s he.
Proof.
  intros Hc Hw. apply wp_zoom, wp_call. intros r he' Hr.
  pose proof (site_apart _ c he Hc) as Hap. rewrite Hr in Hap. cbn in Hap.
  split; [by exists r|]. split; [cbn; by rewrite Hap|]. split_and!; [done..|].
  intros t0. rewrite sent_app. by destruct c.
Qed.

Lemma exit_disks_end l (s : pfslib) (he : Host * E) :
  wp (for_ l exit_disk) (fun r _ _ t => r = Ret tt /\ sent t = []) s he.
Proof.
  revert s he. induction l as [|fd l IH]; intros s he; simpl; [by apply wp_ret|].
  apply wp_bind. unfold exit_disk at 1. apply wp_when; intros _; [|cbn [bind_post]; apply IH].
  do 2 (apply wp_bind, wp_call; intros ? ? _; cbn [bind_post]). apply wp_ret.
  eapply wp_mono; [apply IH|]. intros ? ? ? t [-> Ht]. split; [done|]. by rewrite sent_app, Ht.
Qed.

#[export] Instance direct_spec : PfsApiSpec (Host * E) direct_api.
Proof.
  refine {| ready := fun _ _ => True; owns := fun _ _ _ => True; delivered := fun _ t => sent t |}.
  - intros A c e r e' t Hc _. split; [|done]. rewrite sent_app. destruct c; try done; cbn; by rewrite app_nil_r.
  - done.
  - intros s e _. by apply direct_call.
  - intros s e _. by apply direct_call.
  - intros s e _. by apply direct_call.
  - intros s e _. eapply wp_mono; [by apply direct_call|].
    intros r s' e' t ((v & -> & _) & Hrest). split; [by exists v|done].
  - intros fd data n s e _ Hn Hlen. cbn. apply wp_zoom. unfold scepfsWrite.
    rewrite s32_small by (unfold BUF_SIZE in Hn; lia).
    apply wp_bind, wp_assert; intros Hb; [|boolP; lia]. cbn [bind_post]. apply wp_call. intros r e' Hr.
    pose proof (site_apart _ _ e (eq_refl : host_file_call (IomanX_write fd (take (Z.to_nat n) data) n) = false)) as Hap.
    rewrite Hr in Hap. cbn in Hap.
    split; [by exists r|]. split; [cbn; by rewrite Hap|]. split_and!; [done..|].
    intros t0. rewrite sent_app. cbn. by rewrite app_nil_r.
  - intros fd s e _. by apply direct_call.
  - intros s e _. by apply direct_call.
  - intros s e _. cbn. apply wp_zoom. unfold scepfsExit. apply wp_bind, wp_get. cbn [bind_post].
    eapply wp_mono; [apply exit_disks_end|]. intros r s' e' t [-> Ht]. split; [done|].
    intros t0. cbn [app]. by rewrite sent_app, Ht, app_nil_r.
Defined.
End Direct.

(** ** The daemon keeps the promise *)

(** Results of writes that are an [int]. *)
Class IntWrites (E : Type) `{Handler E} :=
  int_writes : forall fd data n e, fits_int (handle (IomanX_write fd data n) e).1 = true.

Lemma calls_of_writes_sent t : calls_of (@writes) t = [] -> sent t = [].
Proof.
  induction t as [|[A c r] t IH]; [done|]. unfold calls_of in *. cbn.
  destruct c; cbn; try exact IH. discriminate.
Qed.

Lemma replies_length t : length (replies t) = PfsdProps.replies t.
Proof. induction t as [|[A c r] t IH]; [done|]. destruct c; cbn; try exact IH. by f_equal. Qed.

Lemma replies_app t1 t2 : replies (t1 ++ t2) = replies t1 ++ replies t2.
Proof. induction t1 as [|[A c r] t1 IH]; [done|]. destruct c; cbn; try exact IH. by f_equal. Qed.

Lemma find_openfile_last f pid i l : is_Some (find_openfile f pid (l ++ [mk_openfile f pid i])).
Proof.
  induction l as [|x l [k Hk]]; cbn [app find_openfile]; [by rewrite !Z.eqb_refl; eexists|].
  destruct (_ && _); [by eexists|]. rewrite Hk. by eexists.
Qed.

Section Served.
Context {Host E : Type} `{HostReads Host, Handler E, !DaemonEnv E, !IntWrites E, Wiring}.
Context (Hconn : w_conn <> 0).
Local Abbreviation site := (Host * E)%type.
Local Abbreviation C := (M client (system site)).

#[export] Instance system_reads : HostReads (system site).
Proof.
  refine {| ahead := fun sys fd => ahead (sy_env sys) fd |}. intros [d he pend log] fd n rest Hn Ha. cbn in Ha |- *.
  destruct he as [h e]. cbn in Ha |- *.
  destruct (host_ahead h fd n rest Hn Ha) as (h' & Hr & Ha'). rewrite Hr. by eexists.
Defined.

(** Between requests: the tables well formed, no packet under way, the segment whole. *)
Definition serving (s : client) (sys : system site) : Prop :=
  inv (sy_daemon sys) /\ sy_pending sys = None /\ SharedMemorySize s = Z.of_nat SHM_SIZE.

Definition granted (fd : Z) (sys : system site) : Prop :=
  is_Some (find_openfile fd w_conn (g_openfile_items (sy_daemon sys))).

(** What handling a request that does not write leaves. *)
Lemma handled req d (he : site) :
  inv d -> req_ok req -> write_request req = false ->
  let o := event_handler_func w_hdd w_garbage w_conn req d he in
  inv (o_st o) /\ sent (o_tr o) = [] /\ (o_env o).1 = he.1.
Proof.
  intros Hd Hreq Hwr o.
  destruct (event_handler_keeps w_hdd w_garbage w_conn req d Hd Hconn Hreq he) as (_ & Hi & _).
  split; [exact Hi|].
  destruct (event_handler_calls (E := site) (fun A c => host_file_call c || writes c)
    (fun A c Hc => ltac:(by rewrite <- orb_assoc, Hc, orb_true_r)) w_hdd w_garbage w_conn req
    (fun Ht => ltac:(by rewrite Ht in Hwr)) d he I) as (_ & Hc & He). fold o in Hc, He. split.
  - apply calls_of_writes_sent. eapply calls_of_weaken; [|exact Hc]. intros A c Hw. cbn beta. by rewrite Hw, orb_true_r.
  - symmetry. apply (He (fun a b => a.1 = b.1)).
    + split; [by intros ?|]. intros a b c Hab Hbc. congruence.
    + intros A c he' Hc'. apply orb_false_iff in Hc' as [Hc' _]. symmetry. by apply site_apart.
Qed.

Lemma runs_receive_any n req s d (he : site) log :
  exists v, let o := event_handler_func w_hdd w_garbage w_conn req d he in
    runs (receive n : C Z) s (mk_sys d he (Some req) log) v s
         (mk_sys (o_st o) (o_env o) None (log ++ o_tr o)) /\
    (o_res o = Ret tt -> replies (o_tr o) <> [] -> replies (o_tr o) = v :: tail (replies (o_tr o))).
Proof.
  cbv zeta. set (o := event_handler_func _ _ _ _ _ _).
  destruct (serve (mk_sys d he (Some req) log)) as [[k v] sys'] eqn:Hserve.
  exists v. assert (Hsys : sys' = mk_sys (o_st o) (o_env o) None (log ++ o_tr o) /\
      (o_res o = Ret tt -> replies (o_tr o) <> [] -> replies (o_tr o) = v :: tail (replies (o_tr o)))).
  { revert Hserve. unfold serve. cbn [sy_pending sy_daemon sy_env sy_log]. fold o.
    destruct (o_res o) as [[]| | | |]; [destruct (replies (o_tr o))|..]; by intros [= <- <- <-]. }
  destruct Hsys as [-> Hv]. split; [|exact Hv].
  apply runs_get_bind. eapply runs_bind; [apply (runs_call (Recv_reply (Cfd s) n)); exact Hserve|].
  cbn beta iota. eapply runs_bind; [|apply runs_ret].
  destruct (k <=? 0); [|apply runs_when_false; done]. eexists. reflexivity.
Qed.

(** A request without data. *)
Lemma runs_request req s sys :
  serving s sys -> req_ok req -> write_request req = false ->
  exists v sys', runs (request_only req : C Z) s sys v s sys' /\ serving s sys' /\
    sent (sy_log sys') = sent (sy_log sys) /\ (sy_env sys').1 = (sy_env sys).1 /\
    let o := event_handler_func w_hdd w_garbage w_conn req (sy_daemon sys) (sy_env sys) in
    sy_daemon sys' = o_st o /\
    (o_res o = Ret tt -> replies (o_tr o) <> [] -> replies (o_tr o) = v :: tail (replies (o_tr o))).
Proof.
  destruct sys as [d he pend log]. intros (Hd & Hpend & HK) Hreq Hwr. cbn in Hd, Hpend. subst pend.
  destruct (handled req d he Hd Hreq Hwr) as (Hi & Hsent & Hhost).
  destruct (runs_receive_any 4 req s d he log) as (v & Hrecv & Hv). cbv zeta in *. cbn [sy_daemon sy_env sy_log].
  set (o := event_handler_func _ _ _ _ _ _) in *.
  exists v, (mk_sys (o_st o) (o_env o) None (log ++ o_tr o)). split; [|split; [done|]].
  - clearbody o. unfold request_only, transact. apply runs_bind with (a := (v, tt)) (s1 := s)
      (e1 := mk_sys (o_st o) (o_env o) None (log ++ o_tr o)); [|apply runs_ret].
    eapply runs_bind; [exact (proj1 (runs_lock s _))|]. eapply runs_bind; [apply runs_ret|].
    eapply runs_bind; [apply runs_send|]. eapply runs_bind; [exact Hrecv|].
    eapply runs_bind; [apply runs_ret|]. eapply runs_bind; [exact (proj2 (runs_lock s _))|]. apply runs_ret.
  - cbn [sy_log sy_env sy_daemon]. by rewrite sent_app, Hsent, app_nil_r.
Qed.

(** The same, through the installer's state. *)
Lemma runs_zoom {A} (m : C A) (s : kinst) sys a c' sys' :
  runs m (k_client s) sys a c' sys' ->
  runs (zoom k_client set_k_client m) s sys a (set_k_client c' s) sys'.
Proof. intros [t Ht]. exists t. unfold zoom. by rewrite Ht. Qed.

Lemma same_client (s : kinst) : set_k_client (k_client s) s = s.
Proof. by destruct s. Qed.

Definition served (s : kinst) (sys : system site) : Prop := serving (k_client s) sys.
Definition log_sent (sys : system site) (_ : trace) : list Z := sent (sy_log sys).

(** A program of the client that comes to one request. *)
Lemma request_ends (m : C Z) req (P : Z -> kinst -> system site -> Prop) s sys :
  served s sys -> req_ok req -> write_request req = false ->
  (forall v sys', runs (request_only req : C Z) (k_client s) sys v (k_client s) sys' ->
                  runs m (k_client s) sys v (k_client s) sys') ->
  (forall v sys', served s sys' ->
     let o := event_handler_func w_hdd w_garbage w_conn req (sy_daemon sys) (sy_env sys) in
     sy_daemon sys' = o_st o ->
     (o_res o = Ret tt -> replies (o_tr o) <> [] -> replies (o_tr o) = v :: tail (replies (o_tr o))) ->
     P v s sys') ->
  wp (zoom k_client set_k_client m) (call_ends log_sent [] P s sys) s sys.
Proof.
  intros Hs Hreq Hwr Hm HP.
  destruct (runs_request req (k_client s) sys Hs Hreq Hwr) as (v & sys' & Hrun & Hs' & Hsent & Hhost & Hd & Hv).
  eapply runs_wp; [by apply runs_zoom, Hm|]. intros t. rewrite same_client.
  split; [exists v; split; [done|by apply HP]|]. split; [cbn; by rewrite Hhost|]. split_and!; [done..|].
  intros t0. unfold log_sent. by rewrite Hsent, app_nil_r.
Qed.

Lemma common_open_counts fd pid name : counts (E := site) (rpc_common_open fd pid name) 0.
Proof. unfold rpc_common_open. counts_go. Qed.

(** Opening: a descriptor handed out is in the table of the daemon. *)
Lemma open_served name flags mode d (he : site) :
  inv d -> name_fits NAME_BUF name ->
  wp (rpc_command_open name flags mode w_conn) (fun r d' _ t =>
    r = Ret tt /\ exists v, replies t = [v] /\
      (0 <= v -> is_Some (find_openfile v w_conn (g_openfile_items d')))) d he.
Proof.
  intros Hd Hfit. pose proof (remap_name_counts (E := site) NAME_BUF name w_conn) as Hcount.
  unfold rpc_command_open. apply wp_bind, wp_get. cbn [bind_post]. apply wp_bind.
  destruct (table_full d) eqn:Hfull.
  { apply wp_ret. cbn [bind_post]. apply wp_bind, wp_call. intros [] e1 _. cbn [bind_post].
    apply wp_when; [done|]. intros _. split; [done|]. exists (-24). split; [done|]. lia. }
  apply wp_bind. specialize (Hcount d he).
  pose proof (rpc_remap_name_spec (E := site) NAME_BUF name w_conn d he Hd Hconn Hfit) as Hmap.
  unfold wp in Hcount, Hmap |- *.
  destruct (rpc_remap_name NAME_BUF name w_conn d he) as [r d1 e1 t1]. cbn [o_res o_st o_env o_tr] in *.
  destruct Hmap as [-> ->]. cbn [bind_post].
  assert (Ht1 : replies t1 = []) by (apply nil_length_inv; by rewrite replies_length).
  apply wp_call. intros v e2 _. cbn [bind_post].
  apply wp_bind, wp_call. intros [] e3 _. cbn [bind_post].
  assert (Hreplies : forall A (c : ioE A) r t, replies [Ev c r] = [] ->
            replies t = [] -> replies ((t1 ++ [Ev c r]) ++ [Ev (Reply w_conn v) tt] ++ t) = [v]).
  { intros A c r t Hc Ht. by rewrite !replies_app, Ht1, Hc, Ht. }
  apply wp_when; intros Hv; boolP.
  - pose proof (common_open_spec name w_conn d e3 v Hd Hconn Hfull Hv) as Hopen.
    pose proof (common_open_counts v w_conn name d e3) as Hquiet. unfold wp in Hopen, Hquiet |- *.
    destruct (rpc_common_open v w_conn name d e3) as [r d4 e4 t4]. cbn [o_res o_st o_env o_tr] in *.
    destruct Hopen as (-> & _ & i & ->). split; [done|]. exists v.
    split; [apply Hreplies; [done|apply nil_length_inv; by rewrite replies_length]|]. intros _.
    apply find_openfile_last.
  - split; [done|]. exists v. split; [by apply (Hreplies _ _ _ [])|]. lia.
Qed.

(** A write that fits the segment: all of it reaches the driver in one call. *)
Lemma runs_write fuel fd data n s sys :
  serving s sys -> granted fd sys -> 0 < n <= BUF_SIZE -> n <= Z.of_nat (length data) ->
  exists v sys', runs (scepfsdWrite (S fuel) fd (Some data) n : C _) s sys (v, Some data) s sys' /\
    serving s sys' /\ granted fd sys' /\ (sy_env sys').1 = (sy_env sys).1 /\
    sent (sy_log sys') = sent (sy_log sys) ++ take (Z.to_nat n) data.
Proof.
  destruct sys as [d he pend log]. intros (Hd & Hpend & HK) [i Hf] Hn Hlen. cbn in Hd, Hpend, Hf. subst pend.
  pose proof (inv_shm d Hd) as Hshm. unfold BUF_SIZE in Hn.
  pose proof SHM_SIZE_Z as HSHM.
  set (x := take (Z.to_nat n) data).
  assert (Hx : length x = Z.to_nat n) by (unfold x; rewrite length_take; lia).
  assert (Hxs : (length x <= length (ShmPtr d))%nat) by lia.
  set (d1 := set_shm (overlay 0 x (ShmPtr d)) d).
  assert (Hl1 : length (ShmPtr d1) = SHM_SIZE) by (unfold d1; cbn [ShmPtr set_shm]; rewrite length_overlay; lia).
  assert (Hd1 : take (Z.to_nat n) (ShmPtr d1) = x) by (rewrite <- Hx; by apply take_overlay).
  destruct (handle (IomanX_write fd x n) he) as [r he'] eqn:Hw.
  assert (Hfits : fits_int r = true).
  { pose proof (site_answer _ (IomanX_write fd x n) he eq_refl) as Ha. rewrite Hw in Ha. cbn in Ha. rewrite Ha.
    apply int_writes. }
  pose proof (site_apart _ (IomanX_write fd x n) he eq_refl) as Hap. rewrite Hw in Hap. cbn in Hap.
  pose proof (site_apart _ (Reply w_conn r) he' eq_refl) as Hap'.
  pose proof (serve_write fd n d1 he i r he' Hf ltac:(lia)) as Hserve. rewrite Hd1 in Hserve. specialize (Hserve Hw).
  exists r, (mk_sys d1 (handle (Reply w_conn r) he').2 None (log ++ [Ev (IomanX_write fd x n) r; Ev (Reply w_conn r) tt])).
  split; [|split; [exact (conj (set_shm_inv _ d Hd Hl1) (conj eq_refl HK))|split; [exact (ex_intro _ i Hf)|split]]].
  - unfold scepfsdWrite, chunked at 1. apply runs_bind with (a := (0, Some data, false)) (s1 := s)
      (e1 := mk_sys d he None log).
    + apply runs_loop_end. unfold chunk_turn. apply runs_get_bind.
      rewrite (proj2 (Z.ltb_ge _ _)); [apply runs_ret|]. rewrite HK. unfold uwrap.
      rewrite Z.sub_0_r, Z.mod_small by lia. lia.
    + cbn beta iota. unfold write_last. rewrite Z.sub_0_r, s32_small by lia.
      eapply runs_bind; [eapply runs_transact; [|exact Hserve|reflexivity|apply runs_ret]|].
      * cbn [is_ptr non_null orb when block_of deref]. eapply runs_bind; [apply runs_ret|].
        rewrite drop_0. apply runs_to_shm; lia.
      * cbn beta iota. rewrite Z.add_0_r. apply runs_assert_bind; [done|]. apply runs_ret.
  - cbn [sy_env]. by rewrite Hap', Hap.
  - cbn [sy_log]. rewrite sent_app. cbn. by rewrite app_nil_r.
Qed.

(** The promise, with the descriptors of the daemon's table. *)
Lemma packet_name_runs name (k : string -> C Z) s sys a s' sys' :
  (String.length name <? PACKET_NAME)%nat = true ->
  runs (k name) s sys a s' sys' -> runs (packet_name name ≫= k) s sys a s' sys'.
Proof.
  intros Hn Hk. eapply runs_bind; [apply runs_assert_bind; [done|apply runs_ret]|exact Hk].
Qed.

(** A call whose result does not matter to what is promised after it. *)
Lemma setup_ends (m : C Z) req s sys :
  served s sys -> req_ok req -> write_request req = false ->
  (forall v sys', runs (request_only req : C Z) (k_client s) sys v (k_client s) sys' ->
                  runs m (k_client s) sys v (k_client s) sys') ->
  wp (zoom k_client set_k_client m) (call_ends log_sent [] (fun _ => served) s sys) s sys.
Proof. intros Hs Hreq Hwr Hm. by eapply request_ends. Qed.

Lemma daemon_open fuel s sys :
  served s sys ->
  wp (api_Open (PfsApi := daemon_api fuel) "pfs0:vmlinux" KERNEL_FLAGS KERNEL_MODE)
     (call_ends log_sent [] (fun v s' sys' => 0 <= v -> served s' sys' /\ granted v sys') s sys) s sys.
Proof.
  intros Hs. assert (Hfit : name_fits NAME_BUF "pfs0:vmlinux") by (apply Nat.ltb_lt; reflexivity).
  eapply (request_ends _ (PFSD_REQ_OPEN "pfs0:vmlinux" KERNEL_FLAGS KERNEL_MODE)); [done|exact Hfit|done| |].
  - intros v sys' Hr. apply packet_name_runs; [done|]. exact Hr.
  - intros v sys' Hs' o Hd Hv Hpos. split; [done|].
    destruct (open_served "pfs0:vmlinux" KERNEL_FLAGS KERNEL_MODE (sy_daemon sys) (sy_env sys) (proj1 Hs) Hfit)
      as (Hret & w & Hw & Hgr).
    change (rpc_command_open _ _ _ _ _ _) with o in Hret, Hw, Hgr.
    specialize (Hv Hret). rewrite Hw in Hv. specialize (Hv ltac:(done)). injection Hv as ->.
    unfold granted. rewrite Hd. by apply Hgr.
Qed.

Lemma served_exit s sys : runs (scepfsdExit : C unit) s sys tt s sys.
Proof.
  apply runs_get_bind. eapply runs_bind; [by apply runs_call|]. eapply runs_bind; [by apply runs_call|].
  apply runs_ret.
Qed.

Local Abbreviation setup m :=
  (forall s sys, served s sys -> wp (zoom k_client set_k_client m : M kinst (system site) Z)
     (call_ends log_sent [] (fun _ => served) s sys) s sys).

Lemma mount_request f d fl :
  (scepfsdMount f d fl None 0 : C Z) =
  (f ← packet_name f; d ← packet_name d; request_only (PFSD_REQ_MOUNT f d fl false 0)).
Proof.
  unfold scepfsdMount, request_only. cbn [put_arg non_null].
  assert (Hz : s32 0 = 0) by reflexivity. by rewrite Hz.
Qed.

Lemma daemon_mount : setup (scepfsdMount "pfs0:" "hdd0:__system" 0 None 0).
Proof.
  intros s sys Hs. apply (setup_ends _ (PFSD_REQ_MOUNT "pfs0:" "hdd0:__system" 0 false 0)); [done| |done|].
  - cbn. unfold CONTAINER_MAX. lia.
  - intros v sys' Hr. rewrite mount_request. do 2 (apply packet_name_runs; [done|]). exact Hr.
Qed.

Lemma daemon_mkdir : setup (scepfsdMkdir "pfs0:/p2lboot" KERNEL_MODE).
Proof.
  intros s sys Hs. apply (setup_ends _ (PFSD_REQ_MKDIR "pfs0:/p2lboot" KERNEL_MODE)); [done| |done|].
  - apply Nat.ltb_lt. reflexivity.
  - intros v sys' Hr. unfold scepfsdMkdir. apply packet_name_runs; [done|]. exact Hr.
Qed.

Lemma daemon_chdir : setup (scepfsdChdir "pfs0:/p2lboot").
Proof.
  intros s sys Hs. apply (setup_ends _ (PFSD_REQ_CHDIR "pfs0:/p2lboot")); [done| |done|].
  - apply Nat.ltb_lt. reflexivity.
  - intros v sys' Hr. unfold scepfsdChdir. apply packet_name_runs; [done|]. exact Hr.
Qed.

Lemma daemon_close fd : setup (scepfsdClose fd).
Proof. intros s sys Hs. by apply (setup_ends _ (PFSD_REQ_CLOSE fd)). Qed.

Lemma daemon_umount : setup (scepfsdUmount "pfs0:").
Proof.
  intros s sys Hs. apply (setup_ends _ (PFSD_REQ_UMOUNT "pfs0:")); [done|done|done|].
  intros v sys' Hr. unfold scepfsdUmount. apply packet_name_runs; [done|]. exact Hr.
Qed.

Lemma daemon_write fuel fd data n s sys :
  served s sys /\ granted fd sys -> 0 < n <= BUF_SIZE -> n <= Z.of_nat (length data) ->
  wp ('(ret, _) ← zoom k_client set_k_client (scepfsdWrite (S fuel) fd (Some data) n); mret ret)
     (call_ends log_sent (take (Z.to_nat n) data) (fun _ s' sys' => served s' sys' /\ granted fd sys') s sys) s sys.
Proof.
  intros [Hs Hg] Hn Hlen.
  destruct (runs_write fuel fd data n (k_client s) sys Hs Hg Hn Hlen) as (v & sys' & Hrun & Hs' & Hg' & Hh & Hsent).
  apply wp_bind. eapply runs_wp; [by apply runs_zoom|]. intros t. cbn [bind_post]. apply wp_ret.
  rewrite same_client. split; [by exists v|]. split; [cbn; by rewrite Hh|]. split_and!; [done..|].
  intros t0. exact Hsent.
Qed.

Lemma daemon_exit s sys :
  wp (zoom k_client set_k_client scepfsdExit : M kinst (system site) unit)
     (fun r _ sys' t => r = Ret tt /\ forall t0, log_sent sys' (t0 ++ t) = log_sent sys t0) s sys.
Proof. eapply runs_wp; [by apply runs_zoom, served_exit|]. done. Qed.

Lemma daemon_other A (c : ioE A) (sys : system site) r sys' t :
  match c with Printf _ _ _ | Host_read _ _ | Host_close _ => True | _ => False end ->
  handle c sys = (r, sys') ->
  log_sent sys' (t ++ [Ev c r]) = log_sent sys t /\
  (forall s, served s sys -> served s sys') /\
  forall fd s, served s sys /\ granted fd sys -> served s sys' /\ granted fd sys'.
Proof.
  intros Hc Hr. destruct sys as [d [h e] pend log]. destruct c; try done; cbn in Hr.
  - injection Hr as <- <-. done.
  - destruct (handle (Host_read fd size) h). injection Hr as <- <-. done.
  - injection Hr as <- <-. done.
Qed.

#[export] Instance daemon_spec fuel : PfsApiSpec (system site) (daemon_api (S fuel)).
Proof.
  refine {| ready := served; owns := fun fd s sys => served s sys /\ granted fd sys; delivered := log_sent |}.
  - exact daemon_other.
  - done.
  - exact daemon_mount.
  - exact daemon_mkdir.
  - exact daemon_chdir.
  - exact (daemon_open (S fuel)).
  - exact (daemon_write fuel).
  - intros fd s sys [Hs _]. by apply daemon_close.
  - exact daemon_umount.
  - intros s sys _. apply daemon_exit.
Defined.
End Served.

(** ** Properties *)

Section Theorems.
Context {Host E : Type} `{HostReads Host, Handler E}.

(** Through the library: what the drivers get is the kernel. *)
Lemma install_direct fuel image s (h : Host) (e : E) :
  ahead h (rfd s) = Some image -> Z.of_nat (length (k_buf s)) = BUF_SIZE ->
  Z.of_nat (length image) <= (Z.of_nat fuel - 1) * BUF_SIZE ->
  wp (install (H0 := direct_api) fuel) (fun r _ _ t => exists v, r = Ret v /\
    ((v = 0 /\ sent t = image) \/ -8 <= v < 0)) s (h, e).
Proof.
  intros Ha Hb Hfuel. eapply wp_mono; [by apply (install_spec (E := Host * E) fuel image)|].
  intros r s' e' t (v & -> & Hv). exists v. split; [done|]. destruct Hv as [[-> Hd]|]; [left|by right].
  split; [done|]. exact (Hd []).
Qed.

Context `{!DaemonEnv E, !IntWrites E, Wiring}.

Lemma init_runs (c : client) (sys : system (Host * E)) :
  inv (sy_daemon sys) -> runs scepfsdInit c sys 0 (mk_client 0 0 0 (Z.of_nat SHM_SIZE)) sys.
Proof.
  intros Hd. pose proof (inv_shm _ Hd) as Hshm. pose proof SHM_SIZE_Z as HZ.
  assert (Hmod : forall f (c : client), runs (modify f : M client (system (Host * E)) unit) c sys tt (f c) sys)
    by (intros; by eexists).
  unfold scepfsdInit, StartUp. apply runs_bind with (a := 0) (s1 := set_cfd 0 c) (e1 := sys).
  { unfold Connect. eapply runs_bind; [by apply runs_call|]. eapply runs_bind; [apply Hmod|].
    rewrite Z.ltb_irrefl. eapply runs_bind; [by apply runs_call|]. rewrite Z.ltb_irrefl.
    eapply runs_bind; [by apply runs_call|]. rewrite Z.ltb_irrefl. apply runs_ret. }
  rewrite Z.ltb_irrefl. eapply runs_bind; [by apply runs_call|]. eapply runs_bind; [apply Hmod|].
  rewrite Z.ltb_irrefl. eapply runs_bind; [by apply runs_call|]. eapply runs_bind; [apply Hmod|].
  rewrite Z.ltb_irrefl. eapply runs_bind; [by apply runs_call|].
  apply runs_bind with (a := Z.of_nat SHM_SIZE) (s1 := set_shmid 0 (set_sem 0 (set_cfd 0 c))) (e1 := sys).
  { unfold GetShmSize. apply runs_get_bind, runs_call. rewrite <- Hshm. by destruct sys. }
  eapply runs_bind; [apply Hmod|]. rewrite s32_small by lia.
  rewrite (proj2 (Z.leb_gt _ _)) by lia. apply runs_ret.
Qed.

(** C6: the installer puts the kernel on the disk: with a daemon running, whatever the
    drivers answer, it returns, either 0 after the whole of the kernel file, in order and
    once, was written by the daemon, or one of its error codes. *)
Theorem kernel_installed fuel kernel image s d (h h1 : Host) (e : E) fd log :
  w_conn <> 0 -> inv d ->
  handle (Host_open kernel 0 0) h = (fd, h1) -> 0 <= fd -> ahead h1 fd = Some image ->
  Z.of_nat (length (k_buf s)) = BUF_SIZE ->
  Z.of_nat (length image) <= (Z.of_nat fuel - 1) * BUF_SIZE ->
  wp (install_kernel fuel kernel) (fun r _ sys' _ => exists v, r = Ret v /\
    ((v = 0 /\ sent (sy_log sys') = sent log ++ image) \/ -8 <= v < 0)) s (mk_sys d (h, e) None log).
Proof.
  intros Hconn Hd Hopen Hfd Ha Hb Hfuel. unfold install_kernel.
  apply wp_bind, wp_call. intros fd' sys1 Hr. cbn in Hr. rewrite Hopen in Hr. injection Hr as <- <-.
  cbn [bind_post]. apply wp_bind, wp_modify. cbn [bind_post].
  rewrite (proj2 (Z.ltb_ge fd 0)) by done. apply wp_bind.
  eapply runs_wp; [apply runs_zoom, (init_runs _ (mk_sys d (h1, e) None log) Hd)|].
  intros t1. cbn [bind_post]. cbn [Z.eqb negb].
  destruct fuel as [|fuel]; [unfold BUF_SIZE in Hfuel; lia|].
  eapply wp_mono; [apply (install_spec (spec := daemon_spec Hconn fuel) (S fuel) image); [done|exact Ha|done|done]|].
  intros r s' sys' t (v & -> & Hv). exists v. split; [done|]. destruct Hv as [[-> Hdel]|]; [left|by right].
  split; [done|]. exact (Hdel []).
Qed.
End Theorems.

(** ** Witnesses *)

Module KinstSample.
Import DaemonSample ClientSample.

(** A host whose one file is a stream of bytes. *)
Definition file_host : Handler (list Z) := fun A c e =>
  match c in ioE A return A * list Z with
  | Host_open _ _ _ => (3, e)
  | Host_read _ n => ((Z.of_nat (length (take (Z.to_nat n) e)), take (Z.to_nat n) e), drop (Z.to_nat n) e)
  | c => (default_answer c, e)
  end.

Definition file_reads : @HostReads (list Z) file_host.
Proof.
  refine (@Build_HostReads (list Z) file_host (fun e _ => Some e) _).
  intros e fd n rest Hn [= ->]. eexists. split; reflexivity.
Defined.

(** Drivers that take what they are given. *)
Definition disk : Handler unit := fun A c e =>
  match c in ioE A return A * unit with
  | IomanX_write _ _ n => (if fits_int n then n else 0, e)
  | c => handle (Handler := drivers) c e
  end.

Definition disk_env : @DaemonEnv unit disk.
Proof. destruct drivers_env as [c1 c2 c3 c4 c5 c6 c7 c8]. exact (@Build_DaemonEnv unit disk c1 c2 c3 c4 c5 c6 c7 c8). Defined.

Definition disk_ints : @IntWrites unit disk.
Proof. intros fd data n e. cbn. by destruct (fits_int n) eqn:Hn. Defined.
End KinstSample.
Import DaemonSample ClientSample KinstSample.

Lemma kernel_installed_witness :
  wp (@install_kernel _ (@system_handler _ (@site_handler (list Z) unit file_host disk) sample_wiring) 2 "vmlinux")
     (fun r _ sys' _ => exists v, r = Ret v /\
        ((v = 0 /\ sent (sy_log sys') = [1; 2; 3]) \/ -8 <= v < 0))
     kinst_initial (mk_sys mounted ([1; 2; 3], tt) None []).
Proof.
  apply (@kernel_installed (list Z) unit file_host file_reads disk disk_env disk_ints sample_wiring
           2 "vmlinux" [1; 2; 3] kinst_initial mounted [1; 2; 3] [1; 2; 3] tt 3 []).
  - discriminate.
  - exact mounted_inv.
  - reflexivity.
  - lia.
  - reflexivity.
  - unfold kinst_initial. cbn [k_buf]. by rewrite length_replicate, Z2Nat.id.
  - unfold BUF_SIZE. cbn. lia.
Defined.

(** That run comes to the first of the two. *)
Example kernel_sample_run :
  let o := @install_kernel _ (@system_handler _ (@site_handler (list Z) unit file_host disk) sample_wiring) 2
             "vmlinux" kinst_initial (mk_sys mounted ([1; 2; 3], tt) None []) in
  o_res o = Ret 0 /\ sent (sy_log (o_env o)) = [1; 2; 3].
Proof. split; vm_compute; reflexivity. Qed.
