(* ===== verification/TarMain.v ===== *)
(** * The command line of pfs2tar (src/src/pfs2tar.c, main)

    The name of the archive, the modes, the start of the drivers, and what is done to
    the archive around the walk of Tar.v. *)

From S2P Require Import Prelude IoWorld Trace Modes Clock Tar Atad.

(** The archive ([tm_tar]: its content, whatever mode it is open in) and the disk. *)
Record tar_main := mk_tar_main {
  tm_tar : tar_state;
  tm_atad : atad
}.

Definition set_tm_tar (x : tar_state) (s : tar_main) : tar_main := mk_tar_main x (tm_atad s).
Definition set_tm_atad (x : atad) (s : tar_main) : tar_main := mk_tar_main (tm_tar s) x.

(** ** The name of the archive *)

(** What follows the last slash: [acc] is what follows the last one seen. *)
Fixpoint after_last_slash (s acc : string) : string :=
  match s with
  | EmptyString => acc
  | String c s' => if (c =? "/")%char then after_last_slash s' s' else after_last_slash s' acc
  end.

(** [strrchr(filename, '.') - filename] *)
Fixpoint last_dot (s : string) (i : nat) (acc : option nat) : option nat :=
  match s with
  | EmptyString => acc
  | String c s' => last_dot s' (S i) (if (c =? ".")%char then Some i else acc)
  end.

Definition base_len (filename : string) : nat := default (String.length filename) (last_dot filename 0 None).

(** [snprintf] into [tar_filename[1024]]. *)
Definition in_tar_filename (s : string) : string := String.substring 0 1023 s.

(** The partition and the archive, or a missing partition name. *)
Definition tar_names (argv : list string) : option (option string * string) :=
  let argc := length argv in
  let argv_at i := default "" (argv !! i) in
  let filename := after_last_slash (argv_at 2%nat) (argv_at 2%nat) in
  let base := String.substring 0 (base_len filename) filename in
  if (4 <=? argc)%nat then
    if bool_decide (argv_at 3%nat = "--partition") then
      if (argc <? 5)%nat then None
      else
        let partition_name := argv_at 4%nat in
        Some (Some partition_name,
              in_tar_filename (if (5 <? argc)%nat then argv_at 5%nat
                               else partition_name +:+ "_" +:+ base +:+ ".tar"))
    else Some (None, in_tar_filename (argv_at 3%nat))
  else Some (None, in_tar_filename (base +:+ ".tar")).

(** ** The archive *)

(** [fopen] with mode [wb] and [rb], where it succeeds. *)
Definition opened_wb (s : tar_state) : tar_state := mk_tar [] 0 (overwrite_mode s).
Definition opened_rb (s : tar_state) : tar_state := mk_tar (tarfile_data s) 0 (overwrite_mode s).
Definition set_overwrite (s : tar_state) : tar_state := mk_tar (tarfile_data s) (tarfile_pos s) true.

Definition help_text : string :=
  ln "usage: %s --backup <ps2_hdd_device_path> [--partition <optional_partition_name>] [<tar_file>]" +:+
  ln "usage: %s --restore <ps2_hdd_device_path> --partition <mandatory_partition_name> <tar_file> [--overwrite]".

Section Main.
Context {E : Type} `{Handler E} `{TimeLib} `{CharSign}.
Local Abbreviation P := (M tar_main E).

Definition show_help (progname : string) : P unit := printf help_text [PStr progname; PStr progname].

Definition on_tar {A} (m : M tar_state E A) : P A := zoom tm_tar set_tm_tar m.

(** A driver module [main] cannot do without: whether it started. *)
Definition tar_module (name : string) (args : list string) (msg : string) : P bool :=
  result ← call (Init_module name args);
  if result <? 0 then eprintf (ln msg) [PInt result; PStrerror (- result)];; mret false
  else mret true.

(** Between opening and closing the archive. *)
Definition tar_work (fuel : nat) (backup_mode : bool) (partition_name : option string)
    (hdd_path tar_filename : string) : P unit :=
  if backup_mode then
    printf (ln "Backing up from %s to %s") [PStr hdd_path; PStr tar_filename];;
    on_tar (tar_part fuel partition_name);;
    on_tar (modify (file_write (replicate 512 0)));;
    on_tar (modify (file_write (replicate 512 0)))
  else
    printf (ln "Restoring from %s to %s") [PStr tar_filename; PStr hdd_path];;
    on_tar (part_tar fuel partition_name);;
    mret tt.

(** The check for an archive nothing was put in: it is made in both modes. *)
Definition remove_if_empty (tar_filename : string) : P unit :=
  there ← call (Host_fopen tar_filename "rb");
  when there (
    s ← get;
    when (Z.of_nat (length (tarfile_data (tm_tar s))) <=? 1024) (
      call (Host_unlink tar_filename);;
      printf (ln "Tar file empty, tar file removed: %s") [PStr tar_filename])).

(** From the drivers on. *)
Definition tar_run (fuel : nat) (backup_mode : bool) (partition_name : option string)
    (hdd_path tar_filename : string) : P Z :=
  zoom tm_atad set_tm_atad (set_atad_device_path hdd_path);;
  apa ← tar_module "_init_apa" ["ps2hdd.irx"; "-o"; "2"] "(!) init_apa: failed with %d (%s)";
  if negb apa then mret 1 else
  pfs ← tar_module "_init_pfs" ["pfs.irx"; "-m"; "1"; "-o"; "32"; "-n"; "127"]
          "(!) init_pfs: failed with %d (%s)";
  if negb pfs then mret 1 else
  ok ← call (Host_fopen tar_filename (if backup_mode then "wb" else "rb"));
  if negb ok then
    errno ← call Get_errno;
    eprintf (ln "(!) %s: %s.") [PStr tar_filename; PStrerror errno];; mret 1
  else
    on_tar (modify (if backup_mode then opened_wb else opened_rb));;
    tar_work fuel backup_mode partition_name hdd_path tar_filename;;
    remove_if_empty tar_filename;;
    zoom tm_atad set_tm_atad atad_close;;
    mret 0.

Definition tar_program (fuel : nat) (argv : list string) : P Z :=
  let progname := default "" (argv !! 0%nat) in
  if (length argv <? 3)%nat then show_help progname;; mret 1 else
  let mode_arg := default "" (argv !! 1%nat) in
  if negb (bool_decide (mode_arg = "--backup") || bool_decide (mode_arg = "--restore")) then
    show_help progname;; mret 1
  else
    let backup_mode := bool_decide (mode_arg = "--backup") in
    when (bool_decide ("--overwrite" ∈ drop 1 argv)) (on_tar (modify set_overwrite));;
    match tar_names argv with
    | None => eprintf (ln "(!) Missing partition name.") [];; show_help progname;; mret 1
    | Some (partition_name, tar_filename) =>
        exists_ ← (if backup_mode then call (Host_fopen tar_filename "rb") else mret false);
        if exists_ : bool then
          eprintf (ln "(!) %s already exists. Aborting.") [PStr tar_filename];; mret 1
        else tar_run fuel backup_mode partition_name (default "" (argv !! 2%nat)) tar_filename
    end.
End Main.
