(* ===== verification/TarMainProps.v ===== *)
(** * The command line of pfs2tar: properties *)

From S2P Require Import Prelude IoWorld Trace Modes Clock Tar Atad TarMain.

(** ** The archive is written in blocks *)

(** Open for writing at its end, a whole number of blocks long. *)
Definition in_blocks (s : tar_state) : Prop := at_end s /\ (512 | Z.of_nat (length (tarfile_data s))).

Definition unlinks {A} (c : ioE A) : bool := match c with Host_unlink _ => true | _ => false end.

Abbreviation keeps_blocks := (avoids in_blocks (@unlinks)).

Lemma file_write_blocks b s : length b = 512%nat -> in_blocks s -> in_blocks (file_write b s).
Proof.
  intros Hb [He Hd]. rewrite file_write_end by done. split; [by apply append_at_end|].
  cbn [append tarfile_data]. rewrite length_app, Hb, Nat2Z.inj_add. apply Z.divide_add_r; [done|].
  by exists 1.
Qed.

Section Blocks.
Context {E : Type} `{Handler E} `{TimeLib} `{CharSign}.
Local Abbreviation TM := (M tar_state E).

Lemma avoids_assert_bind {B} c (k : unit -> TM B) :
  (c = true -> keeps_blocks (k tt)) -> keeps_blocks (assert_ c ≫= k).
Proof.
  intros Hk. destruct c.
  - change (assert_ true) with (mret tt : TM unit). apply avoids_ret_bind. by apply Hk.
  - change (assert_ false) with (undef : TM unit). intros s e Hs. apply wp_bind, wp_stop.
    split_and!; [done..|]. by intros R HR _.
Qed.

Ltac blocks_go := repeat first [apply avoids_assert_bind; intros ? | avoids_step].

Lemma copy_body_eq f b l :
  (copy_body f (b, l) : TM _) =
  (modify (file_write (out_block b l));;
   if 0 <=? f then
     '(n, data) ← call (IomanX_read f (Z.of_nat END));
     assert_ (length data <=? END)%nat;;
     if 0 <? n then mret (inl (overlay 0 data (out_block b l), n)) else mret (inr tt)
   else mret (inr tt)).
Proof. reflexivity. Qed.

Lemma copy_blocks fuel f b l : length b = 512%nat -> keeps_blocks (loop fuel (copy_body f) (b, l) : TM unit).
Proof.
  revert b l. induction fuel as [|fuel IH]; intros b l Hb; [apply avoids_stop|].
  cbn [loop]. rewrite copy_body_eq. pose proof (length_out_block b l Hb) as Hout.
  set (b' := out_block b l) in *. clearbody b'.
  apply avoids_assoc, avoids_bind; [apply avoids_modify; intros s; by apply file_write_blocks|]. intros u.
  apply avoids_if_bind; intros _; [|apply avoids_ret_bind, avoids_ret].
  apply avoids_assoc, avoids_bind; [by apply avoids_call|]. intros [l' data].
  apply avoids_assoc, avoids_assert_bind. intros Hlen. apply Nat.leb_le in Hlen. unfold END in Hlen.
  apply avoids_if_bind; intros _; apply avoids_ret_bind; [|apply avoids_ret].
  apply IH. rewrite length_overlay; lia.
Qed.

Lemma put_path_blocks path b b' :
  (length path <= 511)%nat -> length b = 512%nat -> tar_put_path path b = PathPut b' -> length b' = 512%nat.
Proof.
  intros Hp Hb Hput. destruct (decide (100 < length path)%nat) as [Hlong|Hshort].
  - by eapply put_long_path_head.
  - revert Hput. unfold tar_put_path. rewrite (proj2 (Nat.ltb_ge _ _)) by lia. intros [= <-].
    rewrite length_overlay; unfold NAME; lia.
Qed.

Lemma put_stat_blocks st b : length b = 512%nat -> length (tar_put_stat st b) = 512%nat.
Proof.
  intros Hb. unfold tar_put_stat, MODE, MTIME. rewrite iox_stat_time_same.
  pose proof (length_snprintf_octal 8 7 (u32 (tar_convert_mode_to_posix (st_mode st)))).
  pose proof (length_snprintf_octal 12 11 (u32 (convert_time_to_posix (st_mtime st)))).
  rewrite length_overlay; rewrite length_overlay; lia.
Qed.

Lemma put_checksum_blocks b : length b = 512%nat -> length (tar_put_checksum b) = 512%nat.
Proof.
  intros Hb. unfold tar_put_checksum, CHK. rewrite length_overlay; rewrite ?length_tar_checksum; lia.
Qed.

Lemma tar_c_file_blocks fuel prefix orig_len in_path st :
  keeps_blocks (tar_c_file fuel prefix orig_len in_path st : TM Z).
Proof.
  unfold tar_c_file. cbv zeta. apply avoids_if; intros _; [blocks_go|].
  apply avoids_if; intros _; [apply avoids_ret|].
  destruct (tar_put_path _ _) as [b| |] eqn:Hput; [|blocks_go..].
  apply put_path_blocks in Hput; [|rewrite length_take; lia|done]. apply (put_stat_blocks st) in Hput.
  set (b1 := tar_put_stat st b) in *. clearbody b1.
  assert (Hrest : forall b f, length b = 512%nat ->
    keeps_blocks (loop fuel (copy_body f) (tar_put_checksum b, Z.of_nat END);; call (IomanX_close f);; mret 0 : TM Z)).
  { intros b2 f Hb2. apply avoids_bind; [by apply copy_blocks, put_checksum_blocks|]. intros u. blocks_go. }
  pose proof (length_snprintf_octal 12 11 (u32 (st_size st))) as Hsize.
  repeat first [ progress cbn beta iota | apply Hrest | apply avoids_assert_bind; intros ?
               | lazymatch goal with |- avoids _ _ (mbind _ (let '(_, _) := ?x in _)) => destruct x end
               | progress avoids_step ].
  - rewrite length_overlay; rewrite length_insert; unfold SIZE; lia.
  - by rewrite length_insert.
  - match goal with Hl : (_ <=? 100)%nat = true |- _ => apply Nat.leb_le in Hl end.
    rewrite length_overlay; rewrite length_insert; unfold LINK; lia.
  - done.
Qed.

Lemma walk_blocks fuel prefix orig_len path fn :
  (forall p st, keeps_blocks (fn prefix orig_len p st : TM Z)) ->
  keeps_blocks (do_wrapped_ftw fuel prefix orig_len path fn : TM Z).
Proof.
  intros Hfn. revert path. induction fuel as [|fuel IH]; intros path; [apply avoids_stop|].
  cbn [do_wrapped_ftw]. cbv zeta. repeat first [apply Hfn | apply IH | avoids_step].
Qed.

Lemma tar_part_blocks fuel arg : keeps_blocks (tar_part fuel arg : TM Z).
Proof.
  assert (Hwalk : forall pre p, keeps_blocks (wrapped_ftw fuel pre p (tar_c_file fuel) : TM Z)).
  { intros pre p. unfold wrapped_ftw. cbv zeta. apply avoids_if; intros _; [apply avoids_ret|].
    apply walk_blocks. intros. apply tar_c_file_blocks. }
  unfold tar_part. repeat first [apply Hwalk | avoids_step].
Qed.
End Blocks.

Section Main.
Context {E : Type} `{Handler E} `{TimeLib} `{CharSign}.
Local Abbreviation P := (M tar_main E).

(** How a backup ends: the archive with its two blocks of zeros, kept unless it has
    nothing else in it. *)
Definition backed_up (r : res Z) (s : tar_main) (t : trace) : Prop :=
  r = Ret 0 ->
  exists bs, tarfile_data (tm_tar s) = bs ++ replicate 1024 0 /\ (512 | Z.of_nat (length bs)) /\
    (calls_of (@unlinks) t <> [] -> bs = []).

Lemma backed_up_after r s t0 t :
  calls_of (@unlinks) t0 = [] -> backed_up r s t -> backed_up r s (t0 ++ t).
Proof.
  intros Hnone Ht Hr. destruct (Ht Hr) as (bs & Hd & Hb & Hu). exists bs. split_and!; [done..|].
  by rewrite calls_of_app, Hnone.
Qed.

(** After calls that remove nothing and keep [I]. *)
Lemma wp_quiet_bind_inv {A} (I : tar_main -> Prop) (Q : res Z -> tar_main -> trace -> Prop) (m : P A) (k : A -> P Z) s e :
  avoids I (@unlinks) m -> I s ->
  (forall r s t, (forall v, r <> Ret v) -> calls_of (@unlinks) t = [] -> Q r s t) ->
  (forall r s t0 t, calls_of (@unlinks) t0 = [] -> Q r s t -> Q r s (t0 ++ t)) ->
  (forall a s e, I s -> wp (k a) (fun r s' _ t => Q r s' t) s e) ->
  wp (m ≫= k) (fun r s' _ t => Q r s' t) s e.
Proof.
  intros Hm Hs Hstop Hafter Hk. apply wp_bind. eapply wp_mono; [by apply Hm|].
  intros [a| | | |] s' e' t (HI & Ht & _); try by apply Hstop. cbn. eapply wp_mono; [by apply Hk|].
  cbv beta. intros. by apply Hafter.
Qed.

Lemma wp_quiet_bind {A} (m : P A) (k : A -> P Z) s e :
  avoids (fun _ => True) (@unlinks) m ->
  (forall a s e, wp (k a) (fun r s' _ t => backed_up r s' t) s e) ->
  wp (m ≫= k) (fun r s' _ t => backed_up r s' t) s e.
Proof.
  intros Hm Hk. apply (wp_quiet_bind_inv (fun _ => True) backed_up m); [done|done| | |by auto].
  - intros r s' t Hr _ Hr0. by destruct (Hr 0).
  - intros r s' t0 t. apply backed_up_after.
Qed.

Lemma not_zero v s t : v <> 0 -> backed_up (Ret v) s t.
Proof. by intros Hv [= ->]. Qed.

Lemma quiet_disk path : avoids (fun _ => True) (@unlinks) (zoom tm_atad set_tm_atad (set_atad_device_path path) : P unit).
Proof.
  apply avoids_zoom; [done|]. unfold set_atad_device_path, set_atad_device_handle. repeat avoids_step; done.
Qed.

Lemma quiet_module name args msg : avoids (fun _ => True) (@unlinks) (tar_module name args msg : P bool).
Proof. unfold tar_module. repeat avoids_step. Qed.

(** The end of a backup, on an archive in blocks. *)
Lemma backup_ends name s e bs :
  tarfile_data (tm_tar s) = bs ++ replicate 1024 0 -> (512 | Z.of_nat (length bs)) ->
  wp (remove_if_empty name;; zoom tm_atad set_tm_atad atad_close;; mret 0 : P Z)
     (fun r s' _ t => backed_up r s' t) s e.
Proof.
  intros Hd Hb. unfold remove_if_empty, atad_close.
  assert (Hempty : forall x : trace, (Z.of_nat (length (bs ++ replicate 1024 0)) <=? 1024) = true -> x <> [] -> bs = []).
  { intros x Hle _. rewrite length_app, length_replicate in Hle. destruct bs; [done|]. boolP. cbn in Hle. lia. }
  repeat first [apply wp_zoom | wp_step; cbn].
  all: intros _; exists bs; split_and!; [done..|]; try (by intros []).
  all: rewrite Hd in *; eauto.
Qed.

Lemma tar_run_backed fuel part hdd name s e :
  wp (tar_run fuel true part hdd name : P Z) (fun r s' _ t => backed_up r s' t) s e.
Proof.
  unfold tar_run. apply wp_quiet_bind; [apply quiet_disk|]. intros u1 s1 e1.
  apply wp_quiet_bind; [apply quiet_module|]. intros [] s2 e2; [|by apply wp_ret, not_zero].
  apply wp_quiet_bind; [apply quiet_module|]. intros [] s3 e3; [|by apply wp_ret, not_zero].
  apply wp_quiet_bind; [by apply avoids_call|]. intros [] s4 e4.
  2:{ apply wp_quiet_bind; [by apply avoids_call|]. intros n s5 e5.
      apply wp_quiet_bind; [by apply avoids_call|]. intros u s6 e6. by apply wp_ret, not_zero. }
  cbn [negb]. apply wp_bind, wp_zoom, wp_modify. cbn [bind_post].
  unfold tar_work. apply wp_bind, wp_bind, wp_call. intros u5 e5 _. cbn [bind_post].
  apply wp_bind, wp_zoom.
  assert (Hin : in_blocks (opened_wb (tm_tar s4))) by (split; [done|by exists 0]).
  eapply wp_mono; [by apply tar_part_blocks|]. intros r x e6 t (Hx & Ht & _).
  destruct r as [v| | | |]; try (by intros ?). cbn [bind_post].
  apply wp_bind, wp_zoom, wp_modify. cbn [bind_post]. apply wp_zoom, wp_modify. cbn [bind_post].
  eapply wp_mono.
  - apply (backup_ends name _ _ (tarfile_data x)); [|apply Hx]. cbn [tm_tar set_tm_tar].
    rewrite (file_write_end _ x) by apply Hx. rewrite file_write_end by (apply append_at_end, Hx).
    rewrite append_append. reflexivity.
  - cbv beta. intros r s7 e7 t7 Hb. cbn [app]. rewrite !app_nil_r, <- ?app_assoc. apply backed_up_after; [|done].
    done.
Qed.

(** C17: a backup that returns 0 has written a whole number of blocks of 512 bytes that
    ends with two blocks of zeros, and the check at its end removes the archive only
    when nothing was dumped into it. *)
Theorem backup_in_blocks fuel argv s e :
  argv !! 1%nat = Some "--backup"%string ->
  wp (tar_program fuel argv : P Z) (fun r s' _ t => backed_up r s' t) s e.
Proof.
  intros Harg. unfold tar_program, show_help. rewrite Harg. cbn [default from_option id].
  apply wp_if; intros _.
  { apply wp_quiet_bind; [by apply avoids_call|]. intros u s1 e1. by apply wp_ret, not_zero. }
  rewrite (bool_decide_eq_true_2 ("--backup"%string = "--backup"%string)) by done. cbn [orb negb].
  apply wp_quiet_bind.
  { apply avoids_when. unfold on_tar. apply avoids_zoom; [done|]. apply avoids_modify. done. }
  intros u s1 e1. destruct (tar_names argv) as [[part name]|].
  - apply wp_quiet_bind; [by apply avoids_call|]. intros [] s2 e2.
    + apply wp_quiet_bind; [by apply avoids_call|]. intros u2 s3 e3. by apply wp_ret, not_zero.
    + apply tar_run_backed.
  - apply wp_quiet_bind; [by apply avoids_call|]. intros u2 s2 e2.
    apply wp_quiet_bind; [by apply avoids_call|]. intros u3 s3 e3. by apply wp_ret, not_zero.
Qed.

(** A backup does not overwrite: where the archive exists, the program returns 1
    having only looked at it and reported; no driver is started and the archive is not
    opened for writing. *)
Theorem backup_keeps_existing fuel argv part name s e e' :
  argv !! 1%nat = Some "--backup"%string -> (3 <= length argv)%nat -> tar_names argv = Some (part, name) ->
  handle (Host_fopen name "rb") e = (true, e') ->
  wp (tar_program fuel argv : P Z) (fun r s' _ t =>
    r = Ret 1 /\ tarfile_data (tm_tar s') = tarfile_data (tm_tar s) /\ tm_atad s' = tm_atad s /\
    exists msg, t = [Ev (Host_fopen name "rb") true; Ev (Printf Stderr msg [PStr name]) tt]) s e.
Proof.
  intros Harg Hlen Hnames Hopen. unfold tar_program. rewrite Harg. cbn [default from_option id].
  rewrite (proj2 (Nat.ltb_ge _ _)) by done.
  rewrite (bool_decide_eq_true_2 ("--backup"%string = "--backup"%string)) by done. cbn [orb negb].
  rewrite Hnames. apply wp_bind.
  apply wp_when; intros _; [apply wp_zoom, wp_modify|]; cbn [bind_post].
  all: apply wp_bind, wp_call; intros b e1 Hb; rewrite Hopen in Hb; injection Hb as <- <-; cbn [bind_post].
  all: apply wp_bind, wp_call; intros [] e2 _; cbn [bind_post]; apply wp_ret; split_and!; [done..|].
  all: by eexists.
Qed.

(** *** Restoring *)

Abbreviation keeps_data d := (avoids (fun s => tarfile_data s = d) (@unlinks)).

Lemma fread_data d n : keeps_data d (fread n : M tar_state E (list Z)).
Proof. apply avoids_intro. intros s e Hs. unfold fread, wp. by destruct (file_read n s) eqn:Hr; injection Hr as <- <-. Qed.

Lemma restore_entry_data d fuel mount prefix h : keeps_data d (restore_entry fuel mount prefix h : M tar_state E _).
Proof.
  unfold restore_entry, restore_content, restore_stat, ensure_parent_dirs_exist. cbv zeta.
  repeat first [apply fread_data | avoids_step]; done.
Qed.

Lemma part_tar_data d fuel arg : keeps_data d (part_tar fuel arg : M tar_state E Z).
Proof.
  unfold part_tar, restore_from_tar. cbv zeta.
  repeat first [apply fread_data | apply restore_entry_data | avoids_step]; done.
Qed.

(** How a restore from archive [name] of content [d] ends: it removes the archive, and
    only if it is short; it removes no other file, and a short archive is not spared. *)
Definition short_removed (name : string) (d : list Z) (r : res Z) (t : trace) : Prop :=
  if Z.of_nat (length d) <=? 1024 then
    calls_of (@unlinks) t = [] /\ r <> Ret 0 \/
    r = Ret 0 /\ exists v, calls_of (@unlinks) t = [Ev (Host_unlink name) v]
  else calls_of (@unlinks) t = [].

Lemma short_removed_bind {A} (I : tar_main -> Prop) name d (m : P A) (k : A -> P Z) s e :
  avoids I (@unlinks) m -> I s ->
  (forall a s e, I s -> wp (k a) (fun r _ _ t => short_removed name d r t) s e) ->
  wp (m ≫= k) (fun r _ _ t => short_removed name d r t) s e.
Proof.
  intros Hm Hs Hk. apply (wp_quiet_bind_inv I (fun r _ t => short_removed name d r t)); [done..| | |done].
  - intros r s' t Hr Ht. unfold short_removed. rewrite Ht. case_bool; [left|done]. split; [done|]. by destruct r.
  - intros r s' t0 t Hnone Ht. unfold short_removed. by rewrite calls_of_app, Hnone.
Qed.

(** The end of a restore. *)
Lemma restore_ends name s e :
  (forall e, fst (handle (Host_fopen name "rb") e) = true) ->
  wp (remove_if_empty name;; zoom tm_atad set_tm_atad atad_close;; mret 0 : P Z)
     (fun r _ _ t => short_removed name (tarfile_data (tm_tar s)) r t) s e.
Proof.
  intros Hopen. unfold remove_if_empty, atad_close.
  apply wp_bind, wp_bind, wp_call. intros b e1 Hb. pose proof (Hopen e) as Hb'. rewrite Hb in Hb'. cbn in Hb'. subst b.
  cbn [bind_post when].
  repeat first [apply wp_zoom | wp_step; cbn].
  all: unfold short_removed;
    match goal with Hlen : (_ <=? 1024) = _ |- _ => rewrite Hlen end;
    first [done | by right; split; [|eexists]].
Qed.

(** C18: a restore that returns 0 has removed the archive it restored, once, exactly when
    it has at most 1024 bytes; no other file is ever removed, and no file when it fails.
    The check for an archive nothing was dumped into is made after a restore too, so the
    archive of one small directory, or one cut short, is lost. *)
Theorem restore_removes_short fuel part hdd name s e :
  (forall e, fst (handle (Host_fopen name "rb") e) = true) ->
  wp (tar_run fuel false part hdd name : P Z) (fun r _ _ t => short_removed name (tarfile_data (tm_tar s)) r t) s e.
Proof.
  intros Hopen. remember (tarfile_data (tm_tar s)) as d eqn:Hd.
  set (I := fun s' : tar_main => tarfile_data (tm_tar s') = d). assert (Hs : I s) by done. clear Hd.
  assert (Hzoom : forall A (m : M tar_state E A), keeps_data d m -> avoids I (@unlinks) (on_tar m)).
  { intros A m. by apply avoids_zoom_inv. }
  assert (Hdisk : forall path, avoids I (@unlinks) (zoom tm_atad set_tm_atad (set_atad_device_path path) : P unit)).
  { intros path. apply avoids_zoom; [done|]. unfold set_atad_device_path, set_atad_device_handle. repeat avoids_step; done. }
  assert (Hmodule : forall n a m, avoids I (@unlinks) (tar_module n a m : P bool)).
  { intros n a m. unfold tar_module. repeat avoids_step. }
  assert (Hone : forall s e, wp (mret 1 : P Z) (fun r _ _ t => short_removed name d r t) s e).
  { intros. apply wp_ret. unfold short_removed. case_bool; [by left|done]. }
  unfold tar_run.
  apply (short_removed_bind I); [apply Hdisk|done|]. intros u1 s1 e1 Hs1.
  apply (short_removed_bind I); [apply Hmodule|done|]. intros [] s2 e2 Hs2; [|done].
  apply (short_removed_bind I); [apply Hmodule|done|]. intros [] s3 e3 Hs3; [|done].
  apply (short_removed_bind I); [by apply avoids_call|done|]. intros [] s4 e4 Hs4.
  2:{ repeat (apply (short_removed_bind I); [by apply avoids_call|done|intros ????]). done. }
  cbn [negb].
  apply (short_removed_bind I); [apply Hzoom, avoids_modify; done|done|]. intros u5 s5 e5 Hs5.
  apply (short_removed_bind I); [|done|].
  { unfold tar_work. apply avoids_bind; [by apply avoids_call|]. intros u. apply avoids_bind; [|intros; apply avoids_ret].
    apply Hzoom, part_tar_data. }
  intros u6 s6 e6 Hs6. rewrite <- Hs6. by apply restore_ends.
Qed.
End Main.

(** ** The properties at concrete inputs *)

Module Drive.
Import Sample.
#[local] Instance signed_char : CharSign := true.

Definition part_stat : iox_stat_t := mk_iox_stat 0x0100 0 0 (replicate 8 0) (replicate 8 0) (replicate 8 0) 0 0 0 0 0 0 0.
Definition dir_stat : iox_stat_t := sample_stat 0x11ED 0.

(** A drive with one partition of one file: what its directories list, then the bytes
    of the file; [new] is false while the archive does not exist. *)
Record drive := mk_drive { listing : list iox_dirent_t; bytes : list Z; new : bool }.

#[export] Instance drive_handler : Handler drive := fun A c e =>
  match c in ioE A return A * drive with
  | IomanX_dread fd =>
      match listing e with
      | [] => ((0, mk_iox_dirent iox_stat_zero ""), e)
      | de :: l => ((if bool_decide (de_name de = ""%string) then 0 else 1, de), mk_drive l (bytes e) (new e))
      end
  | IomanX_getstat path =>
      ((0, if bool_decide (path = "pfs0:/"%string) then dir_stat else sample_stat 0x21B4 5), e)
  | IomanX_read _ n =>
      ((Z.of_nat (length (take (Z.to_nat n) (bytes e))), take (Z.to_nat n) (bytes e)),
       mk_drive (listing e) (drop (Z.to_nat n) (bytes e)) (new e))
  | Host_fopen _ mode => (new e, mk_drive (listing e) (bytes e) true)
  | c => (default_answer c, e)
  end.

Definition stop_entry : iox_dirent_t := mk_iox_dirent iox_stat_zero "".
Definition one_file : drive :=
  mk_drive [mk_iox_dirent part_stat "P"; mk_iox_dirent (sample_stat 0x21B4 5) "a"; stop_entry; stop_entry]
    (bytes_of_string "hello") false.
Definition blank : tar_main := mk_tar_main (mk_tar [] 0 false) atad_initial.
Definition backup_argv : list string := ["pfs2tar"; "--backup"; "hdd.img"]%string.

Lemma backup_in_blocks_witness :
  backup_argv !! 1%nat = Some "--backup"%string /\
  wp (tar_program 20 backup_argv) (fun r s' _ t => backed_up r s' t) blank one_file.
Proof. split; [reflexivity|]. exact (backup_in_blocks 20 backup_argv blank one_file eq_refl). Defined.

(** The archive of that run: the entry of the directory, the one of the file with its
    content, and the two blocks of zeros. *)
Example backup_sample_run :
  let o := tar_program 20 backup_argv blank one_file in
  (o_res o, length (tarfile_data (tm_tar (o_st o)))) = (Ret 0, 2560%nat).
Proof. vm_compute. reflexivity. Qed.

Lemma backup_keeps_existing_witness :
  tar_names backup_argv = Some (None, "hdd.tar"%string) /\
  let o := tar_program 20 backup_argv blank (mk_drive [] [] true) in
  o_res o = Ret 1 /\ tm_atad (o_st o) = tm_atad blank.
Proof.
  split; [reflexivity|].
  destruct (backup_keeps_existing 20 backup_argv None "hdd.tar" blank (mk_drive [] [] true) (mk_drive [] [] true)
              eq_refl ltac:(cbn; lia) eq_refl eq_refl) as (Hr & _ & Ha & _).
  split; [exact Hr|exact Ha].
Defined.

(** An archive that is cut to its first two blocks is deleted by a restore. *)
Lemma restore_removes_short_witness :
  (forall e, fst (Sample.one_stream _ (Host_fopen "hdd.tar" "rb") e) = true) /\
  exists v, calls_of (@unlinks) (o_tr (tar_run 20 false None "hdd.img" "hdd.tar"
    (mk_tar_main (mk_tar (replicate 1024 0) 0 false) atad_initial) [1])) = [Ev (Host_unlink "hdd.tar") v].
Proof.
  split; [done|].
  destruct (restore_removes_short 20 None "hdd.img" "hdd.tar"
           (mk_tar_main (mk_tar (replicate 1024 0) 0 false) atad_initial) [1] ltac:(done)) as [[_ Hno]|[_ Hv]];
    [|exact Hv].
  destruct Hno. vm_compute. reflexivity.
Defined.
End Drive.
