(* ===== verification/TarTree.v ===== *)
(** * Backing up whole trees (src/src/pfs2tar.c: do_wrapped_ftw, tar_part)

    What the walk of Tar.v makes of a file system that shows a tree: the members of the
    archive are the nodes of the tree, each before what is below it. *)

From S2P Require Import Prelude IoWorld Trace Modes Clock Tar.

(** ** Trees *)

#[local] Unset Elimination Schemes.

Inductive tree :=
  | TFile (st : iox_stat_t) (content : list Z)
  | TLink (st : iox_stat_t) (target : list Z)
  | TDir (st : iox_stat_t) (cs : list (string * tree)).

#[local] Set Elimination Schemes.

Section TreeInd.
Variable P : tree -> Prop.
Hypothesis HFile : forall st content, P (TFile st content).
Hypothesis HLink : forall st target, P (TLink st target).
Hypothesis HDir : forall st cs, Forall (fun c => P c.2) cs -> P (TDir st cs).

Fixpoint tree_ind (t : tree) : P t :=
  match t with
  | TFile st content => HFile st content
  | TLink st target => HLink st target
  | TDir st cs =>
      HDir st cs ((fix go (cs : list (string * tree)) : Forall (fun c => P c.2) cs :=
                     match cs with
                     | [] => Forall_nil_2 _
                     | c :: cs' => Forall_cons_2 _ _ _ (tree_ind c.2) (go cs')
                     end) cs)
  end.
End TreeInd.

Definition tree_stat (t : tree) : iox_stat_t :=
  match t with TFile st _ | TLink st _ | TDir st _ => st end.

Definition tree_node (t : tree) : node :=
  match t with
  | TFile _ content => NFile content
  | TLink _ target => NLink target
  | TDir _ _ => NDir
  end.

(** The path of an entry of a directory, as the walk writes it into its buffer. *)
Definition child_path (path : list Z) (name : string) : list Z :=
  take (if ends_with_slash path then (length path - 1)%nat else length path) path
    ++ SLASH :: bytes_of_string name.

(** The nodes of a tree with their paths, in the order of the walk. *)
Fixpoint nodes (path : list Z) (t : tree) : list (list Z * tree) :=
  (path, t) ::
  match t with
  | TDir _ cs => concat ((fun c => nodes (child_path path c.1) c.2) <$> cs)
  | _ => []
  end.

(** The member of an archive a node becomes. *)
Definition member (prefix : string) (orig_len : nat) (x : list Z * tree) : entry :=
  mk_entry (bytes_of_string prefix ++ drop orig_len x.1) (tree_stat x.2) (tree_node x.2).

Definition members (prefix : string) (path : list Z) (t : tree) : list entry :=
  member prefix (length path) <$> nodes path t.

(** A node that can be archived: its member fits the format, its path the buffer of the
    walk, and the file is not marked as one of 4 GiB or more. *)
Definition node_ok (prefix : string) (orig_len : nat) (x : list Z * tree) : Prop :=
  entry_ok (member prefix orig_len x) /\ (length x.1 < IOMANX_PATH_MAX)%nat /\
  match x.2 with TFile st _ => st_hisize st = 0 | _ => True end.

(** ** The file system during a backup *)

(** The calls of a backup of a partition, none of which changes a file. *)
Definition looks {A} (c : ioE A) : bool :=
  match c with
  | IomanX_open _ flags _ => flags =? FIO_O_RDONLY
  | IomanX_getstat _ | IomanX_read _ _ | IomanX_close _ | IomanX_readlink _ _
  | IomanX_dopen _ | IomanX_dread _ | Printf _ _ _ => true
  | _ => false
  end.

(** The calls that move on or close an open directory. *)
Definition moves (d : Z) {A} (c : ioE A) : bool :=
  match c with
  | IomanX_dread d' | IomanX_close d' => d' =? d
  | _ => false
  end.

(** A listing of a directory: its entries in order, among them perhaps the directory
    itself and the one above. *)
Definition lists (l : list iox_dirent_t) (cs : list (string * tree)) : Prop :=
  List.filter (fun n => negb (is_dot_name n)) (de_name <$> l) = cs.*1 /\
  (length l <= 2 + length cs)%nat.

(** What a backup relies on of the file layer: [tree_at e p] is what the path [p] names,
    [unlisted e d] what the open directory [d] has still to list.  Descriptors that are
    handed out are not in use; looking changes no file, and no directory but the one
    that is read or closed. *)
Class TreeReads (E : Type) `{FileReads E} := {
  tree_at : E -> string -> option tree;
  unlisted : E -> Z -> option (list iox_dirent_t);
  tree_getstat : forall e p t, tree_at e p = Some t ->
    exists r e', handle (IomanX_getstat p) e = ((r, tree_stat t), e') /\ 0 <= r;
  tree_open : forall e p st content, tree_at e p = Some (TFile st content) ->
    exists f e', handle (IomanX_open p FIO_O_RDONLY 0) e = (f, e') /\ 0 <= f /\
                 unread e' f = Some content;
  tree_readlink : forall e p st target n, tree_at e p = Some (TLink st target) ->
    Z.of_nat (length target) <= n ->
    exists r e', handle (IomanX_readlink p n) e = ((r, target), e');
  tree_dopen : forall e p st cs, tree_at e p = Some (TDir st cs) ->
    exists d e' l, handle (IomanX_dopen p) e = (d, e') /\ 0 <= d /\
                   unlisted e' d = Some l /\ lists l cs;
  tree_dread : forall e d de l, unlisted e d = Some (de :: l) ->
    exists r e', handle (IomanX_dread d) e = ((r, de), e') /\ 0 < r /\ unlisted e' d = Some l;
  tree_dread_end : forall e d, unlisted e d = Some [] ->
    exists de e', handle (IomanX_dread d) e = ((0, de), e') /\ unlisted e' d = Some [];
  tree_open_new : forall e p f e', handle (IomanX_open p FIO_O_RDONLY 0) e = (f, e') ->
    unlisted e f = None;
  tree_dopen_new : forall e p d e', handle (IomanX_dopen p) e = (d, e') -> unlisted e d = None;
  tree_closed : forall e d, d < 0 -> unlisted e d = None;
  tree_kept : forall A (c : ioE A) e r e', looks c = true -> handle c e = (r, e') ->
    forall p, tree_at e' p = tree_at e p;
  unlisted_kept : forall A (c : ioE A) e r e' d l, looks c = true -> handle c e = (r, e') ->
    moves d c = false -> unlisted e d = Some l -> unlisted e' d = Some l
}.

Section Watching.
Context {E : Type} `{TreeReads E} `{TimeLib} `{CharSign}.
Local Abbreviation TM := (M tar_state E).
Context (T : string -> option tree).

(** What else holds while nothing is changed. *)
Context (also : E -> Prop).
Context (also_kept : forall A (c : ioE A) e r e', looks c = true -> handle c e = (r, e') -> also e -> also e').

(** The file system shows [T]; the directories of [D] are open, with what they have
    still to list. *)
Definition view (D : list (Z * list iox_dirent_t)) (e : E) : Prop :=
  (forall p, tree_at e p = T p) /\ Forall (fun x => unlisted e x.1 = Some x.2) D /\ also e.

Lemma view_tail x D e : view (x :: D) e -> view D e.
Proof. intros (HT & HD & HI). split_and!; [done| |done]. by inversion_clear HD. Qed.

Lemma view_kept {A} (c : ioE A) D e r e' :
  looks c = true -> Forall (fun d => moves d c = false) D.*1 -> handle c e = (r, e') ->
  view D e -> view D e'.
Proof.
  intros Hc Hm He (HT & HD & HI). split; [intros p; by rewrite (tree_kept _ c _ _ _ Hc He)|].
  split; [|by eapply also_kept]. clear HI.
  induction HD as [|[d l] D Hd _ IH]; [constructor|]. inversion_clear Hm. constructor; [|by apply IH].
  by apply (unlisted_kept _ c e r e').
Qed.

Lemma view_new D e d : unlisted e d = None -> view D e -> d ∉ D.*1.
Proof.
  intros Hd (_ & HD & _) Hin. apply list_elem_of_fmap in Hin as ((d' & l) & -> & Hin).
  pose proof (proj1 (Forall_forall _ _) HD _ Hin) as Hl. cbn in Hd, Hl. congruence.
Qed.

Lemma moves_none {A} (c : ioE A) (ds : list Z) :
  (forall d, moves d c = false) -> Forall (fun d => moves d c = false) ds.
Proof. intros Hc. apply Forall_forall. auto. Qed.

Lemma moves_other (c d : Z) ds : (d ∉ ds) -> Forall (fun d' => (d =? d') = false) ds.
Proof. intros Hd. apply Forall_forall. intros d' Hin. apply Z.eqb_neq. by intros ->. Qed.

(** [m] keeps the view, and returns values in [Q]. *)
Local Abbreviation watched D := (holding (St := tar_state) (view D)).

Lemma watched_call {A} D (Q : A -> Prop) (c : ioE A) :
  looks c = true -> Forall (fun d => moves d c = false) D.*1 ->
  (forall e r e', view D e -> handle c e = (r, e') -> Q r) -> watched D Q (call c).
Proof.
  intros Hc Hm HQ. apply holding_call. intros e r e' He Hv. split; [by eapply view_kept|by eapply HQ].
Qed.

Lemma view_open D e : view D e -> Forall (fun d => 0 <= d) D.*1.
Proof.
  intros (_ & HD & _). apply Forall_fmap. eapply Forall_impl; [exact HD|]. intros [d l] Hl. cbn in *.
  destruct (decide (d < 0)) as [Hd|]; [|lia]. by rewrite (tree_closed e d Hd) in Hl.
Qed.

(** [tar_c_file] opens a file at most, and closes it. *)
Lemma tar_c_file_watched D fuel prefix orig_len in_path st :
  Forall (fun d => 0 <= d) D.*1 ->
  watched D (fun _ => True) (tar_c_file fuel prefix orig_len in_path st).
Proof.
  intros HD. assert (Hno : -1 ∉ D.*1).
  { intros Hin. pose proof (proj1 (Forall_forall _ _) HD _ Hin). cbn in *. lia. }
  assert (Hsay : forall fmt args, watched D (fun _ => True) (printf fmt args : TM unit)).
  { intros. apply watched_call; [done|by apply moves_none|done]. }
  unfold tar_c_file. fold (copy_body). case_match.
  { eapply holding_bind; [apply Hsay|]. intros. by apply holding_ret. }
  case_match; [by apply holding_ret|]. cbv zeta. case_match.
  2:{ eapply holding_bind; [apply Hsay|]. intros. by apply holding_ret. }
  2:{ by apply holding_ret. }
  apply (holding_bind (view D) (fun x => x.2 ∉ D.*1)).
  - case_match; [|case_match; [by apply holding_ret|]; case_match; [|by apply holding_ret]].
    + apply (holding_bind (view D) (fun f => f ∉ D.*1)); [|intros f Hf; by apply holding_ret].
      apply watched_call; [done|by apply moves_none|]. intros e f e' Hv He.
      eapply view_new; [|exact Hv]. by apply (tree_open_new _ _ _ _ He).
    + apply (holding_bind (view D) (fun _ => True)); [apply watched_call; [done|by apply moves_none|done]|].
      intros [r target] _. eapply holding_bind; [apply holding_assert|]. intros. by apply holding_ret.
  - intros [b1 f] Hf. cbn in Hf. apply (holding_bind (view D) (fun _ => True)).
    + fold (copy_body f). apply (holding_loop (view D) (fun _ => True)); [done|]. intros [b2 l] _.
      unfold copy_body. eapply holding_bind; [apply holding_modify|]. intros _ _.
      case_match; [|by apply holding_ret].
      apply (holding_bind (view D) (fun _ => True)); [apply watched_call; [done|by apply moves_none|done]|].
      intros [n data] _. eapply holding_bind; [apply holding_assert|]. intros _ _.
      case_match; by apply holding_ret.
    + intros _ _. apply (holding_bind (view D) (fun _ => True)); [|intros; by apply holding_ret].
      apply watched_call; [done| |done]. cbn. by apply moves_other.
Qed.

(** ** The walk *)

Section Walk.
Context (fuel : nat) (prefix : string) (orig_len : nat).

(** A node as the walk meets it. *)
Definition meets (x : list Z * tree) : Prop :=
  node_ok prefix orig_len x /\ T (string_of_bytes x.1) = Some x.2 /\ Forall is_byte x.1 /\
  (length (node_content (tree_node x.2)) < fuel)%nat.

(** What the walk writes for the nodes [xs]. *)
Definition written (xs : list (list Z * tree)) : list Z :=
  concat (encode_entry <$> (member prefix orig_len <$> xs)).

Lemma written_app xs ys : written (xs ++ ys) = written xs ++ written ys.
Proof. unfold written. by rewrite !fmap_app, concat_app. Qed.

Definition walked (path : list Z) (t : tree) : Prop :=
  forall n s e D, view D e -> at_end s -> Forall meets (nodes path t) ->
    (5 * length (nodes path t) <= n)%nat ->
    wp (do_wrapped_ftw n prefix orig_len path (tar_c_file fuel))
       (fun r s' e' _ => r = Ret 0 /\ s' = append (written (nodes path t)) s /\ view D e') s e.

(** The callback on one node. *)
Lemma callback_wp x s e D :
  view D e -> at_end s -> meets x ->
  wp (tar_c_file fuel prefix orig_len (string_of_bytes x.1) (tree_stat x.2))
     (fun r s' e' _ => r = Ret 0 /\ s' = append (encode_entry (member prefix orig_len x)) s /\ view D e') s e.
Proof.
  intros Hv Hs ((Hok & _ & Hsize) & HT & Hb & Hfuel). destruct x as [path t]. cbn [fst snd] in *.
  eapply wp_mono; [apply wp_and|].
  - apply (tar_c_file_wp fuel prefix orig_len (string_of_bytes path) (member prefix orig_len (path, t))); try done.
    + destruct Hv as [HTe _]. unfold serves. cbn. destruct t as [st content|st target|st cs]; cbn in *; [|..|done].
      * split; [done|]. apply (tree_open e _ st). by rewrite HTe.
      * destruct Hok as (_ & _ & _ & Hlen & _). apply (tree_readlink e _ st); [by rewrite HTe|]. cbn in *; lia.
    + cbn. by rewrite bytes_of_string_of_bytes.
  - apply tar_c_file_watched; [by eapply view_open|exact Hv].
  - cbv beta. intros r s' e' tr [[-> ->] [Hv' _]]. done.
Qed.

(** A turn of the loop over the entries of the directory at [path]. *)
Definition entry_turn (n : nat) (path : list Z) (d : Z) (_ : unit) : TM (unit + Z) :=
  '(result, de) ← call (IomanX_dread d);
  if (result =? 0) || (result =? -1) then
    printf (clear_line "") [];;
    call (IomanX_close d);;
    mret (inr 0)
  else if is_dot_name (de_name de) then mret (inl tt)
  else if Z.of_nat (IOMANX_PATH_MAX - length path) <=? Z.of_nat (length (bytes_of_string (de_name de))) then
    call (IomanX_close d);;
    mret (inr (-1))
  else
    assert_ (length (child_path path (de_name de)) <=? IOMANX_PATH_MAX)%nat;;
    printf (clear_line "     %s") [PStr (string_of_bytes (child_path path (de_name de)))];;
    r ← do_wrapped_ftw n prefix orig_len (child_path path (de_name de)) (tar_c_file fuel);
    if negb (r =? 0) then
      call (IomanX_close d);;
      mret (inr r)
    else mret (inl tt).

Lemma do_wrapped_ftw_S n path :
  (do_wrapped_ftw (S n) prefix orig_len path (tar_c_file fuel) : TM Z) =
  ('(g, st) ← call (IomanX_getstat (string_of_bytes path));
   if g <? 0 then mret (-1) else
   r ← tar_c_file fuel prefix orig_len (string_of_bytes path) st;
   if negb (r =? 0) then mret r else
   if FIO_S_ISDIR (st_mode st) then
     d ← call (IomanX_dopen (string_of_bytes path));
     if 0 <=? d then loop n (entry_turn n path d) tt else mret (-1)
   else mret 0).
Proof. reflexivity. Qed.

(** The path of an entry fits whatever the walk asks of it. *)
Lemma child_path_length path name :
  (length (child_path path name) <= length path + 1 + length (bytes_of_string name))%nat /\
  (length path + length (bytes_of_string name) <= length (child_path path name))%nat.
Proof.
  unfold child_path. rewrite length_app, length_take. cbn [length]. destruct (ends_with_slash path); lia.
Qed.

(** A call on a directory that is not one of [D]. *)
Lemma other_view {A} (c : ioE A) d D e r e' :
  looks c = true -> (forall d', moves d' c = (d =? d')) -> d ∉ D.*1 -> handle c e = (r, e') ->
  view D e -> view D e'.
Proof.
  intros Hc Hmoves Hd He. apply (view_kept c _ _ r); [done| |done].
  eapply Forall_impl; [by apply moves_other|]. intros d' Hd'. by rewrite Hmoves.
Qed.

Lemma dread_view d de l D e x e' :
  view ((d, de :: l) :: D) e -> d ∉ D.*1 -> handle (IomanX_dread d) e = (x, e') ->
  0 < x.1 /\ x.2 = de /\ view ((d, l) :: D) e'.
Proof.
  intros Hv0 Hd Hx. pose proof Hv0 as (_ & HD & _). inversion_clear HD as [|? ? Hd0 HD'].
  apply view_tail in Hv0.
  destruct (tree_dread e d de l Hd0) as (r & e1 & He & Hr & Hd1).
  assert (Hv : view D e') by (by apply (other_view (IomanX_dread d) d D e x e' eq_refl (fun _ => eq_refl) Hd Hx)).
  rewrite He in Hx. injection Hx as <- <-. split_and!; [done..|]. destruct Hv as (HT' & HD'' & HI'). split_and!; [done| |done].
  by constructor.
Qed.

Lemma say_view fmt args D e r e' : handle (Printf Stdout fmt args) e = (r, e') -> view D e -> view D e'.
Proof. intros He. by apply (view_kept (Printf Stdout fmt args) _ _ r); [|apply moves_none|]. Qed.

Ltac turn_call := apply wp_bind, wp_call; let r := fresh "r" in intros r ? ?; cbn [bind_post].

Lemma turn_end n path d s e D :
  view ((d, []) :: D) e -> d ∉ D.*1 ->
  wp (entry_turn n path d tt) (fun r s' e' _ => r = Ret (inr 0) /\ s' = s /\ view D e') s e.
Proof.
  intros Hv0 Hd. pose proof Hv0 as (_ & HD & _). inversion_clear HD as [|? ? Hd0 HD'].
  apply view_tail in Hv0.
  destruct (tree_dread_end e d Hd0) as (de & e1 & He & Hd1). unfold entry_turn.
  apply wp_bind, wp_call. intros x e2 Hx.
  assert (Hv : view D e2) by (by apply (other_view (IomanX_dread d) d _ _ _ _ eq_refl (fun _ => eq_refl) Hd Hx)).
  rewrite He in Hx. injection Hx as <- <-. cbn [bind_post orb Z.eqb].
  apply wp_bind, wp_call. intros u e3 Hu. cbn [bind_post]. apply (say_view _ _ _ _ _ _ Hu) in Hv.
  apply wp_bind, wp_call. intros u' e4 Hu'. cbn [bind_post]. apply wp_ret. split_and!; [done..|].
  by apply (other_view (IomanX_close d) d _ _ _ _ eq_refl (fun _ => eq_refl) Hd Hu').
Qed.

Lemma turn_skip n path d de l s e D :
  view ((d, de :: l) :: D) e -> d ∉ D.*1 -> is_dot_name (de_name de) = true ->
  wp (entry_turn n path d tt) (fun r s' e' _ => r = Ret (inl tt) /\ s' = s /\ view ((d, l) :: D) e') s e.
Proof.
  intros Hv Hd Hdot. unfold entry_turn. apply wp_bind, wp_call. intros [r de'] e1 He.
  destruct (dread_view _ _ _ _ _ _ _ Hv Hd He) as (Hr & Hde & Hv1). cbn in Hr, Hde. subst de'. cbn [bind_post].
  rewrite (proj2 (Z.eqb_neq r 0)), (proj2 (Z.eqb_neq r (-1))), Hdot by lia. by apply wp_ret.
Qed.

Lemma turn_entry n path d de l t s e D :
  view ((d, de :: l) :: D) e -> d ∉ D.*1 -> at_end s -> is_dot_name (de_name de) = false ->
  walked (child_path path (de_name de)) t -> (5 * length (nodes (child_path path (de_name de)) t) <= n)%nat ->
  Forall meets (nodes (child_path path (de_name de)) t) ->
  wp (entry_turn n path d tt) (fun r s' e' _ =>
    r = Ret (inl tt) /\ s' = append (written (nodes (child_path path (de_name de)) t)) s /\ view ((d, l) :: D) e') s e.
Proof.
  intros Hv Hd Hs Hdot Hw Hn Hm. unfold entry_turn. apply wp_bind, wp_call. intros [r de'] e1 He.
  destruct (dread_view _ _ _ _ _ _ _ Hv Hd He) as (Hr & Hde & Hv1). cbn in Hr, Hde. subst de'. cbn [bind_post].
  rewrite (proj2 (Z.eqb_neq r 0)), (proj2 (Z.eqb_neq r (-1))), Hdot by lia. cbn [orb].
  assert (Hlen : (length (child_path path (de_name de)) < IOMANX_PATH_MAX)%nat).
  { destruct t; inversion_clear Hm as [|? ? Hx _]; by destruct Hx as ((_ & Hx & _) & _). }
  pose proof (child_path_length path (de_name de)) as [_ Hname].
  rewrite (proj2 (Z.leb_gt _ _)) by lia. apply wp_bind, wp_assert; intros Hc; [|apply Nat.leb_gt in Hc; lia].
  cbn [bind_post]. apply wp_bind, wp_call. intros u e2 Hu. cbn [bind_post].
  apply (say_view _ _ _ _ _ _ Hu) in Hv1.
  apply wp_bind. eapply wp_mono; [by apply (Hw n s e2 _ Hv1)|].
  intros r' s' e' tr (-> & -> & Hv2). cbn [bind_post Z.eqb negb]. by apply wp_ret.
Qed.

Lemma entries_wp n path d cs :
  Forall (fun c => walked (child_path path c.1) c.2) cs ->
  Forall (fun c => 5 * length (nodes (child_path path c.1) c.2) <= n)%nat cs ->
  Forall meets (concat ((fun c => nodes (child_path path c.1) c.2) <$> cs)) ->
  forall k l s e D, view ((d, l) :: D) e -> d ∉ D.*1 -> at_end s ->
    List.filter (fun n => negb (is_dot_name n)) (de_name <$> l) = cs.*1 -> (length l < k)%nat ->
    wp (loop k (entry_turn n path d) tt)
       (fun r s' e' _ => r = Ret 0 /\
          s' = append (written (concat ((fun c => nodes (child_path path c.1) c.2) <$> cs))) s /\ view D e') s e.
Proof.
  intros Hw Hn Hm k l. revert cs Hw Hn Hm k.
  induction l as [|de l IH]; intros cs Hw Hn Hm k s e D Hv Hd Hs Hl Hk; (destruct k as [|k]; [cbn in Hk; lia|]).
  - destruct cs as [|c cs]; [|done]. apply wp_loop_S. eapply wp_mono; [by apply turn_end|].
    intros r s' e' t (-> & -> & Hv'). cbn [bind_post]. apply wp_ret. by rewrite append_nil.
  - cbn in Hl, Hk. destruct (is_dot_name (de_name de)) eqn:Hdot; cbn in Hl; apply wp_loop_S.
    + eapply wp_mono; [by apply (turn_skip n path d de l)|]. intros r s' e' t (-> & -> & Hv'). cbn [bind_post].
      apply (IH cs); try done. lia.
    + destruct cs as [|[name c] cs]; [done|]. injection Hl as Hname Hl. csimpl in *. subst name.
      apply Forall_cons in Hw as [Hw Hws]. apply Forall_cons in Hn as [Hn Hns]. apply Forall_app in Hm as [Hm Hms].
      eapply wp_mono; [by apply (turn_entry n path d de l c)|].
      intros r s' e' t (-> & -> & Hv'). cbn [bind_post]. eapply wp_mono.
      { apply (IH cs Hws Hns Hms k _ _ _ Hv'); [done|by apply append_at_end|done|lia]. }
      intros r s' e'' t' (-> & -> & Hv''). by rewrite append_append, written_app.
Qed.

Lemma nodes_at_least path t : (1 <= length (nodes path t))%nat.
Proof. destruct t; cbn; lia. Qed.

(** The children of a directory have nodes within the bound on its own. *)
Lemma children_bound path cs (n : nat) :
  (5 * length (concat ((fun c => nodes (child_path path c.1) c.2) <$> cs)) <= n)%nat ->
  Forall (fun c => 5 * length (nodes (child_path path c.1) c.2) <= n)%nat cs /\ (5 * length cs <= n)%nat.
Proof.
  revert n. induction cs as [|c cs IH]; intros n Hn; [done|]. csimpl in *.
  rewrite length_app in Hn. pose proof (nodes_at_least (child_path path c.1) c.2).
  destruct (IH (n - 5 * length (nodes (child_path path c.1) c.2))%nat) as [Hcs Hlen]; [lia|].
  split; [|lia]. constructor; [lia|]. eapply Forall_impl; [exact Hcs|]. cbn. intros. lia.
Qed.

(** A node, up to what is below it. *)
Lemma node_wp t path n s e D (Q : res Z -> tar_state -> E -> Prop) :
  view D e -> at_end s -> meets (path, t) ->
  (forall e', view D e' ->
     wp (if FIO_S_ISDIR (st_mode (tree_stat t)) then
           d ← call (IomanX_dopen (string_of_bytes path));
           if 0 <=? d then loop n (entry_turn n path d) tt else mret (-1)
         else mret 0)
        (fun r s' e' _ => Q r s' e') (append (encode_entry (member prefix orig_len (path, t))) s) e') ->
  wp (do_wrapped_ftw (S n) prefix orig_len path (tar_c_file fuel)) (fun r s' e' _ => Q r s' e') s e.
Proof.
  intros Hv Hs Hx HQ. rewrite do_wrapped_ftw_S. pose proof Hx as (_ & HT & _). pose proof Hv as [HTe _].
  destruct (tree_getstat e (string_of_bytes path) t) as (g & e1 & He & Hg); [by rewrite HTe|].
  apply wp_bind, wp_call. intros y e2 Hy.
  assert (Hv1 : view D e2).
  { apply (view_kept (IomanX_getstat (string_of_bytes path)) D e y); [done|by apply moves_none|done|done]. }
  rewrite He in Hy. injection Hy as <- <-. cbn [bind_post]. rewrite (proj2 (Z.ltb_ge g 0)) by done.
  apply wp_bind. eapply wp_mono; [by apply (callback_wp (path, t) s e1 D Hv1 Hs Hx)|].
  intros r s' e3 tr (-> & -> & Hv3). cbn [bind_post Z.eqb negb]. by apply HQ.
Qed.

Lemma walk_tree t path : walked path t.
Proof.
  revert path. induction t as [st content|st target|st cs IH] using tree_ind; intros path n s e D Hv Hs Hm Hn;
    (destruct n as [|n]; [cbn in Hn; lia|]); pose proof Hm as [Hx Hms]%Forall_cons;
    eapply (node_wp _ path n s e D); try done; intros e1 Hv1;
    pose proof Hx as ((Hok & _) & HT & _); destruct Hok as (_ & _ & Hnode); cbn [tree_stat] in *.
  - replace (FIO_S_ISDIR (st_mode st)) with false.
    2:{ destruct (FIO_S_ISDIR (st_mode st)) eqn:Hdir; [|done]. cbn in Hnode.
        destruct Hnode as [Hreg _]. rewrite (proj1 (types_exclusive _) Hdir) in Hreg. done. }
    apply wp_ret. split_and!; [done| |done]. unfold written. cbn [fmap list_fmap nodes concat]. by rewrite app_nil_r.
  - cbn in Hnode. rewrite (proj2 (proj2 (types_exclusive _) (proj1 Hnode))).
    apply wp_ret. split_and!; [done| |done]. unfold written. cbn [fmap list_fmap nodes concat]. by rewrite app_nil_r.
  - cbn in Hnode. rewrite Hnode. destruct (tree_dopen e1 (string_of_bytes path) st cs) as (d & e2 & l & He & Hd & Hl & Hcs).
    { by rewrite (proj1 Hv1). }
    apply wp_bind, wp_call. intros y e3 Hy. pose proof (tree_dopen_new _ _ _ _ Hy) as Hnew.
    assert (Hv2 : view D e3).
    { by apply (view_kept (IomanX_dopen (string_of_bytes path)) D e1 y); [done|apply moves_none|..]. }
    rewrite He in Hy. injection Hy as <- <-. cbn [bind_post]. rewrite (proj2 (Z.leb_le 0 d)) by done.
    cbn [nodes length] in Hn. destruct (children_bound path cs n) as [Hcn Hlen]; [lia|].
    eapply wp_mono.
    { apply (entries_wp n path d cs) with (l := l) (D := D); [|exact Hcn|exact Hms|..].
      - eapply Forall_impl; [exact IH|]. cbn. auto.
      - destruct Hv2 as (HT2 & HD2 & HI2). split_and!; [done| |done]. by constructor.
      - by apply (view_new D e1).
      - by apply append_at_end.
      - apply Hcs.
      - destruct Hcs as [_ Hcs]. lia. }
    intros r s' e' tr (-> & -> & Hv'). split_and!; [done| |done]. rewrite append_append. f_equal.
Qed.
End Walk.
End Watching.

(** ** The drive *)

(** Where the walk of a partition starts. *)
Definition root_path : list Z := bytes_of_string (IOMANX_MOUNT_POINT +:+ "/").

Definition mounts_or_not {A} (c : ioE A) : bool :=
  match c with IomanX_mount _ _ _ _ _ | IomanX_umount _ => true | _ => false end.

(** What a backup relies on of the drive: [parts] is what it lists, [volume e dev] the
    tree on the partition [dev], when it can be mounted. *)
Class DriveReads (E : Type) `{TreeReads E} := {
  parts : E -> list iox_dirent_t;
  volume : E -> string -> option tree;
  hdd_dopen : forall e, exists d e', handle (IomanX_dopen "hdd0:") e = (d, e') /\ 0 <= d /\
    unlisted e' d = Some (parts e);
  mount_shows : forall e dev r e',
    handle (IomanX_mount IOMANX_MOUNT_POINT dev FIO_MT_RDONLY ArgNull 0) e = (r, e') ->
    match volume e dev with
    | Some t => 0 <= r /\ Forall (fun x => tree_at e' (string_of_bytes x.1) = Some x.2) (nodes root_path t)
    | None => r < 0
    end;
  volume_kept : forall A (c : ioE A) e r e', looks c || mounts_or_not c = true -> handle c e = (r, e') ->
    (forall dev, volume e' dev = volume e dev) /\ parts e' = parts e;
  unlisted_mount : forall A (c : ioE A) e r e' d l, mounts_or_not c = true -> handle c e = (r, e') ->
    unlisted e d = Some l -> unlisted e' d = Some l
}.

(** The members a partition becomes, and those of a backup: the selected partitions in
    the order of the drive, those that cannot be mounted left out. *)
Definition part_members (vol : string -> option tree) (de : iox_dirent_t) : list entry :=
  match vol (strncat_dev (de_name de)) with
  | Some t => members (partition_prefix (de_name de)) root_path t
  | None => []
  end.

Definition wanted (arg : option string) (de : iox_dirent_t) : bool :=
  is_pfs_main de && selected arg (de_name de).

Definition backup_members (vol : string -> option tree) (arg : option string) (ps : list iox_dirent_t) : list entry :=
  concat (part_members vol <$> List.filter (wanted arg) ps).

(** A partition that can be backed up with [fuel]. *)
Definition part_ok (vol : string -> option tree) (fuel : nat) (de : iox_dirent_t) : Prop :=
  match vol (strncat_dev (de_name de)) with
  | Some t =>
      (5 * length (nodes root_path t) <= fuel)%nat /\
      Forall (fun x => node_ok (partition_prefix (de_name de)) (length root_path) x /\ Forall is_byte x.1 /\
                       (length (node_content (tree_node x.2)) < fuel)%nat) (nodes root_path t)
  | None => True
  end.

Section Drive.
Context {E : Type} `{DriveReads E} `{TimeLib} `{CharSign}.
Local Abbreviation TM := (M tar_state E).
Context (vol : string -> option tree) (fuel : nat) (arg : option string).

Definition has_volumes (e : E) : Prop := forall dev, volume e dev = vol dev.

Lemma volumes_kept {A} (c : ioE A) e r e' :
  looks c || mounts_or_not c = true -> handle c e = (r, e') -> has_volumes e -> has_volumes e'.
Proof. intros Hc He Hv dev. by rewrite (proj1 (volume_kept _ c e r e' Hc He)). Qed.

(** The state of the loop over the partitions: [l] is still to come. *)
Definition at_part (dh : Z) (l : list iox_dirent_t) (e : E) : Prop :=
  unlisted e dh = Some l /\ has_volumes e.

Lemma at_part_kept {A} (c : ioE A) dh l e r e' :
  looks c || mounts_or_not c = true -> moves dh c = false -> handle c e = (r, e') ->
  at_part dh l e -> at_part dh l e'.
Proof.
  intros Hc Hm He [Hl Hv]. split; [|by eapply volumes_kept].
  destruct (looks c) eqn:Hlook; [by apply (unlisted_kept _ c e r e')|by apply (unlisted_mount _ c e r e')].
Qed.

(** The walk of a mounted partition. *)
Lemma part_walk dh l prefix t s e :
  at_part dh l e -> at_end s -> (5 * length (nodes root_path t) <= fuel)%nat ->
  Forall (fun x => tree_at e (string_of_bytes x.1) = Some x.2) (nodes root_path t) ->
  Forall (fun x => node_ok prefix (length root_path) x /\ Forall is_byte x.1 /\
                   (length (node_content (tree_node x.2)) < fuel)%nat) (nodes root_path t) ->
  wp (wrapped_ftw fuel prefix (IOMANX_MOUNT_POINT +:+ "/") (tar_c_file fuel) : TM Z)
     (fun r s' e' _ => r = Ret 0 /\ s' = append (concat (encode_entry <$> members prefix root_path t)) s /\
                       at_part dh l e') s e.
Proof.
  intros [Hl Hv] Hs Hn Hat Hok. unfold wrapped_ftw. change (IOMANX_PATH_MAX <? _)%nat with false. cbv iota.
  eapply wp_mono.
  - apply (walk_tree (tree_at e) has_volumes) with (D := [(dh, l)]); [|split_and!; [done|by constructor|done]|done| |done].
    + intros A c e1 r e2 Hc He. apply (volumes_kept c e1 r); [by rewrite Hc|done].
    + apply Forall_forall. intros x Hx. rewrite Forall_forall in Hat, Hok.
      destruct (Hok x Hx) as (? & ? & ?). split_and!; [done|by apply Hat|done..].
  - intros r s' e' tr (-> & -> & _ & Hd & Hv'). split_and!; [done|done|split; [|done]].
    by inversion_clear Hd.
Qed.

(** A turn of the loop of [tar_part]. *)
Definition part_turn (dh : Z) (_ : unit) : TM (unit + unit) :=
  '(result, de) ← call (IomanX_dread dh);
  if (result =? 0) || (result =? -1) then mret (inr tt)
  else if is_pfs_main de then
    printf (ln "%s%s") [PStr "hdd0:"; PStr (de_name de)];;
    if selected arg (de_name de) then
      result ← call (IomanX_mount IOMANX_MOUNT_POINT (strncat_dev (de_name de)) FIO_MT_RDONLY ArgNull 0);
      if result <? 0 then
        eprintf (ln "(!) %s: %s.") [PStr (strncat_dev (de_name de)); PStrerror (- result)];;
        mret (inl tt)
      else
        wrapped_ftw fuel (partition_prefix (de_name de)) (IOMANX_MOUNT_POINT +:+ "/") (tar_c_file fuel);;
        call (IomanX_umount IOMANX_MOUNT_POINT);;
        printf (ln "") [];;
        mret (inl tt)
    else
      printf (ln "") [];;
      mret (inl tt)
  else mret (inl tt).

Lemma tar_part_eq :
  tar_part fuel arg =
  (dh ← call (IomanX_dopen "hdd0:");
   if 0 <=? dh then
     loop fuel (part_turn dh) tt;;
     result ← call (IomanX_close dh);
     if result <? 0 then printf (ln "(!) dclose: failed with %d") [PInt result];; mret (-1) else mret 0
   else printf (ln "(!) dopen: failed with %d") [PInt dh];; mret dh : TM Z).
Proof. reflexivity. Qed.

Ltac keep_at Hu Hv :=
  lazymatch type of Hu with
  | handle ?c ?e = (?r, ?e') => apply (at_part_kept c _ _ e r e' eq_refl eq_refl Hu) in Hv
  end.

Ltac step_at e1 Hv :=
  apply wp_bind, wp_call; let u := fresh "u" in let Hu := fresh "Hu" in intros u e1 Hu; cbn [bind_post];
  keep_at Hu Hv.

Lemma part_turn_wp dh de l s e :
  at_part dh (de :: l) e -> at_end s -> (wanted arg de = true -> part_ok vol fuel de) ->
  wp (part_turn dh tt) (fun r s' e' _ =>
    r = Ret (inl tt) /\
    s' = append (concat (encode_entry <$> (if wanted arg de then part_members vol de else []))) s /\
    at_part dh l e') s e.
Proof.
  intros [Hl Hvol] Hs Hok. destruct (tree_dread e dh de l Hl) as (r & e1 & He & Hr & Hl1).
  unfold part_turn. apply wp_bind, wp_call. intros y e2 Hy.
  pose proof (volumes_kept (IomanX_dread dh) e y e2 eq_refl Hy Hvol) as Hvol1.
  rewrite He in Hy. injection Hy as <- <-. cbn [bind_post].
  rewrite (proj2 (Z.eqb_neq r 0)), (proj2 (Z.eqb_neq r (-1))) by lia. cbn [orb].
  assert (Hv : at_part dh l e1) by done. unfold wanted in *.
  destruct (is_pfs_main de); cbn [andb] in *; [|apply wp_ret; by rewrite append_nil].
  step_at e3 Hv. destruct (selected arg (de_name de)); [|step_at e4 Hv; apply wp_ret; by rewrite append_nil].
  specialize (Hok eq_refl). unfold part_ok in Hok.
  apply wp_bind, wp_call. intros m e4 Hm. cbn [bind_post]. pose proof (mount_shows e3 _ m e4 Hm) as Hshow.
  rewrite (proj2 Hv) in Hshow. keep_at Hm Hv.
  unfold part_members. destruct (vol (strncat_dev (de_name de))) as [t|].
  - destruct Hshow as [Hpos Hat]. destruct Hok as [Hn Hok]. rewrite (proj2 (Z.ltb_ge m 0)) by done.
    apply wp_bind. eapply wp_mono; [by apply part_walk|].
    intros r' s' e5 tr (-> & -> & Hv5). cbn [bind_post].
    step_at e6 Hv5. step_at e7 Hv5. by apply wp_ret.
  - rewrite (proj2 (Z.ltb_lt m 0)) by done. step_at e5 Hv. apply wp_ret. by rewrite append_nil.
Qed.

Lemma parts_loop ps dh k s e :
  at_part dh ps e -> at_end s -> Forall (part_ok vol fuel) (List.filter (wanted arg) ps) -> (length ps < k)%nat ->
  wp (loop k (part_turn dh) tt) (fun r s' e' _ =>
    r = Ret tt /\ s' = append (concat (encode_entry <$> backup_members vol arg ps)) s) s e.
Proof.
  revert k s e. induction ps as [|de ps IH]; intros k s e Hv Hs Hok Hk; (destruct k as [|k]; [cbn in Hk; lia|]);
    apply wp_loop_S.
  - destruct (tree_dread_end e dh (proj1 Hv)) as (de & e1 & He & _). unfold part_turn.
    apply wp_bind, wp_call. intros y e2 Hy. rewrite He in Hy. injection Hy as <- <-. cbn [bind_post orb Z.eqb].
    apply wp_ret. cbn [bind_post]. apply wp_ret. by rewrite append_nil.
  - unfold backup_members. cbn in Hok, Hk |- *. eapply wp_mono.
    { apply (part_turn_wp dh de ps); [done..|]. intros Hw. rewrite Hw in Hok. by inversion_clear Hok. }
    intros r s' e' tr (-> & -> & Hv'). cbn [bind_post]. eapply wp_mono.
    { apply (IH k); [done|by apply append_at_end| |lia]. destruct (wanted arg de); [by inversion_clear Hok|done]. }
    intros r s' e'' tr' (-> & ->). split; [done|]. rewrite append_append. f_equal.
    destruct (wanted arg de); csimpl; [|done]. by rewrite fmap_app, concat_app.
Qed.

End Drive.
