(* ===== verification/TarRestored.v ===== *)
(** * Restoring whole trees (src/src/pfs2tar.c: restore_from_tar)

    What the calls of a restore leave in a file system that stores what it is told to. *)

From S2P Require Import Prelude IoWorld Trace Modes Clock Tar TarTree.

Abbreviation str := string_of_bytes.

(** ** The file system during a restore *)

(** What lies at a path, as far as a restore has a say in it: a file with its permissions
    and its time of modification, a directory with its permissions (its time is that of
    the last entry made in it), a link. *)
Inductive kept :=
  | KFile (content : list Z) (perm : Z) (mtime : list Z)
  | KDir (perm : Z)
  | KLink (target : list Z).

(** The bits of a mode that are not the type: that [chstat] leaves alone. *)
Definition permissions (mode : Z) : Z := Z.land mode (Z.ones 12).

Definition kept_of (t : tree) : kept :=
  match t with
  | TFile st content => KFile content (permissions (st_mode st)) (st_mtime st)
  | TDir st _ => KDir (permissions (st_mode st))
  | TLink _ target => KLink target
  end.

Definition is_link (k : kept) : bool := match k with KLink _ => true | _ => false end.
Definition with_mode (mode : Z) (t : list Z) (k : kept) : kept :=
  match k with
  | KFile content _ _ => KFile content (permissions mode) t
  | KDir _ => KDir (permissions mode)
  | KLink target => KLink target
  end.
Definition with_time (t : list Z) (k : kept) : kept :=
  match k with KFile content perm _ => KFile content perm t | _ => k end.

Definition a_dir (x : option kept) : Prop := match x with Some (KDir _) => True | _ => False end.

Lemma a_dir_some x : a_dir x -> is_Some x.
Proof. by destruct x as [[]|]. Qed.

(** The calls that store nothing. *)
Definition stores_nothing {A} (c : ioE A) : bool :=
  match c with
  | IomanX_close _ | IomanX_getstat _ | Printf _ _ _ => true
  | _ => false
  end.

(** What a restore relies on of the file layer, with room for what it writes: [stored e p]
    is what lies at the path [p], [writes_to e fd] the file an open descriptor adds to.
    In a directory new entries can be made; to make a directory that exists changes
    nothing; a change of the mode may change the time of a file as well. *)
Class FileStore (E : Type) `{Handler E} := {
  stored : E -> string -> option kept;
  writes_to : E -> Z -> option string;
  store_create : forall e path name,
    a_dir (stored e (str path)) -> stored e (str (child_path path name)) = None ->
    exists fd e' perm t, handle (IomanX_open (str (child_path path name))
                            (Z.lor (Z.lor FIO_O_WRONLY FIO_O_CREAT) FIO_O_TRUNC) 0x1B6) e = (fd, e') /\
      0 <= fd /\ writes_to e' fd = Some (str (child_path path name)) /\
      stored e' (str (child_path path name)) = Some (KFile [] perm t) /\
      forall q, q <> str (child_path path name) -> stored e' q = stored e q;
  store_write : forall e fd p content perm t b,
    writes_to e fd = Some p -> stored e p = Some (KFile content perm t) ->
    exists n e' t', handle (IomanX_write fd b (Z.of_nat (length b))) e = (n, e') /\
      writes_to e' fd = Some p /\ stored e' p = Some (KFile (content ++ b) perm t') /\
      forall q, q <> p -> stored e' q = stored e q;
  store_mkdir : forall e path name mode,
    a_dir (stored e (str path)) -> stored e (str (child_path path name)) = None ->
    exists r e' perm, handle (IomanX_mkdir (str (child_path path name)) mode) e = (r, e') /\
      stored e' (str (child_path path name)) = Some (KDir perm) /\
      forall q, q <> str (child_path path name) -> stored e' q = stored e q;
  store_mkdir_there : forall e p mode r e', is_Some (stored e p) ->
    handle (IomanX_mkdir p mode) e = (r, e') -> forall q, stored e' q = stored e q;
  store_symlink : forall e path name target,
    a_dir (stored e (str path)) -> stored e (str (child_path path name)) = None ->
    exists r e', handle (IomanX_symlink target (str (child_path path name))) e = (r, e') /\ 0 <= r /\
      stored e' (str (child_path path name)) = Some (KLink (bytes_of_string target)) /\
      forall q, q <> str (child_path path name) -> stored e' q = stored e q;
  store_chmod : forall e p k st r e', stored e p = Some k -> is_link k = false ->
    handle (IomanX_chstat p st FIO_CST_MODE) e = (r, e') ->
    (exists t, stored e' p = Some (with_mode (st_mode st) t k)) /\
    forall q, q <> p -> stored e' q = stored e q;
  store_chtime : forall e p k st r e', stored e p = Some k -> is_link k = false ->
    handle (IomanX_chstat p st (Z.lor (Z.lor FIO_CST_MT FIO_CST_AT) FIO_CST_CT)) e = (r, e') ->
    stored e' p = Some (with_time (st_mtime st) k) /\
    forall q, q <> p -> stored e' q = stored e q;
  store_getstat : forall e p r e', stored e p = None -> handle (IomanX_getstat p) e = (r, e') -> r.1 <> 0;
  store_quiet : forall A (c : ioE A) e r e', stores_nothing c = true -> handle c e = (r, e') ->
    forall q, stored e' q = stored e q
}.

(** ** Paths *)

(** The directories above a path that a restore makes sure of. *)
Definition parents (path : list Z) : list (list Z) := parent_dirs 6 path (drop 6 path).

Lemma parent_dirs_app i tmp l1 l2 :
  parent_dirs i tmp (l1 ++ l2) = parent_dirs i tmp l1 ++ parent_dirs (i + length l1) tmp l2.
Proof.
  revert i. induction l1 as [|c l1 IH]; intros i; cbn; [by rewrite Nat.add_0_r|].
  by rewrite IH, <- app_assoc, <- Nat.add_succ_comm.
Qed.

Lemma parent_dirs_none i tmp l : SLASH ∉ l -> parent_dirs i tmp l = [].
Proof.
  revert i. induction l as [|c l IH]; intros i Hl; [done|]. cbn. apply not_elem_of_cons in Hl as [Hc Hl].
  rewrite (proj2 (Z.eqb_neq c SLASH)) by congruence. by apply IH.
Qed.

(** What is cut off a path is not looked at. *)
Lemma parent_dirs_longer i path more l :
  (i + length l <= length path)%nat -> parent_dirs i (path ++ more) l = parent_dirs i path l.
Proof.
  revert i. induction l as [|c l IH]; intros i Hl; [done|]. cbn in *. rewrite IH by lia.
  by rewrite take_app_le by lia.
Qed.

Lemma parents_child path name :
  (6 < length path)%nat -> ends_with_slash path = false -> SLASH ∉ bytes_of_string name ->
  parents (child_path path name) = parents path ++ [path].
Proof.
  intros Hlen Hend Hname. unfold parents, child_path. rewrite Hend, take_ge by lia.
  rewrite drop_app_le, parent_dirs_app by lia. rewrite parent_dirs_longer by (rewrite length_drop; lia). f_equal.
  rewrite length_drop. replace (6 + (length path - 6))%nat with (length path) by lia.
  cbn [parent_dirs]. rewrite Z.eqb_refl, take_app_length. cbn [app]. by rewrite parent_dirs_none.
Qed.

Lemma parents_root name : SLASH ∉ bytes_of_string name -> parents (child_path root_path name) = [].
Proof.
  intros Hname. unfold parents.
  change (child_path root_path name) with (root_path ++ bytes_of_string name).
  rewrite drop_app_ge by done. by apply parent_dirs_none.
Qed.

(** A path below the root, of a name that has no slash. *)
Lemma child_no_slash path name :
  SLASH ∉ bytes_of_string name -> name <> ""%string -> ends_with_slash (child_path path name) = false.
Proof.
  intros Hname Hne. unfold ends_with_slash, child_path.
  destruct (bytes_of_string name) as [|c l] eqn:Hb using rev_ind.
  - destruct name; [done|]. by apply (f_equal length) in Hb; rewrite length_bytes_of_string in Hb.
  - rewrite app_comm_cons, app_assoc, last_snoc. apply Z.eqb_neq. intros ->. apply Hname, elem_of_app. right.
    by constructor.
Qed.

Section Restoring.
Context {E : Type} `{FileStore E} `{TimeLib}.
Local Abbreviation R := (M unit E).

(** Whether nothing is stored anew; nothing but at [ps]. *)
Definition same_store (e e' : E) : Prop := forall q, stored e' q = stored e q.
Definition only_at (ps : list string) (e e' : E) : Prop := forall q, q ∉ ps -> stored e' q = stored e q.

#[local] Instance same_store_preorder : PreOrder same_store.
Proof. split; [intros e q; done|]. intros e1 e2 e3 Ha Hb q. by rewrite Hb, Ha. Qed.

Lemma only_at_trans ps1 ps2 e1 e2 e3 : only_at ps1 e1 e2 -> only_at ps2 e2 e3 -> only_at (ps1 ++ ps2) e1 e3.
Proof. intros Ha Hb q [Hq1 Hq2]%not_elem_of_app. by rewrite Hb, Ha. Qed.

Lemma only_at_same ps e1 e2 e3 : only_at ps e1 e2 -> same_store e2 e3 -> only_at ps e1 e3.
Proof. intros Ha Hb q Hq. by rewrite Hb, Ha. Qed.

Lemma same_only_at ps e1 e2 e3 : same_store e1 e2 -> only_at ps e2 e3 -> only_at ps e1 e3.
Proof. intros Ha Hb q Hq. by rewrite Hb, Ha. Qed.

(** A program that ends having stored nothing. *)
Definition quietly (m : R unit) : Prop :=
  forall s e, wp m (fun r s' e' _ => r = Ret tt /\ same_store e e') s e.

Lemma quietly_call {A} (c : ioE A) : stores_nothing c = true -> quietly (call c;; mret tt).
Proof.
  intros Hc s e. apply wp_bind, wp_call. intros r e' He. cbn [bind_post]. apply wp_ret. split; [done|].
  exact (store_quiet _ c e r e' Hc He).
Qed.

(** The two calls of [restore_stat]. *)
Lemma restore_stat_sets p mode mtime k s e :
  stored e p = Some k -> is_link k = false ->
  wp (restore_stat p mode mtime : R unit) (fun r s' e' _ =>
    r = Ret tt /\
    (exists t, stored e' p = Some (with_time (convert_posix_time_to_iox_time mtime) (with_mode mode t k))) /\
    only_at [p] e e') s e.
Proof.
  intros Hp Hk. unfold restore_stat. apply wp_bind, wp_call. intros r1 e1 He1. cbn [bind_post].
  destruct (store_chmod e p k _ r1 e1 Hp Hk He1) as [(t & Hp1) Ho1]. apply wp_bind, wp_call. intros r2 e2 He2.
  assert (Hk1 : is_link (with_mode mode t k) = false) by by destruct k.
  destruct (store_chtime e1 p _ _ r2 e2 Hp1 Hk1 He2) as [Hp2 Ho2]. cbn [bind_post]. apply wp_ret.
  split_and!; [done|by exists t|]. intros q Hq. apply not_elem_of_cons in Hq as [Hq _]. by rewrite Ho2, Ho1.
Qed.

Lemma ensure_parents_there path s e :
  (length path < IOMANX_PATH_MAX)%nat -> Forall (fun q => is_Some (stored e (str q))) (parents path) ->
  wp (ensure_parent_dirs_exist path : R unit) (fun r s' e' _ => r = Ret tt /\ same_store e e') s e.
Proof.
  intros Hlen Hp. unfold ensure_parent_dirs_exist. rewrite take_ge by lia. cbv zeta.
  change (String.length IOMANX_MOUNT_POINT + 1)%nat with 6%nat. fold (parents path).
  assert (Hall : forall e', same_store e e' -> wp (for_ (parents path) (fun dir => call (IomanX_mkdir (str dir) 0x1FF);; mret tt) : R unit)
                              (fun r s' e'' _ => r = Ret tt /\ same_store e e'') s e').
  { induction Hp as [|q qs Hq _ IH]; intros e1 He1; [by apply wp_ret|]. cbn [for_].
    apply wp_bind, wp_bind, wp_call. intros r e2 He2. cbn [bind_post]. apply wp_ret. cbn [bind_post].
    eapply wp_mono; [apply IH|done]. intros q'. rewrite <- He1.
    refine (store_mkdir_there e1 (str q) _ r e2 _ He2 q'). by rewrite He1. }
  by apply Hall.
Qed.

(** The content, block by block. *)
Lemma concat_blocks fuel content : (length content <= fuel)%nat -> concat (blocks fuel content) = content.
Proof.
  revert content. induction fuel as [|fuel IH]; intros content Hf; [by destruct content; [|cbn in Hf; lia]|].
  destruct (decide (content = [])) as [->|Hne]; [done|].
  assert (Hb : blocks (S fuel) content = take 512 content :: blocks fuel (drop 512 content)) by (by destruct content).
  rewrite Hb. cbn [concat]. rewrite IH, take_drop; [done|]. rewrite length_drop.
  destruct content; [done|]. cbn [length] in *. lia.
Qed.

Lemma write_content_stores fd p content perm t s e :
  writes_to e fd = Some p -> stored e p = Some (KFile [] perm t) ->
  wp (write_content fd content : R unit) (fun r s' e' _ =>
    r = Ret tt /\ (exists t', stored e' p = Some (KFile content perm t')) /\ only_at [p] e e') s e.
Proof.
  intros Hw Hp. unfold write_content.
  assert (Hall : forall bs c t e', writes_to e' fd = Some p -> stored e' p = Some (KFile c perm t) -> only_at [p] e e' ->
    wp (for_ bs (fun b => call (IomanX_write fd b (Z.of_nat (length b)));; mret tt) : R unit)
       (fun r s' e'' _ => r = Ret tt /\ (exists t', stored e'' p = Some (KFile (c ++ concat bs) perm t')) /\
                          only_at [p] e e'') s e').
  { intros bs. induction bs as [|b bs IH]; intros c t1 e1 Hw1 Hp1 Ho1.
    { apply wp_ret. rewrite app_nil_r. split_and!; [done|by exists t1|done]. }
    cbn [for_ concat]. destruct (store_write e1 fd p c perm t1 b Hw1 Hp1) as (n & e2 & t2 & He & Hw2 & Hp2 & Ho2).
    apply wp_bind, wp_bind, wp_call. intros r e3 Hr. rewrite He in Hr. injection Hr as <- <-. cbn [bind_post].
    apply wp_ret. cbn [bind_post]. rewrite (app_assoc c b). apply (IH _ t2); [done..|].
    intros q Hq. rewrite Ho2, Ho1; [done..|]. intros ->. apply Hq. by constructor. }
  pose proof (Hall (blocks (length content) content) [] t e Hw Hp (fun _ _ => eq_refl)) as Hx.
  by rewrite concat_blocks in Hx.
Qed.

(** ** One member *)

(** A time that the archive can hold: of a date from 1970 to 2106. *)
Definition time_ok (t : list Z) : Prop := iox_time_ok t /\ 0 <= convert_time_to_posix t < 2 ^ 32.

(** Permissions and times come through the archive. *)
Lemma permissions_kept m :
  permissions (convert_posix_mode_to_iomanx (tar_convert_mode_to_posix m)) = permissions m.
Proof.
  apply Z.bits_inj'. intros i Hi. unfold permissions. rewrite !Z.land_spec.
  destruct (decide (i < 12)); [|by rewrite Z.ones_spec_high, !andb_false_r by lia].
  rewrite Z.ones_spec_low, !andb_true_r by lia. by rewrite tar_to_iomanx_bit, tar_to_posix_bit by lia.
Qed.

Lemma time_kept t : time_ok t -> convert_posix_time_to_iox_time (u32 (convert_time_to_posix t)) = t.
Proof.
  intros [Ht Hr]. rewrite (uwrap_small 32) by done. rewrite iox_time_same. by apply time_iomanx_posix_iomanx.
Qed.

(** What the tree says of a node to be restored below the root. *)
Definition store_ok (x : list Z * tree) : Prop :=
  (length x.1 < IOMANX_PATH_MAX)%nat /\ Forall is_byte x.1 /\
  match x.2 with
  | TLink _ target => Forall is_byte target
  | TDir _ cs => Forall (fun c => (SLASH ∉ bytes_of_string c.1) /\ c.1 <> ""%string) cs
  | TFile st _ => time_ok (st_mtime st)
  end.

(** A path where a restore can put something: in a directory, with nothing there. *)
Definition free_at (path : list Z) (e : E) : Prop :=
  (exists dir name, path = child_path dir name /\ a_dir (stored e (str dir))) /\
  Forall (fun q => is_Some (stored e (str q))) (parents path) /\ stored e (str path) = None.

Lemma restore_member_eq ow prefix path t :
  (length root_path < length path)%nat -> take 6 path = root_path -> (length path < IOMANX_PATH_MAX)%nat ->
  (restore_node ow (IOMANX_MOUNT_POINT +:+ "/") (bytes_of_string prefix) (member prefix (length root_path) (path, t)) : R unit) =
  (exists_ ← (if ow then mret false else '(r, _) ← call (IomanX_getstat (str path)); mret (r =? 0));
   let x := member prefix (length root_path) (path, t) in
   let mode := convert_posix_mode_to_iomanx (tar_convert_mode_to_posix (st_mode (e_stat x))) in
   let mtime := u32 (convert_time_to_posix (st_mtime (e_stat x))) in
   let name := str (e_path x) in
   if exists_ : bool then printf (ln "Skipping existing file: %s") [PStr name];; mret tt
   else match tree_node t with
   | NDir =>
       ensure_parent_dirs_exist path;;
       call (IomanX_mkdir (str path) 0x1FF);;
       restore_stat (str path) mode mtime
   | NLink target =>
       ensure_parent_dirs_exist path;;
       res ← call (IomanX_symlink (str target) (str path));
       if res <? 0 then
         eprintf (ln "(!) Failed to create symlink: %s -> %s (%d)") [PStr (str path); PStr (str target); PInt res];;
         mret tt
       else printf (ln "Restoring symlink: %s -> %s") [PStr (str path); PStr (str target)];; mret tt
   | NFile content =>
       ensure_parent_dirs_exist path;;
       fd ← call (IomanX_open (str path) (Z.lor (Z.lor FIO_O_WRONLY FIO_O_CREAT) FIO_O_TRUNC) 0x1B6);
       if fd <? 0 then eprintf (ln "(!) Failed to create file: %s") [PStr (str path)];; mret tt
       else
         write_content fd content;;
         call (IomanX_close fd);;
         restore_stat (str path) mode mtime;;
         printf (ln "Restoring file: %s (type: %c, size: %u, mask: %o)")
           [PStr name; PInt 48; PInt (Z.of_nat (length content));
            PInt (tar_convert_mode_to_posix (st_mode (e_stat x)))];;
         mret tt
   end : R unit).
Proof.
  intros Hlen Hroot Hmax. unfold restore_node. cbn [member e_path e_stat e_node fst snd].
  unfold has_prefix. rewrite take_app_length, bool_decide_eq_true_2 by done. cbn [negb].
  rewrite drop_app_length. rewrite (proj2 (Nat.eqb_neq _ 0)) by (rewrite length_drop; lia).
  assert (Hfull : take 511 (bytes_of_string (IOMANX_MOUNT_POINT +:+ "/") ++ drop (length root_path) path) = path).
  { change (bytes_of_string (IOMANX_MOUNT_POINT +:+ "/")) with root_path. rewrite <- Hroot at 1.
    change (length root_path) with 6%nat. rewrite take_drop. apply take_ge. unfold IOMANX_PATH_MAX in Hmax. lia. }
  rewrite Hfull. reflexivity.
Qed.

(** After the directories above it. *)
Lemma after_parents path e (Q : E -> Prop) (m : R unit) s :
  (length path < IOMANX_PATH_MAX)%nat -> free_at path e ->
  (forall e1, same_store e e1 -> wp m (fun r s' e' _ => r = Ret tt /\ Q e') s e1) ->
  wp (ensure_parent_dirs_exist path;; m) (fun r s' e' _ => r = Ret tt /\ Q e') s e.
Proof.
  intros Hlen (_ & Hp & _) Hm. apply wp_bind. eapply wp_mono; [by apply ensure_parents_there|].
  intros r [] e1 t [-> Hs]. cbn [bind_post]. destruct s. by apply Hm.
Qed.

(** What restoring one node does to the store. *)
Definition placed (path : list Z) (t : tree) (e e' : E) : Prop :=
  stored e' (str path) = Some (kept_of t) /\ only_at [str path] e e'.

Lemma placed_same path t e e1 e2 : placed path t e e1 -> same_store e1 e2 -> placed path t e e2.
Proof. intros [Hp Ho] Hs. split; [by rewrite Hs|]. by eapply only_at_same. Qed.

(** A call that makes [path] what it should be. *)
Lemma placed_by path t e e2 e3 :
  same_store e e2 -> stored e3 (str path) = Some (kept_of t) ->
  (forall q, q <> str path -> stored e3 q = stored e2 q) -> placed path t e e3.
Proof.
  intros Hs Hp Ho. split; [done|]. intros q Hq. rewrite Ho, Hs; [done|]. intros ->. apply Hq. by constructor.
Qed.

(** The rest of a file's member, once the file is made. *)
Lemma file_placed path st content fd perm t0 fmt args e e2 e3 :
  same_store e e2 -> stored e3 (str path) = Some (KFile [] perm t0) -> writes_to e3 fd = Some (str path) ->
  (forall q, q <> str path -> stored e3 q = stored e2 q) -> time_ok (st_mtime st) ->
  wp (write_content fd content;;
      call (IomanX_close fd);;
      restore_stat (str path) (convert_posix_mode_to_iomanx (tar_convert_mode_to_posix (st_mode st)))
        (u32 (convert_time_to_posix (st_mtime st)));;
      printf fmt args;; mret tt : R unit)
     (fun r s' e' _ => r = Ret tt /\ placed path (TFile st content) e e') tt e3.
Proof.
  intros Hs Hst Hw Ho Ht. apply wp_bind. eapply wp_mono; [by apply (write_content_stores fd (str path) content perm t0)|].
  intros r s' e4 tr4 (-> & (t4 & Hc) & Hoc). cbn [bind_post]. apply wp_bind, wp_call. intros y e5 He5. cbn [bind_post].
  pose proof (store_quiet _ (IomanX_close fd) e4 y e5 eq_refl He5) as Hq5. rewrite <- Hq5 in Hc.
  apply wp_bind. eapply wp_mono; [by apply (restore_stat_sets (str path) _ _ _ s' e5 Hc)|].
  intros r s6 e6 tr6 (-> & (t6 & H6) & Ho6). cbn [bind_post].
  eapply wp_mono; [by apply quietly_call|]. intros r s7 e7 tr7 [-> Hq7]. split; [done|].
  eapply placed_same; [|exact Hq7]. apply (placed_by _ _ e e2); [done| |].
  - rewrite H6. cbn. by rewrite permissions_kept, time_kept.
  - intros q Hq. assert (Hn : q ∉ [str path]) by by intros ->%list_elem_of_singleton.
    by rewrite Ho6, Hq5, Hoc, Ho.
Qed.

Lemma restore_member ow prefix path t s e :
  (length root_path < length path)%nat -> take 6 path = root_path -> store_ok (path, t) -> free_at path e ->
  wp (restore_node ow (IOMANX_MOUNT_POINT +:+ "/") (bytes_of_string prefix) (member prefix (length root_path) (path, t)) : R unit)
     (fun r s' e' _ => r = Ret tt /\ placed path t e e') s e.
Proof.
  intros Hlen Hroot (Hmax & Hb & Ht) Hfree. rewrite restore_member_eq by done. cbv zeta. destruct s.
  (* nothing is there *)
  apply wp_bind. eapply (wp_mono _ (fun r _ e' _ => r = Ret false /\ same_store e e')).
  { destruct ow; [by apply wp_ret|]. apply wp_bind, wp_call. intros [g st] e1 He1. cbn [bind_post].
    pose proof (store_getstat e _ _ e1 (proj2 (proj2 Hfree)) He1) as Hg. cbn in Hg. apply wp_ret.
    rewrite (proj2 (Z.eqb_neq g 0)) by done. split; [done|]. exact (store_quiet _ (IomanX_getstat (str path)) e (g, st) e1 eq_refl He1). }
  intros r [] e1 tr [-> Hs1]. cbn [bind_post].
  assert (Hfree1 : free_at path e1).
  { destruct Hfree as ((dir & name & Hpath & Hdir) & Hp & Hnone). split_and!; [|..|by rewrite Hs1].
    - exists dir, name. by rewrite Hs1.
    - eapply Forall_impl; [exact Hp|]. intros q. by rewrite Hs1. }
  destruct t as [st content|st target|st cs]; cbn [tree_node member e_stat tree_stat snd]; (apply after_parents; [done|done|]);
    intros e2 Hs2; assert (Hs : same_store e e2) by (by etrans);
    destruct Hfree as ((dir & name & -> & Hdir) & _ & Hnone); rewrite <- Hs in Hdir, Hnone.
  - destruct (store_create e2 dir name Hdir Hnone) as (fd & e3 & perm & t0 & He & Hfd & Hw & Hst & Ho).
    apply wp_bind, wp_call. intros y e4 Hy. rewrite He in Hy. injection Hy as <- <-. cbn [bind_post].
    rewrite (proj2 (Z.ltb_ge fd 0)) by done. by eapply file_placed.
  - destruct (store_symlink e2 dir name (str target) Hdir Hnone) as (r & e3 & He & Hr & Hst & Ho).
    apply wp_bind, wp_call. intros y e4 Hy. rewrite He in Hy. injection Hy as <- <-. cbn [bind_post].
    rewrite (proj2 (Z.ltb_ge r 0)) by done. eapply wp_mono; [by apply quietly_call|].
    intros r' s' e4 t [-> Hq]. split; [done|]. eapply placed_same; [|exact Hq].
    apply (placed_by _ _ e e2); [done| |done]. rewrite Hst. cbn. by rewrite bytes_of_string_of_bytes.
  - destruct (store_mkdir e2 dir name 0x1FF Hdir Hnone) as (r & e3 & perm & He & Hst & Ho).
    apply wp_bind, wp_call. intros y e4 Hy. rewrite He in Hy. injection Hy as <- <-. cbn [bind_post].
    eapply wp_mono; [by apply (restore_stat_sets _ _ _ (KDir perm))|]. intros r' s' e4 t (-> & (t4 & H4) & Ho4).
    split; [done|]. apply (placed_by _ _ e e2); [done| |].
    + rewrite H4. cbn. by rewrite permissions_kept.
    + intros q Hq. rewrite Ho4, Ho; [done..|]. by intros ->%list_elem_of_singleton.
Qed.

(** ** Whole trees *)

Definition node_paths (path : list Z) (t : tree) : list string := (fun x => str x.1) <$> nodes path t.
Definition all_placed (xs : list (list Z * tree)) (e : E) : Prop :=
  Forall (fun x => stored e (str x.1) = Some (kept_of x.2)) xs.
Definition all_free (ps : list string) (e : E) : Prop := Forall (fun p => stored e p = None) ps.

Lemma only_at_stored ps e e' q : only_at ps e e' -> all_free ps e -> is_Some (stored e q) -> stored e' q = stored e q.
Proof.
  intros Ho Hf [n Hq]. apply Ho. intros Hin. pose proof (proj1 (Forall_forall _ _) Hf q Hin) as Hn. cbn in Hn. congruence.
Qed.

Lemma only_at_parents ps e e' qs :
  only_at ps e e' -> all_free ps e -> Forall (fun q => is_Some (stored e (str q))) qs ->
  Forall (fun q => is_Some (stored e' (str q))) qs.
Proof.
  intros Ho Hf Hq. eapply Forall_impl; [exact Hq|]. intros q Hs. cbn in *. by rewrite (only_at_stored ps e e').
Qed.

Lemma only_at_free ps qs e e' : only_at ps e e' -> all_free qs e -> (forall q, q ∈ qs -> q ∉ ps) -> all_free qs e'.
Proof.
  intros Ho Hf Hd. apply Forall_forall. intros q Hq. rewrite Ho by by apply Hd.
  by apply (proj1 (Forall_forall _ _) Hf).
Qed.

Lemma wp_for_app {X} (xs ys : list X) (body : X -> R unit) Q s e :
  wp (for_ xs body) (fun r s' e' _ => r = Ret tt /\ wp (for_ ys body) (fun r s' e' _ => Q r s' e') s' e') s e ->
  wp (for_ (xs ++ ys) body) (fun r s' e' _ => Q r s' e') s e.
Proof.
  revert s e. induction xs as [|x xs IH]; intros s e Hx; cbn [for_ app] in *; [by apply Hx|].
  apply wp_bind. unfold wp in Hx. cbn in Hx. unfold mbind, M_bind, bind_outcome in Hx. unfold wp at 1.
  destruct (o_res (body x s e)) eqn:Hr; cbn [bind_post] in *; try by destruct Hx.
  destruct a. by apply IH.
Qed.

Section Tree.
Context (ow : bool) (prefix : string).
Local Abbreviation one := (restore_node ow (IOMANX_MOUNT_POINT +:+ "/") (bytes_of_string prefix)).
Local Abbreviation members_of xs := (member prefix (length root_path) <$> xs).

(** What is needed above a path for a restore to put something there. *)
Definition reachable_at (path : list Z) (e : E) : Prop :=
  (exists dir name, path = child_path dir name /\ a_dir (stored e (str dir))) /\
  Forall (fun q => is_Some (stored e (str q))) (parents path).

Definition below_root (path : list Z) : Prop :=
  (length root_path < length path)%nat /\ take 6 path = root_path /\ ends_with_slash path = false.

Definition restores (path : list Z) (t : tree) : Prop :=
  forall s e, below_root path -> Forall store_ok (nodes path t) -> NoDup (node_paths path t) ->
    reachable_at path e -> all_free (node_paths path t) e ->
    wp (for_ (members_of (nodes path t)) one : R unit) (fun r s' e' _ =>
      r = Ret tt /\ all_placed (nodes path t) e' /\ only_at (node_paths path t) e e') s e.

Lemma reachable_kept ps path e e' : only_at ps e e' -> all_free ps e -> reachable_at path e -> reachable_at path e'.
Proof.
  intros Ho Hf ((dir & name & -> & Hdir) & Hp). split; [|by eapply only_at_parents].
  exists dir, name. split; [done|]. rewrite (only_at_stored ps e e'); [done..|by apply a_dir_some].
Qed.

(** The children of a directory. *)
Lemma children_restored path cs :
  Forall (fun c => restores (child_path path c.1) c.2) cs ->
  forall s e,
    Forall (fun c => below_root (child_path path c.1) /\ reachable_at (child_path path c.1) e) cs ->
    Forall store_ok (concat ((fun c => nodes (child_path path c.1) c.2) <$> cs)) ->
    NoDup (concat ((fun c => node_paths (child_path path c.1) c.2) <$> cs)) ->
    all_free (concat ((fun c => node_paths (child_path path c.1) c.2) <$> cs)) e ->
    wp (for_ (members_of (concat ((fun c => nodes (child_path path c.1) c.2) <$> cs))) one : R unit)
       (fun r s' e' _ => r = Ret tt /\
          all_placed (concat ((fun c => nodes (child_path path c.1) c.2) <$> cs)) e' /\
          only_at (concat ((fun c => node_paths (child_path path c.1) c.2) <$> cs)) e e') s e.
Proof.
  induction 1 as [|c cs Hc _ IH]; intros s e Hr Hok Hnd Hf; [apply wp_ret; split_and!; [done|constructor|done]|].
  csimpl in *. rewrite fmap_app. apply Forall_cons in Hr as [[Hb Hr] Hrs]. apply Forall_app in Hok as [Hok Hoks].
  apply NoDup_app in Hnd as (Hnd & Hdis & Hnds). apply Forall_app in Hf as [Hf Hfs].
  apply (wp_for_app _ _ _ (fun r s' e' => r = Ret tt /\ all_placed _ e' /\ only_at _ e e')).
  eapply wp_mono; [by apply Hc|]. intros r s' e1 t (-> & Hp1 & Ho1). split; [done|].
  eapply wp_mono.
  { apply IH; [|done|done|].
    - eapply Forall_impl; [exact Hrs|]. intros c' [Hb' Hr']. split; [done|]. by eapply reachable_kept.
    - eapply only_at_free; [done..|]. intros q Hq Hin. by apply (Hdis q). }
  intros r s'' e2 t' (-> & Hp2 & Ho2). split_and!; [done| |by eapply only_at_trans].
  apply Forall_app. split; [|done]. apply Forall_forall. intros x Hx.
  pose proof (proj1 (Forall_forall _ _) Hp1 x Hx) as Hx1. cbn in Hx1.
  rewrite Ho2; [done|]. apply Hdis. apply list_elem_of_fmap. by exists x.
Qed.

Lemma below_child path name :
  below_root path -> SLASH ∉ bytes_of_string name -> name <> ""%string -> below_root (child_path path name).
Proof.
  intros (Hlen & Hroot & Hend) Hname Hne. pose proof (child_path_length path name) as [_ Hl].
  split_and!; [lia| |by apply child_no_slash].
  unfold child_path. rewrite Hend, (take_ge path) by lia. change (length root_path) with 6%nat in Hlen.
  by rewrite take_app_le by lia.
Qed.

Lemma node_paths_dir path st cs :
  node_paths path (TDir st cs) = str path :: concat ((fun c => node_paths (child_path path c.1) c.2) <$> cs).
Proof.
  unfold node_paths. cbn [nodes]. csimpl. f_equal. induction cs as [|c cs IH]; csimpl; [done|].
  by rewrite fmap_app, IH.
Qed.

Lemma restore_tree t path : restores path t.
Proof.
  revert path. induction t as [st content|st target|st cs IH] using tree_ind; intros path s e Hb Hok Hnd Hr Hf;
    pose proof Hb as (Hlen & Hroot & Hend); destruct Hr as [Hdir Hp];
    pose proof Hok as [Hok1 Hoks]%Forall_cons; pose proof Hf as [Hf1 Hfs]%Forall_cons;
    assert (Hfree : free_at path e) by done; cbn [nodes fmap list_fmap for_]; apply wp_bind;
    (eapply wp_mono; [by apply restore_member|]); intros r s' e1 tr (-> & Hp1 & Ho1); cbn [bind_post].
  1, 2: apply wp_ret; split_and!; [done|by constructor|done].
  rewrite node_paths_dir in *. apply NoDup_cons in Hnd as [Hnew Hnd].
  apply Forall_cons in Hf as [_ Hf]. destruct Hok1 as (_ & _ & Hnames). cbn in Hnames, Hoks.
  assert (Hf0 : all_free [str path] e) by by constructor.
  eapply wp_mono.
  { apply (children_restored path cs); [|..|exact Hoks|exact Hnd|].
    - eapply Forall_impl; [exact IH|]. auto.
    - eapply Forall_impl; [exact Hnames|]. intros c [Hslash Hne]. split; [by apply below_child|]. split.
      + exists path, c.1. by rewrite Hp1.
      + rewrite parents_child by done. apply Forall_app. split; [by eapply only_at_parents|].
        constructor; [|constructor]. by rewrite Hp1.
    - eapply only_at_free; [done..|]. intros q Hq Hin%list_elem_of_singleton. by subst. }
  intros r s'' e2 t' (-> & Hp2 & Ho2). split_and!; [done| |].
  - constructor; [|done]. cbn [fst snd]. rewrite Ho2; [done|exact Hnew].
  - by apply (only_at_trans [str path] _ e e1).
Qed.

(** A partition: the root is there, and what is below it is restored. *)
Lemma restore_root t s e :
  Forall store_ok (nodes root_path t) -> NoDup (node_paths root_path t) ->
  a_dir (stored e (str root_path)) -> tree_node t = NDir ->
  all_free (tail (node_paths root_path t)) e ->
  wp (for_ (members_of (nodes root_path t)) one : R unit) (fun r s' e' _ =>
    r = Ret tt /\ all_placed (tail (nodes root_path t)) e' /\ only_at (tail (node_paths root_path t)) e e') s e.
Proof.
  intros Hok Hnd Hroot Hdir Hf. destruct t as [| |st cs]; try discriminate Hdir.
  rewrite node_paths_dir in *. cbn [nodes fmap list_fmap for_ tail]. apply NoDup_cons in Hnd as [Hnew Hnd].
  apply Forall_cons in Hok as [(_ & _ & Hnames) Hoks]. cbn in Hnames.
  assert (Hskip : one (member prefix (length root_path) (root_path, TDir st cs)) = (mret tt : R unit)).
  { unfold restore_node. cbn [member e_path fst snd]. unfold has_prefix.
    change (drop (length root_path) root_path) with (@nil Z). rewrite app_nil_r.
    rewrite take_ge, bool_decide_eq_true_2 by done. cbn [negb]. by rewrite drop_all. }
  apply wp_bind. rewrite Hskip. apply wp_ret. cbn [bind_post]. eapply wp_mono.
  { apply (children_restored root_path cs); [|..|exact Hoks|exact Hnd|done].
    - apply Forall_forall. intros c _. apply restore_tree.
    - eapply Forall_impl; [exact Hnames|]. intros c [Hslash Hne]. split.
      + split_and!; [| |by apply child_no_slash].
        * change (child_path root_path c.1) with (root_path ++ bytes_of_string c.1).
          rewrite length_app, length_bytes_of_string. destruct c.1; [done|]. cbn; lia.
        * change (child_path root_path c.1) with (root_path ++ bytes_of_string c.1). done.
      + split; [by exists root_path, c.1|]. rewrite parents_root by done. constructor. }
  intros r s' e' t' (-> & Hp & Ho). done.
Qed.
End Tree.
End Restoring.
