(* ===== verification/TarDrive.v ===== *)
(** * Whole drives (src/src/pfs2tar.c: tar_part, part_tar, main)

    What a backup of a drive writes, what a restore of its archive leaves on another, and
    the two as runs of the program. *)

From S2P Require Import Prelude IoWorld Trace Modes Clock Tar Atad TarMain TarTree TarRestored.

(** ** Backing up a drive *)

Section Backup.
Context {E : Type} `{DriveReads E} `{TimeLib} `{CharSign}.
Local Abbreviation P := (M tar_main E).

Lemma nodes_entry_ok prefix t fuel :
  Forall (fun x => node_ok prefix (length root_path) x /\ Forall is_byte x.1 /\
                   (length (node_content (tree_node x.2)) < fuel)%nat) (nodes root_path t) ->
  Forall entry_ok (members prefix root_path t).
Proof.
  intros Hok. unfold members. apply Forall_fmap. eapply Forall_impl; [exact Hok|].
  intros x ((Hx & _) & _). exact Hx.
Qed.

Lemma backup_entry_ok vol fuel arg ps :
  Forall (part_ok vol fuel) (List.filter (wanted arg) ps) -> Forall entry_ok (backup_members vol arg ps).
Proof.
  intros Hok. unfold backup_members. induction Hok as [|de ps' Hde _ IH]; csimpl; [constructor|].
  apply Forall_app. split; [|exact IH]. unfold part_members, part_ok in *.
  destruct (vol _) as [t|]; [|constructor].
  destruct Hde as [_ Hde]. by apply (nodes_entry_ok _ _ fuel).
Qed.

(** What [tar_part] adds to an archive. *)
Lemma tar_part_wp vol ps fuel arg s e :
  has_volumes vol e -> parts e = ps -> at_end s ->
  Forall (part_ok vol fuel) (List.filter (wanted arg) ps) -> (length ps < fuel)%nat ->
  wp (tar_part fuel arg : M tar_state E Z) (fun r s' _ _ =>
    (exists v, r = Ret v) /\ s' = append (concat (encode_entry <$> backup_members vol arg ps)) s) s e.
Proof.
  intros Hv Hps Hs Hok Hlen. rewrite tar_part_eq. destruct (hdd_dopen e) as (dh & e1 & He & Hdh & Hl).
  apply wp_bind, wp_call. intros y e2 Hy.
  pose proof (volumes_kept vol (IomanX_dopen "hdd0:") e y e2 eq_refl Hy Hv) as Hv2.
  rewrite He in Hy. injection Hy as <- <-. cbn [bind_post]. rewrite (proj2 (Z.leb_le 0 dh)) by done.
  rewrite Hps in Hl. apply wp_bind. eapply wp_mono; [by apply (parts_loop vol fuel arg ps dh)|].
  intros r s' e3 t (-> & ->). cbn [bind_post]. apply wp_bind, wp_call. intros c e4 _. cbn [bind_post].
  apply wp_if; intros _; [|by apply wp_ret; split; [eexists|]].
  apply wp_bind, wp_call. intros u e5 _. cbn [bind_post]. apply wp_ret. by split; [eexists|].
Qed.
End Backup.

(** ** One partition of an archive *)

(** The name of a partition: short enough for the buffers, without a slash. *)
Definition name_ok (name : string) : Prop := (String.length name <= 250)%nat /\ SLASH ∉ bytes_of_string name.

Lemma prefix_bytes name :
  name_ok name -> bytes_of_string (partition_prefix name) = bytes_of_string name ++ [SLASH].
Proof.
  intros [Hlen _]. unfold partition_prefix. rewrite bytes_of_string_app, take_ge.
  - rewrite bytes_of_string_of_bytes; [done|]. apply Forall_app. split; [apply bytes_of_string_bytes|].
    exact (bytes_of_string_bytes "/").
  - rewrite length_app, length_bytes_of_string. cbn. lia.
Qed.

Lemma strncat_dev_ok name : name_ok name -> strncat_dev name = ("hdd0:" +:+ name)%string.
Proof.
  intros [Hlen _]. unfold strncat_dev. rewrite take_ge, string_of_bytes_of_string; [done|].
  rewrite bytes_of_string_app, length_app, !length_bytes_of_string. cbn. lia.
Qed.

Lemma strncat_dev_inj n1 n2 : name_ok n1 -> name_ok n2 -> strncat_dev n1 = strncat_dev n2 -> n1 = n2.
Proof. intros H1 H2. rewrite !strncat_dev_ok by done. intros Heq. by injection Heq. Qed.

(** Members of one partition are not taken for those of another. *)
Lemma foreign_prefix n1 n2 rest :
  name_ok n1 -> name_ok n2 -> n1 <> n2 ->
  has_prefix (bytes_of_string (partition_prefix n1)) (bytes_of_string (partition_prefix n2) ++ rest) = false.
Proof.
  intros H1 H2 Hne. rewrite !prefix_bytes by done. destruct H1 as [_ Hs1], H2 as [_ Hs2].
  unfold has_prefix. apply bool_decide_eq_false. rewrite length_app. cbn [length]. rewrite <- app_assoc. cbn [app].
  intros Heq. apply Hne. rewrite <- (string_of_bytes_of_string n1), <- (string_of_bytes_of_string n2).
  set (b1 := bytes_of_string n1) in *. set (b2 := bytes_of_string n2) in *. clearbody b1 b2. f_equal.
  assert (Hat : forall i, (i <= length b1)%nat -> (b2 ++ SLASH :: rest) !! i = (b1 ++ [SLASH]) !! i).
  { intros i Hi. rewrite <- Heq, lookup_take_lt by lia. done. }
  destruct (Nat.lt_trichotomy (length b1) (length b2)) as [Hlt|[Hlen|Hgt]].
  - exfalso. apply Hs2. pose proof (Hat (length b1) ltac:(lia)) as Hx.
    rewrite lookup_app_l, list_lookup_middle in Hx by done. by eapply list_elem_of_lookup_2.
  - apply list_eq_same_length with (length b1); [done..|]. intros i x y Hi Hx Hy.
    pose proof (Hat i ltac:(lia)) as Hxy. rewrite !lookup_app_l in Hxy by lia. congruence.
  - exfalso. apply Hs1. pose proof (Hat (length b2) ltac:(lia)) as Hx.
    rewrite list_lookup_middle, lookup_app_l in Hx by done. by eapply list_elem_of_lookup_2.
Qed.

Lemma refines_wp {St A} {E} `{Handler E} (m : M St E A) (spec : M unit E A) s s' Q e :
  refines m spec s s' -> wp spec (fun r _ e' t => Q r s' e' t) tt e -> wp m Q s e.
Proof. intros Hr. destruct (Hr e) as (a & e' & t & Hm & Hs). unfold wp. by rewrite Hm, Hs. Qed.

Section Restored.
Context {E : Type} `{FileStore E} `{TimeLib} `{CharSign}.
Local Abbreviation R := (M unit E).

(** The members of other partitions are passed over. *)
Lemma skip_foreign ow mount name vol des s e :
  name_ok name -> Forall (fun de => name_ok (de_name de) /\ name <> de_name de) des ->
  wp (for_ (concat (part_members vol <$> des)) (restore_node ow mount (bytes_of_string (partition_prefix name))) : R unit)
     (fun r s' e' _ => r = Ret tt /\ same_store e e') s e.
Proof.
  intros Hname Hdes.
  assert (Hall : Forall (fun x => (restore_node ow mount (bytes_of_string (partition_prefix name)) x : R unit) = mret tt)
                   (concat (part_members vol <$> des))).
  { induction Hdes as [|de des [Hok Hne] _ IH]; csimpl; [constructor|]. apply Forall_app. split; [|exact IH].
    unfold part_members. destruct (vol _) as [t|]; [|constructor]. apply Forall_fmap, Forall_forall.
    intros x _. unfold restore_node. cbn [member e_path compose]. by rewrite foreign_prefix. }
  induction Hall as [|x xs Hx _ IH]; [by apply wp_ret|]. cbn [for_]. rewrite Hx. by apply wp_bind, wp_ret.
Qed.

(** What a partition must be for a restore of it. *)
Definition part_sound (t : tree) : Prop :=
  tree_node t = NDir /\ Forall store_ok (nodes root_path t) /\ NoDup (node_paths root_path t).

Lemma restore_partition vol ow des1 de des2 t s e :
  vol (strncat_dev (de_name de)) = Some t -> part_sound t -> name_ok (de_name de) ->
  Forall (fun de' => name_ok (de_name de') /\ de_name de <> de_name de') (des1 ++ des2) ->
  a_dir (stored e (str root_path)) -> all_free (tail (node_paths root_path t)) e ->
  wp (restore_nodes ow (IOMANX_MOUNT_POINT +:+ "/") (bytes_of_string (partition_prefix (de_name de)))
        (concat (part_members vol <$> (des1 ++ de :: des2))) : M unit E Z)
     (fun r s' e' _ => r = Ret 0 /\ all_placed (tail (nodes root_path t)) e' /\
                       only_at (tail (node_paths root_path t)) e e') s e.
Proof.
  intros Ht (Hdir & Hok & Hnd) Hname [Hdes1 Hdes2]%Forall_app Hroot Hfree.
  unfold restore_nodes. apply wp_bind. rewrite fmap_app, concat_app. csimpl.
  eapply wp_mono.
  - apply (wp_for_app _ _ _ (fun r s' e' => r = Ret tt /\ all_placed (tail (nodes root_path t)) e' /\
             only_at (tail (node_paths root_path t)) e e')).
    eapply wp_mono; [by apply skip_foreign|]. intros r s1 e1 t1 [-> Hs1]. split; [done|].
    apply (wp_for_app _ _ _ (fun r s' e' => r = Ret tt /\ all_placed (tail (nodes root_path t)) e' /\
             only_at (tail (node_paths root_path t)) e e')).
    unfold part_members at 1. rewrite Ht. unfold members. eapply wp_mono.
    { apply restore_root; [done|done|by rewrite Hs1|done|]. eapply Forall_impl; [exact Hfree|].
      intros q. by rewrite Hs1. }
    intros r s2 e2 t2 (-> & Hp & Ho). split; [done|].
    eapply wp_mono; [by apply skip_foreign|]. intros r s3 e3 t3 [-> Hs3]. split_and!; [done| |].
    + eapply Forall_impl; [exact Hp|]. intros x. by rewrite Hs3.
    + eapply same_only_at; [exact Hs1|]. by eapply only_at_same.
  - intros r s1 e1 t1 (-> & Hp & Ho). cbn [bind_post]. by apply wp_ret.
Qed.
End Restored.

(** ** Restoring to a drive *)

(** Paths of the partition that is mounted. *)
Definition below_mount (p : string) : bool := String.prefix (IOMANX_MOUNT_POINT +:+ "/") p.

(** The calls that may change what is on the mounted partition, and all that a restore of
    a partition makes. *)
Definition fills {A} (c : ioE A) : bool :=
  match c with
  | IomanX_open p _ _ | IomanX_mkdir p _ | IomanX_symlink _ p | IomanX_chstat p _ _ => below_mount p
  | IomanX_write _ _ _ => true
  | _ => false
  end.
Definition fills_or_not {A} (c : ioE A) : bool := fills c || stores_nothing c.
Definition part_call {A} (c : ioE A) : bool :=
  fills_or_not c || mounts_or_not c || match c with IomanX_dopen _ | IomanX_dread _ => true | _ => false end.

(** What a restore relies on of the drive: [targets] are the partitions it lists,
    [still_listed e d] what the open listing [d] has still to give, [on_volume e dev p]
    what lies at [p] when the partition [dev] is mounted, [mounted_on] the one that is.
    Files of other partitions than the mounted one stay as they are. *)
Class DriveStore (E : Type) `{FileStore E} := {
  targets : E -> list iox_dirent_t;
  still_listed : E -> Z -> option (list iox_dirent_t);
  mountable : E -> string -> bool;
  on_volume : E -> string -> string -> option kept;
  mounted_on : E -> option string;
  mounted_stored : forall e dev q, mounted_on e = Some dev -> stored e q = on_volume e dev q;
  drive_dopen : forall e, exists d e', handle (IomanX_dopen "hdd0:") e = (d, e') /\ 0 <= d /\
    still_listed e' d = Some (targets e);
  drive_dread : forall e d de l, still_listed e d = Some (de :: l) ->
    exists r e', handle (IomanX_dread d) e = ((r, de), e') /\ 0 < r /\ still_listed e' d = Some l;
  drive_dread_end : forall e d, still_listed e d = Some [] ->
    exists de e', handle (IomanX_dread d) e = ((0, de), e');
  drive_open_new : forall e p flags mode fd e',
    handle (IomanX_open p flags mode) e = (fd, e') -> still_listed e fd = None;
  drive_mount : forall e dev r e', mounted_on e = None ->
    handle (IomanX_mount IOMANX_MOUNT_POINT dev FIO_MT_RDWR ArgNull 0) e = (r, e') ->
    if mountable e dev then 0 <= r /\ mounted_on e' = Some dev else r < 0 /\ mounted_on e' = None;
  drive_umount : forall e r e', handle (IomanX_umount IOMANX_MOUNT_POINT) e = (r, e') -> mounted_on e' = None;
  drive_kept : forall A (c : ioE A) e r e', part_call c = true -> handle c e = (r, e') ->
    (forall dev, mountable e' dev = mountable e dev) /\
    (mounts_or_not c = false -> mounted_on e' = mounted_on e) /\
    (forall dev q, fills c = false \/ mounted_on e <> Some dev -> on_volume e' dev q = on_volume e dev q);
  targets_kept : forall A (c : ioE A) e r e', part_call c = true -> handle c e = (r, e') -> targets e' = targets e;
  listed_kept : forall A (c : ioE A) e r e' d l, part_call c = true -> moves d c = false ->
    handle c e = (r, e') -> still_listed e d = Some l -> still_listed e' d = Some l
}.

Lemma prefix_app s l : String.prefix s (str (bytes_of_string s ++ l)) = true.
Proof.
  induction s as [|c s IH]; [by destruct (str _)|].
  change (str (bytes_of_string (String c s) ++ l))
    with (String (ascii_of_byte (byte_of_ascii c)) (str (bytes_of_string s ++ l))).
  rewrite ascii_of_byte_of_ascii. cbn [String.prefix]. by destruct (ascii_dec c c).
Qed.

Lemma below_mount_app l : below_mount (str (root_path ++ l)) = true.
Proof. exact (prefix_app (IOMANX_MOUNT_POINT +:+ "/") l). Qed.

(** The directories above a path are below the mount point. *)
Lemma parent_dirs_below i tmp l :
  (6 <= i)%nat -> (i + length l <= length tmp)%nat -> take 6 tmp = root_path ->
  Forall (fun dir => below_mount (str dir) = true) (parent_dirs i tmp l).
Proof.
  intros Hi Hlen Hroot. revert i Hi Hlen. induction l as [|c l IH]; intros i Hi Hlen; cbn in *; [constructor|].
  apply Forall_app. split; [|apply IH; lia]. case_match; constructor; [|constructor].
  rewrite <- (take_drop 6 (take i tmp)), take_take, Nat.min_l, Hroot by lia. apply below_mount_app.
Qed.

Section Keeping.
Context {E : Type} `{DriveStore E} `{TimeLib}.
Local Abbreviation R := (M unit E).

(** What a restore of a mounted partition keeps: the listing [dh] stays where it is, and
    what the calls on other descriptors keep. *)
Context (I : E -> Prop) (dh : Z).
Context (I_kept : forall A (c : ioE A) e r e', fills_or_not c = true -> moves dh c = false -> handle c e = (r, e') ->
                    I e -> I e').
Context (I_open : forall e, I e -> is_Some (still_listed e dh)).
Context (dh_open : 0 <= dh).

Lemma keeps_drive_call {A} (c : ioE A) :
  fills_or_not c = true -> moves dh c = false -> holding I (fun _ => True) (call c : R A).
Proof. intros Hc Hm. apply holding_call. intros e r e' He HI. split; [by eapply I_kept|done]. Qed.

Lemma keeps_then {A B} (c : ioE A) (k : A -> R B) (Q : B -> Prop) :
  fills_or_not c = true -> moves dh c = false -> (forall a, holding I Q (k a)) -> holding I Q (call c ≫= k).
Proof. intros Hc Hm Hk. eapply holding_bind; [by apply keeps_drive_call|]. intros a _. apply Hk. Qed.

Lemma keeps_parents rel :
  holding I (fun _ => True) (ensure_parent_dirs_exist (root_path ++ rel) : R unit).
Proof.
  unfold ensure_parent_dirs_exist. cbv zeta. change (String.length IOMANX_MOUNT_POINT + 1)%nat with 6%nat.
  set (tmp := take (IOMANX_PATH_MAX - 1) (root_path ++ rel)).
  assert (Htmp : take 6 tmp = root_path) by done.
  assert (Hb : Forall (fun dir => below_mount (str dir) = true) (parent_dirs 6 tmp (drop 6 tmp))).
  { apply parent_dirs_below; [done| |done]. rewrite length_drop. apply (f_equal length) in Htmp.
    rewrite length_take in Htmp. change (length root_path) with 6%nat in Htmp. lia. }
  induction Hb as [|dir dirs Hdir _ IH]; cbn [for_]; [by apply holding_ret|].
  apply (holding_bind I (fun _ => True)); [|by intros u _; apply IH]. apply keeps_then; [|done|].
  - unfold fills_or_not, fills. by rewrite Hdir.
  - intros a. by apply holding_ret.
Qed.

Lemma keeps_stat rel mode mtime : holding I (fun _ => True) (restore_stat (str (root_path ++ rel)) mode mtime : R unit).
Proof.
  assert (Hf : forall st m, fills_or_not (IomanX_chstat (str (root_path ++ rel)) st m) = true).
  { intros. unfold fills_or_not, fills. by rewrite below_mount_app. }
  unfold restore_stat. do 2 (apply keeps_then; [done|done|]; intros ?). by apply holding_ret.
Qed.

Lemma keeps_content fd content : holding I (fun _ => True) (write_content fd content : R unit).
Proof.
  apply holding_for. intros b. apply keeps_then; [done|done|]. intros a. by apply holding_ret.
Qed.

Lemma keeps_node ow prefix x :
  holding I (fun _ => True) (restore_node ow (IOMANX_MOUNT_POINT +:+ "/") prefix x : R unit).
Proof.
  unfold restore_node. cbv zeta. case_match; [by apply holding_ret|]. case_match; [by apply holding_ret|].
  change (take 511 (bytes_of_string (IOMANX_MOUNT_POINT +:+ "/") ++ drop (length prefix) (e_path x)))
    with (root_path ++ take 505 (drop (length prefix) (e_path x))).
  set (rel := take 505 _). clearbody rel.
  assert (Hsay : forall st fmt args, holding I (fun _ => True) (call (Printf st fmt args);; mret tt : R unit)).
  { intros. apply keeps_then; [done|done|]. intros. by apply holding_ret. }
  assert (Hbelow := below_mount_app rel).
  apply (holding_bind I (fun _ => True)).
  { case_match; [by apply holding_ret|]. apply keeps_then; [done|done|]. intros [r st]. by apply holding_ret. }
  intros ex _. destruct ex; [apply Hsay|]. destruct (e_node x) as [content| |target];
    (eapply holding_bind; [apply keeps_parents|]; intros u _).
  - eapply holding_bind.
    { apply (holding_call I (fun fd => fd <> dh)). intros e fd e1 He HI. split.
      - eapply (I_kept _ (IomanX_open _ _ _)); [|done|exact He|done]. unfold fills_or_not, fills. by rewrite Hbelow.
      - intros ->. apply drive_open_new in He. destruct (I_open e HI) as [l Hl]. congruence. }
    intros fd Hfd. case_match; [apply Hsay|]. eapply holding_bind; [apply keeps_content|]. intros v _.
    apply keeps_then; [done|cbn; by apply Z.eqb_neq|]. intros c. eapply holding_bind; [apply keeps_stat|].
    intros w _. apply Hsay.
  - apply keeps_then; [unfold fills_or_not, fills; by rewrite Hbelow|done|]. intros c. apply keeps_stat.
  - apply keeps_then; [unfold fills_or_not, fills; by rewrite Hbelow|done|]. intros c. case_match; apply Hsay.
Qed.

Lemma keeps_nodes ow prefix xs :
  holding I (fun _ => True) (restore_nodes ow (IOMANX_MOUNT_POINT +:+ "/") prefix xs : M unit E Z).
Proof.
  apply (holding_bind I (fun _ => True)); [apply holding_for; intros x; apply keeps_node|]. intros u _. by apply holding_ret.
Qed.
End Keeping.

(** ** One partition of a drive *)

(** What a restore of an archive makes of a partition, given the tree the archive has for
    it: with none, nothing. *)
Definition filled (t : option tree) (before after : string -> option kept) : Prop :=
  match t with
  | Some t =>
      Forall (fun x => after (str x.1) = Some (kept_of x.2)) (tail (nodes root_path t)) /\
      forall q, q ∉ tail (node_paths root_path t) -> after q = before q
  | None => forall q, after q = before q
  end.

(** A partition ready for a restore: where the archive has a tree for it, an empty one. *)
Definition receptive `{TimeLib} (t : option tree) (v : string -> option kept) : Prop :=
  match t with
  | Some t => part_sound t /\ a_dir (v (str root_path)) /\
              Forall (fun q => v q = None) (tail (node_paths root_path t))
  | None => True
  end.

Lemma filled_ext t v1 v2 w1 w2 :
  (forall q, v1 q = v2 q) -> (forall q, w1 q = w2 q) -> filled t v1 w1 -> filled t v2 w2.
Proof.
  intros Hv Hw. destruct t as [t|]; cbn.
  - intros [Hp Ho]. split; [|intros q Hq; by rewrite <- Hv, <- Hw, Ho].
    eapply Forall_impl; [exact Hp|]. intros x Hx. by rewrite <- Hw.
  - intros Ho q. by rewrite <- Hv, <- Hw.
Qed.

Lemma receptive_ext `{TimeLib} t v1 v2 : (forall q, v1 q = v2 q) -> receptive t v1 -> receptive t v2.
Proof.
  intros Hv. destruct t as [t|]; cbn; [|done]. intros (Hs & Hr & Hf). split_and!; [done|by rewrite <- Hv|].
  eapply Forall_impl; [exact Hf|]. intros q Hq. by rewrite <- Hv.
Qed.

(** The tree an archive of the partitions [des] has for the partition [name]. *)
Definition source (vol : string -> option tree) (des : list iox_dirent_t) (name : string) : option tree :=
  if bool_decide (name ∈ (de_name <$> des)) then vol (strncat_dev name) else None.

Section PartRestored.
Context {E : Type} `{FileStore E} `{TimeLib} `{CharSign}.
Context (vol : string -> option tree) (des : list iox_dirent_t).
Context (Hnames : Forall (fun de => name_ok (de_name de)) des) (Hnd : NoDup (de_name <$> des)).

Lemma others_foreign name des' :
  Forall (fun de => name_ok (de_name de)) des' -> name ∉ (de_name <$> des') ->
  Forall (fun de => name_ok (de_name de) /\ name <> de_name de) des'.
Proof using.
  intros Hok Hn. apply Forall_forall. intros de Hde. split; [by apply (proj1 (Forall_forall _ _) Hok)|].
  intros ->. apply Hn. by apply list_elem_of_fmap_2.
Qed.

Lemma restore_spec_fills ow name s e :
  name_ok name -> receptive (source vol des name) (stored e) ->
  wp (restore_nodes ow (IOMANX_MOUNT_POINT +:+ "/") (bytes_of_string (partition_prefix name))
        (concat (part_members vol <$> des)) : M unit E Z)
     (fun r s' e' _ => r = Ret 0 /\ filled (source vol des name) (stored e) (stored e')) s e.
Proof using Hnames Hnd.
  intros Hname. unfold source. case_bool_decide as Hin.
  - apply list_elem_of_fmap in Hin as (de & -> & Hin). apply list_elem_of_split in Hin as (des1 & des2 & ->).
    apply Forall_app in Hnames as [Hn1 [_ Hn2]%Forall_cons]. rewrite fmap_app in Hnd. csimpl in Hnd.
    rewrite <- Permutation_middle in Hnd. apply NoDup_cons in Hnd as [Hnew _]. rewrite <- fmap_app in Hnew.
    pose proof (others_foreign _ _ (Forall_app_2 _ _ _ Hn1 Hn2) Hnew) as Hothers.
    destruct (vol (strncat_dev (de_name de))) as [t|] eqn:Ht.
    + intros (Hs & Hr & Hf). by apply (restore_partition vol ow des1 de des2 t).
    + intros _. rewrite fmap_app, concat_app. csimpl. unfold part_members at 2. rewrite Ht. cbn [app].
      rewrite <- concat_app, <- fmap_app. unfold restore_nodes. apply wp_bind.
      eapply wp_mono; [by apply skip_foreign|]. intros r s' e' t [-> Hs]. cbn [bind_post]. by apply wp_ret.
  - intros _. unfold restore_nodes. apply wp_bind.
    eapply wp_mono; [apply skip_foreign; [done|by apply others_foreign]|].
    intros r s' e' t [-> Hs]. cbn [bind_post]. by apply wp_ret.
Qed.
End PartRestored.

(** ** The partitions of a drive *)

Section DriveRestored.
Context {E : Type} `{DriveStore E} `{TimeLib} `{CharSign}.
Local Abbreviation TM := (M tar_state E).
Context (vol : string -> option tree) (des : list iox_dirent_t).
Context (Hnames : Forall (fun de => name_ok (de_name de)) des) (Hnd : NoDup (de_name <$> des)).
Context (fuel : nat) (arg : option string).
Local Abbreviation xs := (concat (part_members vol <$> des)).
Context (Hxs : Forall entry_ok xs) (Hfuel : (length (archive xs) < fuel)%nat).

(** Between two partitions: [V] is what they hold, [mnt] which can be mounted, [l] what
    the listing [dh] has still to give. *)
Definition between (dh : Z) (l : list iox_dirent_t) (mnt : string -> bool)
    (V : string -> string -> option kept) (e : E) : Prop :=
  0 <= dh /\ still_listed e dh = Some l /\ (forall dev, mountable e dev = mnt dev) /\
  (forall dev q, on_volume e dev q = V dev q) /\ mounted_on e = None.

(** Inside the partition [dev], of which nothing is said. *)
Definition inside (dev : string) (dh : Z) (l : list iox_dirent_t) (mnt : string -> bool)
    (V : string -> string -> option kept) (e : E) : Prop :=
  still_listed e dh = Some l /\ (forall d, mountable e d = mnt d) /\
  (forall d q, d <> dev -> on_volume e d q = V d q) /\ mounted_on e = Some dev.

Lemma inside_kept dev dh l mnt V {A} (c : ioE A) e r e' :
  fills_or_not c = true -> moves dh c = false -> handle c e = (r, e') ->
  inside dev dh l mnt V e -> inside dev dh l mnt V e'.
Proof using.
  intros Hc Hm He (Hl & Hmnt & HV & Hon).
  assert (Hp : part_call c = true) by (unfold part_call; by rewrite Hc).
  destruct (drive_kept _ c e r e' Hp He) as (Hmnt' & Hon' & HV'). split_and!.
  - by apply (listed_kept _ c e r e').
  - intros d. by rewrite Hmnt'.
  - intros d q Hd. rewrite HV', HV; [done..|]. right. congruence.
  - rewrite Hon'; [done|]. by destruct c.
Qed.

(** Calls between partitions that change nothing on them. *)
Lemma between_kept dh l mnt V {A} (c : ioE A) e r e' :
  part_call c = true -> fills c = false -> mounts_or_not c = false -> moves dh c = false ->
  handle c e = (r, e') -> between dh l mnt V e -> between dh l mnt V e'.
Proof using.
  intros Hp Hf Hn Hm He (Hdh & Hl & Hmnt & HV & Hon).
  destruct (drive_kept _ c e r e' Hp He) as (Hmnt' & Hon' & HV'). split_and!; [done|..].
  - by apply (listed_kept _ c e r e').
  - intros d. by rewrite Hmnt'.
  - intros d q. rewrite HV'; [done|by left].
  - by rewrite Hon'.
Qed.

Lemma restore_mounted name ow pos dh l mnt V e :
  name_ok name -> 0 <= dh -> inside (strncat_dev name) dh l mnt V e ->
  (forall q, on_volume e (strncat_dev name) q = V (strncat_dev name) q) ->
  receptive (source vol des name) (V (strncat_dev name)) ->
  wp (restore_from_tar fuel (IOMANX_MOUNT_POINT +:+ "/") (bytes_of_string (partition_prefix name)) : TM Z)
     (fun r s' e' _ => r = Ret 0 /\ (exists pos', s' = mk_tar (archive xs) pos' ow) /\
        inside (strncat_dev name) dh l mnt V e' /\
        filled (source vol des name) (V (strncat_dev name)) (on_volume e' (strncat_dev name)))
     (mk_tar (archive xs) pos ow) e.
Proof using Hnames Hnd Hxs Hfuel.
  intros Hname Hdh Hin HV Hrec. eapply refines_wp; [by apply archive_refines|].
  assert (Hst : forall e', mounted_on e' = Some (strncat_dev name) -> forall q, stored e' q = on_volume e' (strncat_dev name) q).
  { intros e' Hon q. by apply mounted_stored. }
  eapply wp_mono; [apply wp_and|].
  - apply (restore_spec_fills vol des Hnames Hnd ow name); [done|].
    eapply receptive_ext; [|exact Hrec]. intros q. rewrite Hst, HV; [done|]. apply Hin.
  - apply (keeps_nodes (inside (strncat_dev name) dh l mnt V) dh); [| |exact Hin].
    + intros A c e1 r e2. apply inside_kept.
    + intros e1 He1. exists l. apply He1.
  - cbv beta. intros r s' e' t [[-> Hf] [Hin' _]]. split_and!; [done|by eexists|done|].
    eapply filled_ext; [| |exact Hf]; intros q; rewrite Hst; try apply HV; try apply Hin'; try done. apply Hin.
Qed.

(** A turn of the loop of [part_tar]. *)
Definition restore_turn (dh : Z) (_ : unit) : TM (unit + unit) :=
  '(result, de) ← call (IomanX_dread dh);
  if (result =? 0) || (result =? -1) then mret (inr tt)
  else if is_pfs_main de then
    printf (ln "(%s) %s") [PStr "hdd0:"; PStr (de_name de)];;
    if selected arg (de_name de) then
      result ← call (IomanX_mount IOMANX_MOUNT_POINT (strncat_dev (de_name de)) FIO_MT_RDWR ArgNull 0);
      if result <? 0 then
        eprintf (ln "(!) %s: %s.") [PStr (strncat_dev (de_name de)); PStrerror (- result)];;
        mret (inl tt)
      else
        restore_from_tar fuel (IOMANX_MOUNT_POINT +:+ "/") (bytes_of_string (partition_prefix (de_name de)));;
        call (IomanX_umount IOMANX_MOUNT_POINT);;
        mret (inl tt)
    else mret (inl tt)
  else mret (inl tt).

Lemma part_tar_eq :
  part_tar fuel arg =
  (dh ← call (IomanX_dopen "hdd0:");
   if 0 <=? dh then
     loop fuel (restore_turn dh) tt;;
     result ← call (IomanX_close dh);
     if result <? 0 then printf (ln "(!) dclose: failed with %d") [PInt result];; mret (-1) else mret 0
   else printf (ln "(!) dopen: failed with %d") [PInt dh];; mret dh : TM Z).
Proof using. reflexivity. Qed.

(** The archive is open, and nothing but the place in it changes. *)
Definition in_archive (ow : bool) (s : tar_state) : Prop := exists pos, s = mk_tar (archive xs) pos ow.

(** What the turns on the partitions [ps] make of [V]. *)
Definition chosen (mnt : string -> bool) (ps : list iox_dirent_t) : list iox_dirent_t :=
  List.filter (fun de => wanted arg de && mnt (strncat_dev (de_name de))) ps.

Definition drive_filled (mnt : string -> bool) (ps : list iox_dirent_t) (V W : string -> string -> option kept) : Prop :=
  Forall (fun de => filled (source vol des (de_name de)) (V (strncat_dev (de_name de))) (W (strncat_dev (de_name de))))
    (chosen mnt ps) /\
  forall dev, dev ∉ ((fun de => strncat_dev (de_name de)) <$> chosen mnt ps) -> forall q, W dev q = V dev q.

(** The partitions a restore comes to are ready for it. *)
Definition ready_for (mnt : string -> bool) (V : string -> string -> option kept) (ps : list iox_dirent_t) : Prop :=
  Forall (fun de => name_ok (de_name de) /\ receptive (source vol des (de_name de)) (V (strncat_dev (de_name de))))
    (chosen mnt ps).

Ltac keep_between Hu Hv :=
  lazymatch type of Hu with
  | handle ?c ?e = (?r, ?e') => apply (between_kept _ _ _ _ c e r e' eq_refl eq_refl eq_refl eq_refl Hu) in Hv
  end.

Lemma drive_filled_ext mnt ps V W X :
  (forall dev q, X dev q = W dev q) -> drive_filled mnt ps V W -> drive_filled mnt ps V X.
Proof using.
  intros HX [F O]. split; [|intros d Hd' q; by rewrite HX, O].
  eapply Forall_impl; [exact F|]. intros x Hx. eapply filled_ext; [done| |exact Hx]. done.
Qed.

Lemma drive_filled_skip mnt de V :
  wanted arg de && mnt (strncat_dev (de_name de)) = false -> drive_filled mnt [de] V V.
Proof using. intros Hw. unfold drive_filled, chosen. cbn [List.filter]. by rewrite Hw. Qed.

(** What a partition's mount does: nothing to what is on the partitions. *)
Lemma mount_kept {A} (c : ioE A) dh l mnt V e r e' :
  mounts_or_not c = true -> handle c e = (r, e') -> still_listed e dh = Some l ->
  (forall dev, mountable e dev = mnt dev) -> (forall dev q, on_volume e dev q = V dev q) ->
  still_listed e' dh = Some l /\ (forall dev, mountable e' dev = mnt dev) /\
  (forall dev q, on_volume e' dev q = V dev q).
Proof using.
  intros Hc He Hl Hmnt HV.
  assert (Hp : part_call c = true /\ fills c = false /\ moves dh c = false) by by destruct c.
  destruct Hp as (Hp & Hf & Hm). destruct (drive_kept _ c e r e' Hp He) as (Hmnt' & _ & HV'). split_and!.
  - by apply (listed_kept _ c e r e').
  - intros d. by rewrite Hmnt'.
  - intros d q. rewrite HV'; [done|by left].
Qed.

(** From the mount of a partition to its unmount. *)
Lemma restore_unmounted name ow dh l mnt V s e :
  name_ok name -> 0 <= dh -> in_archive ow s -> inside (strncat_dev name) dh l mnt V e ->
  (forall q, on_volume e (strncat_dev name) q = V (strncat_dev name) q) ->
  receptive (source vol des name) (V (strncat_dev name)) ->
  wp (restore_from_tar fuel (IOMANX_MOUNT_POINT +:+ "/") (bytes_of_string (partition_prefix name));;
      call (IomanX_umount IOMANX_MOUNT_POINT);; mret (inl tt) : TM (unit + unit))
     (fun r s' e' _ => r = Ret (inl tt) /\ in_archive ow s' /\
        exists W, between dh l mnt W e' /\
          filled (source vol des name) (V (strncat_dev name)) (W (strncat_dev name)) /\
          forall d q, d <> strncat_dev name -> W d q = V d q) s e.
Proof using Hnames Hnd Hxs Hfuel.
  intros Hname Hdh [pos ->] Hin HV Hrec. apply wp_bind. eapply wp_mono; [by apply (restore_mounted name ow pos dh l mnt V)|].
  intros r s' e5 tr (-> & Hs' & (Hl5 & Hmnt5 & HV5 & Hon5) & Hfill). cbn [bind_post].
  apply wp_bind, wp_call. intros v e6 Hv6. cbn [bind_post].
  destruct (mount_kept (IomanX_umount IOMANX_MOUNT_POINT) dh l mnt (on_volume e5) e5 v e6 eq_refl Hv6 Hl5 Hmnt5 (fun _ _ => eq_refl))
    as (Hl6 & Hmnt6 & HV6).
  apply wp_ret. split_and!; [done|done|]. exists (on_volume e5). split; [|split; [done|]].
  - split_and!; [done..|]. by apply (drive_umount e5 v).
  - intros d q Hd. by rewrite HV5.
Qed.

Lemma restore_turn_wp dh de l mnt V ow s e :
  between dh (de :: l) mnt V e -> in_archive ow s -> ready_for mnt V [de] ->
  wp (restore_turn dh tt) (fun r s' e' _ =>
    r = Ret (inl tt) /\ in_archive ow s' /\
    exists W, between dh l mnt W e' /\ drive_filled mnt [de] V W) s e.
Proof using Hnames Hnd Hxs Hfuel.
  intros (Hdh & Hl & Hmnt & HV & Hon) Hs Hok. destruct (drive_dread e dh de l Hl) as (r & e1 & He & Hr & Hl1).
  destruct (drive_kept _ (IomanX_dread dh) e _ _ eq_refl He) as (Hmnt1 & Hon1 & HV1).
  assert (Hv : between dh l mnt V e1).
  { split_and!; [done|done|intros d; by rewrite Hmnt1|intros d q; rewrite HV1; [done|by left]|by rewrite Hon1]. }
  unfold restore_turn. apply wp_bind, wp_call. intros y e2 Hy. rewrite He in Hy. injection Hy as <- <-. cbn [bind_post].
  rewrite (proj2 (Z.eqb_neq r 0)), (proj2 (Z.eqb_neq r (-1))) by lia. cbn [orb].
  assert (Hskip : forall e', wanted arg de && mnt (strncat_dev (de_name de)) = false -> between dh l mnt V e' ->
            wp (mret (inl tt) : TM (unit + unit)) (fun r s' e' _ => r = Ret (inl tt) /\ in_archive ow s' /\
              exists W, between dh l mnt W e' /\ drive_filled mnt [de] V W) s e').
  { intros e' Hw Hv'. apply wp_ret. split_and!; [done..|]. exists V. split; [done|]. by apply drive_filled_skip. }
  unfold wanted in Hskip. destruct (is_pfs_main de) eqn:Hmain; [|by apply Hskip].
  apply wp_bind, wp_call. intros u e3 Hu. cbn [bind_post]. keep_between Hu Hv.
  destruct (selected arg (de_name de)) eqn:Hsel; [|by apply Hskip].
  apply wp_bind, wp_call. intros m e4 Hm. cbn [bind_post]. destruct Hv as (_ & Hl3 & Hmnt3 & HV3 & Hon3).
  pose proof (drive_mount e3 _ m e4 Hon3 Hm) as Hmount. rewrite Hmnt3 in Hmount.
  destruct (mount_kept (IomanX_mount _ _ _ _ _) dh l mnt V e3 m e4 eq_refl Hm Hl3 Hmnt3 HV3) as (Hl4 & Hmnt4 & HV4).
  destruct (mnt (strncat_dev (de_name de))) eqn:Hmt; destruct Hmount as [Hmr Hon4].
  2:{ rewrite (proj2 (Z.ltb_lt m 0)) by done. apply wp_bind, wp_call. intros v e5 Hv5. cbn [bind_post].
      assert (Hv4 : between dh l mnt V e4) by done. keep_between Hv5 Hv4. by apply Hskip. }
  rewrite (proj2 (Z.ltb_ge m 0)) by done. unfold ready_for, drive_filled, chosen in *. cbn [List.filter] in *.
  unfold wanted in Hok |- *. rewrite Hmain, Hsel, Hmt in *. cbn [andb] in *. apply Forall_cons in Hok as [[Hname Hrec] _].
  eapply wp_mono; [by apply (restore_unmounted (de_name de) ow dh l mnt V)|].
  intros r' s' e5 tr (-> & Hs' & W & HW & Hfill & Ho). split_and!; [done|done|]. exists W. split; [done|]. split; [constructor; [done|constructor]|].
  intros d Hd q. apply Ho. by apply not_elem_of_cons in Hd as [Hd _].
Qed.

Lemma chosen_cons mnt de ps : chosen mnt (de :: ps) = chosen mnt [de] ++ chosen mnt ps.
Proof using. unfold chosen. cbn [List.filter]. by destruct (_ && _). Qed.

(** One partition, then others with names of their own. *)
Lemma drive_filled_cons mnt de ps V W X :
  NoDup ((fun de => strncat_dev (de_name de)) <$> chosen mnt (de :: ps)) ->
  drive_filled mnt [de] V W -> drive_filled mnt ps W X -> drive_filled mnt (de :: ps) V X.
Proof using.
  intros Hd [F1 O1] [F2 O2]. unfold drive_filled. rewrite (chosen_cons mnt de ps), fmap_app in *.
  apply NoDup_app in Hd as (_ & Hd & _).
  assert (Hd' : forall x, x ∈ chosen mnt ps -> forall q, W (strncat_dev (de_name x)) q = V (strncat_dev (de_name x)) q).
  { intros x Hx. apply O1. intros Hin. by apply (Hd _ Hin), (list_elem_of_fmap_2 (fun de => strncat_dev (de_name de))). }
  split.
  - apply Forall_app. split; apply Forall_forall; intros x Hx.
    + pose proof (proj1 (Forall_forall _ _) F1 x Hx) as Hf. eapply filled_ext; [done| |exact Hf]. intros q.
      symmetry. apply O2, Hd. by apply (list_elem_of_fmap_2 (fun de => strncat_dev (de_name de))).
    + pose proof (proj1 (Forall_forall _ _) F2 x Hx) as Hf. eapply filled_ext; [by apply Hd'|done|exact Hf].
  - intros dev [Hn1 Hn2]%not_elem_of_app q. by rewrite O2, O1.
Qed.

Lemma ready_for_next mnt de ps V W :
  NoDup ((fun de => strncat_dev (de_name de)) <$> chosen mnt (de :: ps)) ->
  drive_filled mnt [de] V W -> ready_for mnt V ps -> ready_for mnt W ps.
Proof using.
  intros Hd [_ O1] Hr. rewrite (chosen_cons mnt de ps), fmap_app in Hd. apply NoDup_app in Hd as (_ & Hd & _).
  apply Forall_forall. intros x Hx. destruct (proj1 (Forall_forall _ _) Hr x Hx) as [Hname Hrec].
  split; [done|]. eapply receptive_ext; [|exact Hrec]. intros q. symmetry. apply O1. intros Hin.
  by apply (Hd _ Hin), (list_elem_of_fmap_2 (fun de => strncat_dev (de_name de))).
Qed.

Lemma restores_loop ps dh mnt V ow k s e :
  between dh ps mnt V e -> in_archive ow s -> ready_for mnt V ps ->
  NoDup ((fun de => strncat_dev (de_name de)) <$> chosen mnt ps) -> (length ps < k)%nat ->
  wp (loop k (restore_turn dh) tt) (fun r s' e' _ =>
    r = Ret tt /\ in_archive ow s' /\ drive_filled mnt ps V (on_volume e')) s e.
Proof using Hnames Hnd Hxs Hfuel.
  revert V k s e. induction ps as [|de ps IH]; intros V k s e Hv Hs Hok Hd Hk;
    (destruct k as [|k]; [cbn in Hk; lia|]); apply wp_loop_S.
  - destruct Hv as (Hdh & Hl & Hmnt & HV & Hon). destruct (drive_dread_end e dh Hl) as (de & e1 & He).
    destruct (drive_kept _ (IomanX_dread dh) e _ _ eq_refl He) as (Hmnt1 & Hon1 & HV1).
    unfold restore_turn. apply wp_bind, wp_call. intros y e2 Hy. rewrite He in Hy. injection Hy as <- <-.
    cbn [bind_post orb Z.eqb]. apply wp_ret. cbn [bind_post]. apply wp_ret. split_and!; [done|done|]. split; [constructor|].
    intros dev _ q. rewrite HV1; [done|by left].
  - rewrite (chosen_cons mnt de ps) in Hd. unfold ready_for in Hok. rewrite (chosen_cons mnt de ps) in Hok. apply Forall_app in Hok as [Hok1 Hok2].
    rewrite <- (chosen_cons mnt de ps) in Hd. cbn in Hk.
    eapply wp_mono; [by apply (restore_turn_wp dh de ps mnt V ow)|].
    intros r s' e1 t (-> & Hs' & W & HW & Hf). cbn [bind_post]. eapply wp_mono.
    { apply (IH W k); [done|done|by apply (ready_for_next mnt de ps V)| |lia].
      rewrite (chosen_cons mnt de ps), fmap_app in Hd. by apply NoDup_app in Hd as (_ & _ & Hd). }
    intros r s'' e2 t' (-> & Hs'' & Hf'). split_and!; [done|done|]. by apply (drive_filled_cons mnt de ps V W).
Qed.

(** Partitions with names of their own are devices of their own. *)
Lemma chosen_devices mnt V ps :
  ready_for mnt V ps -> NoDup (de_name <$> chosen mnt ps) ->
  NoDup ((fun de => strncat_dev (de_name de)) <$> chosen mnt ps).
Proof using.
  unfold ready_for. induction (chosen mnt ps) as [|de l IH]; csimpl; [done|].
  intros [[Hde _] Hl]%Forall_cons [Hnew Hd']%NoDup_cons. apply NoDup_cons. split; [|by apply IH].
  intros (x & Hx & Hin)%list_elem_of_fmap. apply Hnew. apply list_elem_of_fmap. exists x. split; [|done].
  destruct (proj1 (Forall_forall _ _) Hl x Hin) as [Hname _]. by apply strncat_dev_inj.
Qed.

Lemma part_tar_wp ow mnt V ps s e :
  mounted_on e = None -> (forall dev, mountable e dev = mnt dev) -> (forall dev q, on_volume e dev q = V dev q) ->
  targets e = ps -> in_archive ow s -> ready_for mnt V ps -> NoDup (de_name <$> chosen mnt ps) -> (length ps < fuel)%nat ->
  wp (part_tar fuel arg : TM Z) (fun r s' e' _ =>
    (exists v, r = Ret v) /\ in_archive ow s' /\ drive_filled mnt ps V (on_volume e')) s e.
Proof using Hnames Hnd Hxs Hfuel.
  intros Hon Hmnt HV <- Hs Hok Hd Hlen. rewrite part_tar_eq. destruct (drive_dopen e) as (dh & e1 & He & Hdh & Hl).
  destruct (drive_kept _ (IomanX_dopen "hdd0:") e dh e1 eq_refl He) as (Hmnt1 & Hon1 & HV1).
  apply wp_bind, wp_call. intros y e2 Hy. rewrite He in Hy. injection Hy as <- <-. cbn [bind_post].
  rewrite (proj2 (Z.leb_le 0 dh)) by done. apply wp_bind. eapply wp_mono.
  { apply (restores_loop (targets e) dh mnt V ow); [|done..|by eapply chosen_devices|done].
    split_and!; [done..|intros d; by rewrite Hmnt1|intros d q; rewrite HV1; [done|by left]|by rewrite Hon1]. }
  intros r s' e3 t (-> & Hs' & Hf). cbn [bind_post]. apply wp_bind, wp_call. intros c e4 Hc. cbn [bind_post].
  destruct (drive_kept _ (IomanX_close dh) e3 c e4 eq_refl Hc) as (_ & _ & HV4).
  assert (Hf4 : drive_filled mnt (targets e) V (on_volume e4)).
  { eapply drive_filled_ext; [|exact Hf]. intros d q. rewrite HV4; [done|by left]. }
  apply wp_if; intros _; [|apply wp_ret; split; [by eexists|done]].
  apply wp_bind, wp_call. intros u e5 Hu. cbn [bind_post].
  destruct (drive_kept _ (Printf _ _ _) e4 u e5 eq_refl Hu) as (_ & _ & HV5).
  apply wp_ret. split; [by eexists|]. split; [done|]. eapply drive_filled_ext; [|exact Hf4].
  intros d q. rewrite HV5; [done|by left].
Qed.
End DriveRestored.
