(* ===== verification/TarTreeProps.v ===== *)
(** * Backing up and restoring a drive: the round trip *)

From S2P Require Import Prelude IoWorld Trace Modes Clock Tar Atad TarMain TarTree TarRestored TarDrive.

(** ** The program around the archive *)

(** The calls that [main] makes around the walk. *)
Definition host_side {A} (c : ioE A) : bool :=
  match c with
  | Init_module _ _ | Host_open _ _ _ | Host_lseek _ _ _ | Host_close _ | Host_fopen _ _ | Host_unlink _
  | Printf _ _ _ => true
  | _ => false
  end.

(** What a run needs of the host: the image of the disk can be opened, the drivers start,
    the archive can be opened in [mode], and none of it changes what [same] says of the
    drive. *)
Class Hosted (E : Type) `{Handler E} (same : E -> E -> Prop) (archive mode : string) := {
  hosted_order :: PreOrder same;
  hosted_disk : forall e path fd e', handle (Host_open path host_O_RDWR 0) e = (fd, e') -> fd <> -1;
  hosted_seek : forall e fd r e', handle (Host_lseek fd 0 host_SEEK_END) e = (r, e') -> r <> -1;
  hosted_module : forall e name args r e', handle (Init_module name args) e = (r, e') -> 0 <= r;
  hosted_fopen : forall e r e', handle (Host_fopen archive mode) e = (r, e') -> r = true;
  hosted_same : forall A (c : ioE A) e r e', host_side c = true -> handle c e = (r, e') -> same e e'
}.

Section Program.
Context {E : Type} `{Handler E} `{TimeLib} `{CharSign}.
Local Abbreviation P := (M tar_main E).
Context (same : E -> E -> Prop) (name : string) (backup : bool).
Context `{!Hosted E same name (if backup then "wb" else "rb")}.

(** A call of that side, after which the drive is still as it was. *)
Ltac host_call r He Hs :=
  apply wp_bind, wp_call; let e := fresh "e" in intros r e He; cbn [bind_post];
  lazymatch type of He with
  | handle ?c ?e0 = (?x, ?e1) => apply (fun Hsame => transitivity Hsame (hosted_same _ c e0 x e1 eq_refl He)) in Hs
  end.

(** The disk is opened. *)
Lemma disk_opened hdd (s : tar_main) e :
  wp (zoom tm_atad set_tm_atad (set_atad_device_path hdd) : P unit)
     (fun r s' e' _ => r = Ret tt /\ tm_tar s' = tm_tar s /\ same e e') s e.
Proof using Hosted0.
  apply wp_zoom. assert (Hs : same e e) by reflexivity. unfold set_atad_device_path, set_atad_device_handle.
  host_call fd Hfd Hs. rewrite (proj2 (Z.eqb_neq fd (-1))) by by eapply hosted_disk.
  apply wp_bind, wp_bind. host_call sz Hsz Hs. rewrite (proj2 (Z.eqb_neq sz (-1))) by by eapply hosted_seek.
  cbn [negb]. do 2 (apply wp_bind, wp_modify; cbn [bind_post]). do 3 (apply wp_ret; cbn [bind_post]). done.
Qed.

Lemma module_starts m args msg (s : tar_main) e :
  wp (tar_module m args msg : P bool) (fun r s' e' _ => r = Ret true /\ s' = s /\ same e e') s e.
Proof using Hosted0.
  assert (Hs : same e e) by reflexivity. unfold tar_module. host_call r Hr Hs.
  rewrite (proj2 (Z.ltb_ge r 0)) by by eapply hosted_module. by apply wp_ret.
Qed.

(** What is done to the archive and the disk at the end. *)
Lemma program_ends s e :
  wp (remove_if_empty name;; zoom tm_atad set_tm_atad atad_close;; mret 0 : P Z)
     (fun r s' e' _ => r = Ret 0 /\ tarfile_data (tm_tar s') = tarfile_data (tm_tar s) /\ same e e') s e.
Proof using Hosted0.
  assert (Hs : same e e) by reflexivity.
  assert (Hend : forall e', same e e' -> wp (zoom tm_atad set_tm_atad atad_close;; mret 0 : P Z)
     (fun r s' e' _ => r = Ret 0 /\ tarfile_data (tm_tar s') = tarfile_data (tm_tar s) /\ same e e') s e').
  { intros e1 Hs1. unfold atad_close. apply wp_bind, wp_zoom, wp_bind, wp_get. cbn [bind_post].
    apply wp_when; intros _; [|by apply wp_ret]. host_call r Hr Hs1. apply wp_modify. by apply wp_ret. }
  unfold remove_if_empty. apply wp_bind. host_call there Hthere Hs. apply wp_when; intros _; [|by apply Hend].
  apply wp_bind, wp_get. cbn [bind_post]. apply wp_when; intros _; [|by apply Hend].
  host_call u Hu Hs. apply wp_call. intros v e2 Hv. cbn [bind_post]. apply Hend.
  etrans; [exact Hs|]. exact (hosted_same _ (Printf _ _ _) _ v e2 eq_refl Hv).
Qed.

(** A run, up to what it does to the archive. *)
Lemma tar_run_wp fuel part hdd (Post : list Z -> E -> Prop) s e :
  (forall d e1 e2, Post d e1 -> same e1 e2 -> Post d e2) ->
  (forall s1 e1, same e e1 -> tm_tar s1 = (if backup then opened_wb else opened_rb) (tm_tar s) ->
     wp (tar_work fuel backup part hdd name) (fun r s' e' _ => r = Ret tt /\ Post (tarfile_data (tm_tar s')) e') s1 e1) ->
  wp (tar_run fuel backup part hdd name : P Z)
     (fun r s' e' _ => r = Ret 0 /\ Post (tarfile_data (tm_tar s')) e') s e.
Proof using Hosted0.
  intros HPost Hwork. unfold tar_run. apply wp_bind. eapply wp_mono; [apply disk_opened|].
  intros r s1 e1 t1 (-> & Ht1 & Hs). cbn [bind_post].
  do 2 (apply wp_bind; eapply wp_mono; [apply module_starts|]; intros ? ? ? ? (-> & -> & ?%(transitivity Hs));
        clear Hs; rename select (same e _) into Hs; cbn [bind_post negb]).
  host_call ok Hok Hs. rewrite (hosted_fopen _ _ _ Hok). cbn [negb].
  apply wp_bind, wp_zoom, wp_modify. cbn [bind_post]. apply wp_bind. eapply wp_mono.
  { apply Hwork; [exact Hs|]. cbn [tm_tar set_tm_tar]. by rewrite Ht1. }
  intros r s2 e2 t2 (-> & HP). cbn [bind_post]. eapply wp_mono; [apply program_ends|].
  intros r s3 e3 t3 (-> & -> & H23). split; [done|]. by eapply HPost.
Qed.
End Program.

(** ** The round trip *)

Definition shows_same {E} `{DriveReads E} (e e' : E) : Prop :=
  (forall dev, volume e' dev = volume e dev) /\ parts e' = parts e.

Definition holds_same {E} `{DriveStore E} (f f' : E) : Prop :=
  mounted_on f' = mounted_on f /\ targets f' = targets f /\
  (forall dev, mountable f' dev = mountable f dev) /\ (forall dev q, on_volume f' dev q = on_volume f dev q).

Lemma backup_work {E} `{DriveReads E} `{TimeLib} `{CharSign} fuel arg hdd name vol ps (s : tar_main) (e : E) :
  has_volumes vol e -> parts e = ps -> tarfile_data (tm_tar s) = [] -> tarfile_pos (tm_tar s) = 0%nat ->
  Forall (part_ok vol fuel) (List.filter (wanted arg) ps) -> (length ps < fuel)%nat ->
  wp (tar_work fuel true arg hdd name) (fun r s' _ _ =>
    r = Ret tt /\ tarfile_data (tm_tar s') = archive (backup_members vol arg ps)) s e.
Proof.
  intros Hvol Hps Hd0 Hp0 Hok Hlen. destruct s as [[d p ow] a]. cbn in Hd0, Hp0. subst d p.
  unfold tar_work. apply wp_bind, wp_call. intros u e1 He1. cbn [bind_post].
  destruct (volume_kept _ (Printf Stdout _ _) e u e1 eq_refl He1) as [Hvol1 Hparts].
  apply wp_bind, wp_zoom. eapply wp_mono.
  { apply (tar_part_wp vol ps); [|by rewrite Hparts|done..]. intros dev. by rewrite Hvol1. }
  intros r s' e2 t ((v & ->) & ->). cbn [bind_post].
  apply wp_bind, wp_zoom, wp_modify. cbn [bind_post]. apply wp_zoom, wp_modify.
  cbn [tm_tar set_tm_tar]. rewrite (file_write_end (replicate 512 0) (append _ _)) by by apply append_at_end.
  rewrite file_write_end by (by do 2 apply append_at_end). rewrite !append_append.
  split; [done|]. cbn [append tarfile_data app]. by rewrite <- replicate_add.
Qed.

Lemma restore_work {E} `{DriveStore E} `{TimeLib} `{CharSign} vol des fuel arg hdd name mnt V ps (s : tar_main) (e : E) :
  Forall (fun de => name_ok (de_name de)) des -> NoDup (de_name <$> des) ->
  Forall entry_ok (concat (part_members vol <$> des)) ->
  (length (archive (concat (part_members vol <$> des))) < fuel)%nat ->
  tarfile_data (tm_tar s) = archive (concat (part_members vol <$> des)) ->
  mounted_on e = None -> (forall dev, mountable e dev = mnt dev) -> (forall dev q, on_volume e dev q = V dev q) ->
  targets e = ps -> ready_for vol des arg mnt V ps -> NoDup (de_name <$> chosen arg mnt ps) -> (length ps < fuel)%nat ->
  wp (tar_work fuel false arg hdd name)
     (fun r s' e' _ => r = Ret tt /\ drive_filled vol des arg mnt ps V (on_volume e')) s e.
Proof.
  intros Hnames Hnd Hxs Hfuel Hdata Hon Hmnt HV Hps Hready Hchosen Hlen.
  unfold tar_work. apply wp_bind, wp_call. intros u e1 He1. cbn [bind_post].
  destruct (drive_kept _ (Printf Stdout _ _) e u e1 eq_refl He1) as (Hmnt1 & Hon1 & HV1).
  pose proof (targets_kept _ (Printf Stdout _ _) e u e1 eq_refl He1) as Hps1.
  apply wp_bind, wp_zoom. eapply wp_mono.
  { apply (part_tar_wp vol des Hnames Hnd fuel arg Hxs Hfuel (overwrite_mode (tm_tar s)) mnt V ps); try done.
    - by rewrite Hon1.
    - intros d. by rewrite Hmnt1.
    - intros d q. rewrite HV1; [done|by left].
    - by rewrite Hps1.
    - exists (tarfile_pos (tm_tar s)). rewrite <- Hdata. by destruct (tm_tar s). }
  intros r s' e2 t ((v & ->) & _ & Hf). cbn [bind_post]. by apply wp_ret.
Qed.

(** The program, up to what is done in the mode it is called in. *)
Lemma tar_program_wp {E} `{Handler E} `{TimeLib} `{CharSign} same name (backup : bool)
    `{!Hosted E same name (if backup then "wb" else "rb")} fuel argv part (Post : list Z -> E -> Prop) (s : tar_main) e :
  argv !! 1%nat = Some (if backup then "--backup" else "--restore")%string -> (3 <= length argv)%nat ->
  tar_names argv = Some (part, name) ->
  (backup = true -> exists e0, handle (Host_fopen name "rb") e = (false, e0)) ->
  (forall d e1 e2, Post d e1 -> same e1 e2 -> Post d e2) ->
  (forall s1 e1 hdd, same e e1 -> tarfile_data (tm_tar s1) = (if backup then [] else tarfile_data (tm_tar s)) ->
     tarfile_pos (tm_tar s1) = 0%nat ->
     wp (tar_work fuel backup part hdd name) (fun r s' e' _ => r = Ret tt /\ Post (tarfile_data (tm_tar s')) e') s1 e1) ->
  wp (tar_program fuel argv : M tar_main E Z)
     (fun r s' e' _ => r = Ret 0 /\ Post (tarfile_data (tm_tar s')) e') s e.
Proof.
  intros Harg Hlen Hnames Hfree HPost Hwork. unfold tar_program. rewrite Harg. cbn [default from_option id].
  rewrite (proj2 (Nat.ltb_ge _ _)) by done.
  assert (Hrun : forall s1 e1, same e e1 -> tarfile_data (tm_tar s1) = tarfile_data (tm_tar s) ->
    wp (tar_run fuel backup part (default "" (argv !! 2%nat)) name : M tar_main E Z)
       (fun r s' e' _ => r = Ret 0 /\ Post (tarfile_data (tm_tar s')) e') s1 e1).
  { intros s1 e1 Hs1 Hd1. apply (tar_run_wp same name backup fuel part _ Post); [done|]. intros s2 e2 Hs2 Ht2.
    apply Hwork; [by etrans|..]; rewrite Ht2; destruct backup; done. }
  assert (Hmode : bool_decide ((if backup then "--backup" else "--restore")%string = "--backup"%string) = backup)
    by by destruct backup.
  rewrite Hmode. replace (negb (backup || _)) with false by by destruct backup. rewrite Hnames.
  apply wp_bind. apply wp_when; intros _; [apply wp_zoom, wp_modify|]; cbn [bind_post]; apply wp_bind; destruct backup.
  1, 3: destruct (Hfree eq_refl) as [e0 He0]; apply wp_call; intros b e1 Hb; rewrite He0 in Hb; injection Hb as <- <-;
    cbn [bind_post]; apply Hrun; [exact (hosted_same _ (Host_fopen name "rb") e false e0 eq_refl He0)|done].
  all: apply wp_ret; cbn [bind_post]; apply Hrun; [reflexivity|done].
Qed.

(** C1: what is backed up is restored.  Run with [--backup], on a drive whose partitions
    show trees that fit the format, the program returns 0 and has written the archive of
    exactly the nodes of the partitions it was asked for, each directory before what is
    in it.  Run with [--restore] on that archive, on any drive that stores what it is told
    to, it returns 0, and every partition it was asked for that it can mount holds the
    tree the archive has for it: each file with its content, its permissions and its time,
    each directory with its permissions, each link with its target; and nothing else has
    changed, on these partitions or others.  Both for every pair of command lines in the
    two modes that name the archive, and for every answer of the drivers and the host the
    interfaces allow. *)
Theorem pfs2tar_round_trip {E E' : Type} `{DriveReads E} `{DriveStore E'} `{TimeLib} `{CharSign} name
    `{!Hosted E shows_same name "wb"} `{!Hosted E' holds_same name "rb"}
    fuel fuel' argv argv' arg arg' (s : tar_main) (e e0 : E) :
  let des := List.filter (wanted arg) (parts e) in
  let xs := backup_members (volume e) arg (parts e) in
  argv !! 1%nat = Some "--backup"%string -> (3 <= length argv)%nat -> tar_names argv = Some (arg, name) ->
  argv' !! 1%nat = Some "--restore"%string -> (3 <= length argv')%nat -> tar_names argv' = Some (arg', name) ->
  handle (Host_fopen name "rb") e = (false, e0) ->
  Forall (part_ok (volume e) fuel) des -> (length (parts e) < fuel)%nat ->
  Forall (fun de => name_ok (de_name de)) des -> NoDup (de_name <$> des) ->
  wp (tar_program fuel argv) (fun r s1 _ _ =>
    r = Ret 0 /\ tarfile_data (tm_tar s1) = archive xs /\
    forall (s2 : tar_main) (f : E'),
      tarfile_data (tm_tar s2) = tarfile_data (tm_tar s1) -> mounted_on f = None ->
      ready_for (volume e) des arg' (mountable f) (on_volume f) (targets f) ->
      NoDup (de_name <$> chosen arg' (mountable f) (targets f)) ->
      (length (archive xs) < fuel')%nat -> (length (targets f) < fuel')%nat ->
      wp (tar_program fuel' argv') (fun r' _ f' _ =>
        r' = Ret 0 /\
        drive_filled (volume e) des arg' (mountable f) (targets f) (on_volume f) (on_volume f')) s2 f) s e.
Proof.
  intros des xs Hb Hlen Hn Hr Hlen' Hn' Hfree Hok Hfuel Hnames Hnd. eapply wp_mono.
  { apply (tar_program_wp shows_same name true fuel argv arg (fun d _ => d = archive xs)); [done..|by eexists|done|].
    intros s1 e1 hdd [Hvol Hparts] Hd Hp. eapply wp_mono; [by apply (backup_work fuel arg hdd name (volume e) (parts e))|done]. }
  intros r s1 e1 t [-> Hdata]. split_and!; [done|done|]. intros s2 f Hs2 Hon Hready Hchosen Hf1 Hf2. rewrite Hdata in Hs2.
  apply (tar_program_wp holds_same name false fuel' argv' arg'
    (fun _ f' => drive_filled (volume e) des arg' (mountable f) (targets f) (on_volume f) (on_volume f'))); [done..| |].
  - intros d f1 f2 Hf (_ & _ & _ & HV). by eapply drive_filled_ext.
  - intros s3 f3 hdd (Hon3 & Hps3 & Hmnt3 & HV3) Hd3 _. eapply wp_mono.
    + apply (restore_work (volume e) des fuel' arg' hdd name (mountable f) (on_volume f) (targets f)); try done.
      * by apply (backup_entry_ok _ fuel).
      * by rewrite Hd3, Hs2.
      * by rewrite Hon3.
    + done.
Qed.

(** ** A drive *)

Module SampleDrive.
Import Sample.
#[local] Instance signed_char : CharSign := true.

Definition part_stat : iox_stat_t :=
  mk_iox_stat 0x0100 0 0 (replicate 8 0) (replicate 8 0) (replicate 8 0) 0 0 0 0 0 0 0.

(** One partition, of a directory with a file, a link and an empty directory. *)
Definition games : tree :=
  TDir (sample_stat 0x11ED 0)
    [("a", TFile (sample_stat 0x21B4 5) (bytes_of_string "hello"));
     ("d", TDir (sample_stat 0x11ED 0) [("l", TLink (sample_stat 0x41FF 0) (bytes_of_string "a/b"))]);
     ("e", TDir (sample_stat 0x11ED 0) [])]%string.

Definition listing : list iox_dirent_t :=
  [mk_iox_dirent part_stat "P"; mk_iox_dirent (sample_stat 0x1337 0) "PP.HDL"; mk_iox_dirent part_stat "Q"]%string.

(** The open directories and files, with the number of the next descriptor. *)
Record drive := mk_drive {
  mounted : bool;
  next : nat;
  open_dirs : Z -> option (list iox_dirent_t);
  open_files : Z -> option (list Z)
}.

Definition update {A} (i : Z) (x : A) (f : Z -> A) : Z -> A := fun j => if j =? i then x else f j.

Definition shown (e : drive) (p : string) : option tree :=
  if mounted e then
    snd <$> List.find (fun x => bool_decide (string_of_bytes x.1 = p)) (nodes root_path games)
  else None.

Definition listed (e : drive) (d : Z) : option (list iox_dirent_t) :=
  if (0 <=? d) && (d <? Z.of_nat (next e)) then open_dirs e d else None.

Definition dirents (cs : list (string * tree)) : list iox_dirent_t :=
  mk_iox_dirent iox_stat_zero "." :: ((fun c => mk_iox_dirent (tree_stat c.2) c.1) <$> cs).

Definition open_dir (l : list iox_dirent_t) (e : drive) : Z * drive :=
  (Z.of_nat (next e),
   mk_drive (mounted e) (S (next e)) (update (Z.of_nat (next e)) (Some l) (open_dirs e)) (open_files e)).

Definition a_volume (dev : string) : option tree :=
  if bool_decide (dev = "hdd0:P"%string) then Some games else None.

#[export] Instance drive_handler : Handler drive := fun A c e =>
  match c in ioE A return A * drive with
  | IomanX_getstat p => match shown e p with Some t => ((0, tree_stat t), e) | None => ((-2, iox_stat_zero), e) end
  | IomanX_open p _ _ =>
      match shown e p with
      | Some (TFile _ content) =>
          (Z.of_nat (next e),
           mk_drive (mounted e) (S (next e)) (open_dirs e)
             (update (Z.of_nat (next e)) (Some content) (open_files e)))
      | _ => (-2, e)
      end
  | IomanX_read fd n =>
      match open_files e fd with
      | Some rest =>
          ((Z.of_nat (length (take (Z.to_nat n) rest)), take (Z.to_nat n) rest),
           mk_drive (mounted e) (next e) (open_dirs e) (update fd (Some (drop (Z.to_nat n) rest)) (open_files e)))
      | None => ((-9, []), e)
      end
  | IomanX_readlink p _ => match shown e p with Some (TLink _ target) => ((0, target), e) | _ => ((-2, []), e) end
  | IomanX_dopen p =>
      match shown e p with
      | Some (TDir _ cs) => open_dir (dirents cs) e
      | _ => if bool_decide (p = "hdd0:"%string) then open_dir listing e else (-2, e)
      end
  | IomanX_dread d =>
      match listed e d with
      | Some (de :: l) => ((1, de), mk_drive (mounted e) (next e) (update d (Some l) (open_dirs e)) (open_files e))
      | _ => ((0, mk_iox_dirent iox_stat_zero ""), e)
      end
  | IomanX_close d => (0, mk_drive (mounted e) (next e) (update d None (open_dirs e)) (open_files e))
  | IomanX_mount _ dev _ _ _ =>
      match a_volume dev with
      | Some _ => (0, mk_drive true (next e) (open_dirs e) (open_files e))
      | None => (-19, e)
      end
  | IomanX_umount _ => (0, mk_drive false (next e) (open_dirs e) (open_files e))
  | Host_fopen _ mode => (bool_decide (mode = "wb"%string), e)
  | c => (default_answer c, e)
  end.

#[export] Instance drive_files : FileReads drive.
Proof.
  refine {| unread := open_files |}. intros e fd n rest Hn Hr. cbn. rewrite Hr. eexists. split; [done|].
  cbn. unfold update. by rewrite Z.eqb_refl.
Defined.

Lemma shown_in e p t : shown e p = Some t -> exists path, (path, t) ∈ nodes root_path games.
Proof.
  unfold shown. destruct (mounted e); [|done].
  destruct (List.find _ _) as [[path t']|] eqn:Hf; [|done]. intros [= <-]. exists path.
  apply list_elem_of_In. by apply List.find_some in Hf as [Hin _].
Qed.

Lemma listed_dirents e p st cs : shown e p = Some (TDir st cs) -> lists (dirents cs) cs.
Proof.
  intros (path & Hin)%shown_in.
  assert (Hall : Forall (fun x => match x.2 with TDir _ cs => lists (dirents cs) cs | _ => True end)
                   (nodes root_path games)).
  { repeat first [apply Forall_nil_2 | apply Forall_cons_2]; try done; (split; [done|cbn; lia]). }
  exact (proj1 (Forall_forall _ _) Hall _ Hin).
Qed.

Lemma listed_range e d l : listed e d = Some l -> 0 <= d < Z.of_nat (next e) /\ open_dirs e d = Some l.
Proof. unfold listed. destruct (_ && _) eqn:Hr; [|done]. boolP. done. Qed.

Lemma listed_at mo n ds fs d :
  0 <= d < Z.of_nat n -> listed (mk_drive mo n ds fs) d = ds d.
Proof. intros Hd. unfold listed. cbn. by rewrite (proj2 (Z.leb_le 0 d)), (proj2 (Z.ltb_lt _ _)) by lia. Qed.

Lemma listed_next e : listed e (Z.of_nat (next e)) = None.
Proof. unfold listed. by rewrite Z.ltb_irrefl, andb_false_r. Qed.

Lemma listed_negative e d : d < 0 -> listed e d = None.
Proof. intros Hd. unfold listed. by rewrite (proj2 (Z.leb_gt 0 d)) by lia. Qed.

Lemma update_same {A} i (x : A) f : update i x f i = x.
Proof. unfold update. by rewrite Z.eqb_refl. Qed.

Lemma update_other {A} i j (x : A) f : j <> i -> update i x f j = f j.
Proof. intros Hij. unfold update. by rewrite (proj2 (Z.eqb_neq j i)). Qed.

(** Looking keeps what is mounted, and the directories that are not moved on. *)
Definition same_view (moved : Z -> bool) (e e' : drive) : Prop :=
  mounted e' = mounted e /\
  forall d l, moved d = false -> listed e d = Some l -> listed e' d = Some l.

Lemma same_view_refl moved e : same_view moved e e.
Proof. done. Qed.

Lemma same_view_mk moved e n ds fs :
  (next e <= n)%nat ->
  (forall d, 0 <= d < Z.of_nat (next e) -> moved d = false -> ds d = open_dirs e d) ->
  same_view moved e (mk_drive (mounted e) n ds fs).
Proof.
  intros Hn Hds. split; [done|]. intros d l Hm [Hd Hl]%listed_range. rewrite listed_at by lia.
  by rewrite Hds.
Qed.

Lemma update_next e {A} (x : A) f d : 0 <= d < Z.of_nat (next e) -> update (Z.of_nat (next e)) x f d = f d.
Proof. intros Hd. apply update_other. lia. Qed.

Lemma update_moved {A} d (x : A) f d' : (d =? d') = false -> update d x f d' = f d'.
Proof. intros Hd%Z.eqb_neq. by apply update_other. Qed.

Lemma looks_drive A (c : ioE A) e r e' :
  looks c = true -> handle c e = (r, e') -> same_view (fun d => moves d c) e e'.
Proof.
  intros Hc He. destruct c; try discriminate Hc; unfold handle, drive_handler in He.
  - destruct (shown e name) as [[]|]; injection He as <- <-; try apply same_view_refl.
    by apply same_view_mk; [lia|].
  - injection He as <- <-. apply same_view_mk; [lia|]. intros d _. apply update_moved.
  - destruct (open_files e fd); injection He as <- <-; [|apply same_view_refl]. by apply same_view_mk.
  - assert (Hopen : forall l, same_view (fun d => moves d (IomanX_dopen name)) e (open_dir l e).2).
    { intros l. apply same_view_mk; [lia|]. intros d Hd _. by apply update_next. }
    pose proof (f_equal snd He) as He'. cbn in He'. subst e'.
    destruct (shown e name) as [[]|]; try apply Hopen; case_bool_decide; try apply Hopen; apply same_view_refl.
  - destruct (listed e fd) as [[|de l]|]; injection He as <- <-; try apply same_view_refl.
    apply same_view_mk; [lia|]. intros d _. apply update_moved.
  - destruct (shown e name); injection He as <- <-; apply same_view_refl.
  - destruct (shown e path) as [[]|]; injection He as <- <-; apply same_view_refl.
  - injection He as <- <-. apply same_view_refl.
Qed.

#[export] Instance drive_trees : TreeReads drive.
Proof.
  refine {| tree_at := shown; unlisted := listed |}.
  - intros e p t Hp. cbn. rewrite Hp. by eexists _, _.
  - intros e p st content Hp. cbn. rewrite Hp. eexists _, _. split_and!; [done|lia|]. apply update_same.
  - intros e p st target n Hp _. cbn. rewrite Hp. by eexists _, _.
  - intros e p st cs Hp. cbn. rewrite Hp. eexists _, _, _. split_and!; [done|lia| |by eapply listed_dirents].
    rewrite listed_at by lia. apply update_same.
  - intros e d de l Hl. cbn. rewrite Hl. eexists _, _. split_and!; [done|lia|].
    apply listed_range in Hl as [Hd _]. rewrite listed_at by done. apply update_same.
  - intros e d Hl. cbn. rewrite Hl. by eexists _, _.
  - intros e p f e' He. cbn in He. destruct (shown e p) as [[]|]; injection He as <- _;
      try by apply listed_negative. apply listed_next.
  - intros e p d e' He. cbn in He.
    destruct (shown e p) as [[]|]; try case_bool_decide; injection He as <- _;
      try (by apply listed_negative); apply listed_next.
  - apply listed_negative.
  - intros A c e r e' Hc He p. destruct (looks_drive A c e r e' Hc He) as [Hm _]. unfold shown. by rewrite Hm.
  - intros A c e r e' d l Hc He Hm. apply (proj2 (looks_drive A c e r e' Hc He)). done.
Defined.

#[export] Instance drive_parts : DriveReads drive.
Proof.
  refine {| parts := fun _ => listing; volume := fun _ => a_volume |}.
  - intros e. cbn.
    assert (Hno : shown e "hdd0:" = None) by (unfold shown; by destruct (mounted e)). rewrite Hno.
    eexists _, _. split_and!; [done|lia|]. rewrite listed_at by lia. apply update_same.
  - intros e dev r e' He. cbn in He. unfold a_volume in *. case_bool_decide; injection He as <- <-; [|done].
    split; [lia|]. repeat first [apply Forall_nil_2 | apply Forall_cons_2]; reflexivity.
  - done.
  - intros A c e r e' d l Hc He Hl. destruct c; try discriminate Hc; cbn in He.
    + destruct (a_volume _); injection He as <- <-; [|done]. apply listed_range in Hl as [Hd Hl].
      by rewrite listed_at.
    + injection He as <- <-. apply listed_range in Hl as [Hd Hl]. by rewrite listed_at.
Defined.

Definition ready : drive := mk_drive false 1 (fun _ => None) (fun _ => None).

Lemma games_ok : Forall (part_ok a_volume 60) (List.filter (wanted None) listing).
Proof.
  change (List.filter (wanted None) listing) with [mk_iox_dirent part_stat "P"; mk_iox_dirent part_stat "Q"].
  constructor; [|constructor; [exact I|constructor]]. split; [cbn; lia|].
  repeat first [apply Forall_nil_2 | apply Forall_cons_2].
  all: split_and!; try (by vm_compute; lia); repeat constructor; try done; vm_compute; lia.
Qed.

#[export] Instance drive_hosted name : Hosted drive shows_same name "wb".
Proof.
  split.
  - split; [done|]. intros e1 e2 e3 [Hv1 Hp1] [Hv2 Hp2]. split; [intros dev; by rewrite Hv2|by rewrite Hp2].
  - intros e path fd e' [= <- _]. done.
  - intros e fd r e' [= <- _]. done.
  - intros e m args r e' [= <- _]. done.
  - intros e r e' [= <- _]. done.
  - done.
Defined.

(** A drive that stores what it is told to. *)
Record store := mk_store {
  disks : string -> string -> option kept;
  current : option string;
  lists_open : Z -> option (list iox_dirent_t);
  writers : Z -> option string;
  next_fd : nat
}.

Definition at_path (e : store) (p : string) : option kept :=
  match current e with Some dev => disks e dev p | None => None end.

Definition pending (e : store) (d : Z) : option (list iox_dirent_t) :=
  if (0 <=? d) && (d <? Z.of_nat (next_fd e)) then lists_open e d else None.

Definition set_at {A} (p : string) (x : A) (f : string -> A) : string -> A :=
  fun q => if bool_decide (q = p) then x else f q.

Lemma set_at_same {A} p (x : A) f : set_at p x f p = x.
Proof. unfold set_at. by rewrite bool_decide_eq_true_2. Qed.

Lemma set_at_other {A} p (x : A) f q : q <> p -> set_at p x f q = f q.
Proof. intros Hq. unfold set_at. by rewrite bool_decide_eq_false_2. Qed.

(** On the mounted partition. *)
Definition keep_at (p : string) (k : kept) (e : store) : store :=
  match current e with
  | Some dev => mk_store (set_at dev (set_at p (Some k) (disks e dev)) (disks e)) (current e) (lists_open e) (writers e) (next_fd e)
  | None => e
  end.

(** Makes an entry where there is none. *)
Definition make (p : string) (x : kept) (e : store) : Z * store :=
  match at_path e p with Some _ => (-17, e) | None => (0, keep_at p x e) end.

Definition change (p : string) (f : kept -> kept) (e : store) : Z * store :=
  match at_path e p with Some k => (0, keep_at p (f k) e) | None => (-2, e) end.

Definition no_time : list Z := replicate 8 0.

Definition set_fd (w : Z -> option string) (n : nat) (e : store) : store :=
  mk_store (disks e) (current e) (lists_open e) w n.

#[export] Instance store_handler : Handler store := fun A c e =>
  match c in ioE A return A * store with
  | IomanX_open p _ _ =>
      (Z.of_nat (next_fd e),
       set_fd (update (Z.of_nat (next_fd e)) (Some p) (writers e)) (S (next_fd e)) (keep_at p (KFile [] 0x1B6 no_time) e))
  | IomanX_write fd b n =>
      match writers e fd with
      | Some p =>
          match at_path e p with
          | Some (KFile content perm _) => (n, keep_at p (KFile (content ++ b) perm [1]) e)
          | _ => (-9, e)
          end
      | None => (-9, e)
      end
  | IomanX_mkdir p _ => make p (KDir 0x1FF) e
  | IomanX_symlink target p => make p (KLink (bytes_of_string target)) e
  | IomanX_chstat p st mask =>
      if mask =? FIO_CST_MODE then change p (with_mode (st_mode st) no_time) e else change p (with_time (st_mtime st)) e
  | IomanX_getstat p => ((if at_path e p is Some _ then 0 else -2, iox_stat_zero), e)
  | IomanX_dopen _ =>
      (Z.of_nat (next_fd e),
       mk_store (disks e) (current e) (update (Z.of_nat (next_fd e)) (Some listing) (lists_open e)) (writers e) (S (next_fd e)))
  | IomanX_dread d =>
      match pending e d with
      | Some (de :: l) => ((1, de), mk_store (disks e) (current e) (update d (Some l) (lists_open e)) (writers e) (next_fd e))
      | _ => ((0, mk_iox_dirent iox_stat_zero ""), e)
      end
  | IomanX_close d => (0, mk_store (disks e) (current e) (update d None (lists_open e)) (writers e) (next_fd e))
  | IomanX_mount _ dev _ _ _ => (0, mk_store (disks e) (Some dev) (lists_open e) (writers e) (next_fd e))
  | IomanX_umount _ => (0, mk_store (disks e) None (lists_open e) (writers e) (next_fd e))
  | c => (default_answer c, e)
  end.

Lemma at_keep p k e q : is_Some (current e) -> at_path (keep_at p k e) q = if bool_decide (q = p) then Some k else at_path e q.
Proof.
  intros [dev Hdev]. unfold at_path, keep_at. rewrite Hdev. cbn. by rewrite set_at_same.
Qed.

Lemma at_keep_same p k e : is_Some (current e) -> at_path (keep_at p k e) p = Some k.
Proof. intros He. by rewrite at_keep, bool_decide_eq_true_2. Qed.

Lemma at_keep_other p k e q : q <> p -> at_path (keep_at p k e) q = at_path e q.
Proof.
  intros Hq. destruct (current e) eqn:He; [|unfold at_path, keep_at; by rewrite !He].
  by rewrite at_keep, bool_decide_eq_false_2.
Qed.

Lemma at_path_mounted e p : is_Some (at_path e p) -> is_Some (current e).
Proof. unfold at_path. destruct (current e); [by eexists|by intros []]. Qed.

Lemma set_fd_at w n e q : at_path (set_fd w n e) q = at_path e q.
Proof. done. Qed.

#[export] Instance store_stores : FileStore store.
Proof.
  refine {| stored := at_path; writes_to := writers |}.
  - intros e path name Hdir _. apply a_dir_some, at_path_mounted in Hdir. eexists _, _, _, _.
    split_and!; [reflexivity|lia|apply update_same|rewrite set_fd_at; by apply at_keep_same|].
    intros q Hq. rewrite set_fd_at. by apply at_keep_other.
  - intros e fd p content perm t b Hw Hp. cbn. rewrite Hw, Hp. eexists _, _, _.
    assert (He : is_Some (current e)) by (eapply at_path_mounted; by eexists).
    split_and!; [reflexivity| |by apply at_keep_same|].
    + unfold keep_at. by destruct (current e).
    + intros q. apply at_keep_other.
  - intros e path name mode Hdir%a_dir_some%at_path_mounted Hnone. cbn. unfold make. rewrite Hnone.
    eexists _, _, _. split_and!; [reflexivity|by apply at_keep_same|]. intros q. apply at_keep_other.
  - intros e p mode r e' [x Hx] He q. cbn in He. unfold make in He. rewrite Hx in He. by injection He as _ <-.
  - intros e path name target Hdir%a_dir_some%at_path_mounted Hnone. cbn. unfold make. rewrite Hnone.
    eexists _, _. split_and!; [reflexivity|lia|by apply at_keep_same|]. intros q. apply at_keep_other.
  - intros e p k st r e' Hp _ He. cbn in He. unfold change in He. rewrite Hp in He. injection He as _ <-.
    assert (He : is_Some (current e)) by (eapply at_path_mounted; by eexists).
    split; [exists no_time; by apply at_keep_same|]. intros q. apply at_keep_other.
  - intros e p k st r e' Hp _ He. cbn in He. unfold change in He. rewrite Hp in He. injection He as _ <-.
    assert (He : is_Some (current e)) by (eapply at_path_mounted; by eexists).
    split; [by apply at_keep_same|]. intros q. apply at_keep_other.
  - intros e p r e' Hnone He. cbn in He. rewrite Hnone in He. by injection He as <- _.
  - intros A c e r e' Hc He q. destruct c; try discriminate Hc; cbn in He; by injection He as _ <-.
Defined.

(** What a call leaves of the drive: [moved] are the listings it may move on. *)
Definition same_drive (moved : Z -> bool) (e e' : store) : Prop :=
  current e' = current e /\
  (forall dev q, current e <> Some dev -> disks e' dev q = disks e dev q) /\
  forall d l, moved d = false -> pending e d = Some l -> pending e' d = Some l.

Lemma same_drive_keep moved p k e : same_drive moved e (keep_at p k e).
Proof.
  unfold same_drive, keep_at. destruct (current e) as [dev|] eqn:He; [|done]. split_and!; [done| |done].
  intros d q Hd. cbn. rewrite set_at_other; [done|]. congruence.
Qed.

Lemma pending_range e d l : pending e d = Some l -> 0 <= d < Z.of_nat (next_fd e) /\ lists_open e d = Some l.
Proof. unfold pending. destruct (_ && _) eqn:Hr; [|done]. boolP. done. Qed.

Lemma pending_at ds cu ls w n d : 0 <= d < Z.of_nat n -> pending (mk_store ds cu ls w n) d = ls d.
Proof. intros Hd. unfold pending. cbn. by rewrite (proj2 (Z.leb_le 0 d)), (proj2 (Z.ltb_lt _ _)) by lia. Qed.

(** Later descriptors, other listings. *)
Lemma same_drive_lists moved ds e ls w n :
  (next_fd e <= n)%nat -> (forall dev q, current e <> Some dev -> ds dev q = disks e dev q) ->
  (forall d, 0 <= d < Z.of_nat (next_fd e) -> moved d = false -> ls d = lists_open e d) ->
  same_drive moved e (mk_store ds (current e) ls w n).
Proof.
  intros Hn Hds Hls. split_and!; [done|done|]. intros d l Hm [Hd Hl]%pending_range. rewrite pending_at by lia.
  by rewrite Hls.
Qed.

Lemma same_drive_open moved p k e w n :
  (next_fd e <= n)%nat -> same_drive moved e (set_fd w n (keep_at p k e)).
Proof.
  intros Hn. unfold set_fd, keep_at. destruct (current e) as [dev|] eqn:He; cbn.
  - rewrite <- He. apply same_drive_lists; [done| |done]. intros d q Hd. rewrite set_at_other; [done|]. congruence.
  - by apply same_drive_lists.
Qed.

Lemma same_drive_make moved p k e : same_drive moved e (make p k e).2.
Proof. unfold make. destruct (at_path e p); [done|]. apply same_drive_keep. Qed.

Lemma same_drive_change moved p f e : same_drive moved e (change p f e).2.
Proof. unfold change. destruct (at_path e p); [|done]. apply same_drive_keep. Qed.

Lemma update_fresh e {A} (x : A) f d : 0 <= d < Z.of_nat (next_fd e) -> update (Z.of_nat (next_fd e)) x f d = f d.
Proof. intros Hd. apply update_other. lia. Qed.

Lemma fills_store A (c : ioE A) e r e' :
  fills c = true -> handle c e = (r, e') -> same_drive (fun d => moves d c) e e'.
Proof.
  intros Hc He. apply (f_equal snd) in He. cbn in He. subst e'. destruct c; try discriminate Hc; cbn [handle store_handler].
  - by apply same_drive_open; lia.
  - destruct (writers e fd); [|done]. destruct (at_path e s) as [[]|]; try done. apply same_drive_keep.
  - apply same_drive_make.
  - case_match; apply same_drive_change.
  - apply same_drive_make.
Qed.

Lemma keeps_store A (c : ioE A) e r e' :
  part_call c = true -> fills c = false -> mounts_or_not c = false -> handle c e = (r, e') ->
  same_drive (fun d => moves d c) e e' /\ disks e' = disks e.
Proof.
  intros Hp Hf Hm He. apply (f_equal snd) in He. cbn in He. subst e'.
  unfold part_call, fills_or_not in Hp. rewrite Hf, Hm in Hp. cbn [orb] in Hp.
  destruct c; try discriminate Hp; cbn [handle store_handler]; try done.
  - split; [|done]. apply same_drive_lists; [done|done|]. intros d _ Hd. by apply update_moved.
  - split; [|done]. apply same_drive_lists; [cbn; lia|done|]. intros d Hd _. by apply update_fresh.
  - destruct (pending e fd) as [[|de l]|]; try done. split; [|done].
    apply same_drive_lists; [done|done|]. intros d _ Hd. by apply update_moved.
Qed.

#[export] Instance store_drive : DriveStore store.
Proof.
  refine {| targets := fun _ => listing; still_listed := pending; mountable := fun _ _ => true;
            on_volume := disks; mounted_on := current |}.
  - intros e dev q Hdev. cbn. unfold at_path. by rewrite Hdev.
  - intros e. eexists _, _. split_and!; [reflexivity|lia|]. rewrite pending_at by lia. apply update_same.
  - intros e d de l Hl. cbn. rewrite Hl. eexists _, _. split_and!; [done|lia|].
    apply pending_range in Hl as [Hd _]. rewrite pending_at by done. apply update_same.
  - intros e d Hl. cbn. rewrite Hl. by eexists _, _.
  - intros e p flags mode fd e' [= <- _]. unfold pending. by rewrite Z.ltb_irrefl, andb_false_r.
  - intros e dev r e' _ [= <- <-]. done.
  - intros e r e' [= _ <-]. done.
  - intros A c e r e' Hp He. split; [done|]. destruct (mounts_or_not c) eqn:Hm.
    { destruct c; try discriminate Hm; cbn in He; by injection He as _ <-. }
    destruct (fills c) eqn:Hf.
    + destruct (fills_store A c e r e' Hf He) as (Hc & Hd & _). split; [done|]. intros dev q [|Hne]; [done|by apply Hd].
    + destruct (keeps_store A c e r e' Hp Hf Hm He) as [(Hc & _) Hd]. split; [done|]. intros dev q _. by rewrite Hd.
  - done.
  - intros A c e r e' d l Hp Hmv He Hl. destruct (mounts_or_not c) eqn:Hm.
    { destruct c; try discriminate Hm; cbn in He; by injection He as _ <-. }
    destruct (fills c) eqn:Hf; [by apply (fills_store A c e r e' Hf He)|by apply (keeps_store A c e r e' Hp Hf Hm He)].
Defined.

#[export] Instance store_hosted name : Hosted store holds_same name "rb".
Proof.
  split.
  - split; [done|]. intros e1 e2 e3 (Ho1 & Ht1 & Hm1 & Hv1) (Ho2 & Ht2 & Hm2 & Hv2).
    split_and!; [by rewrite Ho2|done|done|]. intros dev q. by rewrite Hv2.
  - intros e path fd e' [= <- _]. done.
  - intros e fd r e' [= <- _]. done.
  - intros e m args r e' [= <- _]. done.
  - intros e r e' [= <- _]. done.
  - intros A c e r e' Hc He. destruct c; try discriminate Hc; cbn in He; by injection He as _ <-.
Defined.

(** Two partitions with nothing but their roots. *)
Definition empty_store : store :=
  mk_store (fun _ p => if bool_decide (p = str root_path) then Some (KDir 0x1FF) else None)
    None (fun _ => None) (fun _ => None) 3.

Lemma sample_time_ok mode size : time_ok (st_mtime (sample_stat mode size)).
Proof.
  split; [|by vm_compute]. unfold iox_time_ok. split_and!; [done| |done|].
  - repeat constructor; done.
  - vm_compute. intuition congruence.
Qed.

Lemma games_sound : part_sound games.
Proof.
  split; [done|]. split.
  - repeat first [apply Forall_nil_2 | apply Forall_cons_2].
    all: split_and!; try (vm_compute; lia).
    all: try (repeat constructor; vm_compute; (lia || done)).
    all: cbn [snd]; try apply sample_time_ok.
    all: repeat (apply Forall_cons_2; [split; [refine (bool_decide_unpack _ _); by vm_compute|done]|]);
      apply Forall_nil_2.
  - refine (bool_decide_unpack _ _). by vm_compute.
Qed.

Lemma listing_names :
  Forall (fun de => name_ok (de_name de)) (List.filter (wanted None) listing) /\
  NoDup (de_name <$> List.filter (wanted None) listing).
Proof.
  change (List.filter (wanted None) listing) with [mk_iox_dirent part_stat "P"; mk_iox_dirent part_stat "Q"].
  split.
  - repeat (apply Forall_cons_2; [split; [cbn; lia|refine (bool_decide_unpack _ _); by vm_compute]|]).
    apply Forall_nil_2.
  - refine (bool_decide_unpack _ _). by vm_compute.
Qed.

(** The two runs. *)
Definition backup_args : list string := ["pfs2tar"; "--backup"; "hdd.img"; "hdd.tar"]%string.
Definition restore_args : list string := ["pfs2tar"; "--restore"; "new.img"; "--partition"; "P"; "hdd.tar"]%string.
Definition backup_run := tar_program 60 backup_args (mk_tar_main (mk_tar [] 0 false) atad_initial) ready.
Definition restore_run :=
  tar_program 5000 restore_args
    (mk_tar_main (mk_tar (tarfile_data (tm_tar (o_st backup_run))) 0 false) atad_initial) empty_store.

Lemma empty_ready :
  ready_for (volume ready) (List.filter (wanted None) listing) (Some "P"%string)
    (mountable empty_store) (on_volume empty_store) (targets empty_store).
Proof.
  unfold ready_for. change (chosen _ _ _) with [mk_iox_dirent part_stat "P"]. constructor; [|constructor].
  split; [split; [cbn; lia|refine (bool_decide_unpack _ _); by vm_compute]|].
  change (source _ _ _) with (Some games). split_and!; [exact games_sound|exact I|].
  apply Forall_forall. intros q Hq. cbn [on_volume store_drive disks empty_store].
  rewrite bool_decide_eq_false_2; [done|]. intros ->. revert Hq. refine (bool_decide_unpack _ _). by vm_compute.
Qed.

Lemma pfs2tar_round_trip_witness :
  o_res backup_run = Ret 0 /\ o_res restore_run = Ret 0 /\
  on_volume (o_env restore_run) "hdd0:P" "pfs0:/a" =
    Some (KFile (bytes_of_string "hello") 0x1B4 [0; 59; 59; 23; 29; 2; 208; 7]) /\
  on_volume (o_env restore_run) "hdd0:P" "pfs0:/d" = Some (KDir 0x1ED) /\
  on_volume (o_env restore_run) "hdd0:P" "pfs0:/d/l" = Some (KLink (bytes_of_string "a/b")) /\
  on_volume (o_env restore_run) "hdd0:Q" "pfs0:/a" = None.
Proof.
  destruct (pfs2tar_round_trip (E := drive) (E' := store) "hdd.tar" 60 5000 backup_args restore_args None (Some "P"%string)
              (mk_tar_main (mk_tar [] 0 false) atad_initial) ready ready
              eq_refl ltac:(cbn; lia) eq_refl eq_refl ltac:(cbn; lia) eq_refl eq_refl
              ltac:(exact games_ok) ltac:(cbn; lia) ltac:(exact (proj1 listing_names)) ltac:(exact (proj2 listing_names)))
    as (Hb & _ & Hrestore).
  destruct (Hrestore (mk_tar_main (mk_tar (tarfile_data (tm_tar (o_st backup_run))) 0 false) atad_initial) empty_store
              eq_refl eq_refl ltac:(exact empty_ready) ltac:(refine (bool_decide_unpack _ _); by vm_compute))
    as (Hr & Hf & Ho).
  - replace (length _) with 4096%nat by (vm_compute; reflexivity). lia.
  - cbn; lia.
  - split; [exact Hb|]. split; [exact Hr|]. change (chosen _ _ _) with [mk_iox_dirent part_stat "P"] in Hf, Ho.
    apply Forall_cons in Hf as [Hp _]. change (source _ _ _) with (Some games) in Hp. destruct Hp as [Hp _].
    assert (Hin : forall p x, (p, x) ∈ tail (nodes root_path games) ->
                    on_volume (o_env restore_run) "hdd0:P" (str p) = Some (kept_of x)).
    { intros p x Hx. exact (proj1 (Forall_forall _ _) Hp (p, x) Hx). }
    split_and!.
    + apply (Hin (bytes_of_string "pfs0:/a") (TFile (sample_stat 0x21B4 5) (bytes_of_string "hello"))).
      apply list_elem_of_In. vm_compute. tauto.
    + apply (Hin (bytes_of_string "pfs0:/d") (TDir (sample_stat 0x11ED 0) [("l", TLink (sample_stat 0x41FF 0) (bytes_of_string "a/b"))]%string)).
      apply list_elem_of_In. vm_compute. tauto.
    + apply (Hin (bytes_of_string "pfs0:/d/l") (TLink (sample_stat 0x41FF 0) (bytes_of_string "a/b"))).
      apply list_elem_of_In. vm_compute. tauto.
    + apply (Ho "hdd0:Q"%string). refine (bool_decide_unpack _ _). by vm_compute.
Defined.
End SampleDrive.
